(** * dLib TDF timeline engine: a shallow embedding and its verified properties

    The development follows the layout of the Python sources:

    - [Py]            : the fragment of Python semantics the code relies on
                        (numbers, exceptions, list indexing, dict lookup);
    - [TimeFunctions] : tdfTimeFunctions.py (CTimeSeries and the sliding-window
                        function objects with their factory);
    - [Query]         : TDFFileReader.GetNamedValueFromTimeline and
                        TDFFileReader.CheckIfCurrentTimeMeetsCriteria;
    - [Compile]       : the second forward sweep, the reverse pass and the
                        lab-node part of TDFFileReader.CompileTimelineImpl;
    - [Partition]     : TDFFileReader.FindAllTimelinesInPartition and
                        CreateFilePartitionList.

    Numbers.  A Python number is modelled by the rational [Q] it denotes;
    Python's [==] on numbers is [Qeq_bool], so every statement about a
    numeric result is stated up to [Qeq] (written [==]).  An arithmetic
    expression that is evaluated once is written as it stands in the source.
    Where a float is carried from call to call (the running totals of CSum,
    CRunningAvgValue and CBollingerValue), every operation on it is rounded
    as binary64 arithmetic rounds it ([Py.binary64]), because there the
    rounding errors add up.  Day numbers and list indices are Python ints and
    are modelled by [Z]. *)

From Stdlib Require Import QArith ZArith List String Ascii Bool Lia.
From Stdlib.Strings Require Import Byte.
From Stdlib Require Import Qround Qabs Qpower Lqa Sorted.
From Stdlib Require Import DecimalString DecimalZ.
From stdpp Require Import base option list gmap strings.

Local Open Scope Z_scope.

(** ** Python basics *)
Module Py.

(** The exceptions that the modelled code can raise.  [OutsideModel] is not
    a Python exception: it marks a run that leaves the modelled fragment
    (a branch or a value the model does not cover), so that a statement about
    a returned value or about a Python exception is never about such a run. *)
Inductive exn : Type :=
| KeyError (key : string)
| IndexError
| AttributeError (attr : string)
| TypeError
| UnboundLocalError (var : string)
| OutsideModel (what : string).

(** The outcome of running a piece of Python: a value or a raised exception. *)
Inductive result (A : Type) : Type :=
| Ok (a : A)
| Raise (e : exn).
Arguments Ok {A} a.
Arguments Raise {A} e.

#[global] Instance result_ret : MRet result := fun A a => Ok a.
#[global] Instance result_bind : MBind result := fun A B k r =>
  match r with
  | Ok a => k a
  | Raise e => Raise e
  end.

#[global] Instance result_fmap : FMap result := fun A B f r =>
  match r with
  | Ok a => Ok (f a)
  | Raise e => Raise e
  end.

Definition is_ok {A} (r : result A) : bool :=
  match r with Ok _ => true | Raise _ => false end.

(** Numeric comparisons on Python numbers. *)
Definition Qltb (x y : Q) : bool := negb (Qle_bool y x).
Definition Qgtb (x y : Q) : bool := Qltb y x.
Definition Qgeb (x y : Q) : bool := Qle_bool y x.

(** [float(x)] and mixed int/float arithmetic are the identity on [Q];
    [int(x)] truncates towards zero. *)
Definition py_int (x : Q) : Z := Z.quot (Qnum x) (Z.pos (Qden x)).

(** [lst[i]]: negative indices count from the end, anything outside
    [-len, len) raises IndexError. *)
Definition py_index {A} (l : list A) (i : Z) : result A :=
  let n := Z.of_nat (length l) in
  let j := if i <? 0 then i + n else i in
  if (j <? 0) || (n <=? j) then Raise IndexError
  else match l !! Z.to_nat j with
       | Some a => Ok a
       | None => Raise IndexError
       end.

(** [d[k]] on a dict. *)
Definition py_getitem {V} (d : gmap string V) (k : string) : result V :=
  match d !! k with
  | Some x => Ok x
  | None => Raise (KeyError k)
  end.

(** The idiom [try: x = d[k] except Exception: x = dflt]. *)
Definition py_get_or {V} (d : gmap string V) (k : string) (dflt : V) : V :=
  match py_getitem d k with
  | Ok x => x
  | Raise _ => dflt
  end.

(** [round(x, 2)] for a decimal read exactly: ties go to the even digit. *)
Definition round_half_even (x : Q) : Z :=
  let f := Qfloor x in
  let r := (x - inject_Z f)%Q in
  match Qcompare r (1 # 2) with
  | Lt => f
  | Gt => f + 1
  | Eq => if Z.even f then f else f + 1
  end.

Definition py_round2 (x : Q) : Q := (inject_Z (round_half_even (x * 100)) / 100)%Q.

(** Python floats are IEEE 754 binary64 numbers: a significand of 53 bits
    and, for the smallest numbers, a fixed last place of 2^-1074.
    [float_exponent x] is the exponent of the last place of the floats around
    [x]: with [2^e <= |x| < 2^(e+1)] it is [e - 52], and not less than
    -1074. *)
Definition float_exponent (x : Q) : Z :=
  let x := Qred x in
  let e0 := Z.log2 (Z.abs (Qnum x)) - Z.log2 (Z.pos (Qden x)) in
  let e := if Qle_bool (2 ^ e0) (Qabs x) then e0 else e0 - 1 in
  Z.max (e - 52) (-1074).

(** The float nearest to [x], ties going to the even significand: what a
    float addition, subtraction, multiplication or division returns for the
    exact result [x], and what a decimal literal denotes.  Results beyond the
    largest float, where Python gives [inf], are outside the model. *)
Definition binary64 (x : Q) : Q :=
  let q := float_exponent x in
  Qred (inject_Z (round_half_even (Qred x / 2 ^ q)) * 2 ^ q).

(** [x] is a whole number. *)
Definition is_integer (x : Q) : bool := Qeq_bool x (inject_Z (Qfloor x)).

End Py.
Import Py.

(** Constants of tdfTools.py. *)
Definition TDF_INVALID_VALUE : Q := (-314159) # 1.
Definition TDF_SMALLEST_VALID_VALUE : Q := (-1000) # 1.

Definition TDF_DATA_TYPE_INT : Z := 0.
Definition TDF_DATA_TYPE_FLOAT : Z := 1.
Definition TDF_DATA_TYPE_BOOL : Z := 2.
Definition TDF_DATA_TYPE_FUTURE_EVENT_CLASS : Z := 3.
Definition TDF_DATA_TYPE_STRING_LIST : Z := 4.
Definition TDF_DATA_TYPE_UNKNOWN : Z := -1.

Definition VARIABLE_RANGE_SIMPLE : Z := -1.
Definition VARIABLE_RANGE_LAST_MATCH : Z := 1.

(** [x == TDF_INVALID_VALUE] *)
Definition is_INVALID (x : Q) : bool := Qeq_bool x TDF_INVALID_VALUE.

(** ** tdfTimeFunctions.py *)
Module TimeFunctions.

(** A queue entry [{'v': value, 'd': dayNum, 'm': timeMin}]. *)
Record Entry : Type := mkEntry { e_v : Q; e_d : Z; e_m : Z }.

(** CAccelerationValue stores [{'v':, 'd':, 'm':, 'r': newRate}]. *)
Record RateEntry : Type := mkRateEntry { r_v : Q; r_d : Z; r_m : Z; r_r : Q }.

(** The pruning loop shared by the window classes:
[[
    while (len(self.ValueQueue) > 0):
        if ((dayNum - self.ValueQueue[0]['d']) > self.MaxDaysInQueue):
            self.ValueQueue.popleft()
        else:
            break
]] *)
Fixpoint prune (MaxDaysInQueue dayNum : Z) (queue : list Entry) : list Entry :=
  match queue with
  | [] => []
  | e :: queue' =>
      if MaxDaysInQueue <? dayNum - e_d e
      then prune MaxDaysInQueue dayNum queue'
      else queue
  end.

Fixpoint prune_rate (MaxDaysInQueue dayNum : Z) (queue : list RateEntry)
  : list RateEntry :=
  match queue with
  | [] => []
  | e :: queue' =>
      if MaxDaysInQueue <? dayNum - r_d e
      then prune_rate MaxDaysInQueue dayNum queue'
      else queue
  end.

(** The pruning loop of CSum, CRunningAvgValue and CBollingerValue, which
    also subtracts each popped value from [self.TotalValue], a float
    subtraction. *)
Fixpoint prune_total (MaxDaysInQueue dayNum : Z) (queue : list Entry)
    (TotalValue : Q) : list Entry * Q :=
  match queue with
  | [] => ([], TotalValue)
  | e :: queue' =>
      if MaxDaysInQueue <? dayNum - e_d e
      then prune_total MaxDaysInQueue dayNum queue' (binary64 (TotalValue - e_v e))
      else (queue, TotalValue)
  end.

(** The pruning loop of CRangeValue and CThresholdValue: popping a value
    equal to the tracked minimum or maximum invalidates both. *)
Fixpoint prune_minmax (MaxDaysInQueue dayNum : Z) (queue : list Entry)
    (MinValue MaxValue : Q) : list Entry * Q * Q :=
  match queue with
  | [] => ([], MinValue, MaxValue)
  | e :: queue' =>
      if MaxDaysInQueue <? dayNum - e_d e
      then
        if Qeq_bool MinValue (e_v e) || Qeq_bool MaxValue (e_v e)
        then prune_minmax MaxDaysInQueue dayNum queue'
               TDF_INVALID_VALUE TDF_INVALID_VALUE
        else prune_minmax MaxDaysInQueue dayNum queue' MinValue MaxValue
      else (queue, MinValue, MaxValue)
  end.

(** The pruning loop of CPercentChangeValue. *)
Fixpoint prune_lowest (MaxDaysInQueue dayNum : Z) (queue : list Entry)
    (lowestValue : Q) : list Entry * Q :=
  match queue with
  | [] => ([], lowestValue)
  | e :: queue' =>
      if MaxDaysInQueue <? dayNum - e_d e
      then
        if Qeq_bool lowestValue (e_v e)
        then prune_lowest MaxDaysInQueue dayNum queue' TDF_INVALID_VALUE
        else prune_lowest MaxDaysInQueue dayNum queue' lowestValue
      else (queue, lowestValue)
  end.

(** *** CGenericTimeValue *)
Record CGenericTimeValue : Type := mkGeneric {
  gen_PrevValue : option Entry;
  gen_CurrentValue : option Entry
}.

Definition CGenericTimeValue_init : CGenericTimeValue := mkGeneric None None.

Definition CGenericTimeValue_Reset (self : CGenericTimeValue) : CGenericTimeValue :=
  mkGeneric None None.

Definition CGenericTimeValue_ComputeNewValue (self : CGenericTimeValue)
    (value : Q) (dayNum timeMin : Z) : CGenericTimeValue * Q :=
  let newValInfo := mkEntry value dayNum timeMin in
  let self := mkGeneric (gen_CurrentValue self) (Some newValInfo) in
  match gen_PrevValue self with
  | None => (self, TDF_INVALID_VALUE)
  | Some prev =>
      let deltaValue := (e_v newValInfo - e_v prev)%Q in
      let deltaDays := e_d newValInfo - e_d prev in
      if deltaDays <=? 0 then (self, TDF_INVALID_VALUE)
      else (self, (deltaValue / inject_Z deltaDays)%Q)
  end.

(** The loop of CRateValue and CAccelerationValue that finds the largest
    absolute difference between [value] and a queued value.  [deltaValue]
    starts at -1, which the loop reads as "not set yet". *)
Definition max_abs_delta_step (value : Q) (dayNum : Z)
    (acc : Q * Z) (entry_v : Q) (entry_d : Z) : Q * Z :=
  let '(deltaValue, deltaDays) := acc in
  let currentDeltaValue := (value - entry_v)%Q in
  let currentDeltaValue :=
    if Qltb currentDeltaValue 0 then (- currentDeltaValue)%Q else currentDeltaValue in
  if Qeq_bool deltaValue (-1) || Qltb deltaValue currentDeltaValue
  then (currentDeltaValue, dayNum - entry_d)
  else (deltaValue, deltaDays).

(** *** CAccelerationValue *)
Record CAccelerationValue : Type := mkAccel {
  acc_MaxDaysInQueue : Z;
  acc_ValueQueue : list RateEntry
}.

Definition CAccelerationValue_init (numDays : Z) : CAccelerationValue :=
  mkAccel numDays [].

Definition CAccelerationValue_Reset (self : CAccelerationValue) : CAccelerationValue :=
  mkAccel (acc_MaxDaysInQueue self) [].

Definition CAccelerationValue_ComputeNewValue (self : CAccelerationValue)
    (value : Q) (dayNum timeMin : Z) : CAccelerationValue * Q :=
  let N := acc_MaxDaysInQueue self in
  let queue := prune_rate N dayNum (acc_ValueQueue self) in
  let '(deltaValue, _) :=
    fold_left (fun acc e => max_abs_delta_step value dayNum acc (r_v e) (r_d e))
              queue ((-1)%Q, -1) in
  let newRate :=
    match queue with
    | [] => 0%Q
    | oldest :: _ =>
        let deltaDays := dayNum - r_d oldest in
        if 0 <? deltaDays then
          let newRate := (deltaValue / inject_Z deltaDays)%Q in
          if Qltb newRate 0 then (- newRate)%Q else newRate
        else 0%Q
    end in
  let queue := queue ++ [mkRateEntry value dayNum timeMin newRate] in
  let self := mkAccel N queue in
  if (length queue <=? 2)%nat then (self, TDF_INVALID_VALUE)
  else
    match queue with
    | [] => (self, TDF_INVALID_VALUE)
    | oldest :: _ =>
        let deltaDays := dayNum - r_d oldest in
        let deltaRate := (newRate - r_r oldest)%Q in
        if deltaDays <=? 0 then (self, TDF_INVALID_VALUE)
        else
          let acceleration := (deltaRate / inject_Z deltaDays)%Q in
          (self, if Qltb acceleration 0 then (- acceleration)%Q else acceleration)
    end.

(** *** CDeltaValue *)
Record CDeltaValue : Type := mkDelta {
  delta_MaxDaysInQueue : Z;
  delta_ValueQueue : list Entry
}.

Definition CDeltaValue_init (numDays : Z) : CDeltaValue := mkDelta numDays [].

Definition CDeltaValue_Reset (self : CDeltaValue) : CDeltaValue :=
  mkDelta (delta_MaxDaysInQueue self) [].

Definition CDeltaValue_ComputeNewValue (self : CDeltaValue)
    (value : Q) (dayNum timeMin : Z) : CDeltaValue * Q :=
  let N := delta_MaxDaysInQueue self in
  let queue := prune N dayNum (delta_ValueQueue self) in
  let queue := queue ++ [mkEntry value dayNum timeMin] in
  let self := mkDelta N queue in
  if (length queue <=? 1)%nat then (self, TDF_INVALID_VALUE)
  else
    match queue with
    | [] => (self, TDF_INVALID_VALUE)
    | oldestEntry :: _ =>
        if dayNum - e_d oldestEntry <? 1 then (self, TDF_INVALID_VALUE)
        else (self, (value - e_v oldestEntry)%Q)
    end.

(** *** CSum *)
Record CSum : Type := mkSum {
  sum_MaxDaysInQueue : Z;
  sum_ValueQueue : list Entry;
  sum_TotalValue : Q
}.

Definition CSum_init (numDays : Z) : CSum := mkSum numDays [] 0.

Definition CSum_Reset (self : CSum) : CSum := mkSum (sum_MaxDaysInQueue self) [] 0.

Definition CSum_ComputeNewValue (self : CSum)
    (value : Q) (dayNum timeMin : Z) : CSum * Q :=
  let N := sum_MaxDaysInQueue self in
  let '(queue, total) := prune_total N dayNum (sum_ValueQueue self) (sum_TotalValue self) in
  let queue := queue ++ [mkEntry value dayNum timeMin] in
  let total := binary64 (total + value) in
  let self := mkSum N queue total in
  if (0 <? length queue)%nat then (self, total) else (self, TDF_INVALID_VALUE).

(** *** CRunningAvgValue *)
Record CRunningAvgValue : Type := mkAvg {
  avg_MaxDaysInQueue : Z;
  avg_ValueQueue : list Entry;
  avg_TotalValue : Q
}.

Definition CRunningAvgValue_init (numDays : Z) : CRunningAvgValue := mkAvg numDays [] 0.

Definition CRunningAvgValue_Reset (self : CRunningAvgValue) : CRunningAvgValue :=
  mkAvg (avg_MaxDaysInQueue self) [] 0.

Definition CRunningAvgValue_ComputeNewValue (self : CRunningAvgValue)
    (value : Q) (dayNum timeMin : Z) : CRunningAvgValue * Q :=
  let N := avg_MaxDaysInQueue self in
  let '(queue, total) := prune_total N dayNum (avg_ValueQueue self) (avg_TotalValue self) in
  let queue := queue ++ [mkEntry value dayNum timeMin] in
  let total := binary64 (total + value) in
  let self := mkAvg N queue total in
  if (0 <? length queue)%nat
  then (self, binary64 (total / inject_Z (Z.of_nat (length queue))))
  else (self, TDF_INVALID_VALUE).

(** *** CRateValue *)
Record CRateValue : Type := mkRate {
  rate_MaxDaysInQueue : Z;
  rate_ValueQueue : list Entry
}.

Definition CRateValue_init (numDays : Z) : CRateValue := mkRate numDays [].

Definition CRateValue_Reset (self : CRateValue) : CRateValue :=
  mkRate (rate_MaxDaysInQueue self) [].

Definition CRateValue_ComputeNewValue (self : CRateValue)
    (value : Q) (dayNum timeMin : Z) : CRateValue * Q :=
  let N := rate_MaxDaysInQueue self in
  let queue := prune N dayNum (rate_ValueQueue self) in
  let queue := queue ++ [mkEntry value dayNum timeMin] in
  let self := mkRate N queue in
  if (length queue <=? 1)%nat then (self, TDF_INVALID_VALUE)
  else
    let '(deltaValue, _) :=
      fold_left (fun acc e => max_abs_delta_step value dayNum acc (e_v e) (e_d e))
                queue ((-1)%Q, -1) in
    match queue with
    | [] => (self, TDF_INVALID_VALUE)
    | oldest :: _ =>
        let deltaDays := dayNum - e_d oldest in
        if deltaDays <=? 0 then (self, TDF_INVALID_VALUE)
        else (self, (deltaValue / inject_Z deltaDays)%Q)
    end.

(** *** CRateCrossValue *)
Record CRateCrossValue : Type := mkRateCross {
  rc_shortRate : CRateValue;
  rc_longRate : CRateValue;
  rc_fDetectFasterRate : bool;
  rc_fFuzzinessMargin : Q
}.

(** The constructor sets [self.fFuzzinessMargin = 1.1], the float nearest to
    11/10. *)
Definition CRateCrossValue_init (shortNumDays longNumDays : Z) : CRateCrossValue :=
  mkRateCross (CRateValue_init shortNumDays) (CRateValue_init longNumDays)
              true (binary64 (11 # 10)).

Definition CRateCrossValue_Reset (self : CRateCrossValue) : CRateCrossValue :=
  mkRateCross (CRateValue_Reset (rc_shortRate self)) (CRateValue_Reset (rc_longRate self))
              (rc_fDetectFasterRate self) (rc_fFuzzinessMargin self).

Definition CRateCrossValue_ComputeNewValue (self : CRateCrossValue)
    (value : Q) (dayNum timeMin : Z) : CRateCrossValue * Q :=
  let '(short, shortRateVal) := CRateValue_ComputeNewValue (rc_shortRate self) value dayNum timeMin in
  let '(long, longRateVal) := CRateValue_ComputeNewValue (rc_longRate self) value dayNum timeMin in
  let self := mkRateCross short long (rc_fDetectFasterRate self) (rc_fFuzzinessMargin self) in
  if is_INVALID shortRateVal || is_INVALID longRateVal then (self, TDF_INVALID_VALUE)
  else if rc_fDetectFasterRate self
          && Qgeb shortRateVal (rc_fFuzzinessMargin self * longRateVal)%Q
       then (self, 1%Q)
       else (self, 0%Q).

(** The rescan of CRangeValue and CThresholdValue
    ([for entry in self.ValueQueue: ...]). *)
Definition minmax_step (acc : Q * Q) (entry : Entry) : Q * Q :=
  let '(MinValue, MaxValue) := acc in
  let MinValue :=
    if is_INVALID MinValue || Qle_bool (e_v entry) MinValue then e_v entry else MinValue in
  let MaxValue :=
    if is_INVALID MaxValue || Qgeb (e_v entry) MaxValue then e_v entry else MaxValue in
  (MinValue, MaxValue).

(** The min/max update after the append, shared by CRangeValue and
    CThresholdValue: a full rescan when either bound is invalid, an
    incremental update with the new value otherwise. *)
Definition update_minmax (queue : list Entry) (value MinValue MaxValue : Q) : Q * Q :=
  if is_INVALID MaxValue || is_INVALID MinValue
  then fold_left minmax_step queue (TDF_INVALID_VALUE, TDF_INVALID_VALUE)
  else
    let MinValue := if is_INVALID MinValue || Qle_bool value MinValue then value else MinValue in
    let MaxValue := if is_INVALID MaxValue || Qgeb value MaxValue then value else MaxValue in
    (MinValue, MaxValue).

(** *** CRangeValue *)
Record CRangeValue : Type := mkRange {
  range_fAbsolute : bool;
  range_MaxDaysInQueue : Z;
  range_ValueQueue : list Entry;
  range_MaxValue : Q;
  range_MinValue : Q
}.

Definition CRangeValue_init (fAbsolute : bool) (numDays : Z) : CRangeValue :=
  mkRange fAbsolute numDays [] TDF_INVALID_VALUE TDF_INVALID_VALUE.

Definition CRangeValue_Reset (self : CRangeValue) : CRangeValue :=
  mkRange (range_fAbsolute self) (range_MaxDaysInQueue self) []
          TDF_INVALID_VALUE TDF_INVALID_VALUE.

Definition CRangeValue_ComputeNewValue (self : CRangeValue)
    (value : Q) (dayNum timeMin : Z) : CRangeValue * Q :=
  let N := range_MaxDaysInQueue self in
  let '(queue, MinValue, MaxValue) :=
    prune_minmax N dayNum (range_ValueQueue self) (range_MinValue self) (range_MaxValue self) in
  let queue := queue ++ [mkEntry value dayNum timeMin] in
  let '(MinValue, MaxValue) := update_minmax queue value MinValue MaxValue in
  let self := mkRange (range_fAbsolute self) N queue MaxValue MinValue in
  if is_INVALID MinValue || is_INVALID MaxValue || (length queue <=? 1)%nat
  then (self, TDF_INVALID_VALUE)
  else
    let result := (MaxValue - MinValue)%Q in
    if negb (range_fAbsolute self) && negb (Qeq_bool MinValue 0)
    then
      if Qeq_bool MinValue 0 then (self, 0%Q)
      else (self, (result / MinValue)%Q)
    else (self, result).

(** *** CPercentChangeValue *)
Record CPercentChangeValue : Type := mkPct {
  pct_MaxDaysInQueue : Z;
  pct_ValueQueue : list Entry;
  pct_lowestValue : Q
}.

Definition CPercentChangeValue_init (numDays : Z) : CPercentChangeValue :=
  mkPct numDays [] TDF_INVALID_VALUE.

Definition CPercentChangeValue_Reset (self : CPercentChangeValue) : CPercentChangeValue :=
  mkPct (pct_MaxDaysInQueue self) [] TDF_INVALID_VALUE.

Definition lowest_step (lowestValue : Q) (elem : Entry) : Q :=
  if is_INVALID lowestValue || Qltb (e_v elem) lowestValue then e_v elem else lowestValue.

Definition CPercentChangeValue_ComputeNewValue (self : CPercentChangeValue)
    (value : Q) (dayNum timeMin : Z) : CPercentChangeValue * Q :=
  let N := pct_MaxDaysInQueue self in
  let '(queue, lowestValue) :=
    prune_lowest N dayNum (pct_ValueQueue self) (pct_lowestValue self) in
  let queue := queue ++ [mkEntry value dayNum timeMin] in
  let lowestValue :=
    if is_INVALID lowestValue then fold_left lowest_step queue lowestValue
    else lowestValue in
  let self := mkPct N queue lowestValue in
  if is_INVALID lowestValue || (length queue <? 2)%nat then (self, TDF_INVALID_VALUE)
  else if Qeq_bool lowestValue 0 then (self, 0%Q)
  else (self, ((value - lowestValue) / lowestValue)%Q).

(** *** CThresholdValue *)
Record CThresholdValue : Type := mkThreshold {
  thr_fAbove : bool;
  thr_thresholdVal : Q;
  thr_MaxDaysInQueue : Z;
  thr_ValueQueue : list Entry;
  thr_MaxValue : Q;
  thr_MinValue : Q
}.

Definition CThresholdValue_init (fAbove : bool) (thresholdVal : Q) (numDays : Z)
  : CThresholdValue :=
  mkThreshold fAbove thresholdVal numDays [] TDF_INVALID_VALUE TDF_INVALID_VALUE.

Definition CThresholdValue_Reset (self : CThresholdValue) : CThresholdValue :=
  mkThreshold (thr_fAbove self) (thr_thresholdVal self) (thr_MaxDaysInQueue self) []
              TDF_INVALID_VALUE TDF_INVALID_VALUE.

Definition CThresholdValue_ComputeNewValue (self : CThresholdValue)
    (value : Q) (dayNum timeMin : Z) : CThresholdValue * Q :=
  let N := thr_MaxDaysInQueue self in
  let '(queue, MinValue, MaxValue) :=
    prune_minmax N dayNum (thr_ValueQueue self) (thr_MinValue self) (thr_MaxValue self) in
  let queue := queue ++ [mkEntry value dayNum timeMin] in
  let '(MinValue, MaxValue) := update_minmax queue value MinValue MaxValue in
  let self := mkThreshold (thr_fAbove self) (thr_thresholdVal self) N queue MaxValue MinValue in
  if negb (thr_fAbove self) && Qltb 0 (thr_thresholdVal self)
     && Qle_bool MaxValue (thr_thresholdVal self)
  then (self, 1%Q)
  else if thr_fAbove self && Qltb 0 (thr_thresholdVal self)
          && Qgeb MinValue (thr_thresholdVal self)
  then (self, 1%Q)
  else (self, 0%Q).

(** *** CVolatilityValue *)
Record CVolatilityValue : Type := mkVol {
  vol_MaxDaysInQueue : Z;
  vol_ValueQueue : list Entry
}.

Definition CVolatilityValue_init (numDays : Z) : CVolatilityValue := mkVol numDays [].

Definition CVolatilityValue_Reset (self : CVolatilityValue) : CVolatilityValue :=
  mkVol (vol_MaxDaysInQueue self) [].

Definition volatility_step (acc : Q * Q) (entry : Entry) : Q * Q :=
  let '(totalChange, prevValue) := acc in
  let currentValue := e_v entry in
  let totalChange :=
    if negb (is_INVALID prevValue) then
      let currentChange := (currentValue - prevValue)%Q in
      let currentChange :=
        if Qltb currentChange 0 then (- currentChange)%Q else currentChange in
      (totalChange + currentChange)%Q
    else totalChange in
  (totalChange, currentValue).

Definition CVolatilityValue_ComputeNewValue (self : CVolatilityValue)
    (value : Q) (dayNum timeMin : Z) : CVolatilityValue * Q :=
  let N := vol_MaxDaysInQueue self in
  let queue := prune N dayNum (vol_ValueQueue self) in
  let queue := queue ++ [mkEntry value dayNum timeMin] in
  let self := mkVol N queue in
  (self, fst (fold_left volatility_step queue (0%Q, TDF_INVALID_VALUE))).

(** *** CIsStableValue *)
Record CIsStableValue : Type := mkStable {
  stable_RangeVar : CRangeValue;
  stable_threshold : Q
}.

Definition CIsStableValue_init (numDays : Z) (threshold : Q) : CIsStableValue :=
  mkStable (CRangeValue_init true numDays) threshold.

Definition CIsStableValue_Reset (self : CIsStableValue) : CIsStableValue :=
  mkStable (CRangeValue_Reset (stable_RangeVar self)) (stable_threshold self).

Definition CIsStableValue_ComputeNewValue (self : CIsStableValue)
    (value : Q) (dayNum timeMin : Z) : CIsStableValue * Q :=
  let '(rangeVar, valRange) :=
    CRangeValue_ComputeNewValue (stable_RangeVar self) value dayNum timeMin in
  let self := mkStable rangeVar (stable_threshold self) in
  if is_INVALID valRange then (self, TDF_INVALID_VALUE)
  else if Qltb (stable_threshold self) valRange then (self, 0%Q)
  else (self, 1%Q).

(** *** CTimeSeries (used for the baseline creatinine)

    Its queue entries are kept as Python dicts, because the method reads a
    key that the entries are never created with. *)
Record CTimeSeries : Type := mkTimeSeries {
  ts_ValueQueue : list (gmap string Q);
  ts_maxHistoryInDays : Z;
  ts_lowestValue : Q;
  ts_MostRecentValue : Q;
  ts_MostRecentDay : Q;
  ts_MostRecentHour : Q;
  ts_MostRecentMin : Q;
  ts_OldestDay : Q;
  ts_OldestHour : Q;
  ts_OldestMin : Q
}.

Definition CTimeSeries_init (maxHistoryInDays : Z) : CTimeSeries :=
  mkTimeSeries [] maxHistoryInDays (-1) (-1) (-1) (-1) (-1) (-1) (-1) (-1).

(** The [while (deltaDays > self.maxHistoryInDays)] loop of AddNewValue.  It
    threads the queue, the three Oldest* fields and fNeedToFindLowestValue;
    [deltaDays] is [timeInDays - self.OldestDay] on every test. *)
Fixpoint AddNewValue_trim (maxHistoryInDays timeInDays : Z) (lowestValue : Q)
    (queue : list (gmap string Q)) (Oldest : Q * Q * Q) (fNeedToFindLowestValue : bool)
  : result (list (gmap string Q) * (Q * Q * Q) * bool) :=
  let '(OldestDay, OldestHour, OldestMin) := Oldest in
  if Qltb (inject_Z maxHistoryInDays) (inject_Z timeInDays - OldestDay)
  then
    match queue with
    | [] => Raise IndexError
    | removedValue :: queue' =>
        rv ← py_getitem removedValue "v";
        let fNeed :=
          if Qeq_bool (py_round2 rv) (py_round2 lowestValue) then true
          else fNeedToFindLowestValue in
        match queue' with
        | [] => Raise IndexError
        | oldestValue :: _ =>
            od ← py_getitem oldestValue "d";
            oh ← py_getitem oldestValue "h";
            om ← py_getitem oldestValue "m";
            AddNewValue_trim maxHistoryInDays timeInDays lowestValue queue' (od, oh, om) fNeed
        end
    end
  else Ok (queue, Oldest, fNeedToFindLowestValue).

(** The rescan [for elem in self.ValueQueue] that recomputes lowestValue. *)
Fixpoint find_lowest (queue : list (gmap string Q)) (lowestValue : Q) : result Q :=
  match queue with
  | [] => Ok lowestValue
  | elem :: queue' =>
      ev ← py_getitem elem "v";
      let currentVal := py_round2 ev in
      find_lowest queue'
        (if Qeq_bool lowestValue (-1) || Qltb currentVal lowestValue
         then currentVal else lowestValue)
  end.

Definition CTimeSeries_AddNewValue (self : CTimeSeries) (value : Q)
    (timeInDays timeMin : Z) : result CTimeSeries :=
  let newQueueEntry : gmap string Q :=
    <["v" := value]> (<["d" := inject_Z timeInDays]> (<["m" := inject_Z timeMin]> ∅)) in
  let queue := ts_ValueQueue self ++ [newQueueEntry] in
  let MostRecentValue := py_round2 value in
  let MostRecentDay := inject_Z timeInDays in
  let MostRecentMin := inject_Z timeMin in
  let lowestValue :=
    if Qeq_bool (ts_lowestValue self) (-1) || Qltb value (ts_lowestValue self)
    then value else ts_lowestValue self in
  if Qeq_bool (ts_OldestDay self) (-1) && Qeq_bool (ts_OldestMin self) (-1)
  then
    Ok (mkTimeSeries queue (ts_maxHistoryInDays self) lowestValue
          MostRecentValue MostRecentDay (ts_MostRecentHour self) MostRecentMin
          (inject_Z timeInDays) (ts_OldestHour self) (inject_Z timeMin))
  else
    '(queue, Oldest, fNeed) ←
      AddNewValue_trim (ts_maxHistoryInDays self) timeInDays lowestValue queue
        (ts_OldestDay self, ts_OldestHour self, ts_OldestMin self) false;
    let '(OldestDay, OldestHour, OldestMin) := Oldest in
    lowestValue ← (if fNeed : bool then find_lowest queue (-1) else Ok lowestValue);
    Ok (mkTimeSeries queue (ts_maxHistoryInDays self) lowestValue
          MostRecentValue MostRecentDay (ts_MostRecentHour self) MostRecentMin
          OldestDay OldestHour OldestMin).

(** GetLowestValue returns None before the first value; [None] is modelled
    by Coq's [None]. *)
Definition CTimeSeries_GetLowestValue (self : CTimeSeries) : option Q :=
  if Qeq_bool (ts_MostRecentValue self) (-1) then None
  else Some (ts_lowestValue self).


(** *** CBollingerValue and the function objects

    [statistics.stdev] is a library function outside the repository; the
    development is parametric in it. *)
Section WithStdev.
Variable stdev : list Q -> Q.

Record CBollingerValue : Type := mkBollinger {
  boll_fUpperBollinger : bool;
  boll_MaxDaysInQueue : Z;
  boll_ValueQueue : list Entry;
  boll_TotalValue : Q
}.

Definition CBollingerValue_init (fUpperBollinger : bool) (numDays : Z) : CBollingerValue :=
  mkBollinger fUpperBollinger numDays [] 0.

Definition CBollingerValue_Reset (self : CBollingerValue) : CBollingerValue :=
  mkBollinger (boll_fUpperBollinger self) (boll_MaxDaysInQueue self) [] 0.

Definition CBollingerValue_ComputeNewValue (self : CBollingerValue)
    (value : Q) (dayNum timeMin : Z) : CBollingerValue * Q :=
  let N := boll_MaxDaysInQueue self in
  let '(queue, total) :=
    prune_total N dayNum (boll_ValueQueue self) (boll_TotalValue self) in
  let queue := queue ++ [mkEntry value dayNum timeMin] in
  let total := binary64 (total + value) in
  let self := mkBollinger (boll_fUpperBollinger self) N queue total in
  let numValues := length queue in
  if (numValues <? 2)%nat then (self, TDF_INVALID_VALUE)
  else
    let avgValue := binary64 (total / inject_Z (Z.of_nat numValues)) in
    let listOfValues := map e_v queue in
    let listStdDev := stdev listOfValues in
    if boll_fUpperBollinger self
    then (self, if Qgeb value (binary64 (avgValue + listStdDev)) then 1%Q else 0%Q)
    else (self, if Qle_bool value (binary64 (avgValue - listStdDev)) then 1%Q else 0%Q).

(** A function object is an instance of one of the classes; ComputeNewValue
    and Reset dispatch on the class, as Python's method lookup does. *)
Inductive FunctionObject : Type :=
| ObjGeneric (o : CGenericTimeValue)
| ObjAcceleration (o : CAccelerationValue)
| ObjDelta (o : CDeltaValue)
| ObjSum (o : CSum)
| ObjRunningAvg (o : CRunningAvgValue)
| ObjRate (o : CRateValue)
| ObjRateCross (o : CRateCrossValue)
| ObjBollinger (o : CBollingerValue)
| ObjRange (o : CRangeValue)
| ObjPercentChange (o : CPercentChangeValue)
| ObjThreshold (o : CThresholdValue)
| ObjVolatility (o : CVolatilityValue)
| ObjIsStable (o : CIsStableValue).

Definition ComputeNewValue (f : FunctionObject) (value : Q) (dayNum timeMin : Z)
  : FunctionObject * Q :=
  match f with
  | ObjGeneric o => prod_map ObjGeneric id (CGenericTimeValue_ComputeNewValue o value dayNum timeMin)
  | ObjAcceleration o => prod_map ObjAcceleration id (CAccelerationValue_ComputeNewValue o value dayNum timeMin)
  | ObjDelta o => prod_map ObjDelta id (CDeltaValue_ComputeNewValue o value dayNum timeMin)
  | ObjSum o => prod_map ObjSum id (CSum_ComputeNewValue o value dayNum timeMin)
  | ObjRunningAvg o => prod_map ObjRunningAvg id (CRunningAvgValue_ComputeNewValue o value dayNum timeMin)
  | ObjRate o => prod_map ObjRate id (CRateValue_ComputeNewValue o value dayNum timeMin)
  | ObjRateCross o => prod_map ObjRateCross id (CRateCrossValue_ComputeNewValue o value dayNum timeMin)
  | ObjBollinger o => prod_map ObjBollinger id (CBollingerValue_ComputeNewValue o value dayNum timeMin)
  | ObjRange o => prod_map ObjRange id (CRangeValue_ComputeNewValue o value dayNum timeMin)
  | ObjPercentChange o => prod_map ObjPercentChange id (CPercentChangeValue_ComputeNewValue o value dayNum timeMin)
  | ObjThreshold o => prod_map ObjThreshold id (CThresholdValue_ComputeNewValue o value dayNum timeMin)
  | ObjVolatility o => prod_map ObjVolatility id (CVolatilityValue_ComputeNewValue o value dayNum timeMin)
  | ObjIsStable o => prod_map ObjIsStable id (CIsStableValue_ComputeNewValue o value dayNum timeMin)
  end.

Definition Reset (f : FunctionObject) : FunctionObject :=
  match f with
  | ObjGeneric o => ObjGeneric (CGenericTimeValue_Reset o)
  | ObjAcceleration o => ObjAcceleration (CAccelerationValue_Reset o)
  | ObjDelta o => ObjDelta (CDeltaValue_Reset o)
  | ObjSum o => ObjSum (CSum_Reset o)
  | ObjRunningAvg o => ObjRunningAvg (CRunningAvgValue_Reset o)
  | ObjRate o => ObjRate (CRateValue_Reset o)
  | ObjRateCross o => ObjRateCross (CRateCrossValue_Reset o)
  | ObjBollinger o => ObjBollinger (CBollingerValue_Reset o)
  | ObjRange o => ObjRange (CRangeValue_Reset o)
  | ObjPercentChange o => ObjPercentChange (CPercentChangeValue_Reset o)
  | ObjThreshold o => ObjThreshold (CThresholdValue_Reset o)
  | ObjVolatility o => ObjVolatility (CVolatilityValue_Reset o)
  | ObjIsStable o => ObjIsStable (CIsStableValue_Reset o)
  end.

(** [CreateTimeValueFunction]: the chain of [elif (functionNameStr == ...)]
    tests, as a table searched from the top.  The threshold [0.3] of the
    isstable functions is the float nearest to 3/10. *)
Definition with_suffixes {A} (stem : string) (mk : Z -> A)
    (cases : list (string * Z)) : list (string * A) :=
  map (fun c => (stem +:+ fst c, mk (snd c))) cases.

Definition std_windows (dflt : Z) : list (string * Z) :=
  [("", dflt); ("3", 3); ("7", 7); ("14", 14); ("30", 30); ("60", 60);
   ("90", 90); ("180", 180)].

Definition function_table : list (string * FunctionObject) :=
  [("generic", ObjGeneric CGenericTimeValue_init)]
  ++ with_suffixes "delta" (fun n => ObjDelta (CDeltaValue_init n)) (std_windows 1)
  ++ with_suffixes "sum" (fun n => ObjSum (CSum_init n)) (std_windows 1)
  ++ with_suffixes "rate" (fun n => ObjRate (CRateValue_init n)) (std_windows 1)
  ++ with_suffixes "accel" (fun n => ObjAcceleration (CAccelerationValue_init n)) (std_windows 2)
  ++ with_suffixes "range" (fun n => ObjRange (CRangeValue_init true n)) (std_windows 1)
  ++ with_suffixes "relrange" (fun n => ObjRange (CRangeValue_init false n)) (std_windows 1)
  ++ with_suffixes "percentchange"
       (fun n => ObjPercentChange (CPercentChangeValue_init n)) (std_windows 2)
  ++ with_suffixes "isstable"
       (fun n => ObjIsStable (CIsStableValue_init n (binary64 (3 # 10))))
       [("", 3); ("7", 7); ("14", 14); ("30", 30); ("60", 60); ("90", 90); ("180", 180)]
  ++ with_suffixes "runavg" (fun n => ObjRunningAvg (CRunningAvgValue_init n)) (std_windows 60)
  ++ with_suffixes "runnavg" (fun n => ObjRunningAvg (CRunningAvgValue_init n))
       [("", 60); ("3", 3); ("7", 7); ("14", 14)]
  ++ with_suffixes "below45" (fun n => ObjThreshold (CThresholdValue_init false 45 n))
       [("", 60); ("_3", 3); ("_7", 7); ("_14", 14); ("_30", 30); ("_60", 60);
        ("_90", 90); ("_180", 180)]
  ++ with_suffixes "above45" (fun n => ObjThreshold (CThresholdValue_init true 45 n))
       [("", 60); ("_3", 3); ("_7", 7); ("_14", 14); ("_30", 30); ("_60", 60);
        ("_90", 90); ("_180", 180)]
  ++ with_suffixes "vol" (fun n => ObjVolatility (CVolatilityValue_init n)) (std_windows 60)
  ++ [("bollup", ObjBollinger (CBollingerValue_init true 60));
      ("bolllow", ObjBollinger (CBollingerValue_init false 60));
      ("faster30than90", ObjRateCross (CRateCrossValue_init 30 90))].

(** [str.lower()] on ASCII letters. *)
Definition ascii_lower (c : ascii) : ascii :=
  let n := nat_of_ascii c in
  if ((65 <=? n) && (n <=? 90))%nat then ascii_of_nat (n + 32) else c.

Fixpoint str_lower (s : string) : string :=
  match s with
  | EmptyString => EmptyString
  | String c s' => String (ascii_lower c) (str_lower s')
  end.

Fixpoint assoc_find {A} (key : string) (tbl : list (string * A)) : option A :=
  match tbl with
  | [] => None
  | (k, a) :: tbl' => if String.eqb key k then Some a else assoc_find key tbl'
  end.

Definition CreateTimeValueFunction (functionNameStr varName : string)
  : option FunctionObject :=
  assoc_find (str_lower functionNameStr) function_table.

(** *** Vocabulary for the sliding-window properties *)

(** The sum of the queued values. *)
Definition sum_values (queue : list Entry) : Q :=
  fold_right (fun e acc => (e_v e + acc)%Q) 0%Q queue.

(** The sum of their absolute values. *)
Definition abs_values (queue : list Entry) : Q :=
  fold_right (fun e acc => (Qabs (e_v e) + acc)%Q) 0%Q queue.

(** Values whose float sums are exact: whole numbers whose absolute values
    add up to less than 2^53, so that every partial sum is a whole number
    that a float holds exactly. *)
Definition sums_exact (queue : list Entry) : Prop :=
  Forall (fun e => is_integer (e_v e) = true) queue
  /\ (abs_values queue < inject_Z (2 ^ 53))%Q.

(** CSum and CRunningAvgValue return a value computed from the running
    total alone. *)
Definition returns_running_total (f : FunctionObject) : bool :=
  match f with
  | ObjSum _ | ObjRunningAvg _ => true
  | _ => false
  end.

(** A tracked bound is either invalid or the value of a queued entry. *)
Definition tracked (queue : list Entry) (bound : Q) : Prop :=
  (bound == TDF_INVALID_VALUE)%Q \/ Exists (fun e => (bound == e_v e)%Q) queue.

(** What the running state of an object has to satisfy between calls. *)
Definition state_inv (f : FunctionObject) : Prop :=
  match f with
  | ObjThreshold o =>
      tracked (thr_ValueQueue o) (thr_MinValue o)
      /\ tracked (thr_ValueQueue o) (thr_MaxValue o)
  | _ => True
  end.

(** The window classes: every class of the factory except CGenericTimeValue,
    which keeps the previous observation whatever its age. *)
Definition windowed (f : FunctionObject) : bool :=
  match f with
  | ObjGeneric _ => false
  | _ => true
  end.

(** The queues an object holds: each with its day span and the day stamps
    of the observations it retains. *)
Definition windows (f : FunctionObject) : list (Z * list Z) :=
  match f with
  | ObjGeneric o => []
  | ObjAcceleration o => [(acc_MaxDaysInQueue o, map r_d (acc_ValueQueue o))]
  | ObjDelta o => [(delta_MaxDaysInQueue o, map e_d (delta_ValueQueue o))]
  | ObjSum o => [(sum_MaxDaysInQueue o, map e_d (sum_ValueQueue o))]
  | ObjRunningAvg o => [(avg_MaxDaysInQueue o, map e_d (avg_ValueQueue o))]
  | ObjRate o => [(rate_MaxDaysInQueue o, map e_d (rate_ValueQueue o))]
  | ObjRateCross o =>
      [(rate_MaxDaysInQueue (rc_shortRate o), map e_d (rate_ValueQueue (rc_shortRate o)));
       (rate_MaxDaysInQueue (rc_longRate o), map e_d (rate_ValueQueue (rc_longRate o)))]
  | ObjBollinger o => [(boll_MaxDaysInQueue o, map e_d (boll_ValueQueue o))]
  | ObjRange o => [(range_MaxDaysInQueue o, map e_d (range_ValueQueue o))]
  | ObjPercentChange o => [(pct_MaxDaysInQueue o, map e_d (pct_ValueQueue o))]
  | ObjThreshold o => [(thr_MaxDaysInQueue o, map e_d (thr_ValueQueue o))]
  | ObjVolatility o => [(vol_MaxDaysInQueue o, map e_d (vol_ValueQueue o))]
  | ObjIsStable o =>
      [(range_MaxDaysInQueue (stable_RangeVar o),
        map e_d (range_ValueQueue (stable_RangeVar o)))]
  end.

(** [dayNum] lies strictly more than the window size after every retained
    observation. *)
Definition all_expired (f : FunctionObject) (dayNum : Z) : Prop :=
  Forall (fun w => Forall (fun day => fst w < dayNum - day) (snd w)) (windows f).

(** The states an object can be in: freshly reset, or reached from there by
    calls of ComputeNewValue. *)
Inductive reachable : FunctionObject -> Prop :=
| reach_reset f : reachable (Reset f)
| reach_compute f value dayNum timeMin :
    reachable f -> reachable (fst (ComputeNewValue f value dayNum timeMin)).

End WithStdev.

(** The entries AddNewValue creates have the keys 'v', 'd' and 'm', and
    no key 'h'. *)
Definition ts_entry_keys (e : gmap string Q) : Prop :=
  is_Some (e !! "v") /\ is_Some (e !! "d") /\ is_Some (e !! "m") /\ e !! "h" = None.

(** Between calls: the queue holds such entries and, once it is not empty,
    the Oldest* fields are set, OldestDay being the day of the queue head. *)
Definition ts_inv (self : CTimeSeries) : Prop :=
  Forall ts_entry_keys (ts_ValueQueue self)
  /\ match ts_ValueQueue self with
     | [] =>
         Qeq_bool (ts_OldestDay self) (-1) && Qeq_bool (ts_OldestMin self) (-1) = true
     | e :: _ =>
         Qeq_bool (ts_OldestDay self) (-1) && Qeq_bool (ts_OldestMin self) (-1) = false
         /\ e !! "d" = Some (ts_OldestDay self)
     end.

(** The states of a CTimeSeries: the constructor's, or reached by calls of
    AddNewValue that returned, with day and minute stamps that are not
    negative. *)
Inductive ts_reachable : CTimeSeries -> Prop :=
| ts_reach_init maxHistoryInDays : ts_reachable (CTimeSeries_init maxHistoryInDays)
| ts_reach_add self value timeInDays timeMin self' :
    ts_reachable self -> 0 <= timeInDays -> 0 <= timeMin ->
    CTimeSeries_AddNewValue self value timeInDays timeMin = Ok self' ->
    ts_reachable self'.

End TimeFunctions.

(** ** tdfMedicineValues.py: the variable table *)
Module LabValues.

(** The fields of a [g_LabValueInfo] entry that the modelled code reads. *)
Record LabInfo : Type := mkLabInfo {
  minVal : Q;
  maxVal : Q;
  dataType : Z;
  ActionAfterEachTimePeriod : string;
  Calculated : bool;
  VariableDependencies : string
}.

(** The entries of [g_LabValueInfo] for the variables of the examples,
    copied from the table. *)
Definition lab_table_excerpt : gmap string LabInfo :=
  list_to_map
    [("Cr", mkLabInfo (1 # 2) 6 TDF_DATA_TYPE_FLOAT "" false "");
     ("BaselineCr", mkLabInfo (3 # 10) 8 TDF_DATA_TYPE_FLOAT "" false "Cr");
     ("InAKI", mkLabInfo 0 1 TDF_DATA_TYPE_BOOL "" false "Cr;BaselineCr");
     ("InHospital", mkLabInfo 0 1 TDF_DATA_TYPE_BOOL "" false "");
     ("IsMale", mkLabInfo 0 1 TDF_DATA_TYPE_BOOL "" false "");
     ("MELD", mkLabInfo 1 50 TDF_DATA_TYPE_INT "" true "Cr;Na;Tbili;INR")].

End LabValues.

(** ** tdfTools.py: the compiled timeline and its queries *)
Module Query.
Import TimeFunctions LabValues.

(** One entry of [self.CompiledTimeline]: [{'TimeDays':, 'TID':, 'data':}].
    The 'eventNodeList' of an entry is emptied by the reverse pass and is
    not read by the queries. *)
Record TimelineEntry : Type := mkTimelineEntry {
  TimeDays : Z;
  TID : Z;
  data : gmap string Q
}.

(** [self.LastTimeLineIndex], as CompileTimelineImpl leaves it. *)
Definition LastTimeLineIndex (CompiledTimeline : list TimelineEntry) : Z :=
  Z.of_nat (length CompiledTimeline) - 1.

(** A block of a method either returns or falls through to the next one. *)
Inductive flow (R S : Type) : Type :=
| Return (r : R)
| FallThrough (s : S).
Arguments Return {R S} r.
Arguments FallThrough {R S} s.

Section GetNamedValue.
Variable stdev : list Q -> Q.
Variable CompiledTimeline : list TimelineEntry.

(** The four loops that move the cursor to the start of the range.  Each
    takes the number of iterations its [while] test allows. *)

(** [while (currentTimeLineIndex < self.LastTimeLineIndex)] *)
Fixpoint seek_forward_from_now (firstDayInRange : Z) (n : nat)
    (currentTimeLineIndex : Z) : result Z :=
  match n with
  | O => Ok currentTimeLineIndex
  | S n' =>
      timelineEntry ← py_index CompiledTimeline currentTimeLineIndex;
      if firstDayInRange <=? TimeDays timelineEntry then Ok currentTimeLineIndex
      else seek_forward_from_now firstDayInRange n' (currentTimeLineIndex + 1)
  end.

(** [while (testIndex >= 0)], forward search starting in the past *)
Fixpoint seek_back_to_range_start (firstDayInRange : Z) (n : nat)
    (currentTimeLineIndex testIndex : Z) : result Z :=
  match n with
  | O => Ok currentTimeLineIndex
  | S n' =>
      timelineEntry ← py_index CompiledTimeline testIndex;
      if TimeDays timelineEntry <? firstDayInRange then Ok currentTimeLineIndex
      else seek_back_to_range_start firstDayInRange n' testIndex (testIndex - 1)
  end.

(** [while (testIndex < self.LastTimeLineIndex)], backward search starting
    in the future *)
Fixpoint seek_ahead_to_range_start (firstDayInRange : Z) (n : nat)
    (currentTimeLineIndex testIndex : Z) : result Z :=
  match n with
  | O => Ok currentTimeLineIndex
  | S n' =>
      timelineEntry ← py_index CompiledTimeline testIndex;
      if firstDayInRange <? TimeDays timelineEntry then Ok currentTimeLineIndex
      else seek_ahead_to_range_start firstDayInRange n' testIndex (testIndex + 1)
  end.

(** [while (currentTimeLineIndex >= 0)], backward search starting in the
    past *)
Fixpoint seek_backward_from_now (firstDayInRange : Z) (n : nat)
    (currentTimeLineIndex : Z) : result Z :=
  match n with
  | O => Ok currentTimeLineIndex
  | S n' =>
      timelineEntry ← py_index CompiledTimeline currentTimeLineIndex;
      if TimeDays timelineEntry <=? firstDayInRange then Ok currentTimeLineIndex
      else seek_backward_from_now firstDayInRange n' (currentTimeLineIndex - 1)
  end.

(** The two search loops.  They carry [result], which every examined entry
    holding the variable overwrites, and return
    [(fFoundIt, result, matchingRangeDay)]. *)
Fixpoint search_backward (valueName : string) (lastDayNumInRange : Z) (n : nat)
    (currentTimeLineIndex : Z) (result : Q) : Py.result (bool * Q * Z) :=
  match n with
  | O => Ok (false, result, -1)
  | S n' =>
      timelineEntry ← py_index CompiledTimeline currentTimeLineIndex;
      let currentDayNum := TimeDays timelineEntry in
      if currentDayNum <? lastDayNumInRange then Ok (false, result, -1)
      else
        match data timelineEntry !! valueName with
        | Some result' =>
            if negb (Qeq_bool TDF_INVALID_VALUE result')
            then Ok (true, result', currentDayNum)
            else search_backward valueName lastDayNumInRange n'
                   (currentTimeLineIndex - 1) result'
        | None =>
            search_backward valueName lastDayNumInRange n'
              (currentTimeLineIndex - 1) result
        end
  end.

Fixpoint search_forward (valueName : string) (lastDayNumInRange : Z) (n : nat)
    (currentTimeLineIndex : Z) (result : Q) : Py.result (bool * Q * Z) :=
  match n with
  | O => Ok (false, result, -1)
  | S n' =>
      timelineEntry ← py_index CompiledTimeline currentTimeLineIndex;
      let currentDayNum := TimeDays timelineEntry in
      if lastDayNumInRange <? currentDayNum then Ok (false, result, -1)
      else
        match data timelineEntry !! valueName with
        | Some result' =>
            if negb (Qeq_bool TDF_INVALID_VALUE result')
            then Ok (true, result', currentDayNum)
            else search_forward valueName lastDayNumInRange n'
                   (currentTimeLineIndex + 1) result'
        | None =>
            search_forward valueName lastDayNumInRange n'
              (currentTimeLineIndex + 1) result
        end
  end.

(** The first block of GetNamedValueFromTimeline: the same-day lookup, taken
    when both offsets are 0 or a function object is given.  It returns, or
    falls through with [result] and the updated function object. *)
Definition same_day_block (valueName : string)
    (startOffsetRange endOffsetRange : Z) (functionObject : option FunctionObject)
    (timelineEntry : TimelineEntry)
  : flow (option FunctionObject * (bool * Q * Z)) (Q * option FunctionObject) :=
  let currentDayNum := TimeDays timelineEntry in
  if ((startOffsetRange =? endOffsetRange) && (endOffsetRange =? 0))
     || bool_decide (is_Some functionObject)
  then
    match data timelineEntry !! valueName with
    | None => Return (functionObject, (false, TDF_INVALID_VALUE, -1))
    | Some result =>
        if Qltb result TDF_SMALLEST_VALID_VALUE
        then Return (functionObject, (false, TDF_INVALID_VALUE, -1))
        else
          match functionObject with
          | None => Return (None, (true, result, currentDayNum))
          | Some f =>
              let timeMin := 0 in
              let '(f', result) := ComputeNewValue stdev f result currentDayNum timeMin in
              if Qltb result TDF_SMALLEST_VALID_VALUE
              then Return (Some f', (false, TDF_INVALID_VALUE, -1))
              else FallThrough (result, Some f')
          end
    end
  else FallThrough (TDF_INVALID_VALUE, functionObject).

(** The [if / elif / elif / elif] that positions the cursor.  The local
    variable [currentTimeLineIndex] is assigned only inside the branches:
    [None] is the unbound variable. *)
Definition position_cursor (fSearchForward : bool)
    (firstDayInRange currentDayNum timeLineIndex : Z) : result (option Z) :=
  let Last := LastTimeLineIndex CompiledTimeline in
  if fSearchForward && (currentDayNum <=? firstDayInRange) then
    Some <$> seek_forward_from_now firstDayInRange
               (Z.to_nat (Last - timeLineIndex)) timeLineIndex
  else if fSearchForward && (firstDayInRange <=? currentDayNum) then
    Some <$> seek_back_to_range_start firstDayInRange
               (Z.to_nat (timeLineIndex + 1)) timeLineIndex timeLineIndex
  else if negb fSearchForward && (currentDayNum <? firstDayInRange) then
    Some <$> seek_ahead_to_range_start firstDayInRange
               (Z.to_nat (Last - timeLineIndex)) timeLineIndex timeLineIndex
  else if negb fSearchForward && (firstDayInRange <? currentDayNum) then
    Some <$> seek_backward_from_now firstDayInRange
               (Z.to_nat (timeLineIndex + 1)) timeLineIndex
  else Ok None.

(** Reading a local variable. *)
Definition read_local (name : string) (x : option Z) : result Z :=
  match x with
  | Some i => Ok i
  | None => Raise (UnboundLocalError name)
  end.

(** GetNamedValueFromTimeline.  Besides the triple
    [(fFoundIt, result, matchingRangeDay)] the model returns the function
    object, which the call updates in place. *)
Definition GetNamedValueFromTimeline (valueName : string)
    (startOffsetRange endOffsetRange rangeOption : Z)
    (functionObject : option FunctionObject)
    (timeLineIndex prevUsedRangeDay : Z)
  : result (option FunctionObject * (bool * Q * Z)) :=
  timelineEntry ← py_index CompiledTimeline timeLineIndex;
  let currentDayNum := TimeDays timelineEntry in
  match same_day_block valueName startOffsetRange endOffsetRange functionObject
          timelineEntry with
  | Return r => Ok r
  | FallThrough (result, functionObject) =>
      let referenceDay :=
        if rangeOption =? VARIABLE_RANGE_LAST_MATCH then prevUsedRangeDay
        else currentDayNum in
      let firstDayInRange := referenceDay + startOffsetRange in
      let lastDayNumInRange := referenceDay + endOffsetRange in
      let fSearchForward := negb (lastDayNumInRange <? firstDayInRange) in
      cursor ← position_cursor fSearchForward firstDayInRange currentDayNum timeLineIndex;
      currentTimeLineIndex ← read_local "currentTimeLineIndex" cursor;
      let Last := LastTimeLineIndex CompiledTimeline in
      r ← (if negb fSearchForward
           then search_backward valueName lastDayNumInRange
                  (Z.to_nat (currentTimeLineIndex + 1)) currentTimeLineIndex result
           else search_forward valueName lastDayNumInRange
                  (Z.to_nat (Last - currentTimeLineIndex + 1)) currentTimeLineIndex result);
      Ok (functionObject, r)
  end.

End GetNamedValue.

(** *** CheckIfCurrentTimeMeetsCriteria *)
Section Criteria.
Variable g_LabValueInfo : gmap string LabInfo.

(** The chain of tests under one relation name: [false] is the
    [return False] of the method, [true] lets the loop go on. *)
Definition relation_test (relationName : string) (dataTypeName : Z)
    (actualVal targetVal : Q) : bool :=
  let isFloat := dataTypeName =? TDF_DATA_TYPE_FLOAT in
  let isInt := (dataTypeName =? TDF_DATA_TYPE_INT)
               || (dataTypeName =? TDF_DATA_TYPE_FUTURE_EVENT_CLASS) in
  let isBool := dataTypeName =? TDF_DATA_TYPE_BOOL in
  let a := py_int actualVal in
  let t := py_int targetVal in
  if String.eqb relationName ".EQ." then
    if isFloat && negb (Qeq_bool actualVal targetVal) then false
    else if isInt && negb (a =? t) then false
    else if isBool && negb (a =? t) then false
    else true
  else if String.eqb relationName ".NEQ." then
    if isFloat && Qeq_bool actualVal targetVal then false
    else if isInt && (a =? t) then false
    else true
  else if String.eqb relationName ".LT." then
    if isFloat && Qgeb actualVal targetVal then false
    else if isInt && (t <=? a) then false
    else true
  else if String.eqb relationName ".LTE." then
    if isFloat && Qgtb actualVal targetVal then false
    else if isInt && (t <? a) then false
    else true
  else if String.eqb relationName ".GT." then
    if isFloat && Qle_bool actualVal targetVal then false
    else if isInt && (a <=? t) then false
    else true
  else if String.eqb relationName ".GTE." then
    if isFloat && Qltb actualVal targetVal then false
    else if isInt && (a <? t) then false
    else true
  else false.

(** The body of [for propNum in range(numProperties)]. *)
Definition check_property (propertyRelationList propertyNameList : list string)
    (propertyValueList : list Q) (latestValues : gmap string Q) (propNum : Z)
  : result bool :=
  valueName ← py_index propertyNameList propNum;
  match latestValues !! valueName with
  | None => Ok false
  | Some actualVal =>
      if Qeq_bool actualVal TDF_INVALID_VALUE
         || Qle_bool actualVal TDF_SMALLEST_VALID_VALUE
      then Ok false
      else
        targetVal ← py_index propertyValueList propNum;
        relationName ← py_index propertyRelationList propNum;
        match g_LabValueInfo !! valueName with
        | None => Ok false
        | Some labInfo =>
            Ok (relation_test relationName (dataType labInfo) actualVal targetVal)
        end
  end.

Fixpoint check_properties (propertyRelationList propertyNameList : list string)
    (propertyValueList : list Q) (latestValues : gmap string Q)
    (n : nat) (propNum : Z) : result bool :=
  match n with
  | O => Ok true
  | S n' =>
      ok ← check_property propertyRelationList propertyNameList propertyValueList
             latestValues propNum;
      if ok : bool
      then check_properties propertyRelationList propertyNameList propertyValueList
             latestValues n' (propNum + 1)
      else Ok false
  end.

Definition CheckIfCurrentTimeMeetsCriteria
    (propertyRelationList propertyNameList : list string)
    (propertyValueList : list Q) (timelineEntry : TimelineEntry) : result bool :=
  let latestValues := data timelineEntry in
  let numProperties := length propertyNameList in
  check_properties propertyRelationList propertyNameList propertyValueList
    latestValues numProperties 0.

(** The relational tests as the specification words them: each of
    [=, ≠, <, ≤, >, ≥] compares the snapshot value with the target,
    numerically for a Float variable, on the integer values for an Integer or
    FutureEventCategory variable, and on the truth values 0/1 for a Boolean
    variable. *)
Definition spec_relation_holds (relationName : string) (dataTypeName : Z)
    (actualVal targetVal : Q) : bool :=
  let a := py_int actualVal in
  let t := py_int targetVal in
  let numeric := dataTypeName =? TDF_DATA_TYPE_FLOAT in
  if String.eqb relationName ".EQ." then
    if numeric then Qeq_bool actualVal targetVal else a =? t
  else if String.eqb relationName ".NEQ." then
    if numeric then negb (Qeq_bool actualVal targetVal) else negb (a =? t)
  else if String.eqb relationName ".LT." then
    if numeric then Qltb actualVal targetVal else a <? t
  else if String.eqb relationName ".LTE." then
    if numeric then Qle_bool actualVal targetVal else a <=? t
  else if String.eqb relationName ".GT." then
    if numeric then Qgtb actualVal targetVal else t <? a
  else if String.eqb relationName ".GTE." then
    if numeric then Qgeb actualVal targetVal else t <=? a
  else false.

(** A snapshot value that the filter accepts as an operand. *)
Definition valid_operand (actualVal : Q) : bool :=
  negb (Qeq_bool actualVal TDF_INVALID_VALUE
        || Qle_bool actualVal TDF_SMALLEST_VALID_VALUE).

(** The predicate list holds on a snapshot, in the specification's sense:
    every tested variable is present, valid, declared in the table, and
    passes its relational test. *)
Definition spec_criteria_met
    (propertyRelationList propertyNameList : list string)
    (propertyValueList : list Q) (latestValues : gmap string Q) : Prop :=
  forall (i : nat) (valueName : string),
    propertyNameList !! i = Some valueName ->
    exists relationName targetVal actualVal labInfo,
      propertyRelationList !! i = Some relationName
      /\ propertyValueList !! i = Some targetVal
      /\ latestValues !! valueName = Some actualVal
      /\ valid_operand actualVal = true
      /\ g_LabValueInfo !! valueName = Some labInfo
      /\ spec_relation_holds relationName (dataType labInfo) actualVal targetVal = true.

(** The combinations of data kind and relation for which the method has a
    test: the three numeric kinds with every relation, Boolean with [=]. *)
Definition tested_combination (relationName : string) (dataTypeName : Z) : bool :=
  (dataTypeName =? TDF_DATA_TYPE_FLOAT)
  || (dataTypeName =? TDF_DATA_TYPE_INT)
  || (dataTypeName =? TDF_DATA_TYPE_FUTURE_EVENT_CLASS)
  || ((dataTypeName =? TDF_DATA_TYPE_BOOL) && String.eqb relationName ".EQ.").

End Criteria.

End Query.

(** ** tdfTools.py: compiling a timeline *)
Module Compile.
Import TimeFunctions LabValues Query.

(** Dates held in reader fields are day numbers; TDF_INVALID_VALUE marks
    "no date". *)
Definition TDF_INVALID_DATE : Z := -314159.

(** *** The second forward sweep: stage-onset milestones *)

(** The milestone fields of the reader. *)
Record Milestones : Type := mkMilestones {
  StartCKD5Date : Z;
  StartCKD4Date : Z;
  StartCKD3bDate : Z;
  StartCKD3aDate : Z;
  StartMELD40Date : Z;
  StartMELD30Date : Z;
  StartMELD20Date : Z;
  StartMELD10Date : Z
}.

(** Their values at the start of CompileTimelineImpl. *)
Definition Milestones_init : Milestones :=
  mkMilestones TDF_INVALID_DATE TDF_INVALID_DATE TDF_INVALID_DATE TDF_INVALID_DATE
               TDF_INVALID_DATE TDF_INVALID_DATE TDF_INVALID_DATE TDF_INVALID_DATE.

(** [if (self.StartXDate < 0): self.StartXDate = currentDayNum] *)
Definition set_if_unset (date currentDayNum : Z) : Z :=
  if date <? 0 then currentDayNum else date.

Definition record_GFR (self : Milestones) (currentGFR : Q) (currentDayNum : Z)
  : Milestones :=
  let set d := set_if_unset d currentDayNum in
  let clr := TDF_INVALID_DATE in
  let '(mkMilestones c5 c4 c3b c3a m40 m30 m20 m10) := self in
  if Qltb currentGFR TDF_SMALLEST_VALID_VALUE then self
  else if Qltb currentGFR 15 then
    mkMilestones (set c5) (set c4) (set c3b) (set c3a) m40 m30 m20 m10
  else if Qle_bool 15 currentGFR && Qltb currentGFR 30 then
    mkMilestones clr (set c4) (set c3b) (set c3a) m40 m30 m20 m10
  else if Qle_bool 30 currentGFR && Qltb currentGFR 45 then
    mkMilestones clr clr (set c3b) (set c3a) m40 m30 m20 m10
  else if Qle_bool 45 currentGFR && Qltb currentGFR 60 then
    mkMilestones clr clr clr (set c3a) m40 m30 m20 m10
  else if Qgeb currentGFR 60 then
    mkMilestones clr clr clr clr m40 m30 m20 m10
  else self.

Definition record_MELD (self : Milestones) (currentMELD : Q) (currentDayNum : Z)
  : Milestones :=
  let set d := set_if_unset d currentDayNum in
  let clr := TDF_INVALID_DATE in
  let '(mkMilestones c5 c4 c3b c3a m40 m30 m20 m10) := self in
  if Qltb currentMELD TDF_SMALLEST_VALID_VALUE then self
  else if Qgeb currentMELD 40 then
    mkMilestones c5 c4 c3b c3a (set m40) (set m30) (set m20) (set m10)
  else if Qle_bool 30 currentMELD && Qltb currentMELD 40 then
    mkMilestones c5 c4 c3b c3a clr (set m30) (set m20) (set m10)
  else if Qle_bool 20 currentMELD && Qltb currentMELD 30 then
    mkMilestones c5 c4 c3b c3a clr clr (set m20) (set m10)
  else if Qle_bool 10 currentMELD && Qltb currentMELD 20 then
    mkMilestones c5 c4 c3b c3a clr clr clr (set m10)
  else if Qltb currentMELD 10 then
    mkMilestones c5 c4 c3b c3a clr clr clr clr
  else self.

Definition RecordTimeMilestonesOnForwardPass (self : Milestones)
    (timeLineData : gmap string Q) (currentDayNum : Z) : Milestones :=
  let self :=
    match timeLineData !! "GFR" with
    | Some currentGFR => record_GFR self currentGFR currentDayNum
    | None => self
    end in
  match timeLineData !! "MELD" with
  | Some currentMELD => record_MELD self currentMELD currentDayNum
  | None => self
  end.

(** [for timeLineIndex in range(self.LastTimeLineIndex + 1)] *)
Definition second_forward_sweep (self : Milestones)
    (CompiledTimeline : list TimelineEntry) : Milestones :=
  fold_left (fun self timelineEntry =>
               RecordTimeMilestonesOnForwardPass self (data timelineEntry)
                 (TimeDays timelineEntry))
            CompiledTimeline self.

(** *** The reverse pass

    Of CalculateAllDerivedValuesREVERSEPass the model keeps the blocks for
    BaselineCr and InAKI.  The block between them writes the entry
    BaselineGFR only, and the blocks after them write only the entries
    Future_*, Start*Date, EventualDeathDate and LengthOfStay. *)

(** [if ("BaselineCr" in self.allValueVarNameList)]; returns the new
    [self.FutureBaselineCr] and the updated snapshot. *)
Definition reverse_BaselineCr (FutureBaselineCr : Q) (reversePassTimeLineData : gmap string Q)
  : Q * gmap string Q :=
  let baselineCr := py_get_or reversePassTimeLineData "BaselineCr" TDF_INVALID_VALUE in
  let currentCr := py_get_or reversePassTimeLineData "Cr" TDF_INVALID_VALUE in
  let FutureBaselineCr :=
    if Qgtb currentCr TDF_SMALLEST_VALID_VALUE then
      if Qltb FutureBaselineCr TDF_SMALLEST_VALID_VALUE || Qltb currentCr FutureBaselineCr
      then currentCr else FutureBaselineCr
    else FutureBaselineCr in
  if Qgtb FutureBaselineCr TDF_SMALLEST_VALID_VALUE && Qltb FutureBaselineCr baselineCr
  then (FutureBaselineCr, <["BaselineCr" := FutureBaselineCr]> reversePassTimeLineData)
  else (FutureBaselineCr, reversePassTimeLineData).

(** The test inside the InAKI block, on the two values it compares. *)
Definition acute_test (currentCr baselineCr : Q) : Q :=
  if Qgtb currentCr TDF_SMALLEST_VALID_VALUE && Qgtb baselineCr TDF_SMALLEST_VALID_VALUE
  then
    let deltaCr := (currentCr - baselineCr)%Q in
    let inAKI := 0%Q in
    let inAKI :=
      if Qle_bool baselineCr (15 # 10) && Qgeb deltaCr (3 # 10) then 1%Q else inAKI in
    let inAKI := if Qgeb deltaCr ((15 # 10) * baselineCr) then 1%Q else inAKI in
    inAKI
  else 0%Q.

(** [if ("InAKI" in self.allValueVarNameList)].  The current value is read
    under the key 'currentCr'. *)
Definition reverse_InAKI (reversePassTimeLineData : gmap string Q) (currentDayNum : Z)
  : gmap string Q :=
  let currentCr := py_get_or reversePassTimeLineData "currentCr" TDF_INVALID_VALUE in
  let baselineCr := py_get_or reversePassTimeLineData "BaselineCr" TDF_INVALID_VALUE in
  let inAKI := acute_test currentCr baselineCr in
  let reversePassTimeLineData := <["InAKI" := inAKI]> reversePassTimeLineData in
  if negb (Qeq_bool inAKI 0)
  then <["NextAKIDate" := inject_Z currentDayNum]> reversePassTimeLineData
  else <["NextCrAtBaselineDate" := inject_Z currentDayNum]> reversePassTimeLineData.

Definition CalculateAllDerivedValuesREVERSEPass (allValueVarNameList : list string)
    (FutureBaselineCr : Q) (reversePassTimeLineData : gmap string Q) (currentDayNum : Z)
  : Q * gmap string Q :=
  let '(FutureBaselineCr, reversePassTimeLineData) :=
    if bool_decide ("BaselineCr" ∈ allValueVarNameList)
    then reverse_BaselineCr FutureBaselineCr reversePassTimeLineData
    else (FutureBaselineCr, reversePassTimeLineData) in
  let reversePassTimeLineData :=
    if bool_decide ("InAKI" ∈ allValueVarNameList)
    then reverse_InAKI reversePassTimeLineData currentDayNum
    else reversePassTimeLineData in
  (FutureBaselineCr, reversePassTimeLineData).

(** The loop [while (timeLineIndex >= 0)] from the last entry to the first:
    the entries after the head are processed before it. *)
Fixpoint reverse_pass (allValueVarNameList : list string)
    (CompiledTimeline : list TimelineEntry) (FutureBaselineCr : Q)
  : Q * list TimelineEntry :=
  match CompiledTimeline with
  | [] => (FutureBaselineCr, [])
  | timelineEntry :: later =>
      let '(FutureBaselineCr, later) :=
        reverse_pass allValueVarNameList later FutureBaselineCr in
      let '(FutureBaselineCr, reversePassTimeLineData) :=
        CalculateAllDerivedValuesREVERSEPass allValueVarNameList FutureBaselineCr
          (data timelineEntry) (TimeDays timelineEntry) in
      (FutureBaselineCr,
       mkTimelineEntry (TimeDays timelineEntry) (TID timelineEntry) reversePassTimeLineData
       :: later)
  end.

(** *** The forward pass over data nodes

    The model covers timelines made of data nodes ([<D C=... T=...>]) whose
    time stamp parses; event and outcome nodes are outside it.  Snapshot
    values are numbers: storing [None] in a snapshot (the period action
    "none" of the string-list variables, or a baseline series without
    values) or a NaN (a lab value written [nan]) leaves the model. *)

(** What [float(labvalueStr)] makes of the value text of an assignment, at
    the first try or, when that raises, at the second try without the
    characters '<' and '>': a number, an infinity or a NaN ([float] reads
    texts such as [inf] and [nan]), or no float at all when both tries
    raise. *)
Inductive LabText : Type :=
| Number (labValueFloat : Q)
| Infinity (negative : bool)
| NotANumber
| NoFloat.

Record DataNode : Type := mkDataNode {
  node_C : string;                       (* the class attribute *)
  node_T : Z;                            (* the day of the time stamp *)
  node_text : list (string * LabText)    (* the assignments [name=value] *)
}.

(** The attributes of the [<TL>] element, as ParseCurrentTimelineImpl
    leaves them in the reader. *)
Record PatientAttributes : Type := mkPatient {
  CurrentIsMale : Z;
  CurrentWtInKg : Q;
  IsCaucasian : Z
}.

Section Forward.
Variable g_LabValueInfo : gmap string LabInfo.
Variable allValueVarNameList : list string.
Variable fCarryForwardPreviousDataValues : bool.

(** [self.allValuesLabInfoList], filled by ParseVariableList. *)
Definition allValuesLabInfoList : list (option LabInfo) :=
  map (fun name => g_LabValueInfo !! name) allValueVarNameList.

Definition requested (name : string) : bool :=
  bool_decide (name ∈ allValueVarNameList).

(** The accumulator at the start of CompileTimelineImpl. *)
Definition initial_data (patient : PatientAttributes) : gmap string Q :=
  let d := fold_left (fun d nameStr => <[nameStr := TDF_INVALID_VALUE]> d)
                     allValueVarNameList ∅ in
  let init name v (d : gmap string Q) := if requested name then <[name := v]> d else d in
  let d := init "IsMale" (inject_Z (CurrentIsMale patient)) d in
  let d := init "WtKg" (inject_Z (py_int (CurrentWtInKg patient))) d in
  let d := init "IsCaucasian" (inject_Z (IsCaucasian patient)) d in
  let d := init "DiedThisAdmission" 0%Q d in
  let d := init "HospitalAdmitDate" TDF_INVALID_VALUE d in
  let d := init "InAKI" TDF_INVALID_VALUE d in
  let d := init "InHospital" 0%Q d in
  let d := init "MajorSurgeries" 0%Q d in
  init "GIProcedures" 0%Q d.

(** The period actions applied to the snapshot of a new TimePoint
    ([for valueName, varDictInfo in zip(...)]). *)
Fixpoint apply_period_actions (names : list string) (infos : list (option LabInfo))
    (newDataList : gmap string Q) : result (gmap string Q) :=
  match names, infos with
  | valueName :: names', varDictInfo :: infos' =>
      match varDictInfo with
      | None => Raise TypeError
      | Some info =>
          let action := ActionAfterEachTimePeriod info in
          if String.eqb action "" then apply_period_actions names' infos' newDataList
          else if String.eqb action "inval" then
            apply_period_actions names' infos' (<[valueName := TDF_INVALID_VALUE]> newDataList)
          else if String.eqb action "zero" then
            apply_period_actions names' infos' (<[valueName := 0%Q]> newDataList)
          else if String.eqb action "none" then Raise (OutsideModel "None in a snapshot")
          else if String.eqb action "remove" then
            apply_period_actions names' infos' (delete valueName newDataList)
          else apply_period_actions names' infos' newDataList
      end
  | _, _ => Ok newDataList
  end.

(** One assignment of a lab or vitals node.  The value text is parsed only
    for a variable of the table that was requested and is not GFR.  An
    infinity fails the test against "ridiculous values" ([-inf] is below
    TDF_SMALLEST_VALID_VALUE and [inf] is at least [10 * labMaxVal]).  A NaN
    passes that test and the two clipping tests, because every comparison
    with a NaN is False, and is stored as it is. *)
Definition store_lab (data : gmap string Q) (assignment : string * LabText)
  : result (gmap string Q) :=
  let '(labName, labvalueStr) := assignment in
  match g_LabValueInfo !! labName with
  | None => Ok data
  | Some labInfo =>
      let labMinVal := minVal labInfo in
      let labMaxVal := maxVal labInfo in
      if negb (requested labName) then Ok data
      else if String.eqb labName "GFR" then Ok data
      else
        match labvalueStr with
        | NoFloat => Ok data
        | Infinity _ => Ok data
        | NotANumber => Raise (OutsideModel "NaN in a snapshot")
        | Number labValueFloat =>
            if Qltb labValueFloat TDF_SMALLEST_VALID_VALUE
               || Qgeb labValueFloat (10 * labMaxVal) then Ok data
            else
              let labValueFloat :=
                if Qltb labValueFloat labMinVal then labMinVal else labValueFloat in
              let labValueFloat :=
                if Qgtb labValueFloat labMaxVal then labMaxVal else labValueFloat in
              Ok (<[labName := labValueFloat]> data)
        end
  end.

(** The loop [for assignment in assignmentList]. *)
Fixpoint store_labs (assignmentList : list (string * LabText)) (data : gmap string Q)
  : result (gmap string Q) :=
  match assignmentList with
  | [] => Ok data
  | assignment :: assignmentList' =>
      data ← store_lab data assignment;
      store_labs assignmentList' data
  end.

Definition ProcessDataNodeForwardImpl (dataNode : DataNode) (labDateDays : Z)
    (latestTimelineEntryDataList : gmap string Q) : result (gmap string Q) :=
  let dataClass := node_C dataNode in
  data ←
    (if String.eqb dataClass "L" || String.eqb dataClass "V"
     then store_labs (node_text dataNode) latestTimelineEntryDataList
     else Ok latestTimelineEntryDataList);
  if requested "AgeInYrs"
  then Ok (<["AgeInYrs" := inject_Z (py_int (inject_Z labDateDays / 365))]> data)
  else Ok data.

(** CalculateDerivedValuesFORWARDPass.  The branch for BaselineCr is
    modelled; the formulas of the other calculated variables (GFR, MELD,
    ...) are outside the model.  [baselineCrSeries] is the reader field,
    [None] for Python's None. *)
Definition CalculateDerivedValuesFORWARDPass (varName : string) (currentDayNum : Z)
    (varValueDict : gmap string Q) (baselineCrSeries : option CTimeSeries)
  : result (gmap string Q * option CTimeSeries) :=
  if String.eqb varName "BaselineCr" then
    let currrentCr := py_get_or varValueDict "Cr" TDF_INVALID_VALUE in
    series ←
      (if Qgtb currrentCr TDF_SMALLEST_VALID_VALUE then
         match baselineCrSeries with
         | None => Raise (AttributeError "AddNewValue")
         | Some series => CTimeSeries_AddNewValue series currrentCr currentDayNum 0
         end
       else
         match baselineCrSeries with
         | None => Raise (AttributeError "GetLowestValue")
         | Some series => Ok series
         end);
    match CTimeSeries_GetLowestValue series with
    | None => Raise (OutsideModel "None in a snapshot")
    | Some result => Ok (<[varName := result]> varValueDict, Some series)
    end
  else Raise (OutsideModel varName).

(** The loop over the calculated variables at the end of each node. *)
Fixpoint calculate_derived (names : list string) (infos : list (option LabInfo))
    (labDateDays : Z) (data : gmap string Q) (baselineCrSeries : option CTimeSeries)
  : result (gmap string Q * option CTimeSeries) :=
  match names, infos with
  | labName :: names', labInfo :: infos' =>
      '(data, baselineCrSeries) ←
        (match labInfo with
         | Some info =>
             if Calculated info
             then CalculateDerivedValuesFORWARDPass labName labDateDays data baselineCrSeries
             else Ok (data, baselineCrSeries)
         | None => Ok (data, baselineCrSeries)
         end);
      calculate_derived names' infos' labDateDays data baselineCrSeries
  | _, _ => Ok (data, baselineCrSeries)
  end.

(** The state of the forward loop.  [self.latestTimelineEntryDataList] and
    the 'data' of [self.latestTimeLineEntry] are one dict: the model keeps
    it in [fs_data], apart from the entries that are finished. *)
Record ForwardState : Type := mkForwardState {
  fs_finished : list TimelineEntry;
  fs_latestTimeLineEntry : option (Z * Z);      (* its TimeDays and TID *)
  fs_data : gmap string Q;
  fs_currentTimelinePointID : Z;
  fs_baselineCrSeries : option CTimeSeries
}.

Definition fs_timeline (st : ForwardState) : list TimelineEntry :=
  match fs_latestTimeLineEntry st with
  | None => fs_finished st
  | Some (days, tid) => fs_finished st ++ [mkTimelineEntry days tid (fs_data st)]
  end.

(** The body of the forward loop for a data node. *)
Definition forward_node (savedInitialDataList : gmap string Q)
    (st : ForwardState) (currentNode : DataNode) : result ForwardState :=
  let labDateDays := node_T currentNode in
  let latestTimeLineEntryTimeDays :=
    match fs_latestTimeLineEntry st with
    | Some (days, _) => days
    | None => TDF_INVALID_DATE
    end in
  let reuseLatestData := latestTimeLineEntryTimeDays =? labDateDays in
  st ←
    (if reuseLatestData && bool_decide (is_Some (fs_latestTimeLineEntry st))
     then Ok st
     else
       let currentTimelinePointID := fs_currentTimelinePointID st + 1 in
       newDataList ←
         apply_period_actions allValueVarNameList allValuesLabInfoList
           (if fCarryForwardPreviousDataValues then fs_data st else savedInitialDataList);
       Ok (mkForwardState (fs_timeline st) (Some (labDateDays, currentTimelinePointID))
             newDataList currentTimelinePointID (fs_baselineCrSeries st)));
  data ← ProcessDataNodeForwardImpl currentNode labDateDays (fs_data st);
  '(data, series) ←
    calculate_derived allValueVarNameList allValuesLabInfoList labDateDays data
      (fs_baselineCrSeries st);
  Ok (mkForwardState (fs_finished st) (fs_latestTimeLineEntry st) data
        (fs_currentTimelinePointID st) series).

Fixpoint forward_pass (savedInitialDataList : gmap string Q)
    (st : ForwardState) (nodes : list DataNode) : result ForwardState :=
  match nodes with
  | [] => Ok st
  | currentNode :: nodes' =>
      st ← forward_node savedInitialDataList st currentNode;
      forward_pass savedInitialDataList st nodes'
  end.

(** CompileTimelineImpl: the forward pass, the second forward sweep and the
    reverse pass.  It returns [self.CompiledTimeline] and the milestone
    fields.  Note the lower-case key in the test that creates the baseline
    series. *)
Definition CompileTimelineImpl (patient : PatientAttributes) (nodes : list DataNode)
  : result (list TimelineEntry * Milestones) :=
  let latestTimelineEntryDataList := initial_data patient in
  let savedInitialDataList := latestTimelineEntryDataList in
  let baselineCrSeries :=
    if requested "baselineCr" then Some (CTimeSeries_init 7) else None in
  st ← forward_pass savedInitialDataList
         (mkForwardState [] None latestTimelineEntryDataList (-1) baselineCrSeries)
         nodes;
  let CompiledTimeline := fs_timeline st in
  let milestones := second_forward_sweep Milestones_init CompiledTimeline in
  let '(_, CompiledTimeline) :=
    reverse_pass allValueVarNameList CompiledTimeline TDF_INVALID_VALUE in
  Ok (CompiledTimeline, milestones).

End Forward.

(** *** Vocabulary for the milestone and baseline properties *)

(** One stage of a score: crossing into it records the day unless a day is
    recorded, leaving it clears the record. *)
Definition stage_step (met : bool) (date currentDayNum : Z) : Z :=
  if met then set_if_unset date currentDayNum else TDF_INVALID_DATE.

(** The onset a sequence of (day, score) observations specifies for a stage
    with criterion [met]: the first day from which every observation to the
    end of the record meets the criterion, no date when the last one does
    not. *)
Fixpoint onset_spec (met : Q -> bool) (scores : list (Z * Q)) : Z :=
  match scores with
  | [] => TDF_INVALID_DATE
  | (day, score) :: later =>
      if forallb (fun ds => met (snd ds)) scores then day
      else onset_spec met later
  end.

(** The valid scores of a variable along a timeline, with their days. *)
Definition valid_scores (valueName : string) (CompiledTimeline : list TimelineEntry)
  : list (Z * Q) :=
  omap (fun timelineEntry =>
          match data timelineEntry !! valueName with
          | Some score =>
              if Qltb score TDF_SMALLEST_VALID_VALUE then None
              else Some (TimeDays timelineEntry, score)
          | None => None
          end)
       CompiledTimeline.

(** The stages the sweep tracks, with the reader field that holds the
    onset, the score variable and the criterion of each. *)
Inductive Stage : Type :=
| CKD5 | CKD4 | CKD3b | CKD3a | MELD40 | MELD30 | MELD20 | MELD10.

Definition stage_date (st : Stage) (self : Milestones) : Z :=
  match st with
  | CKD5 => StartCKD5Date self
  | CKD4 => StartCKD4Date self
  | CKD3b => StartCKD3bDate self
  | CKD3a => StartCKD3aDate self
  | MELD40 => StartMELD40Date self
  | MELD30 => StartMELD30Date self
  | MELD20 => StartMELD20Date self
  | MELD10 => StartMELD10Date self
  end.

Definition stage_score (st : Stage) : string :=
  match st with
  | CKD5 | CKD4 | CKD3b | CKD3a => "GFR"
  | MELD40 | MELD30 | MELD20 | MELD10 => "MELD"
  end.

Definition stage_met (st : Stage) (score : Q) : bool :=
  match st with
  | CKD5 => Qltb score 15
  | CKD4 => Qltb score 30
  | CKD3b => Qltb score 45
  | CKD3a => Qltb score 60
  | MELD40 => Qgeb score 40
  | MELD30 => Qgeb score 30
  | MELD20 => Qgeb score 20
  | MELD10 => Qgeb score 10
  end.

(** A TimePoint carrying one valid score. *)
Definition score_entry (st : Stage) (day : Z) (score : Q) : TimelineEntry :=
  mkTimelineEntry day 0 {[stage_score st := score]}.

(** The scenario of the acute-state example: creatinine 1.0 on day 100, 2.9
    on day 103, 1.4 on days 110 and 120, with the baseline of the trailing 7
    days as the forward pass is documented to leave it. *)
Definition aki_scenario : list TimelineEntry :=
  [mkTimelineEntry 100 0 (<["Cr" := 1%Q]> {["BaselineCr" := 1%Q]});
   mkTimelineEntry 103 1 (<["Cr" := 29 # 10]> {["BaselineCr" := 1%Q]});
   mkTimelineEntry 110 2 (<["Cr" := 14 # 10]> {["BaselineCr" := 14 # 10]});
   mkTimelineEntry 120 3 (<["Cr" := 14 # 10]> {["BaselineCr" := 14 # 10]})].

(** The same scenario as raw lab nodes, and a record with creatinine values
    ten days apart. *)
Definition aki_scenario_nodes : list DataNode :=
  [mkDataNode "L" 100 [("Cr", Number 1)];
   mkDataNode "L" 103 [("Cr", Number (29 # 10))];
   mkDataNode "L" 110 [("Cr", Number (14 # 10))];
   mkDataNode "L" 120 [("Cr", Number (14 # 10))]].

Definition ten_days_apart_nodes : list DataNode :=
  [mkDataNode "L" 100 [("Cr", Number 1)]; mkDataNode "L" 110 [("Cr", Number (12 # 10))]].

Definition a_patient : PatientAttributes := mkPatient 1 70 1.

End Compile.

(** ** tdfTools.py: scanning a byte partition of the file *)
Module Partition.

(** The file is its bytes; the reader's handle is a position in it. *)
Definition newline : byte := x0a.

(** [fileHandle.readline()] on the bytes from the handle's position: the
    bytes up to and including the first newline, all of them when there is
    none, nothing at the end of the file. *)
Fixpoint take_line (bytes : list byte) : list byte :=
  match bytes with
  | [] => []
  | b :: rest => if Byte.eqb b newline then [b] else b :: take_line rest
  end.

Definition readline (file : list byte) (pos : Z) : list byte :=
  take_line (drop (Z.to_nat pos) file).

(** The lines that successive calls of readline return. *)
Fixpoint split_lines (bytes : list byte) : list (list byte) :=
  match bytes with
  | [] => []
  | b :: rest =>
      if Byte.eqb b newline then [b] :: split_lines rest
      else match split_lines rest with
           | [] => [[b]]
           | line :: lines => (b :: line) :: lines
           end
  end.

(** [seek(pos, 0)] followed by readline calls. *)
Definition lines_from (file : list byte) (pos : Z) : list (list byte) :=
  split_lines (drop (Z.to_nat pos) file).

(** [binaryLine.decode("ascii", "ignore")] drops the bytes above 127. *)
Definition decode_ascii_ignore (binaryLine : list byte) : list byte :=
  List.filter (fun b => (Byte.to_N b <? 128)%N) binaryLine.

Definition is_T (b : byte) : bool := Byte.eqb b x54 || Byte.eqb b x74.
Definition is_L (b : byte) : bool := Byte.eqb b x4c || Byte.eqb b x6c.

(** [re.compile('<TL', re.IGNORECASE).match(currentLine)] *)
Definition openElement_match (currentLine : list byte) : bool :=
  match currentLine with
  | b0 :: b1 :: b2 :: _ => Byte.eqb b0 x3c && is_T b1 && is_L b2
  | _ => false
  end.

(** [re.compile('</TL>', re.IGNORECASE).match(currentLine)] *)
Definition closeElement_match (currentLine : list byte) : bool :=
  match currentLine with
  | b0 :: b1 :: b2 :: b3 :: b4 :: _ =>
      Byte.eqb b0 x3c && Byte.eqb b1 x2f && is_T b2 && is_L b3 && Byte.eqb b4 x3e
  | _ => false
  end.

(** A found timeline [{"start": ..., "stop": ...}]. *)
Definition fragment : Type := (Z * Z)%type.

(** The loop of FindAllTimelinesInPartition.  [lines] are the lines still to
    be read and [pos] is [fileHandle.tell()]; the result is
    [(resultTimelinePositionLists, fEOF)]. *)
Fixpoint find_timelines (stopPartition : Z) (lines : list (list byte))
    (currentLinePositonInFile : Z) (fFoundOpenElement : bool)
    (currentOpenElementPosition : Z) (resultTimelinePositionLists : list fragment)
  : list fragment * bool :=
  if negb fFoundOpenElement && (0 <? stopPartition)
     && (stopPartition <=? currentLinePositonInFile)
  then (resultTimelinePositionLists, false)
  else
    match lines with
    | [] => (resultTimelinePositionLists, true)
    | binaryLine :: lines' =>
        let currentLine := decode_ascii_ignore binaryLine in
        let next := currentLinePositonInFile + Z.of_nat (length binaryLine) in
        match currentLine with
        | [] => (resultTimelinePositionLists, true)
        | _ =>
            if fFoundOpenElement then
              if closeElement_match currentLine then
                let currentCloseElementPosition :=
                  currentLinePositonInFile + Z.of_nat (length currentLine) in
                find_timelines stopPartition lines' next false currentOpenElementPosition
                  (resultTimelinePositionLists
                   ++ [(currentOpenElementPosition, currentCloseElementPosition)])
              else
                find_timelines stopPartition lines' next true currentOpenElementPosition
                  resultTimelinePositionLists
            else
              if openElement_match currentLine then
                find_timelines stopPartition lines' next true currentLinePositonInFile
                  resultTimelinePositionLists
              else
                find_timelines stopPartition lines' next false currentOpenElementPosition
                  resultTimelinePositionLists
        end
    end.

Definition TDF_INVALID_POSITION : Z := -314159.

Definition FindAllTimelinesInPartition (file : list byte)
    (startPartition stopPartition : Z) : list fragment * bool :=
  find_timelines stopPartition (lines_from file startPartition) startPartition
    false TDF_INVALID_POSITION [].

(** [CreateFilePartitionList]: the loop
    [while (partitionStartPos < fileLength)].  With a positive partition
    size it runs at most [fileLength] times; [None] is a loop that is still
    running after that many partitions (it never ends when the size is not
    positive). *)
Fixpoint partition_list (n : nat) (partitionSizeInBytes fileLength partitionStartPos : Z)
  : option (list (Z * Z)) :=
  if partitionStartPos <? fileLength then
    match n with
    | O => None
    | S n' =>
        let partitionStopPos :=
          Z.min (partitionStartPos + partitionSizeInBytes) fileLength in
        cons (partitionStartPos, partitionStopPos)
          <$> partition_list n' partitionSizeInBytes fileLength partitionStopPos
    end
  else Some [].

Definition CreateFilePartitionList (file : list byte) (partitionSizeInBytes : Z)
  : option (list (Z * Z)) :=
  let fileLength := Z.of_nat (length file) in
  partition_list (length file) partitionSizeInBytes fileLength 0.

(** *** Vocabulary for the partition property *)

(** Contiguous, non-overlapping, non-empty partitions covering [from, to). *)
Fixpoint contiguous (from : Z) (partitions : list (Z * Z)) (to : Z) : Prop :=
  match partitions with
  | [] => from = to
  | (start, stop) :: rest => start = from /\ start < stop /\ contiguous stop rest to
  end.

(** Scanning every partition on its own and concatenating the results in
    partition order. *)
Definition scan_partitions (file : list byte) (partitions : list (Z * Z))
  : list fragment :=
  concat (map (fun p => fst (FindAllTimelinesInPartition file (fst p) (snd p)))
              partitions).

(** One scan of the whole file as a single partition. *)
Definition scan_whole (file : list byte) : list fragment :=
  fst (FindAllTimelinesInPartition file 0 (Z.of_nat (length file))).

(** No line that starts with the opening tag lies inside an open timeline:
    along the lines, between a line matching the opening tag and the next
    line matching the closing tag no line matches the opening tag. *)
Fixpoint tags_alternate (inside : bool) (lines : list (list byte)) : bool :=
  match lines with
  | [] => true
  | binaryLine :: lines' =>
      let currentLine := decode_ascii_ignore binaryLine in
      if openElement_match currentLine
      then negb inside && tags_alternate true lines'
      else if closeElement_match currentLine
      then tags_alternate false lines'
      else tags_alternate inside lines'
  end.

(** A byte offset at the start of a line. *)
Definition is_line_start (file : list byte) (pos : Z) : bool :=
  (pos =? 0)
  || match file !! Z.to_nat (pos - 1) with
     | Some b => Byte.eqb b newline
     | None => false
     end.

(** A partition boundary that does not create an opening tag: it lies at
    the start of a line, or the rest of its line does not start with the
    opening tag. *)
Definition clean_cut (file : list byte) (pos : Z) : bool :=
  is_line_start file pos
  || negb (openElement_match (decode_ascii_ignore (readline file pos))).

(** A file whose only timeline starts with an indented opening tag. *)
Definition indented_file : list byte :=
  list_byte_of_string " <TL id=1>" ++ [newline]
  ++ list_byte_of_string "</TL>" ++ [newline].

(** A file with an opening tag inside an open timeline. *)
Definition nested_file : list byte :=
  list_byte_of_string "<TL>" ++ [newline]
  ++ list_byte_of_string "<TL>" ++ [newline]
  ++ list_byte_of_string "</TL>" ++ [newline].

(** A file with the header line that TDFFileWriter.WriteHeader indents, and
    one timeline. *)
Definition header_file : list byte :=
  list_byte_of_string "<Head>" ++ [newline]
  ++ list_byte_of_string "    <TLLocationIndex></TLLocationIndex>" ++ [newline]
  ++ list_byte_of_string "</Head>" ++ [newline]
  ++ list_byte_of_string "<TimelineList>" ++ [newline]
  ++ list_byte_of_string "<TL id=1>" ++ [newline]
  ++ list_byte_of_string "</TL>" ++ [newline].

(** A file with two timelines, as the writer lays them out. *)
Definition two_timelines_file : list byte :=
  list_byte_of_string "<TL id=1>" ++ [newline]
  ++ list_byte_of_string "<E>x</E>" ++ [newline]
  ++ list_byte_of_string "</TL>" ++ [newline]
  ++ list_byte_of_string "<tl id=2>" ++ [newline]
  ++ list_byte_of_string "</tl>" ++ [newline].

End Partition.

(** ** tdfTimeFunctions.py: what the windows hold *)
Module Windows.
Import TimeFunctions.

(** One call of ComputeNewValue: the value, day and minute it is given. *)
Record Observation : Type := mkObs { o_value : Q; o_day : Z; o_min : Z }.

Definition entry_of (o : Observation) : Entry :=
  mkEntry (o_value o) (o_day o) (o_min o).

(** Day stamps never go back along a history, as on a compiled timeline. *)
Definition days_ascend (history : list Observation) : Prop :=
  StronglySorted Z.le (map o_day history).

(** The observations made at most [N] days before [dayNum]. *)
Definition in_window (N dayNum : Z) (history : list Observation) : list Observation :=
  List.filter (fun o => dayNum - o_day o <=? N) history.

(** What a queue of span [N] holds after the observations of a history:
    the latest one, and before it those made at most [N] days earlier. *)
Definition window_contents (N : Z) (history : list Observation) : list Entry :=
  match rev history with
  | [] => []
  | latest :: earlier =>
      map entry_of (in_window N (o_day latest) (rev earlier)) ++ [entry_of latest]
  end.

(** The queues of an object, each with its span; the entries of
    CAccelerationValue without their rate. *)
Definition queues (f : FunctionObject) : list (Z * list Entry) :=
  match f with
  | ObjGeneric o => []
  | ObjAcceleration o =>
      [(acc_MaxDaysInQueue o,
        map (fun e => mkEntry (r_v e) (r_d e) (r_m e)) (acc_ValueQueue o))]
  | ObjDelta o => [(delta_MaxDaysInQueue o, delta_ValueQueue o)]
  | ObjSum o => [(sum_MaxDaysInQueue o, sum_ValueQueue o)]
  | ObjRunningAvg o => [(avg_MaxDaysInQueue o, avg_ValueQueue o)]
  | ObjRate o => [(rate_MaxDaysInQueue o, rate_ValueQueue o)]
  | ObjRateCross o =>
      [(rate_MaxDaysInQueue (rc_shortRate o), rate_ValueQueue (rc_shortRate o));
       (rate_MaxDaysInQueue (rc_longRate o), rate_ValueQueue (rc_longRate o))]
  | ObjBollinger o => [(boll_MaxDaysInQueue o, boll_ValueQueue o)]
  | ObjRange o => [(range_MaxDaysInQueue o, range_ValueQueue o)]
  | ObjPercentChange o => [(pct_MaxDaysInQueue o, pct_ValueQueue o)]
  | ObjThreshold o => [(thr_MaxDaysInQueue o, thr_ValueQueue o)]
  | ObjVolatility o => [(vol_MaxDaysInQueue o, vol_ValueQueue o)]
  | ObjIsStable o =>
      [(range_MaxDaysInQueue (stable_RangeVar o), range_ValueQueue (stable_RangeVar o))]
  end.

(** [x] is the least, the greatest of the queued values. *)
Definition least (x : Q) (queue : list Entry) : Prop :=
  Exists (fun e => (x == e_v e)%Q) queue /\ Forall (fun e => (x <= e_v e)%Q) queue.

Definition greatest (x : Q) (queue : list Entry) : Prop :=
  Exists (fun e => (x == e_v e)%Q) queue /\ Forall (fun e => (e_v e <= x)%Q) queue.

(** No observation carries the value that the code reads as "not set". *)
Definition values_set (history : list Observation) : Prop :=
  Forall (fun o => ~ (o_value o == TDF_INVALID_VALUE)%Q) history.

(** The tracked bounds of CRangeValue and CThresholdValue between calls:
    both unset, or the least and the greatest queued value. *)
Definition bounds_ok (queue : list Entry) (MinValue MaxValue : Q) : Prop :=
  (is_INVALID MinValue = true /\ is_INVALID MaxValue = true)
  \/ (is_INVALID MinValue = false /\ is_INVALID MaxValue = false
      /\ least MinValue queue /\ greatest MaxValue queue).

Definition entries_set (queue : list Entry) : Prop :=
  Forall (fun e => is_INVALID (e_v e) = false) queue.

Section Feed.
Variable stdev : list Q -> Q.

(** The object after ComputeNewValue has been called for each observation
    of a history, in order. *)
Definition feed (f : FunctionObject) (history : list Observation) : FunctionObject :=
  fold_left (fun f o => fst (ComputeNewValue stdev f (o_value o) (o_day o) (o_min o)))
            history f.

(** The value that ComputeNewValue returns for [latest] after the
    observations of [history], starting from the reset object. *)
Definition output (f : FunctionObject) (history : list Observation)
    (latest : Observation) : Q :=
  snd (ComputeNewValue stdev (feed (Reset f) history)
         (o_value latest) (o_day latest) (o_min latest)).

End Feed.

(** Observations of days 100, 103 and 109. *)
Definition three_observations : list Observation :=
  [mkObs 1 100 0; mkObs 2 103 0; mkObs 4 109 0].

End Windows.

(** ** tdfTools.py: reading one timeline at a time *)
Module Reader.
Import Partition.

(** [str.isspace()] on the characters of a decoded line. *)
Definition is_space (b : byte) : bool :=
  let n := Byte.to_N b in
  (((9 <=? n) && (n <=? 13)) || ((28 <=? n) && (n <=? 32)))%N.

(** [str.lstrip()], [str.rstrip()] and [str.lower()]. *)
Fixpoint lstrip (s : list byte) : list byte :=
  match s with
  | [] => []
  | b :: s' => if is_space b then lstrip s' else s
  end.

Definition rstrip (s : list byte) : list byte := rev (lstrip (rev s)).

Definition byte_lower (b : byte) : byte :=
  let n := Byte.to_N b in
  if ((65 <=? n) && (n <=? 90))%N
  then match Byte.of_N (n + 32) with Some c => c | None => b end
  else b.

Definition lower (s : list byte) : list byte := map byte_lower s.

(** [s.startswith(prefix)] *)
Fixpoint startswith (prefix s : list byte) : bool :=
  match prefix, s with
  | [], _ => true
  | _ :: _, [] => false
  | p :: prefix', b :: s' => Byte.eqb p b && startswith prefix' s'
  end.

Definition TIMELINE_OPEN_ELEMENT_PREFIX_CASE_INDEPENDANT : list byte :=
  list_byte_of_string "<tl".
Definition TIMELINE_CLOSE_ELEMENT_CASE_INDEPENDANT : list byte :=
  list_byte_of_string "</tl>".

(** What ReadNextTimelineXMLStrImpl returns and leaves behind:
    [(fFoundTimeline, fEOF, startTimelinePosInFile, stopTimelinePosInFile)],
    [self.currentTimelineNodeStr] and the position of the file handle. *)
Record ReadOutcome : Type := mkReadOutcome {
  fFoundTimeline : bool;
  fEOF : bool;
  startTimelinePosInFile : Z;
  stopTimelinePosInFile : Z;
  currentTimelineNodeStr : list byte;
  handle_position : Z
}.

(** The loop of ReadNextTimelineXMLStrImpl.  [lines] are the lines still to
    be read and [currentLinePositon] is [self.fileHandle.tell()]. *)
Fixpoint read_timeline (stopPartition : Z) (lines : list (list byte))
    (currentLinePositon : Z) (fStartedTimelineSection : bool)
    (startPos : Z) (nodeStr : list byte) : ReadOutcome :=
  if (0 <? stopPartition) && (stopPartition <=? currentLinePositon)
     && negb fStartedTimelineSection
  then mkReadOutcome false false startPos TDF_INVALID_POSITION nodeStr currentLinePositon
  else
    match lines with
    | [] => mkReadOutcome false true startPos TDF_INVALID_POSITION nodeStr currentLinePositon
    | binaryLine :: lines' =>
        let currentLine := decode_ascii_ignore binaryLine in
        let next := currentLinePositon + Z.of_nat (length binaryLine) in
        match currentLine with
        | [] => mkReadOutcome false true startPos TDF_INVALID_POSITION nodeStr next
        | _ =>
            let lineTokenText := lower (rstrip (lstrip currentLine)) in
            let opens :=
              negb fStartedTimelineSection
              && startswith TIMELINE_OPEN_ELEMENT_PREFIX_CASE_INDEPENDANT lineTokenText in
            let fStarted := if opens then true else fStartedTimelineSection in
            let startPos := if opens then currentLinePositon else startPos in
            let nodeStr := if fStarted then nodeStr ++ currentLine else nodeStr in
            if startswith TIMELINE_CLOSE_ELEMENT_CASE_INDEPENDANT lineTokenText && fStarted
            then mkReadOutcome true false startPos next nodeStr next
            else read_timeline stopPartition lines' next fStarted startPos nodeStr
        end
    end.

(** ReadNextTimelineXMLStrImpl with the file handle at [pos]. *)
Definition ReadNextTimelineXMLStrImpl (file : list byte) (pos stopPartition : Z)
  : ReadOutcome :=
  read_timeline stopPartition (lines_from file pos) pos false TDF_INVALID_POSITION [].

(** The text that ReadTimelineAtKnownPosition reads and decodes:
    [seek(start); read(stop - start)], then [decode("ascii", "ignore")]. *)
Definition ReadTimelineAtKnownPosition_text (file : list byte)
    (startTimelinePosInFile stopTimelinePosInFile : Z) : list byte :=
  let timelineLength := stopTimelinePosInFile - startTimelinePosInFile in
  decode_ascii_ignore
    (take (Z.to_nat timelineLength) (drop (Z.to_nat startTimelinePosInFile) file)).


(** A file with a header line, an indented timeline and a second timeline. *)
Definition indented_timelines_file : list byte :=
  list_byte_of_string "<TimelineList>" ++ [newline]
  ++ list_byte_of_string "  <TL id=1>" ++ [newline]
  ++ list_byte_of_string "    <D C=L T=01:00:00>Cr=1</D>" ++ [newline]
  ++ list_byte_of_string "  </TL>" ++ [newline]
  ++ list_byte_of_string "<tl id=2>" ++ [newline]
  ++ list_byte_of_string "</tl>" ++ [newline].

End Reader.

(** ** tdfTools.py: outcome categories, normalised values, fetch bounds *)
Module Fetch.
Import LabValues Query.

Definition TDF_FUTURE_EVENT_CATEGORY_NOW_OR_PAST : Z := 0.
Definition TDF_FUTURE_EVENT_CATEGORY_IN_1_DAY : Z := 1.
Definition TDF_FUTURE_EVENT_CATEGORY_IN_7_DAYS : Z := 2.
Definition TDF_FUTURE_EVENT_CATEGORY_IN_30_DAYS : Z := 3.
Definition TDF_FUTURE_EVENT_CATEGORY_IN_365_DAYS : Z := 4.
Definition TDF_FUTURE_EVENT_CATEGORY_IN_3650_DAYS : Z := 5.
Definition TDF_FUTURE_EVENT_CATEGORY_NOT_IN_10YRS : Z := 6.
Definition TDF_NUM_FUTURE_EVENT_CATEGORIES : Z := 7.
Definition TDF_MAX_FUTURE_EVENT_CATEGORY : Z := TDF_NUM_FUTURE_EVENT_CATEGORIES - 1.

(** The dict [g_CategoryToNumDays], as its list of items. *)
Definition g_CategoryToNumDays : list (Z * Z) :=
  [(TDF_FUTURE_EVENT_CATEGORY_NOW_OR_PAST, 0);
   (TDF_FUTURE_EVENT_CATEGORY_IN_1_DAY, 1);
   (TDF_FUTURE_EVENT_CATEGORY_IN_7_DAYS, 7);
   (TDF_FUTURE_EVENT_CATEGORY_IN_30_DAYS, 30);
   (TDF_FUTURE_EVENT_CATEGORY_IN_365_DAYS, 365);
   (TDF_FUTURE_EVENT_CATEGORY_IN_3650_DAYS, 3650);
   (TDF_FUTURE_EVENT_CATEGORY_NOT_IN_10YRS, 10000)].

Definition ComputeOutcomeCategory (currentDate outcomeDate : Z) : Z :=
  if outcomeDate <? 0 then TDF_FUTURE_EVENT_CATEGORY_NOT_IN_10YRS
  else
    let daysUntilOutcome := outcomeDate - currentDate in
    if daysUntilOutcome <=? 0 then TDF_FUTURE_EVENT_CATEGORY_NOW_OR_PAST
    else if daysUntilOutcome <=? 1 then TDF_FUTURE_EVENT_CATEGORY_IN_1_DAY
    else if daysUntilOutcome <=? 7 then TDF_FUTURE_EVENT_CATEGORY_IN_7_DAYS
    else if daysUntilOutcome <=? 30 then TDF_FUTURE_EVENT_CATEGORY_IN_30_DAYS
    else if daysUntilOutcome <=? 365 then TDF_FUTURE_EVENT_CATEGORY_IN_365_DAYS
    else if daysUntilOutcome <=? 3650 then TDF_FUTURE_EVENT_CATEGORY_IN_3650_DAYS
    else TDF_FUTURE_EVENT_CATEGORY_NOT_IN_10YRS.

(** [TDF_NormalizeInputValue]; [float] is the identity on [Q]. *)
Definition TDF_NormalizeInputValue (labValue minVal maxVal : Q) : Q :=
  let labValue := if Qltb labValue minVal then minVal else labValue in
  let labValue := if Qgtb labValue maxVal then maxVal else labValue in
  let valRange := (maxVal - minVal)%Q in
  let offset := (labValue - minVal)%Q in
  let normalFloatValue := if Qgtb valRange 0 then (offset / valRange)%Q else 0%Q in
  py_round2 (normalFloatValue * 100).

(** The two fields of a [g_LabValueInfo] entry that GetBoundsForDataFetch
    reads, [numFutureDaysNeeded] after [int()]. *)
Record FutureInfo : Type := mkFutureInfo {
  FuturePredictedValue : string;
  numFutureDaysNeeded : Z
}.

Definition ANY_EVENT_OR_VALUE : string := "ANY".

(** [TDF_INVALID_VALUE] where an index is returned. *)
Definition TDF_INVALID_INDEX : Z := -314159.

(** [(NameOfFutureLabValue == ANY_EVENT_OR_VALUE) or (NameOfFutureLabValue in
    futureDataValues)]. *)
Definition has_future_value (NameOfFutureLabValue : string)
    (timelineEntry : TimelineEntry) : bool :=
  String.eqb NameOfFutureLabValue ANY_EVENT_OR_VALUE
  || bool_decide (is_Some (data timelineEntry !! NameOfFutureLabValue)).

Section Bounds.
Variable CompiledTimeline : list TimelineEntry.

(** The first [while (lastTimelineIndex >= firstTimelineIndex)]: down from
    [lastTimelineIndex] to the latest entry that holds the future value.
    [n] is the number of iterations the test allows; the result is
    [(lastTimelineIndex, futureDayNum)]. *)
Fixpoint find_future_day (NameOfFutureLabValue : string) (n : nat)
    (lastTimelineIndex : Z) : result (Z * Z) :=
  match n with
  | O => Ok (lastTimelineIndex, TDF_INVALID_INDEX)
  | S n' =>
      timelineEntry ← py_index CompiledTimeline lastTimelineIndex;
      if has_future_value NameOfFutureLabValue timelineEntry
      then Ok (lastTimelineIndex, TimeDays timelineEntry)
      else find_future_day NameOfFutureLabValue n' (lastTimelineIndex - 1)
  end.

(** The second loop: further down to an entry of a day that is at most
    [futureDayNum]. *)
Fixpoint clip_to_day (futureDayNum : Z) (n : nat) (lastTimelineIndex : Z) : result Z :=
  match n with
  | O => Ok lastTimelineIndex
  | S n' =>
      timelineEntry ← py_index CompiledTimeline lastTimelineIndex;
      if TimeDays timelineEntry <=? futureDayNum then Ok lastTimelineIndex
      else clip_to_day futureDayNum n' (lastTimelineIndex - 1)
  end.

Definition GetBoundsForDataFetch (resultLabInfo : option FutureInfo) : result (Z * Z) :=
  let firstTimelineIndex := 0 in
  let lastTimelineIndex := LastTimeLineIndex CompiledTimeline in
  match resultLabInfo with
  | None => Ok (firstTimelineIndex, lastTimelineIndex)
  | Some resultLabInfo =>
      let NameOfFutureLabValue := FuturePredictedValue resultLabInfo in
      if negb (String.eqb NameOfFutureLabValue "")
         && (0 <? numFutureDaysNeeded resultLabInfo)
      then
        '(lastTimelineIndex, futureDayNum) ←
          find_future_day NameOfFutureLabValue
            (Z.to_nat (lastTimelineIndex - firstTimelineIndex + 1)) lastTimelineIndex;
        let futureDayNum := futureDayNum - numFutureDaysNeeded resultLabInfo in
        if futureDayNum <? 0 then Ok (TDF_INVALID_INDEX, TDF_INVALID_INDEX)
        else
          lastTimelineIndex ←
            clip_to_day futureDayNum
              (Z.to_nat (lastTimelineIndex - firstTimelineIndex + 1)) lastTimelineIndex;
          if lastTimelineIndex <? firstTimelineIndex
          then Ok (TDF_INVALID_INDEX, TDF_INVALID_INDEX)
          else Ok (firstTimelineIndex, lastTimelineIndex)
      else Ok (firstTimelineIndex, lastTimelineIndex)
  end.

End Bounds.

(** The entries of a compiled timeline are in day order. *)
Definition timeline_days_ascend (CompiledTimeline : list TimelineEntry) : Prop :=
  StronglySorted Z.le (map TimeDays CompiledTimeline).

(** A timeline with creatinine on days 100 and 103 and a death flag on day
    120. *)
Definition outcome_timeline : list TimelineEntry :=
  [mkTimelineEntry 100 0 {["Cr" := 1%Q]};
   mkTimelineEntry 103 1 {["Cr" := 2%Q]};
   mkTimelineEntry 120 2 {["Cr" := 2%Q; "Died" := 1%Q]}].

End Fetch.

(** ** tdfTimeFunctions.py: what the rate, volatility and stability
    functions compute over their window *)
Module WindowStats.
Import TimeFunctions Windows.

(** [x] is the largest distance between [value] and a queued value. *)
Definition largest_change (value x : Q) (queue : list Entry) : Prop :=
  Exists (fun e => (x == Qabs (value - e_v e))%Q) queue
  /\ Forall (fun e => (Qabs (value - e_v e) <= x)%Q) queue.

(** The sum of the distances between consecutive values. *)
Fixpoint total_variation (values : list Q) : Q :=
  match values with
  | a :: (b :: _) as rest => (Qabs (b - a) + total_variation rest)%Q
  | _ => 0%Q
  end.

End WindowStats.

(** ** tdfTools.py: the shape of a compiled timeline *)
Module Timeline.
Import TimeFunctions LabValues Query Compile.

(** The data nodes of a timeline come in day order, with days that are not
    negative. *)
Definition nodes_in_day_order (nodes : list DataNode) : Prop :=
  StronglySorted Z.le (map node_T nodes) /\ Forall (fun n => 0 <= node_T n) nodes.

(** The day and the TID of each entry. *)
Definition shape (CompiledTimeline : list TimelineEntry) : list (Z * Z) :=
  map (fun e => (TimeDays e, TID e)) CompiledTimeline.

(** Days strictly increase along the timeline, and the TID of an entry is
    its index. *)
Definition one_entry_per_day (CompiledTimeline : list TimelineEntry) : Prop :=
  StronglySorted Z.lt (map TimeDays CompiledTimeline)
  /\ forall (i : nat) e, CompiledTimeline !! i = Some e -> TID e = Z.of_nat i.

(** What the forward loop keeps between nodes. *)
Definition forward_inv (st : ForwardState) : Prop :=
  let sh := shape (fs_timeline st) in
  StronglySorted Z.lt (map fst sh)
  /\ (forall (i : nat) p, sh !! i = Some p -> snd p = Z.of_nat i)
  /\ fs_currentTimelinePointID st = Z.of_nat (length sh) - 1
  /\ match fs_latestTimeLineEntry st with
     | Some (days, _) => days ∈ map fst sh /\ Forall (fun x => x <= days) (map fst sh)
     | None => sh = []
     end.

End Timeline.

(** ** tdfTools.py: what a forward search of GetNamedValueFromTimeline finds *)
Module Search.
Import TimeFunctions LabValues Query.

(** The snapshot of an entry holds no usable value of a variable: the
    variable is absent, or its value is TDF_INVALID_VALUE. *)
Definition no_value (valueName : string) (timelineEntry : TimelineEntry) : Prop :=
  match data timelineEntry !! valueName with
  | None => True
  | Some x => (x == TDF_INVALID_VALUE)%Q
  end.

(** Two entries before the range [105, 110] asked for from day 100. *)
Definition short_timeline : list TimelineEntry :=
  [mkTimelineEntry 100 0 {["Cr" := 1%Q]}; mkTimelineEntry 103 1 {["Cr" := 2%Q]}].

End Search.

(** ** tdfTools.py: time stamps *)
Module TimeStamp.

(** [str(n)] for an int. *)
Definition py_str (n : Z) : string := NilZero.string_of_int (Z.to_int n).

(** [int(s)] for a string made of an optional minus sign and decimal
    digits.  [None] stands for every other string: Python raises ValueError
    on most of them, and accepts a few forms that are outside the model (a
    plus sign, surrounding white space, underscores between digits). *)
Definition py_int_of_string (s : string) : option Z :=
  Z.of_int <$> NilZero.int_of_string s.

(** ["{:0>2d}".format(n)]: [str(n)] padded on the left with '0' to two
    characters. *)
Fixpoint zeros (n : nat) (s : string) : string :=
  match n with
  | O => s
  | S n' => String "0" (zeros n' s)
  end.

Definition format_02d (n : Z) : string :=
  let s := py_str n in zeros (2 - String.length s) s.

Definition TDF_MakeTimeStamp (days hours minutes : Z) : string :=
  format_02d days +:+ ":" +:+ format_02d hours +:+ ":" +:+ format_02d minutes.

(** [s.split(sep)] for a separator of one character. *)
Fixpoint split (sep : ascii) (s : string) : list string :=
  match s with
  | EmptyString => [EmptyString]
  | String c s' =>
      if Ascii.eqb c sep then EmptyString :: split sep s'
      else match split sep s' with
           | word :: words => String c word :: words
           | [] => [String c EmptyString]
           end
  end.

(** [TDF_ParseTimeStamp]; [None] is an exception (IndexError for a missing
    field, ValueError for a field that is not a number).  The call of
    TDF_Log on the empty string is not modelled. *)
Definition TDF_ParseTimeStamp (timeCode : string) : option (Z * Z * Z) :=
  if String.eqb timeCode "" then Some (0, 0, 0)
  else
    let words := split ":" timeCode in
    w0 ← words !! 0%nat; d ← py_int_of_string w0;
    w1 ← words !! 1%nat; h ← py_int_of_string w1;
    w2 ← words !! 2%nat; m ← py_int_of_string w2;
    Some (d, h, m).

Definition TDF_ConvertTimeStampToInt (timeCode : string) : option Z :=
  let words := split ":" timeCode in
  w0 ← words !! 0%nat; d ← py_int_of_string w0;
  let result := d * 24 * 60 * 60 in
  w1 ← words !! 1%nat; h ← py_int_of_string w1;
  let result := result + h * 60 * 60 in
  w2 ← words !! 2%nat; m ← py_int_of_string w2;
  let result := result + m * 60 in
  if (4 <=? length words)%nat
  then w3 ← words !! 3%nat; s ← py_int_of_string w3; Some (result + s)
  else Some result.

(** No character of the string is the separator. *)
Fixpoint free_of (sep : ascii) (s : string) : Prop :=
  match s with
  | EmptyString => True
  | String c s' => c <> sep /\ free_of sep s'
  end.

End TimeStamp.

(** ** tdfTools.py: variable references *)
Module VariableName.
Import LabValues TimeStamp.

Definition VARIABLE_START_OFFSET_MARKER : ascii := "[".
Definition VARIABLE_STOP_OFFSET_MARKER : ascii := "]".
Definition VARIABLE_OFFSET_RANGE_MARKER : ascii := ":".
Definition VARIABLE_FUNCTION_MARKER : ascii := ".".
Definition VARIABLE_RANGE_LAST_MATCH_MARKER : ascii := "@".
Definition VARIABLE_RANGE_SIMPLE : Z := -1.

(** [s.replace(c, "")] for a character [c]. *)
Fixpoint remove_char (c : ascii) (s : string) : string :=
  match s with
  | EmptyString => EmptyString
  | String x s' => if Ascii.eqb x c then remove_char c s' else String x (remove_char c s')
  end.

(** [c in s] for a character [c]. *)
Fixpoint has_char (c : ascii) (s : string) : bool :=
  match s with
  | EmptyString => false
  | String x s' => Ascii.eqb x c || has_char c s'
  end.

(** [s.split(c, 1)] as the text before the first [c] and the text after
    it; without a [c] the text after is [None]. *)
Fixpoint split_once (c : ascii) (s : string) : string * option string :=
  match s with
  | EmptyString => (EmptyString, None)
  | String x s' =>
      if Ascii.eqb x c then (EmptyString, Some s')
      else let '(before, after) := split_once c s' in (String x before, after)
  end.

(** White space in the sense of [str.strip()], among the first 256 code
    points. *)
Definition is_space_char (c : ascii) : bool :=
  let n := nat_of_ascii c in
  ((9 <=? n) && (n <=? 13) || (28 <=? n) && (n <=? 32) || (n =? 133) || (n =? 160))%nat.

Fixpoint str_lstrip (s : string) : string :=
  match s with
  | EmptyString => EmptyString
  | String x s' => if is_space_char x then str_lstrip s' else s
  end.

Fixpoint str_rstrip (s : string) : string :=
  match s with
  | EmptyString => EmptyString
  | String x s' =>
      match str_rstrip s' with
      | EmptyString => if is_space_char x then EmptyString else String x EmptyString
      | rest => String x rest
      end
  end.

(** The offsets between the brackets; [None] is the ValueError of
    [int()]. *)
Definition parse_offsets (valueOffsetStr : string) : option (Z * Z) :=
  if has_char VARIABLE_OFFSET_RANGE_MARKER valueOffsetStr then
    let '(part0, part1) := split_once VARIABLE_OFFSET_RANGE_MARKER valueOffsetStr in
    let part1 := default EmptyString part1 in
    valueOffsetStartRange ←
      (if String.eqb (str_rstrip (str_lstrip part0)) "" then Some 0
       else py_int_of_string part0);
    valueOffsetStopRange ←
      (if String.eqb (str_rstrip (str_lstrip part1)) "" then Some 0
       else py_int_of_string part1);
    Some (valueOffsetStartRange, valueOffsetStopRange)
  else
    valueOffsetStartRange ← py_int_of_string valueOffsetStr;
    Some (valueOffsetStartRange, valueOffsetStartRange).

(** The six values that TDF_ParseOneVariableName returns. *)
Record ParsedName : Type := mkParsedName {
  pn_labInfo : option LabInfo;
  pn_valueName : string;
  pn_valueOffsetStartRange : Z;
  pn_valueOffsetStopRange : Z;
  pn_valueOffsetRangeOption : Z;
  pn_functionName : string
}.

Section Table.
Variable g_LabValueInfo : gmap string LabInfo.

(** [TDF_ParseOneVariableName]; [None] is the ValueError of an offset that
    [int()] does not read. *)
Definition TDF_ParseOneVariableName (valueName : string) : option ParsedName :=
  let valueName := remove_char " " valueName in
  let '(valueName, functionName) :=
    if has_char VARIABLE_FUNCTION_MARKER valueName
    then let '(before, after) := split_once VARIABLE_FUNCTION_MARKER valueName in
         (before, default EmptyString after)
    else (valueName, EmptyString) in
  '(valueName, offsets, valueOffsetRangeOption) ←
    (if has_char VARIABLE_START_OFFSET_MARKER valueName then
       let '(before, after) := split_once VARIABLE_START_OFFSET_MARKER valueName in
       let valueOffsetStr := default EmptyString after in
       let valueOffsetStr := fst (split_once VARIABLE_STOP_OFFSET_MARKER valueOffsetStr) in
       let '(valueOffsetRangeOption, valueOffsetStr) :=
         match valueOffsetStr with
         | String x rest =>
             if Ascii.eqb x VARIABLE_RANGE_LAST_MATCH_MARKER
             then (VARIABLE_RANGE_LAST_MATCH, rest)
             else (VARIABLE_RANGE_SIMPLE, valueOffsetStr)
         | EmptyString => (VARIABLE_RANGE_SIMPLE, valueOffsetStr)
         end in
       offsets ← parse_offsets valueOffsetStr;
       Some (before, offsets, valueOffsetRangeOption)
     else Some (valueName, (0, 0), VARIABLE_RANGE_SIMPLE));
  let labInfo :=
    if negb (String.eqb valueName "") then g_LabValueInfo !! valueName else None in
  Some (mkParsedName labInfo valueName (fst offsets) (snd offsets)
          valueOffsetRangeOption functionName).

End Table.

(** Every character of the string passes the test. *)
Fixpoint all_chars (P : ascii -> bool) (s : string) : bool :=
  match s with
  | EmptyString => true
  | String x s' => P x && all_chars P s'
  end.

(** The characters of a printed integer. *)
Definition is_numeric_char (c : ascii) : bool := has_char c "-0123456789".

(** The forms of a variable reference: the offsets, when there are any,
    are a single day or a range of days, either counted from the current
    day or, after [@], from the day of the last match. *)
Inductive Offsets : Type :=
| NoOffsets
| OneDay (fLastMatch : bool) (offset : Z)
| DayRange (fLastMatch : bool) (start stop : Z).

Definition render_offsets (o : Offsets) : string :=
  let mark (fLastMatch : bool) := if fLastMatch then "@" else "" in
  match o with
  | NoOffsets => ""
  | OneDay fLastMatch offset => "[" +:+ mark fLastMatch +:+ py_str offset +:+ "]"
  | DayRange fLastMatch start stop =>
      "[" +:+ mark fLastMatch +:+ py_str start +:+ ":" +:+ py_str stop +:+ "]"
  end.

(** [stem], [stem[..]], [stem.function] or [stem[..].function]. *)
Definition render_name (stem : string) (o : Offsets) (functionName : option string)
  : string :=
  (stem +:+ render_offsets o)
  +:+ match functionName with
      | Some f => String VARIABLE_FUNCTION_MARKER f
      | None => ""
      end.

Definition offsets_start (o : Offsets) : Z :=
  match o with NoOffsets => 0 | OneDay _ offset => offset | DayRange _ start _ => start end.

Definition offsets_stop (o : Offsets) : Z :=
  match o with NoOffsets => 0 | OneDay _ offset => offset | DayRange _ _ stop => stop end.

Definition offsets_option (o : Offsets) : Z :=
  match o with
  | NoOffsets => VARIABLE_RANGE_SIMPLE
  | OneDay fLastMatch _ | DayRange fLastMatch _ _ =>
      if fLastMatch then VARIABLE_RANGE_LAST_MATCH else VARIABLE_RANGE_SIMPLE
  end.

End VariableName.

(** ** tdfTools.py: the raw values of a variable along the timeline *)
Module RawValues.
Import TimeFunctions LabValues Query VariableName.

(** How a call that does not return ends: the ValueError of an offset that
    does not parse, or [sys.exit(0)]. *)
Inductive ended : Type := ValueError | SystemExit.

Inductive outcome (A : Type) : Type :=
| Returns (a : A)
| Ends (why : ended).
Arguments Returns {A} a.
Arguments Ends {A} why.

(** An item [{"Day": currentDayNum, "Val": valueFloat}]. *)
Record Item : Type := mkItem { Day : Z; Val : Q }.

(** [(valueFloat == TDF_INVALID_VALUE) or (valueFloat <= TDF_SMALLEST_VALID_VALUE)]. *)
Definition unusable (valueFloat : Q) : bool :=
  Qeq_bool valueFloat TDF_INVALID_VALUE || Qle_bool valueFloat TDF_SMALLEST_VALID_VALUE.

(** The clipping of GetValuesBetweenDays. *)
Definition clip (labInfo : LabInfo) (valueFloat : Q) : Q :=
  let valueFloat := if Qltb valueFloat (minVal labInfo) then minVal labInfo else valueFloat in
  if Qgtb valueFloat (maxVal labInfo) then maxVal labInfo else valueFloat.

Section Reader.
Variable g_LabValueInfo : gmap string LabInfo.
Variable CompiledTimeline : list TimelineEntry.

(** The beginning that the two methods share: the variable is parsed and
    its function, if it has one, is created. *)
Definition prepare (valueName : string) : outcome (option LabInfo) :=
  match TDF_ParseOneVariableName g_LabValueInfo valueName with
  | None => Ends ValueError
  | Some parsed =>
      match pn_labInfo parsed with
      | None => Returns None
      | Some labInfo =>
          if negb (String.eqb (pn_functionName parsed) "")
          then match CreateTimeValueFunction (pn_functionName parsed)
                       (pn_valueName parsed) with
               | None => Ends SystemExit
               | Some _ => Returns (Some labInfo)
               end
          else Returns (Some labInfo)
      end
  end.

(** The loop of GetRawValues over the entries that are left. *)
Fixpoint raw_loop (valueName : string) (fOnlyOneValuePerDay : bool)
    (entries : list TimelineEntry) (prevDayNum : Z) : list Item :=
  match entries with
  | [] => []
  | timelineEntry :: entries' =>
      let currentDayNum := TimeDays timelineEntry in
      if fOnlyOneValuePerDay && (prevDayNum =? currentDayNum)
      then raw_loop valueName fOnlyOneValuePerDay entries' prevDayNum
      else
        match data timelineEntry !! valueName with
        | None => raw_loop valueName fOnlyOneValuePerDay entries' currentDayNum
        | Some valueFloat =>
            if unusable valueFloat
            then raw_loop valueName fOnlyOneValuePerDay entries' currentDayNum
            else mkItem currentDayNum valueFloat
                 :: raw_loop valueName fOnlyOneValuePerDay entries' currentDayNum
        end
  end.

Definition GetRawValues (valueName : string) (fOnlyOneValuePerDay : bool)
  : outcome (list Item) :=
  match prepare valueName with
  | Ends why => Ends why
  | Returns None => Returns []
  | Returns (Some labInfo) =>
      Returns (raw_loop valueName fOnlyOneValuePerDay CompiledTimeline (-1))
  end.

(** The loop of GetValuesBetweenDays over the entries that are left. *)
Fixpoint between_loop (labInfo : LabInfo) (valueName : string) (firstDay lastDay : Z)
    (fOnlyOneValuePerDay : bool) (entries : list TimelineEntry)
    (foundPrevValues : bool) (prevDayNum : Z) : list Item :=
  match entries with
  | [] => []
  | timelineEntry :: entries' =>
      let currentDayNum := TimeDays timelineEntry in
      if currentDayNum <? firstDay
      then between_loop labInfo valueName firstDay lastDay fOnlyOneValuePerDay entries'
             foundPrevValues prevDayNum
      else if lastDay <? currentDayNum then []
      else if fOnlyOneValuePerDay && foundPrevValues && (prevDayNum =? currentDayNum)
      then between_loop labInfo valueName firstDay lastDay fOnlyOneValuePerDay entries'
             foundPrevValues prevDayNum
      else
        match data timelineEntry !! valueName with
        | None =>
            between_loop labInfo valueName firstDay lastDay fOnlyOneValuePerDay entries'
              foundPrevValues currentDayNum
        | Some valueFloat =>
            if unusable valueFloat
            then between_loop labInfo valueName firstDay lastDay fOnlyOneValuePerDay
                   entries' foundPrevValues currentDayNum
            else mkItem currentDayNum (clip labInfo valueFloat)
                 :: between_loop labInfo valueName firstDay lastDay fOnlyOneValuePerDay
                      entries' true currentDayNum
        end
  end.

Definition GetValuesBetweenDays (valueName : string) (firstDay lastDay : Z)
    (fOnlyOneValuePerDay : bool) : outcome (list Item) :=
  match prepare valueName with
  | Ends why => Ends why
  | Returns None => Returns []
  | Returns (Some labInfo) =>
      Returns (between_loop labInfo valueName firstDay lastDay fOnlyOneValuePerDay
                 CompiledTimeline false (-1))
  end.

End Reader.

(** The usable value of a variable in the snapshot of an entry. *)
Definition usable_value (valueName : string) (timelineEntry : TimelineEntry) : option Q :=
  match data timelineEntry !! valueName with
  | Some valueFloat => if unusable valueFloat then None else Some valueFloat
  | None => None
  end.

(** What the two methods return on a timeline whose days strictly
    increase: the usable values of the variable in timeline order, each
    with its day; for GetValuesBetweenDays those of the days from
    [firstDay] to [lastDay], clipped. *)
Definition raw_items (valueName : string) (CompiledTimeline : list TimelineEntry)
  : list Item :=
  omap (fun e => mkItem (TimeDays e) <$> usable_value valueName e) CompiledTimeline.

Definition items_between (labInfo : LabInfo) (valueName : string) (firstDay lastDay : Z)
    (CompiledTimeline : list TimelineEntry) : list Item :=
  omap (fun e =>
          if (firstDay <=? TimeDays e) && (TimeDays e <=? lastDay)
          then (fun v => mkItem (TimeDays e) (clip labInfo v)) <$> usable_value valueName e
          else None)
       CompiledTimeline.

(** Creatinine above its range on day 103 and missing on day 110. *)
Definition cr_timeline : list TimelineEntry :=
  [mkTimelineEntry 100 0 {["Cr" := 1%Q]};
   mkTimelineEntry 103 1 {["Cr" := 9%Q]};
   mkTimelineEntry 110 2 {["Cr" := TDF_INVALID_VALUE]};
   mkTimelineEntry 120 3 {["Cr" := 2%Q]}].

End RawValues.

(** ** tdfTimeFunctions.py: CTimeSeries within its history span *)
Module Series.
Import TimeFunctions Windows.



End Series.

(** ** tdfTools.py: the list of variables of a reader *)
Module VariableList.
Import TimeFunctions LabValues TimeStamp VariableName RawValues.

Definition VARIABLE_LIST_SEPARATOR : ascii := ";".

(** One position of the parallel lists [allValueVarNameList],
    [allValuesLabInfoList], [AllValuesOffsetStartRange],
    [AllValuesOffsetStopRange], [AllValuesOffsetRangeOption],
    [allValuesFunctionNameList] and [allValuesFunctionObjectList], which
    the method sizes, fills and grows together. *)
Record VarEntry : Type := mkVarEntry {
  ve_name : string;
  ve_labInfo : option LabInfo;
  ve_OffsetStartRange : Z;
  ve_OffsetStopRange : Z;
  ve_OffsetRangeOption : Z;
  ve_FunctionName : string;
  ve_FunctionObject : option FunctionObject
}.

Definition entry_of_parsed (parsed : ParsedName) : VarEntry :=
  mkVarEntry (pn_valueName parsed) (pn_labInfo parsed)
    (pn_valueOffsetStartRange parsed) (pn_valueOffsetStopRange parsed)
    (pn_valueOffsetRangeOption parsed) (pn_functionName parsed) None.

Section Table.
Variable g_LabValueInfo : gmap string LabInfo.

(** [for valueIndex, valueName in enumerate(self.allValueVarNameList)]:
    every name is parsed. *)
Fixpoint parse_all (names : list string) : outcome (list VarEntry) :=
  match names with
  | [] => Returns []
  | valueName :: names' =>
      match TDF_ParseOneVariableName g_LabValueInfo valueName with
      | None => Ends ValueError
      | Some parsed =>
          match parse_all names' with
          | Returns entries => Returns (entry_of_parsed parsed :: entries)
          | Ends why => Ends why
          end
      end
  end.

(** [for _, nameStr in enumerate(variableNameList)]: the dependencies whose
    stem is not in the list yet are appended. *)
Fixpoint add_dependencies (variableNameList : list string) (entries : list VarEntry)
  : outcome (list VarEntry) :=
  match variableNameList with
  | [] => Returns entries
  | nameStr :: variableNameList' =>
      match TDF_ParseOneVariableName g_LabValueInfo nameStr with
      | None => Ends ValueError
      | Some parsed =>
          let valueName := pn_valueName parsed in
          if negb (String.eqb valueName "")
             && negb (bool_decide (valueName ∈ map ve_name entries))
          then add_dependencies variableNameList' (entries ++ [entry_of_parsed parsed])
          else add_dependencies variableNameList' entries
      end
  end.

(** One iteration of the [while (True)] loop, at a position of the list. *)
Definition visit (index : nat) (entry : VarEntry) (entries : list VarEntry)
  : outcome (list VarEntry) :=
  match ve_labInfo entry with
  | None => Ends ValueError
  | Some labInfo =>
      match
        (if negb (String.eqb (ve_FunctionName entry) "")
         then match CreateTimeValueFunction (ve_FunctionName entry) (ve_name entry) with
              | None => Ends SystemExit
              | Some functionObject =>
                  Returns (<[index :=
                    mkVarEntry (ve_name entry) (ve_labInfo entry)
                      (ve_OffsetStartRange entry) (ve_OffsetStopRange entry)
                      (ve_OffsetRangeOption entry) (ve_FunctionName entry)
                      (Some functionObject)]> entries)
              end
         else Returns entries)
      with
      | Ends why => Ends why
      | Returns entries =>
          let variableNameListStr := VariableDependencies labInfo in
          if negb (String.eqb variableNameListStr "")
          then add_dependencies (split ";" variableNameListStr) entries
          else Returns entries
      end
  end.

(** The [while (True)] loop; [None] is a loop that is still running after
    [fuel] iterations. *)
Fixpoint pull_dependencies (fuel : nat) (index : nat) (entries : list VarEntry)
  : option (outcome (list VarEntry)) :=
  match entries !! index with
  | None => Some (Returns entries)
  | Some entry =>
      match fuel with
      | O => None
      | S fuel' =>
          match visit index entry entries with
          | Ends why => Some (Ends why)
          | Returns entries => pull_dependencies fuel' (index + 1) entries
          end
      end
  end.

(** What ParseVariableList leaves in the reader, as far as it is modelled:
    the parallel lists, [numInputValues] and the fields of the result
    variable.  [DaysSincePrevResultIndex] and the search for a variable
    with a 'MaxDaysWithZero' field are not modelled. *)
Record ReaderVariables : Type := mkReaderVariables {
  allValues : list VarEntry;
  numInputValues : nat;
  resultLabInfo : option LabInfo;
  resultValueName : string
}.

Definition ParseVariableList (fuel : nat) (inputNameListStr : string)
    (resultValueName : option string) (requirePropertyNameList : option (list string))
  : option (outcome ReaderVariables) :=
  let allValueVarNameList := split VARIABLE_LIST_SEPARATOR inputNameListStr in
  let numInputValues := length allValueVarNameList in
  match
    (match resultValueName with
     | Some name =>
         if negb (String.eqb name "")
         then match TDF_ParseOneVariableName g_LabValueInfo name with
              | None => Ends ValueError
              | Some parsed =>
                  match pn_labInfo parsed with
                  | None => Ends SystemExit
                  | Some labInfo => Returns (Some labInfo, pn_valueName parsed)
                  end
              end
         else Returns (None, "")
     | None => Returns (None, "")
     end)
  with
  | Ends why => Some (Ends why)
  | Returns (resultLabInfo, resultValueName) =>
      let allValueVarNameList :=
        if negb (String.eqb resultValueName "")
        then allValueVarNameList ++ [resultValueName] else allValueVarNameList in
      let allValueVarNameList :=
        allValueVarNameList ++ default [] requirePropertyNameList in
      match parse_all allValueVarNameList with
      | Ends why => Some (Ends why)
      | Returns entries =>
          match pull_dependencies fuel 0 entries with
          | None => None
          | Some (Ends why) => Some (Ends why)
          | Some (Returns entries) =>
              Some (Returns (mkReaderVariables entries numInputValues
                               resultLabInfo resultValueName))
          end
      end
  end.

End Table.

(** The stems of the dependencies of a table entry. *)
Definition dependency_stems (g_LabValueInfo : gmap string LabInfo) (labInfo : LabInfo)
  : list string :=
  if String.eqb (VariableDependencies labInfo) "" then []
  else omap (fun nameStr =>
               pn_valueName <$> TDF_ParseOneVariableName g_LabValueInfo nameStr)
            (split ";" (VariableDependencies labInfo)).

(** An entry of the list is settled: its variable is in the table, with
    its table entry beside it; the variables it depends on are in the list;
    and its function, if it has one, has been created. *)
Definition settled (g_LabValueInfo : gmap string LabInfo) (entries : list VarEntry)
    (entry : VarEntry) : Prop :=
  (exists labInfo,
      ve_labInfo entry = Some labInfo
      /\ g_LabValueInfo !! ve_name entry = Some labInfo
      /\ forall stem, stem ∈ dependency_stems g_LabValueInfo labInfo -> stem <> "" ->
           stem ∈ map ve_name entries)
  /\ (ve_FunctionName entry <> "" ->
      is_Some (ve_FunctionObject entry)
      /\ ve_FunctionObject entry
         = CreateTimeValueFunction (ve_FunctionName entry) (ve_name entry)).

(** Two entries hold the same reference: they differ at most in the
    function object. *)
Definition same_reference (entry entry' : VarEntry) : Prop :=
  ve_name entry' = ve_name entry
  /\ ve_OffsetStartRange entry' = ve_OffsetStartRange entry
  /\ ve_OffsetStopRange entry' = ve_OffsetStopRange entry
  /\ ve_OffsetRangeOption entry' = ve_OffsetRangeOption entry
  /\ ve_FunctionName entry' = ve_FunctionName entry.

(** What the table says of a stem. *)
Definition table_entry (g_LabValueInfo : gmap string LabInfo) (stem : string)
  : option LabInfo :=
  if negb (String.eqb stem "") then g_LabValueInfo !! stem else None.

(** Beside every name stands what the table says of it. *)
Definition known (g_LabValueInfo : gmap string LabInfo) (entries : list VarEntry) : Prop :=
  Forall (fun entry => ve_labInfo entry = table_entry g_LabValueInfo (ve_name entry))
         entries.

(** Every stem that a table entry depends on. *)
Definition all_dependency_stems (g_LabValueInfo : gmap string LabInfo) : gset string :=
  list_to_set (concat (map (fun item => dependency_stems g_LabValueInfo (snd item))
                           (map_to_list g_LabValueInfo))).

(** The names of the list, as a set. *)
Definition name_set (entries : list VarEntry) : gset string :=
  list_to_set (map ve_name entries).

End VariableList.

(** * Part II: verified properties *)

Module PyFacts.

Lemma Qltb_lt x y : Qltb x y = true <-> (x < y)%Q.
Proof.
  unfold Qltb. rewrite negb_true_iff. split.
  - intros H. apply Qnot_le_lt. intros Hle.
    apply Qle_bool_iff in Hle. congruence.
  - intros H. destruct (Qle_bool y x) eqn:E; [|reflexivity].
    apply Qle_bool_iff in E. exfalso. exact (Qlt_not_le _ _ H E).
Qed.

Lemma Qltb_ge x y : Qltb x y = false <-> (y <= x)%Q.
Proof. unfold Qltb. rewrite negb_false_iff. apply Qle_bool_iff. Qed.

Lemma Qeq_bool_refl x : Qeq_bool x x = true.
Proof. apply Qeq_bool_iff. reflexivity. Qed.

Lemma Qeq_bool_true x y : (x == y)%Q -> Qeq_bool x y = true.
Proof. apply Qeq_bool_iff. Qed.

Lemma is_INVALID_eq x : is_INVALID x = true <-> (x == TDF_INVALID_VALUE)%Q.
Proof. unfold is_INVALID. apply Qeq_bool_iff. Qed.

(** *** Float rounding *)

Lemma binary64_proper x y : (x == y)%Q -> binary64 x = binary64 y.
Proof.
  intros H. unfold binary64, float_exponent. rewrite (Qred_complete _ _ H). reflexivity.
Qed.

Lemma round_half_even_inject_Z k : round_half_even (inject_Z k) = k.
Proof.
  unfold round_half_even. rewrite Qfloor_Z.
  assert (E : (inject_Z k - inject_Z k ?= 1 # 2)%Q = Lt).
  { rewrite <- Qlt_alt. ring_simplify. reflexivity. }
  rewrite E. reflexivity.
Qed.

Lemma round_half_even_Qeq x y : (x == y)%Q -> round_half_even x = round_half_even y.
Proof.
  intros H. unfold round_half_even. rewrite (Qfloor_comp _ _ H).
  assert (E : ((x - inject_Z (Qfloor y) ?= 1 # 2) = (y - inject_Z (Qfloor y) ?= 1 # 2))%Q).
  { apply Qcompare_comp; [rewrite H; reflexivity|reflexivity]. }
  rewrite E. reflexivity.
Qed.

Lemma Qred_inject_Z z : Qred (inject_Z z) = inject_Z z.
Proof.
  unfold Qred, inject_Z.
  pose proof (Z.ggcd_gcd z 1) as Hg. pose proof (Z.ggcd_correct_divisors z 1) as Hd.
  destruct (Z.ggcd z 1) as [g [aa bb]]. cbn [fst] in Hg. rewrite Z.gcd_1_r in Hg. subst g.
  destruct Hd as [Ha Hb]. rewrite Z.mul_1_l in Ha, Hb. subst aa bb. reflexivity.
Qed.

(** The last place of the floats around a whole number below 2^53 is at
    most the units. *)
Lemma float_exponent_inject_Z z :
  Z.abs z < 2 ^ 53 -> -1074 <= float_exponent (inject_Z z) <= 0.
Proof.
  intros Hz. unfold float_exponent. rewrite Qred_inject_Z. cbn [Qnum Qden inject_Z].
  change (Z.log2 1) with 0. rewrite Z.sub_0_r.
  assert (Hl : Z.log2 (Z.abs z) <= 52).
  { destruct (Z.eq_dec z 0) as [->|Hn]; [simpl; lia|].
    assert (Z.log2 (Z.abs z) < 53) by (apply Z.log2_lt_pow2; lia). lia. }
  destruct (Qle_bool _ _); lia.
Qed.

(** A whole number below 2^53 in absolute value is a float. *)
Lemma binary64_inject_Z z : Z.abs z < 2 ^ 53 -> (binary64 (inject_Z z) == inject_Z z)%Q.
Proof.
  intros Hz. pose proof (float_exponent_inject_Z z Hz) as Hq.
  unfold binary64. set (q := float_exponent (inject_Z z)) in *. clearbody q.
  rewrite Qred_correct, Qred_inject_Z.
  assert (E : (2 ^ q == / inject_Z (2 ^ (- q)))%Q).
  { rewrite Zpower_Qpower by lia. rewrite Qpower_opp.
    change (inject_Z 2) with 2%Q. field.
    apply Qpower_not_0. discriminate. }
  assert (Hp : 0 < 2 ^ (- q)) by (apply Z.pow_pos_nonneg; lia).
  assert (Hp' : ~ (inject_Z (2 ^ (- q)) == 0)%Q).
  { intros H.
    assert (H' : (inject_Z 0 < inject_Z (2 ^ (- q)))%Q) by (rewrite <- Zlt_Qlt; exact Hp).
    rewrite H in H'. exact (Qlt_irrefl _ H'). }
  rewrite (round_half_even_Qeq _ (inject_Z (z * 2 ^ (- q)))).
  - rewrite round_half_even_inject_Z, E, inject_Z_mult. field. exact Hp'.
  - rewrite E, inject_Z_mult. field. exact Hp'.
Qed.

Lemma is_integer_spec x : is_integer x = true <-> exists z, (x == inject_Z z)%Q.
Proof.
  unfold is_integer. rewrite Qeq_bool_iff. split.
  - intros H. exists (Qfloor x). exact H.
  - intros [z H]. rewrite H at 2. rewrite Qfloor_Z. exact H.
Qed.

(** A float operation whose exact result is a whole number below 2^53 in
    absolute value returns that number. *)
Lemma binary64_exact x :
  is_integer x = true -> (Qabs x < inject_Z (2 ^ 53))%Q -> (binary64 x == x)%Q.
Proof.
  intros Hi Hb. apply is_integer_spec in Hi as [z Hz].
  rewrite (binary64_proper _ _ Hz), Hz. apply binary64_inject_Z.
  rewrite Hz in Hb. change (Qabs (inject_Z z)) with (inject_Z (Z.abs z)) in Hb.
  rewrite <- Zlt_Qlt in Hb. exact Hb.
Qed.

Lemma is_integer_plus x y :
  is_integer x = true -> is_integer y = true -> is_integer (x + y) = true.
Proof.
  rewrite !is_integer_spec. intros [a Ha] [b Hb]. exists (a + b).
  rewrite Ha, Hb, inject_Z_plus. reflexivity.
Qed.

End PyFacts.
Import PyFacts.

Module TimeFunctionsFacts.
Import TimeFunctions.

(** When every queued observation has expired, the pruning loops empty
    the queue. *)
Lemma prune_all_expired N dayNum queue :
  Forall (fun day => N < dayNum - day) (map e_d queue) -> prune N dayNum queue = [].
Proof.
  induction queue as [|e queue IH]; simpl; [reflexivity|].
  intros H. apply Forall_cons in H as [He Hq].
  apply Z.ltb_lt in He. rewrite He. auto.
Qed.

Lemma prune_rate_all_expired N dayNum queue :
  Forall (fun day => N < dayNum - day) (map r_d queue) -> prune_rate N dayNum queue = [].
Proof.
  induction queue as [|e queue IH]; simpl; [reflexivity|].
  intros H. apply Forall_cons in H as [He Hq].
  apply Z.ltb_lt in He. rewrite He. auto.
Qed.

Lemma prune_total_all_expired N dayNum queue total :
  Forall (fun day => N < dayNum - day) (map e_d queue) ->
  fst (prune_total N dayNum queue total) = [].
Proof.
  revert total. induction queue as [|e queue IH]; simpl; intros total H; [reflexivity|].
  apply Forall_cons in H as [He Hq]. apply Z.ltb_lt in He. rewrite He. apply IH. exact Hq.
Qed.

Lemma sum_values_app queue e :
  (sum_values (queue ++ [e]) == sum_values queue + e_v e)%Q.
Proof.
  induction queue as [|x queue IH]; simpl; [ring|]. rewrite IH. ring.
Qed.

(** *** Running totals that the float arithmetic keeps exact *)

Lemma abs_values_nonneg queue : (0 <= abs_values queue)%Q.
Proof.
  induction queue as [|e queue IH]; simpl; [apply Qle_refl|].
  pose proof (Qabs_nonneg (e_v e)). lra.
Qed.

Lemma abs_values_app q1 q2 : (abs_values (q1 ++ q2) == abs_values q1 + abs_values q2)%Q.
Proof.
  induction q1 as [|e q1 IH]; simpl; [ring|]. rewrite IH. ring.
Qed.

Lemma sum_values_abs queue : (Qabs (sum_values queue) <= abs_values queue)%Q.
Proof.
  induction queue as [|e queue IH]; simpl; [apply Qle_refl|].
  eapply Qle_trans; [apply Qabs_triangle|]. lra.
Qed.

Lemma sum_values_whole queue :
  Forall (fun e => is_integer (e_v e) = true) queue -> is_integer (sum_values queue) = true.
Proof.
  induction 1 as [|e queue He Hq IH]; simpl; [reflexivity|].
  apply is_integer_plus; assumption.
Qed.

Lemma sums_exact_app_r q1 q2 : sums_exact (q1 ++ q2) -> sums_exact q2.
Proof.
  intros [Hi Hb]. split.
  - apply Forall_app in Hi. exact (proj2 Hi).
  - rewrite abs_values_app in Hb. pose proof (abs_values_nonneg q1). lra.
Qed.

Lemma sums_exact_app_l q1 q2 : sums_exact (q1 ++ q2) -> sums_exact q1.
Proof.
  intros [Hi Hb]. split.
  - apply Forall_app in Hi. exact (proj1 Hi).
  - rewrite abs_values_app in Hb. pose proof (abs_values_nonneg q2). lra.
Qed.

Lemma sums_exact_drop q1 q2 q3 : sums_exact (q1 ++ q2 ++ q3) -> sums_exact (q2 ++ q3).
Proof. apply sums_exact_app_r. Qed.

(** The float that holds the sum of such values is the sum. *)
Lemma sums_exact_total queue total :
  sums_exact queue -> (total == sum_values queue)%Q -> (binary64 total == sum_values queue)%Q.
Proof.
  intros [Hi Hb] Ht. rewrite (binary64_proper _ _ Ht). apply binary64_exact.
  - apply sum_values_whole. exact Hi.
  - eapply Qle_lt_trans; [apply sum_values_abs|exact Hb].
Qed.

Lemma prune_suffix N dayNum queue :
  exists popped, queue = popped ++ prune N dayNum queue.
Proof.
  induction queue as [|e queue IH]; simpl; [exists []; reflexivity|].
  destruct (N <? dayNum - e_d e).
  - destruct IH as [popped IH]. exists (e :: popped). simpl. f_equal. exact IH.
  - exists []. reflexivity.
Qed.

Lemma prune_total_queue N dayNum queue total :
  fst (prune_total N dayNum queue total) = prune N dayNum queue.
Proof.
  revert total. induction queue as [|e queue IH]; simpl; intros total; [reflexivity|].
  destruct (N <? dayNum - e_d e); [apply IH|reflexivity].
Qed.

(** While the sums are exact, the pruning loop leaves the total equal to
    the sum of the values that stay. *)
Lemma prune_total_sum N dayNum queue total :
  sums_exact queue -> (total == sum_values queue)%Q ->
  (snd (prune_total N dayNum queue total)
   == sum_values (fst (prune_total N dayNum queue total)))%Q.
Proof.
  revert total. induction queue as [|e queue IH]; simpl; intros total Hx H; [exact H|].
  destruct (N <? dayNum - e_d e); simpl; [|exact H].
  assert (Hx' : sums_exact queue) by exact (sums_exact_app_r [e] queue Hx).
  apply IH; [exact Hx'|]. apply sums_exact_total; [exact Hx'|]. rewrite H. ring.
Qed.

(** One call of ComputeNewValue on such a total: after the pruning and the
    addition of the new value it is the sum of the queue again, and the
    values that are left to come still are exact with the new queue. *)
Lemma running_total_step N value dayNum timeMin queue total later :
  sums_exact (queue ++ mkEntry value dayNum timeMin :: later) ->
  (total == sum_values queue)%Q ->
  let pruned := prune_total N dayNum queue total in
  (binary64 (snd pruned + value)
   == sum_values (fst pruned ++ [mkEntry value dayNum timeMin]))%Q
  /\ sums_exact ((fst pruned ++ [mkEntry value dayNum timeMin]) ++ later).
Proof.
  intros Hx Ht. cbv zeta.
  pose proof (prune_total_queue N dayNum queue total) as Hq.
  pose proof (prune_total_sum N dayNum queue total (sums_exact_app_l _ _ Hx) Ht) as Hs.
  destruct (prune_total N dayNum queue total) as [kept total']. cbn [fst snd] in *.
  destruct (prune_suffix N dayNum queue) as [popped Hp].
  assert (Hx' : sums_exact ((kept ++ [mkEntry value dayNum timeMin]) ++ later)).
  { rewrite Hq, <- app_assoc. cbn [app]. rewrite Hp, <- app_assoc in Hx.
    exact (sums_exact_app_r _ _ Hx). }
  split; [|exact Hx'].
  apply sums_exact_total; [exact (sums_exact_app_l _ _ Hx')|].
  rewrite sum_values_app. cbn [e_v]. rewrite Hs. reflexivity.
Qed.

Lemma tracked_invalid queue : tracked queue TDF_INVALID_VALUE.
Proof. left. reflexivity. Qed.

Lemma tracked_app queue bound e : tracked queue bound -> tracked (queue ++ [e]) bound.
Proof.
  intros [H|H]; [left; exact H|right].
  apply Exists_app. left. exact H.
Qed.

Lemma tracked_new queue e : tracked (queue ++ [e]) (e_v e).
Proof. right. apply Exists_app. right. constructor. reflexivity. Qed.

Lemma prune_minmax_tracked N dayNum queue mn mx :
  tracked queue mn -> tracked queue mx ->
  match prune_minmax N dayNum queue mn mx with
  | (queue', mn', mx') => tracked queue' mn' /\ tracked queue' mx'
  end.
Proof.
  revert mn mx. induction queue as [|e queue IH]; simpl; intros mn mx Hmn Hmx.
  - split; assumption.
  - destruct (N <? dayNum - e_d e); [|split; assumption].
    destruct (Qeq_bool mn (e_v e)) eqn:E1; simpl.
    + apply IH; apply tracked_invalid.
    + destruct (Qeq_bool mx (e_v e)) eqn:E2; simpl.
      * apply IH; apply tracked_invalid.
      * apply IH.
        -- destruct Hmn as [H|H]; [left; exact H|right].
           apply Exists_cons in H as [H|H]; [|exact H].
           apply Qeq_bool_iff in H. congruence.
        -- destruct Hmx as [H|H]; [left; exact H|right].
           apply Exists_cons in H as [H|H]; [|exact H].
           apply Qeq_bool_iff in H. congruence.
Qed.

Lemma prune_minmax_all_expired N dayNum queue mn mx :
  Forall (fun day => N < dayNum - day) (map e_d queue) ->
  tracked queue mn -> tracked queue mx ->
  exists mn' mx', prune_minmax N dayNum queue mn mx = ([], mn', mx')
                  /\ is_INVALID mn' = true /\ is_INVALID mx' = true.
Proof.
  revert mn mx. induction queue as [|e queue IH]; simpl; intros mn mx Hexp Hmn Hmx.
  - exists mn, mx. split; [reflexivity|].
    destruct Hmn as [Hmn|Hmn]; [|inversion Hmn].
    destruct Hmx as [Hmx|Hmx]; [|inversion Hmx].
    split; apply is_INVALID_eq; assumption.
  - apply Forall_cons in Hexp as [He Hq]. apply Z.ltb_lt in He. rewrite He.
    pose proof (prune_minmax_tracked N dayNum (e :: queue) mn mx Hmn Hmx) as Ht.
    simpl in Ht. rewrite He in Ht.
    destruct (Qeq_bool mn (e_v e) || Qeq_bool mx (e_v e)) eqn:E.
    + apply IH; [exact Hq| |]; apply tracked_invalid.
    + apply orb_false_iff in E as [E1 E2]. apply IH; [exact Hq| |].
      * destruct Hmn as [H|H]; [left; exact H|right].
        apply Exists_cons in H as [H|H]; [|exact H].
        apply Qeq_bool_iff in H. congruence.
      * destruct Hmx as [H|H]; [left; exact H|right].
        apply Exists_cons in H as [H|H]; [|exact H].
        apply Qeq_bool_iff in H. congruence.
Qed.

Lemma minmax_step_cases mn mx e :
  (fst (minmax_step (mn, mx) e) = mn \/ fst (minmax_step (mn, mx) e) = e_v e)
  /\ (snd (minmax_step (mn, mx) e) = mx \/ snd (minmax_step (mn, mx) e) = e_v e).
Proof.
  unfold minmax_step. simpl.
  destruct (is_INVALID mn || Qle_bool (e_v e) mn);
    destruct (is_INVALID mx || Qgeb (e_v e) mx); auto.
Qed.

Lemma minmax_rescan_from queue mn mx :
  (fst (fold_left minmax_step queue (mn, mx)) = mn
   \/ Exists (fun e => fst (fold_left minmax_step queue (mn, mx)) = e_v e) queue)
  /\ (snd (fold_left minmax_step queue (mn, mx)) = mx
      \/ Exists (fun e => snd (fold_left minmax_step queue (mn, mx)) = e_v e) queue).
Proof.
  revert mn mx. induction queue as [|e queue IH]; intros mn mx.
  - simpl. auto.
  - cbn [fold_left].
    pose proof (minmax_step_cases mn mx e) as [Hs1 Hs2].
    destruct (minmax_step (mn, mx) e) as [mn' mx']. simpl in Hs1, Hs2.
    destruct (IH mn' mx') as [H1 H2]. split.
    + destruct H1 as [H1|H1]; [|right; apply Exists_cons_tl; exact H1].
      rewrite H1. destruct Hs1 as [->| ->]; [left; reflexivity|].
      right. apply Exists_cons_hd. reflexivity.
    + destruct H2 as [H2|H2]; [|right; apply Exists_cons_tl; exact H2].
      rewrite H2. destruct Hs2 as [->| ->]; [left; reflexivity|].
      right. apply Exists_cons_hd. reflexivity.
Qed.

Lemma minmax_rescan_tracked queue :
  tracked queue (fst (fold_left minmax_step queue (TDF_INVALID_VALUE, TDF_INVALID_VALUE)))
  /\ tracked queue (snd (fold_left minmax_step queue (TDF_INVALID_VALUE, TDF_INVALID_VALUE))).
Proof.
  destruct (minmax_rescan_from queue TDF_INVALID_VALUE TDF_INVALID_VALUE) as [H1 H2].
  split.
  - destruct H1 as [->|H1]; [apply tracked_invalid|right].
    eapply Exists_impl; [exact H1|]. intros e ->. reflexivity.
  - destruct H2 as [->|H2]; [apply tracked_invalid|right].
    eapply Exists_impl; [exact H2|]. intros e ->. reflexivity.
Qed.

Lemma update_minmax_tracked queue e mn mx :
  tracked queue mn -> tracked queue mx ->
  tracked (queue ++ [e]) (fst (update_minmax (queue ++ [e]) (e_v e) mn mx))
  /\ tracked (queue ++ [e]) (snd (update_minmax (queue ++ [e]) (e_v e) mn mx)).
Proof.
  intros Hmn Hmx. unfold update_minmax.
  destruct (is_INVALID mx || is_INVALID mn).
  - apply minmax_rescan_tracked.
  - simpl. split.
    + destruct (is_INVALID mn || Qle_bool (e_v e) mn);
        [apply tracked_new | apply tracked_app; exact Hmn].
    + destruct (is_INVALID mx || Qgeb (e_v e) mx);
        [apply tracked_new | apply tracked_app; exact Hmx].
Qed.

Lemma prune_minmax_queue N dayNum queue mn mx :
  fst (fst (prune_minmax N dayNum queue mn mx)) = prune N dayNum queue.
Proof.
  revert mn mx. induction queue as [|e queue IH]; simpl; intros mn mx; [reflexivity|].
  destruct (N <? dayNum - e_d e); [|reflexivity].
  destruct (Qeq_bool mn (e_v e) || Qeq_bool mx (e_v e)); apply IH.
Qed.

Lemma prune_lowest_queue N dayNum queue lowest :
  fst (prune_lowest N dayNum queue lowest) = prune N dayNum queue.
Proof.
  revert lowest. induction queue as [|e queue IH]; simpl; intros lowest; [reflexivity|].
  destruct (N <? dayNum - e_d e); [|reflexivity].
  destruct (Qeq_bool lowest (e_v e)); apply IH.
Qed.

(** Per class: once every retained observation has expired, the output is
    the output of the reset object. *)
Lemma CAccelerationValue_expired o value dayNum timeMin :
  Forall (fun day => acc_MaxDaysInQueue o < dayNum - day) (map r_d (acc_ValueQueue o)) ->
  snd (CAccelerationValue_ComputeNewValue o value dayNum timeMin)
  = snd (CAccelerationValue_ComputeNewValue (CAccelerationValue_Reset o) value dayNum timeMin).
Proof.
  intros H. unfold CAccelerationValue_ComputeNewValue, CAccelerationValue_Reset.
  cbn [acc_MaxDaysInQueue acc_ValueQueue].
  rewrite (prune_rate_all_expired _ _ _ H). reflexivity.
Qed.

Lemma CDeltaValue_expired o value dayNum timeMin :
  Forall (fun day => delta_MaxDaysInQueue o < dayNum - day) (map e_d (delta_ValueQueue o)) ->
  snd (CDeltaValue_ComputeNewValue o value dayNum timeMin)
  = snd (CDeltaValue_ComputeNewValue (CDeltaValue_Reset o) value dayNum timeMin).
Proof.
  intros H. unfold CDeltaValue_ComputeNewValue, CDeltaValue_Reset.
  cbn [delta_MaxDaysInQueue delta_ValueQueue].
  rewrite (prune_all_expired _ _ _ H). reflexivity.
Qed.

Lemma CRateValue_expired o value dayNum timeMin :
  Forall (fun day => rate_MaxDaysInQueue o < dayNum - day) (map e_d (rate_ValueQueue o)) ->
  snd (CRateValue_ComputeNewValue o value dayNum timeMin)
  = snd (CRateValue_ComputeNewValue (CRateValue_Reset o) value dayNum timeMin).
Proof.
  intros H. unfold CRateValue_ComputeNewValue, CRateValue_Reset.
  cbn [rate_MaxDaysInQueue rate_ValueQueue].
  rewrite (prune_all_expired _ _ _ H). reflexivity.
Qed.

Lemma CVolatilityValue_expired o value dayNum timeMin :
  Forall (fun day => vol_MaxDaysInQueue o < dayNum - day) (map e_d (vol_ValueQueue o)) ->
  snd (CVolatilityValue_ComputeNewValue o value dayNum timeMin)
  = snd (CVolatilityValue_ComputeNewValue (CVolatilityValue_Reset o) value dayNum timeMin).
Proof.
  intros H. unfold CVolatilityValue_ComputeNewValue, CVolatilityValue_Reset.
  cbn [vol_MaxDaysInQueue vol_ValueQueue].
  rewrite (prune_all_expired _ _ _ H). reflexivity.
Qed.

Lemma CRateCrossValue_expired o value dayNum timeMin :
  Forall (fun day => rate_MaxDaysInQueue (rc_shortRate o) < dayNum - day)
         (map e_d (rate_ValueQueue (rc_shortRate o))) ->
  Forall (fun day => rate_MaxDaysInQueue (rc_longRate o) < dayNum - day)
         (map e_d (rate_ValueQueue (rc_longRate o))) ->
  snd (CRateCrossValue_ComputeNewValue o value dayNum timeMin)
  = snd (CRateCrossValue_ComputeNewValue (CRateCrossValue_Reset o) value dayNum timeMin).
Proof.
  intros Hs Hl. unfold CRateCrossValue_ComputeNewValue, CRateCrossValue_Reset.
  cbn [rc_shortRate rc_longRate rc_fDetectFasterRate rc_fFuzzinessMargin].
  pose proof (CRateValue_expired _ value dayNum timeMin Hs) as Es.
  pose proof (CRateValue_expired _ value dayNum timeMin Hl) as El.
  destruct (CRateValue_ComputeNewValue (rc_shortRate o) _ _ _) as [s1 v1].
  destruct (CRateValue_ComputeNewValue (rc_longRate o) _ _ _) as [l1 w1].
  destruct (CRateValue_ComputeNewValue (CRateValue_Reset (rc_shortRate o)) _ _ _) as [s2 v2].
  destruct (CRateValue_ComputeNewValue (CRateValue_Reset (rc_longRate o)) _ _ _) as [l2 w2].
  simpl in Es, El. subst v2 w2.
  destruct (is_INVALID v1 || is_INVALID w1); [reflexivity|].
  destruct (rc_fDetectFasterRate o && _); reflexivity.
Qed.

Lemma CRangeValue_expired o value dayNum timeMin :
  Forall (fun day => range_MaxDaysInQueue o < dayNum - day) (map e_d (range_ValueQueue o)) ->
  snd (CRangeValue_ComputeNewValue o value dayNum timeMin)
  = snd (CRangeValue_ComputeNewValue (CRangeValue_Reset o) value dayNum timeMin).
Proof.
  intros H. unfold CRangeValue_ComputeNewValue, CRangeValue_Reset.
  cbn [range_MaxDaysInQueue range_ValueQueue range_MinValue range_MaxValue range_fAbsolute].
  pose proof (prune_minmax_queue (range_MaxDaysInQueue o) dayNum (range_ValueQueue o)
                (range_MinValue o) (range_MaxValue o)) as Hq.
  rewrite (prune_all_expired _ _ _ H) in Hq.
  destruct (prune_minmax _ _ (range_ValueQueue o) _ _) as [[queue mn] mx].
  simpl in Hq. subst queue. cbn [prune_minmax app length].
  destruct (update_minmax _ value mn mx) as [mn1 mx1].
  destruct (update_minmax _ value TDF_INVALID_VALUE TDF_INVALID_VALUE) as [mn2 mx2].
  replace (1 <=? 1)%nat with true by reflexivity.
  rewrite !orb_true_r. reflexivity.
Qed.

Lemma CIsStableValue_expired o value dayNum timeMin :
  Forall (fun day => range_MaxDaysInQueue (stable_RangeVar o) < dayNum - day)
         (map e_d (range_ValueQueue (stable_RangeVar o))) ->
  snd (CIsStableValue_ComputeNewValue o value dayNum timeMin)
  = snd (CIsStableValue_ComputeNewValue (CIsStableValue_Reset o) value dayNum timeMin).
Proof.
  intros H. unfold CIsStableValue_ComputeNewValue, CIsStableValue_Reset.
  cbn [stable_RangeVar stable_threshold].
  pose proof (CRangeValue_expired _ value dayNum timeMin H) as E.
  destruct (CRangeValue_ComputeNewValue (stable_RangeVar o) _ _ _) as [r1 v1].
  destruct (CRangeValue_ComputeNewValue (CRangeValue_Reset _) _ _ _) as [r2 v2].
  simpl in E. subst v2.
  destruct (is_INVALID v1); [reflexivity|].
  destruct (Qltb (stable_threshold o) v1); reflexivity.
Qed.

Lemma CPercentChangeValue_expired o value dayNum timeMin :
  Forall (fun day => pct_MaxDaysInQueue o < dayNum - day) (map e_d (pct_ValueQueue o)) ->
  snd (CPercentChangeValue_ComputeNewValue o value dayNum timeMin)
  = snd (CPercentChangeValue_ComputeNewValue (CPercentChangeValue_Reset o) value dayNum timeMin).
Proof.
  intros H. unfold CPercentChangeValue_ComputeNewValue, CPercentChangeValue_Reset.
  cbn [pct_MaxDaysInQueue pct_ValueQueue pct_lowestValue].
  pose proof (prune_lowest_queue (pct_MaxDaysInQueue o) dayNum (pct_ValueQueue o)
                (pct_lowestValue o)) as Hq.
  rewrite (prune_all_expired _ _ _ H) in Hq.
  destruct (prune_lowest _ _ (pct_ValueQueue o) _) as [queue low].
  simpl in Hq. subst queue. cbn [prune_lowest app length].
  replace (1 <? 2)%nat with true by reflexivity.
  rewrite !orb_true_r. reflexivity.
Qed.

Lemma CThresholdValue_expired o value dayNum timeMin :
  tracked (thr_ValueQueue o) (thr_MinValue o) ->
  tracked (thr_ValueQueue o) (thr_MaxValue o) ->
  Forall (fun day => thr_MaxDaysInQueue o < dayNum - day) (map e_d (thr_ValueQueue o)) ->
  snd (CThresholdValue_ComputeNewValue o value dayNum timeMin)
  = snd (CThresholdValue_ComputeNewValue (CThresholdValue_Reset o) value dayNum timeMin).
Proof.
  intros Hmn Hmx H. unfold CThresholdValue_ComputeNewValue, CThresholdValue_Reset.
  cbn [thr_MaxDaysInQueue thr_ValueQueue thr_MinValue thr_MaxValue thr_fAbove thr_thresholdVal].
  destruct (prune_minmax_all_expired _ _ _ _ _ H Hmn Hmx) as (mn & mx & -> & Imn & Imx).
  cbn [prune_minmax]. unfold update_minmax. rewrite Imn, Imx. simpl orb. cbv iota.
  destruct (fold_left minmax_step _ _) as [mn1 mx1].
  repeat match goal with |- context [if ?b then _ else _] => destruct b end; reflexivity.
Qed.

Section WithStdev.
Variable stdev : list Q -> Q.

(** The state invariant holds in every reachable state. *)
Lemma state_inv_reset f : state_inv (Reset f).
Proof.
  destruct f; simpl; try exact I; try reflexivity.
  split; apply tracked_invalid.
Qed.

Lemma state_inv_compute f value dayNum timeMin :
  state_inv f -> state_inv (fst (ComputeNewValue stdev f value dayNum timeMin)).
Proof.
  destruct f as [o|o|o|o|o|o|o|o|o|o|o|o|o]; intros H;
    unfold ComputeNewValue, prod_map; cbn [fst state_inv] in *; try exact I.
  - (* CThresholdValue *)
    destruct H as [Hmn Hmx]. unfold CThresholdValue_ComputeNewValue.
    pose proof (prune_minmax_tracked (thr_MaxDaysInQueue o) dayNum _ _ _ Hmn Hmx) as Hp.
    destruct (prune_minmax _ _ _ _ _) as [[queue mn] mx]. destruct Hp as [Hmn' Hmx'].
    pose proof (update_minmax_tracked queue (mkEntry value dayNum timeMin) mn mx Hmn' Hmx') as Hu.
    simpl in Hu. destruct (update_minmax _ _ _ _) as [mn2 mx2]. simpl in Hu.
    repeat match goal with |- context [if ?b then _ else _] => destruct b end;
      simpl; exact (conj (proj1 Hu) (proj2 Hu)).
Qed.

Lemma reachable_state_inv f : reachable stdev f -> state_inv f.
Proof.
  induction 1; [apply state_inv_reset | apply state_inv_compute; assumption].
Qed.

Lemma CBollingerValue_expired o value dayNum timeMin :
  Forall (fun day => boll_MaxDaysInQueue o < dayNum - day) (map e_d (boll_ValueQueue o)) ->
  snd (CBollingerValue_ComputeNewValue stdev o value dayNum timeMin)
  = snd (CBollingerValue_ComputeNewValue stdev (CBollingerValue_Reset o) value dayNum timeMin).
Proof.
  intros H. unfold CBollingerValue_ComputeNewValue, CBollingerValue_Reset.
  cbn [boll_MaxDaysInQueue boll_ValueQueue boll_TotalValue boll_fUpperBollinger].
  pose proof (prune_total_all_expired _ _ _ (boll_TotalValue o) H) as Hq.
  destruct (prune_total _ _ (boll_ValueQueue o) _) as [queue total].
  cbn [fst] in Hq. subst queue. reflexivity.
Qed.

(** Every class that does not return its running total restarts after an
    eviction of the whole window: in a reachable state, when the new
    observation's day lies strictly more than the window size after every
    retained observation, ComputeNewValue returns what the reset object
    returns for that observation. *)
Lemma eviction_equals_fresh_without_running_total
    (f : FunctionObject) (value : Q) (dayNum timeMin : Z) :
  reachable stdev f ->
  windowed f = true ->
  returns_running_total f = false ->
  all_expired f dayNum ->
  snd (ComputeNewValue stdev f value dayNum timeMin)
  = snd (ComputeNewValue stdev (Reset f) value dayNum timeMin).
Proof.
  intros Hreach Hwin Hrun Hexp. apply reachable_state_inv in Hreach.
  unfold all_expired in Hexp.
  destruct f as [o|o|o|o|o|o|o|o|o|o|o|o|o]; try discriminate Hwin; try discriminate Hrun;
    cbn [windows state_inv] in *;
    unfold ComputeNewValue, Reset, prod_map; cbn [snd id];
    repeat match goal with
           | H : Forall _ (_ :: _) |- _ => apply Forall_cons in H as [? H]
           end; cbn [fst snd] in *.
  - apply CAccelerationValue_expired; assumption.
  - apply CDeltaValue_expired; assumption.
  - apply CRateValue_expired; assumption.
  - apply CRateCrossValue_expired; assumption.
  - apply CBollingerValue_expired; assumption.
  - apply CRangeValue_expired; assumption.
  - apply CPercentChangeValue_expired; assumption.
  - destruct Hreach. apply CThresholdValue_expired; assumption.
  - apply CVolatilityValue_expired; assumption.
  - apply CIsStableValue_expired; assumption.
Qed.

End WithStdev.

(** C5.  Sliding-window eviction fails for the functions that return a
    running total.  A running sum and a running average over 7 days are fed
    the floats 0.1 on day 100 and 0.2 on day 103 and then 0 on day 120, more
    than 7 days after both.  Both earlier observations are evicted, and the
    queue holds the observation of day 120 alone; but the total from which
    they were subtracted is left at 2^-55, the rounding error of the two
    additions and two subtractions, and that is the output, where a freshly
    reset instance fed the same observation returns 0. *)
Theorem running_total_keeps_rounding_residue :
  let stdev := fun _ : list Q => 0%Q in
  let feed3 f0 :=
    let f1 := fst (ComputeNewValue stdev (Reset f0) (binary64 (1 # 10)) 100 0) in
    fst (ComputeNewValue stdev f1 (binary64 (2 # 10)) 103 0) in
  let residue := (1 # 36028797018963968)%Q in
  Forall (fun f0 =>
            let f2 := feed3 f0 in
            reachable stdev f2 /\ windowed f2 = true
            /\ windows f2 = [(7, [100; 103])] /\ all_expired f2 120
            /\ windows (fst (ComputeNewValue stdev f2 0 120 0)) = [(7, [120])]
            /\ (snd (ComputeNewValue stdev f2 0 120 0) == residue)%Q
            /\ (snd (ComputeNewValue stdev (Reset f2) 0 120 0) == 0)%Q
            /\ ~ (snd (ComputeNewValue stdev f2 0 120 0)
                  == snd (ComputeNewValue stdev (Reset f2) 0 120 0))%Q)
         [ObjSum (CSum_init 7); ObjRunningAvg (CRunningAvgValue_init 7)].
Proof.
  cbv zeta.
  constructor; [|constructor; [|constructor]];
    (split; [do 2 apply reach_compute; apply reach_reset|]);
    (split; [vm_compute; reflexivity|]);
    (split; [vm_compute; reflexivity|]);
    (split; [unfold all_expired; vm_compute; repeat constructor|]);
    (split; [vm_compute; reflexivity|]);
    (split; [vm_compute; reflexivity|]);
    (split; [vm_compute; reflexivity|]);
    vm_compute; discriminate.
Qed.

(** *** CRangeValue: the relative range *)

(** What CRangeValue returns, read off the state it leaves behind. *)
Lemma CRangeValue_output o value dayNum timeMin :
  let o' := fst (CRangeValue_ComputeNewValue o value dayNum timeMin) in
  let out := snd (CRangeValue_ComputeNewValue o value dayNum timeMin) in
  ((length (range_ValueQueue o') <= 1)%nat -> out = TDF_INVALID_VALUE)
  /\ (range_fAbsolute o = false ->
      (1 < length (range_ValueQueue o'))%nat ->
      is_INVALID (range_MinValue o') = false ->
      is_INVALID (range_MaxValue o') = false ->
      ((range_MinValue o' == 0)%Q -> out = (range_MaxValue o' - range_MinValue o')%Q)
      /\ (~ (range_MinValue o' == 0)%Q ->
          out = ((range_MaxValue o' - range_MinValue o') / range_MinValue o')%Q)).
Proof.
  unfold CRangeValue_ComputeNewValue.
  destruct (prune_minmax _ _ _ _ _) as [[queue mn] mx].
  destruct (update_minmax _ _ _ _) as [mn' mx'].
  cbn [range_fAbsolute].
  destruct (is_INVALID mn') eqn:E1; destruct (is_INVALID mx') eqn:E2;
    destruct (length (queue ++ [_]) <=? 1)%nat eqn:E3;
    destruct (range_fAbsolute o) eqn:Ea; destruct (Qeq_bool mn' 0) eqn:Ez;
    cbn [orb andb negb fst snd range_ValueQueue range_MinValue range_MaxValue];
    (split; [intros Hlen | intros Habs Hlen Hmn Hmx; split; intros Hz]);
    try reflexivity; try discriminate;
    try (apply Nat.leb_le in E3; lia); try (apply Nat.leb_gt in E3; lia);
    try (apply Qeq_bool_iff in Ez; contradiction);
    try (apply Qeq_bool_iff in Hz; congruence); congruence.
Qed.

(** C7.  The relative range (Range with absolute=false) at a window whose
    minimum is 0: fed 0 on day 1 and 5 on day 2 with a window of 7 days, it
    tracks minimum 0 and maximum 5 and returns 5, the undivided max - min,
    where the specified result is 0. *)
Theorem relrange_zero_minimum_returns_maximum :
  let f0 := CRangeValue_init false 7 in
  let f1 := fst (CRangeValue_ComputeNewValue f0 0 1 0) in
  let f2 := fst (CRangeValue_ComputeNewValue f1 5 2 0) in
  let out := snd (CRangeValue_ComputeNewValue f1 5 2 0) in
  map e_v (range_ValueQueue f2) = [0%Q; 5%Q]
  /\ (range_MinValue f2 == 0)%Q /\ (range_MaxValue f2 == 5)%Q
  /\ (out == 5)%Q /\ ~ (out == 0)%Q.
Proof.
  cbv zeta. repeat split; try reflexivity. intros H. discriminate H.
Qed.

(** *** CTimeSeries.AddNewValue *)

Lemma new_entry_keys (value : Q) (timeInDays timeMin : Z) :
  ts_entry_keys (<["v" := value]> (<["d" := inject_Z timeInDays]>
                   (<["m" := inject_Z timeMin]> ∅))).
Proof.
  unfold ts_entry_keys. repeat split; try (eexists; reflexivity).
Qed.

(** On entries without the key 'h' the pruning loop either does not run or
    raises: it never returns after an iteration. *)
Lemma AddNewValue_trim_cases maxH timeInDays lowest queue Oldest fNeed :
  Forall ts_entry_keys queue ->
  (2 <= length queue)%nat ->
  AddNewValue_trim maxH timeInDays lowest queue Oldest fNeed
  = if Qltb (inject_Z maxH) (inject_Z timeInDays - Oldest.1.1)
    then Raise (KeyError "h")
    else Ok (queue, Oldest, fNeed).
Proof.
  intros Hkeys Hlen. destruct Oldest as [[od oh] om].
  destruct queue as [|removed [|oldest queue]]; simpl in Hlen; try lia.
  cbn [AddNewValue_trim fst].
  destruct (Qltb _ _); [|reflexivity].
  apply Forall_cons in Hkeys as [(Hv & _) Hkeys].
  apply Forall_cons in Hkeys as [(_ & Hd & _ & Hh) _].
  destruct Hv as [v Hv]. destruct Hd as [d Hd].
  unfold py_getitem. rewrite Hv, Hd, Hh. reflexivity.
Qed.

Lemma ts_inv_init maxH : ts_inv (CTimeSeries_init maxH).
Proof. split; simpl; [constructor|reflexivity]. Qed.

Lemma inject_Z_nonneg_not_minus1 z :
  0 <= z -> Qeq_bool (inject_Z z) (-1) = false.
Proof.
  intros H. destruct (Qeq_bool _ _) eqn:E; [|reflexivity].
  apply Qeq_bool_iff in E. unfold Qeq in E. simpl in E. lia.
Qed.

Lemma ts_inv_add self value timeInDays timeMin self' :
  ts_inv self -> 0 <= timeInDays -> 0 <= timeMin ->
  CTimeSeries_AddNewValue self value timeInDays timeMin = Ok self' ->
  ts_inv self'.
Proof.
  intros [Hkeys Hold] Hd Hm. unfold CTimeSeries_AddNewValue.
  set (entry := <["v" := value]> _).
  assert (Hkeys' : Forall ts_entry_keys (ts_ValueQueue self ++ [entry])).
  { apply Forall_app. split; [exact Hkeys|]. constructor; [|constructor].
    apply new_entry_keys. }
  destruct (Qeq_bool (ts_OldestDay self) (-1) && Qeq_bool (ts_OldestMin self) (-1)) eqn:E.
  - intros [= <-]. split; cbn [ts_ValueQueue ts_OldestDay ts_OldestMin]; [exact Hkeys'|].
    destruct (ts_ValueQueue self) as [|e q] eqn:Eq.
    + simpl. split.
      * rewrite (inject_Z_nonneg_not_minus1 timeMin Hm). apply andb_false_r.
      * subst entry. rewrite lookup_insert_ne by discriminate. apply lookup_insert_eq.
    + destruct Hold as [Hold _]. congruence.
  - destruct (ts_ValueQueue self) as [|e q] eqn:Eq.
    + congruence.
    + rewrite AddNewValue_trim_cases; [|exact Hkeys'|simpl; rewrite length_app; simpl; lia].
      cbn [fst]. unfold mbind, result_bind. destruct (Qltb _ _); [discriminate|].
      simpl. intros [= <-]. split; cbn [ts_ValueQueue ts_OldestDay ts_OldestMin];
        [exact Hkeys'|exact (conj E (proj2 Hold))].
Qed.

Lemma ts_reachable_inv self : ts_reachable self -> ts_inv self.
Proof.
  induction 1 as [|self v d m self' Hr IH Hd Hm Ha]; [apply ts_inv_init|].
  exact (ts_inv_add _ _ _ _ _ IH Hd Hm Ha).
Qed.

(** Once AddNewValue has been called, a later call whose day exceeds
    self.OldestDay by more than maxHistoryInDays raises KeyError 'h'. *)
Lemma AddNewValue_pruning_KeyError
    (self : CTimeSeries) (value : Q) (timeInDays timeMin : Z) :
  ts_reachable self ->
  ts_ValueQueue self <> [] ->
  (inject_Z (ts_maxHistoryInDays self) < inject_Z timeInDays - ts_OldestDay self)%Q ->
  CTimeSeries_AddNewValue self value timeInDays timeMin = Raise (KeyError "h").
Proof.
  intros Hreach Hne Hlate. apply ts_reachable_inv in Hreach as [Hkeys Hold].
  unfold CTimeSeries_AddNewValue.
  destruct (ts_ValueQueue self) as [|e q] eqn:Eq; [congruence|].
  destruct Hold as [-> _].
  rewrite AddNewValue_trim_cases.
  - cbn [fst]. apply Qltb_lt in Hlate. rewrite Hlate. reflexivity.
  - apply Forall_app. split; [exact Hkeys|].
    constructor; [apply new_entry_keys|constructor].
  - simpl. rewrite length_app. simpl. lia.
Qed.

(** The oldest retained day is the day stamp of the queue head. *)
Lemma ts_OldestDay_is_queue_head self e q :
  ts_reachable self -> ts_ValueQueue self = e :: q ->
  e !! "d" = Some (ts_OldestDay self).
Proof.
  intros Hreach Eq. apply ts_reachable_inv in Hreach as [_ Hold].
  rewrite Eq in Hold. exact (proj2 Hold).
Qed.

End TimeFunctionsFacts.

Module QueryFacts.
Import TimeFunctions LabValues Query.

Ltac py_unfold := unfold mbind, mret, fmap, result_bind, result_ret, result_fmap in *.

Lemma py_index_lookup {A} (l : list A) (i : Z) (a : A) :
  py_index l i = Ok a -> 0 <= i -> l !! Z.to_nat i = Some a.
Proof.
  unfold py_index. intros H Hi.
  destruct (i <? 0) eqn:E; [apply Z.ltb_lt in E; lia|].
  destruct ((i <? 0) || (Z.of_nat (length l) <=? i)); [discriminate|].
  destruct (l !! Z.to_nat i); congruence.
Qed.

Section GetNamedValue.
Variable stdev : list Q -> Q.
Variable CompiledTimeline : list TimelineEntry.

(** C10.  A reference without a function whose start offset is greater than
    its stop offset (a backward search) and whose window starts on the
    current TimePoint's day, such as Name[0:-3] in Nearest mode: none of the
    four cursor-positioning branches is taken, and the search loop reads the
    local variable currentTimeLineIndex before any assignment, which raises
    UnboundLocalError. *)
Theorem backward_search_from_current_day_raises_UnboundLocalError
    (valueName : string) (startOffsetRange endOffsetRange rangeOption : Z)
    (timeLineIndex prevUsedRangeDay : Z) (timelineEntry : TimelineEntry) :
  py_index CompiledTimeline timeLineIndex = Ok timelineEntry ->
  endOffsetRange < startOffsetRange ->
  (if rangeOption =? VARIABLE_RANGE_LAST_MATCH then prevUsedRangeDay
   else TimeDays timelineEntry) + startOffsetRange = TimeDays timelineEntry ->
  GetNamedValueFromTimeline stdev CompiledTimeline valueName
    startOffsetRange endOffsetRange rangeOption None timeLineIndex prevUsedRangeDay
  = Raise (UnboundLocalError "currentTimeLineIndex").
Proof.
  intros Hidx Hback Hstart. unfold GetNamedValueFromTimeline.
  rewrite Hidx. py_unfold. unfold same_day_block.
  assert (E1 : (startOffsetRange =? endOffsetRange) = false) by (apply Z.eqb_neq; lia).
  rewrite E1. cbn [andb orb].
  rewrite bool_decide_eq_false_2 by (intros [x Hx]; discriminate Hx).
  set (referenceDay := if rangeOption =? VARIABLE_RANGE_LAST_MATCH then _ else _) in *.
  assert (E2 : (referenceDay + endOffsetRange <? referenceDay + startOffsetRange) = true)
    by (apply Z.ltb_lt; lia).
  rewrite E2. cbn [negb]. unfold position_cursor. cbn [negb andb].
  rewrite Hstart, Z.ltb_irrefl. reflexivity.
Qed.

Lemma py_index_bound {A} (l : list A) (i : Z) (a : A) :
  py_index l i = Ok a -> 0 <= i -> i < Z.of_nat (length l).
Proof.
  intros H Hi. apply py_index_lookup in H; [|exact Hi].
  apply lookup_lt_Some in H. lia.
Qed.

Lemma valid_is_not_INVALID (x : Q) :
  Qltb x TDF_SMALLEST_VALID_VALUE = false -> Qeq_bool TDF_INVALID_VALUE x = false.
Proof.
  intros H. apply Qltb_ge in H.
  destruct (Qeq_bool TDF_INVALID_VALUE x) eqn:E; [|reflexivity].
  apply Qeq_bool_iff in E. rewrite <- E in H.
  exfalso. revert H. unfold Qle, TDF_SMALLEST_VALID_VALUE, TDF_INVALID_VALUE. simpl. lia.
Qed.

(** With a function object and offsets (0,0) the same-day block computes the
    function's output and then falls through to the range search, whose
    window is the current day alone: the search finds the current entry and
    returns its raw snapshot value in place of the function's output. *)
Lemma function_output_is_overwritten
    (valueName : string) (f : FunctionObject) (timeLineIndex prevUsedRangeDay : Z)
    (timelineEntry : TimelineEntry) (raw : Q) :
  0 <= timeLineIndex ->
  py_index CompiledTimeline timeLineIndex = Ok timelineEntry ->
  data timelineEntry !! valueName = Some raw ->
  Qltb raw TDF_SMALLEST_VALID_VALUE = false ->
  Qltb (snd (ComputeNewValue stdev f raw (TimeDays timelineEntry) 0))
       TDF_SMALLEST_VALID_VALUE = false ->
  GetNamedValueFromTimeline stdev CompiledTimeline valueName 0 0 VARIABLE_RANGE_SIMPLE
    (Some f) timeLineIndex prevUsedRangeDay
  = Ok (Some (fst (ComputeNewValue stdev f raw (TimeDays timelineEntry) 0)),
        (true, raw, TimeDays timelineEntry)).
Proof.
  intros Hi Hidx Hraw Hvalid Hout. unfold GetNamedValueFromTimeline.
  rewrite Hidx. py_unfold. unfold same_day_block. cbn [Z.eqb andb orb].
  rewrite Hraw, Hvalid.
  destruct (ComputeNewValue stdev f raw (TimeDays timelineEntry) 0) as [f' out].
  cbn [fst snd] in *. rewrite Hout.
  replace (VARIABLE_RANGE_SIMPLE =? VARIABLE_RANGE_LAST_MATCH) with false by reflexivity.
  rewrite !Z.add_0_r, Z.ltb_irrefl. cbn [negb].
  unfold position_cursor. cbn [andb]. rewrite Z.leb_refl.
  pose proof (py_index_bound _ _ _ Hidx Hi) as Hlt.
  assert (Hcur : seek_forward_from_now CompiledTimeline (TimeDays timelineEntry)
                   (Z.to_nat (LastTimeLineIndex CompiledTimeline - timeLineIndex))
                   timeLineIndex = Ok timeLineIndex).
  { destruct (Z.to_nat _) as [|n]; [reflexivity|].
    cbn [seek_forward_from_now]. py_unfold. rewrite Hidx, Z.leb_refl. reflexivity. }
  rewrite Hcur. py_unfold. unfold read_local, LastTimeLineIndex. cbn beta iota.
  destruct (Z.to_nat (Z.of_nat (length CompiledTimeline) - 1 - timeLineIndex + 1))
    as [|n] eqn:En; [lia|].
  cbn [search_forward]. py_unfold. rewrite Hidx, Z.ltb_irrefl, Hraw.
  rewrite (valid_is_not_INVALID raw Hvalid). reflexivity.
Qed.

End GetNamedValue.

(** C1.  A reference that names a derived function, Cr.delta, resolved on
    the two TimePoints of a timeline with Cr 1.0 on day 10 and 3.0 on day 11.
    On day 10 the function's output is invalid and the result is "not
    found".  On day 11 the same-day value 3.0 is fed to ComputeNewValue,
    whose output is 2.0, but the value returned to the caller is the raw
    snapshot value 3.0, not the function's output. *)
Theorem derived_function_output_is_not_returned :
  let stdev := fun _ : list Q => 0%Q in
  let CT := [mkTimelineEntry 10 0 {["Cr" := 1%Q]}; mkTimelineEntry 11 1 {["Cr" := 3%Q]}] in
  exists f0 f1 f2,
    CreateTimeValueFunction "delta" "Cr" = Some f0
    /\ GetNamedValueFromTimeline stdev CT "Cr" 0 0 VARIABLE_RANGE_SIMPLE (Some (Reset f0)) 0 (-1)
       = Ok (Some f1, (false, TDF_INVALID_VALUE, -1))
    /\ ComputeNewValue stdev f1 3 11 0 = (f2, (3 - 1)%Q)
    /\ GetNamedValueFromTimeline stdev CT "Cr" 0 0 VARIABLE_RANGE_SIMPLE (Some f1) 1 (-1)
       = Ok (Some f2, (true, 3%Q, 11)).
Proof.
  intros stdev CT.
  exists (ObjDelta (CDeltaValue_init 1)),
         (ObjDelta (mkDelta 1 [mkEntry 1 10 0])),
         (ObjDelta (mkDelta 1 [mkEntry 1 10 0; mkEntry 3 11 0])).
  split; [reflexivity|]. split; [reflexivity|]. split; [reflexivity|].
  exact (function_output_is_overwritten stdev CT "Cr"
           (ObjDelta (mkDelta 1 [mkEntry 1 10 0])) 1 (-1)
           (mkTimelineEntry 11 1 {["Cr" := 3%Q]}) 3
           ltac:(lia) eq_refl eq_refl eq_refl eq_refl).
Qed.

(** The statement at the reference Cr[0:-3] in Nearest mode, on the second
    TimePoint of a two-day timeline. *)
Lemma backward_search_from_current_day_witness :
  let CT := [mkTimelineEntry 100 0 {["Cr" := 1%Q]}; mkTimelineEntry 103 1 {["Cr" := 2%Q]}] in
  py_index CT 1 = Ok (mkTimelineEntry 103 1 {["Cr" := 2%Q]})
  /\ -3 < 0
  /\ GetNamedValueFromTimeline (fun _ => 0%Q) CT "Cr" 0 (-3) VARIABLE_RANGE_SIMPLE None 1 (-1)
     = Raise (UnboundLocalError "currentTimeLineIndex").
Proof.
  intros CT. split; [reflexivity|]. split; [lia|].
  apply (backward_search_from_current_day_raises_UnboundLocalError
           (fun _ => 0%Q) CT "Cr" 0 (-3) VARIABLE_RANGE_SIMPLE 1 (-1)
           (mkTimelineEntry 103 1 {["Cr" := 2%Q]}));
    [reflexivity | lia | reflexivity].
Defined.

(** *** CheckIfCurrentTimeMeetsCriteria *)
Section Criteria.
Variable g_LabValueInfo : gmap string LabInfo.

(** On the tested combinations the chain of tests decides the specified
    relation. *)
Lemma relation_test_spec relationName dataTypeName actualVal targetVal :
  tested_combination relationName dataTypeName = true ->
  relation_test relationName dataTypeName actualVal targetVal
  = spec_relation_holds relationName dataTypeName actualVal targetVal.
Proof.
  unfold tested_combination, relation_test, spec_relation_holds, Qgtb, Qgeb, Qltb.
  unfold TDF_DATA_TYPE_FLOAT, TDF_DATA_TYPE_INT, TDF_DATA_TYPE_FUTURE_EVENT_CLASS,
    TDF_DATA_TYPE_BOOL.
  intros H.
  rewrite (Z.ltb_antisym (py_int actualVal) (py_int targetVal)).
  rewrite (Z.ltb_antisym (py_int targetVal) (py_int actualVal)).
  destruct (dataTypeName =? 1) eqn:E1; destruct (dataTypeName =? 0) eqn:E0;
    destruct (dataTypeName =? 3) eqn:E3; destruct (dataTypeName =? 2) eqn:E2;
    try (apply Z.eqb_eq in E1); try (apply Z.eqb_eq in E0);
    try (apply Z.eqb_eq in E3); try (apply Z.eqb_eq in E2); try lia;
    cbn [andb orb] in *;
    destruct (String.eqb relationName ".EQ."); try discriminate H;
    repeat match goal with
           | |- context [String.eqb relationName ?s] => destruct (String.eqb relationName s)
           end;
    try reflexivity;
    repeat match goal with
           | |- context [Qeq_bool ?a ?b] => destruct (Qeq_bool a b)
           | |- context [Qle_bool ?a ?b] => destruct (Qle_bool a b)
           | |- context [?a =? ?b] => destruct (a =? b)
           | |- context [?a <=? ?b] => destruct (a <=? b)
           end;
    reflexivity.
Qed.

Lemma check_properties_true rels names vals snapshot n propNum :
  check_properties g_LabValueInfo rels names vals snapshot n propNum = Ok true
  <-> forall k, (k < n)%nat ->
        check_property g_LabValueInfo rels names vals snapshot (propNum + Z.of_nat k) = Ok true.
Proof.
  revert propNum. induction n as [|n IH]; intros propNum; cbn [check_properties].
  - split; [intros _ k Hk; lia | reflexivity].
  - py_unfold. split.
    + intros H k Hk.
      destruct (check_property _ _ _ _ _ propNum) as [[|]|e] eqn:E; try discriminate H.
      destruct k as [|k]; [rewrite Z.add_0_r; exact E|].
      apply IH with (k := k) in H; [|lia].
      replace (propNum + Z.of_nat (S k)) with (propNum + 1 + Z.of_nat k) by lia. exact H.
    + intros H. pose proof (H 0%nat ltac:(lia)) as H0.
      change (Z.of_nat 0) with 0 in H0. rewrite Z.add_0_r in H0. rewrite H0.
      apply IH. intros k Hk.
      replace (propNum + 1 + Z.of_nat k) with (propNum + Z.of_nat (S k)) by lia.
      apply H. lia.
Qed.

Lemma py_index_nat {A} (l : list A) (k : nat) :
  py_index l (Z.of_nat k)
  = match l !! k with Some a => Ok a | None => Raise IndexError end.
Proof.
  unfold py_index.
  destruct (Z.of_nat k <? 0) eqn:E; [apply Z.ltb_lt in E; lia|].
  rewrite E, Nat2Z.id. cbn [orb].
  destruct (Z.of_nat (length l) <=? Z.of_nat k) eqn:E2.
  - apply Z.leb_le in E2. rewrite lookup_ge_None_2 by lia. reflexivity.
  - reflexivity.
Qed.

(** The filter on predicate lists that only use tested combinations: it
    returns true exactly when every relational test of the specification
    holds, each tested variable being present, valid and declared. *)
Lemma CheckIfCurrentTimeMeetsCriteria_tested rels names vals timelineEntry :
  (forall i valueName relationName labInfo,
      names !! i = Some valueName -> rels !! i = Some relationName ->
      g_LabValueInfo !! valueName = Some labInfo ->
      tested_combination relationName (dataType labInfo) = true) ->
  CheckIfCurrentTimeMeetsCriteria g_LabValueInfo rels names vals timelineEntry = Ok true
  <-> spec_criteria_met g_LabValueInfo rels names vals (data timelineEntry).
Proof.
  intros Htested. unfold CheckIfCurrentTimeMeetsCriteria, spec_criteria_met.
  rewrite check_properties_true. split.
  - intros H i valueName Hname.
    specialize (H i (lookup_lt_Some _ _ _ Hname)).
    unfold check_property in H. rewrite Z.add_0_l, !py_index_nat, Hname in H. py_unfold.
    destruct (data timelineEntry !! valueName) as [actualVal|] eqn:Ea; [|discriminate H].
    destruct (Qeq_bool actualVal TDF_INVALID_VALUE || Qle_bool actualVal TDF_SMALLEST_VALID_VALUE)
      eqn:Ev; [discriminate H|].
    destruct (vals !! i) as [targetVal|] eqn:Et; [|discriminate H].
    destruct (rels !! i) as [relationName|] eqn:Er; [|discriminate H].
    destruct (g_LabValueInfo !! valueName) as [labInfo|] eqn:El; [|discriminate H].
    exists relationName, targetVal, actualVal, labInfo.
    repeat split; try reflexivity.
    + unfold valid_operand. rewrite Ev. reflexivity.
    + rewrite <- relation_test_spec by (eapply Htested; eassumption). congruence.
  - intros H k Hk.
    destruct (lookup_lt_is_Some_2 names k Hk) as [valueName Hname].
    destruct (H k valueName Hname)
      as (relationName & targetVal & actualVal & labInfo & Er & Et & Ea & Ev & El & Hrel).
    unfold check_property. rewrite Z.add_0_l, !py_index_nat, Hname, Er, Et. py_unfold.
    rewrite Ea. unfold valid_operand in Ev. apply negb_true_iff in Ev. rewrite Ev, El.
    rewrite relation_test_spec by (eapply Htested; eassumption). congruence.
Qed.

(** An absent or invalid operand fails the whole predicate list. *)
Lemma CheckIfCurrentTimeMeetsCriteria_absent_or_invalid rels names vals timelineEntry i valueName :
  names !! i = Some valueName ->
  match data timelineEntry !! valueName with
  | None => True
  | Some actualVal => valid_operand actualVal = false
  end ->
  CheckIfCurrentTimeMeetsCriteria g_LabValueInfo rels names vals timelineEntry <> Ok true.
Proof.
  intros Hname Hbad H. unfold CheckIfCurrentTimeMeetsCriteria in H.
  rewrite check_properties_true in H.
  specialize (H i (lookup_lt_Some _ _ _ Hname)).
  unfold check_property in H. rewrite Z.add_0_l, !py_index_nat, Hname in H. py_unfold.
  destruct (data timelineEntry !! valueName) as [actualVal|]; [|discriminate H].
  unfold valid_operand in Hbad. apply negb_false_iff in Hbad. rewrite Hbad in H.
  discriminate H.
Qed.

End Criteria.

(** C8.  The filter on a Boolean variable tested with [≠]: on a snapshot
    where InHospital is 1, the predicate "InHospital .NEQ. 1" does not hold,
    yet CheckIfCurrentTimeMeetsCriteria returns true.  Only the [.EQ.] case
    of the method has a test for Boolean variables; under the other five
    relations a Boolean variable passes whatever its value. *)
Theorem filter_accepts_failed_boolean_test :
  let timelineEntry := mkTimelineEntry 100 0 {["InHospital" := 1%Q]} in
  (dataType <$> lab_table_excerpt !! "InHospital") = Some TDF_DATA_TYPE_BOOL
  /\ spec_relation_holds ".NEQ." TDF_DATA_TYPE_BOOL 1 1 = false
  /\ CheckIfCurrentTimeMeetsCriteria lab_table_excerpt
       [".NEQ."] ["InHospital"] [1%Q] timelineEntry = Ok true
  /\ CheckIfCurrentTimeMeetsCriteria lab_table_excerpt
       [".EQ."] ["InHospital"] [0%Q] timelineEntry = Ok false
  /\ forall relationName actualVal targetVal,
       relationName = ".NEQ." \/ relationName = ".LT." \/ relationName = ".LTE."
       \/ relationName = ".GT." \/ relationName = ".GTE." ->
       relation_test relationName TDF_DATA_TYPE_BOOL actualVal targetVal = true.
Proof.
  cbv zeta. repeat split; try reflexivity.
  intros relationName actualVal targetVal [->|[->|[->|[->| ->]]]]; reflexivity.
Qed.

Lemma CheckIfCurrentTimeMeetsCriteria_tested_witness :
  CheckIfCurrentTimeMeetsCriteria lab_table_excerpt [".GT."; ".EQ."] ["Cr"; "InHospital"]
    [1%Q; 1%Q] (mkTimelineEntry 100 0 {["Cr" := 2%Q; "InHospital" := 1%Q]}) = Ok true
  <-> spec_criteria_met lab_table_excerpt [".GT."; ".EQ."] ["Cr"; "InHospital"] [1%Q; 1%Q]
        (data (mkTimelineEntry 100 0 {["Cr" := 2%Q; "InHospital" := 1%Q]})).
Proof.
  apply CheckIfCurrentTimeMeetsCriteria_tested.
  intros i valueName relationName labInfo Hn Hr Hl.
  destruct i as [|[|i]]; cbn in Hn, Hr; try discriminate;
    injection Hn as <-; injection Hr as <-;
    vm_compute in Hl; injection Hl as <-; reflexivity.
Defined.

Lemma CheckIfCurrentTimeMeetsCriteria_absent_or_invalid_witness :
  CheckIfCurrentTimeMeetsCriteria lab_table_excerpt [".GT."; ".EQ."] ["Cr"; "InHospital"]
    [1%Q; 1%Q] (mkTimelineEntry 100 0 {["Cr" := 2%Q]}) <> Ok true.
Proof.
  apply (CheckIfCurrentTimeMeetsCriteria_absent_or_invalid lab_table_excerpt
           _ _ _ _ 1%nat "InHospital"); [reflexivity|].
  vm_compute. exact I.
Defined.
End QueryFacts.

Module CompileFacts.
Import TimeFunctions LabValues Query Compile.

(** Boolean comparisons on [Q] as propositions, for [lra]. *)
Ltac q_bool :=
  repeat match goal with
         | H : Qltb _ _ = true |- _ => apply Qltb_lt in H
         | H : Qltb _ _ = false |- _ => apply Qltb_ge in H
         | H : Qgtb _ _ = true |- _ => apply Qltb_lt in H
         | H : Qgtb _ _ = false |- _ => apply Qltb_ge in H
         | H : Qgeb _ _ = true |- _ => apply Qle_bool_iff in H
         | H : Qle_bool _ _ = true |- _ => apply Qle_bool_iff in H
         | H : Qgeb ?x ?y = false |- _ =>
             change (Qle_bool y x = false) in H
         | H : Qle_bool ?x ?y = false |- _ =>
             assert (y < x)%Q by (apply Qnot_le_lt; intros ?Hle;
                                  apply Qle_bool_iff in Hle; congruence);
             clear H
         end.

(** *** Stage onsets *)

(** On a valid score each milestone field moves by [stage_step]. *)
Lemma record_GFR_stage (st : Stage) self score day :
  Qltb score TDF_SMALLEST_VALID_VALUE = false ->
  stage_date st (record_GFR self score day)
  = if String.eqb (stage_score st) "GFR"
    then stage_step (stage_met st score) (stage_date st self) day
    else stage_date st self.
Proof.
  intros Hvalid. destruct self as [c5 c4 c3b c3a m40 m30 m20 m10].
  unfold record_GFR, stage_step. rewrite Hvalid.
  destruct (Qltb score 15) eqn:E15.
  { destruct st; cbn; try reflexivity; rewrite ?E15; try reflexivity;
      match goal with
      | |- context [Qltb score ?t] =>
          destruct (Qltb score t) eqn:E; [reflexivity|q_bool; lra]
      end. }
  destruct (Qle_bool 15 score && Qltb score 30) eqn:E30.
  { apply andb_true_iff in E30 as [Ea Eb].
    destruct st; cbn; try reflexivity; rewrite ?E15, ?Eb; try reflexivity;
      match goal with
      | |- context [Qltb score ?t] =>
          destruct (Qltb score t) eqn:E; [reflexivity|q_bool; lra]
      end. }
  destruct (Qle_bool 30 score && Qltb score 45) eqn:E45.
  { apply andb_true_iff in E45 as [Ea Eb].
    destruct st; cbn; try reflexivity; rewrite ?E15, ?Eb; try reflexivity;
      match goal with
      | |- context [Qltb score ?t] =>
          destruct (Qltb score t) eqn:E; try reflexivity; q_bool; lra
      end. }
  destruct (Qle_bool 45 score && Qltb score 60) eqn:E60.
  { apply andb_true_iff in E60 as [Ea Eb].
    destruct st; cbn; try reflexivity; rewrite ?E15, ?Eb; try reflexivity;
      match goal with
      | |- context [Qltb score ?t] =>
          destruct (Qltb score t) eqn:E; try reflexivity; q_bool; lra
      end. }
  destruct (Qgeb score 60) eqn:E61.
  { destruct st; cbn; try reflexivity; rewrite ?E15; try reflexivity;
      match goal with
      | |- context [Qltb score ?t] =>
          destruct (Qltb score t) eqn:E; try reflexivity; q_bool; lra
      end. }
  exfalso. apply andb_false_iff in E30, E45, E60.
  destruct E30 as [E|E], E45 as [E'|E'], E60 as [E''|E'']; q_bool; lra.
Qed.

Lemma record_MELD_stage (st : Stage) self score day :
  Qltb score TDF_SMALLEST_VALID_VALUE = false ->
  stage_date st (record_MELD self score day)
  = if String.eqb (stage_score st) "MELD"
    then stage_step (stage_met st score) (stage_date st self) day
    else stage_date st self.
Proof.
  intros Hvalid. destruct self as [c5 c4 c3b c3a m40 m30 m20 m10].
  unfold record_MELD, stage_step. rewrite Hvalid.
  destruct (Qgeb score 40) eqn:E40.
  { destruct st; cbn; try reflexivity; rewrite ?E40; try reflexivity;
      match goal with
      | |- context [Qgeb score ?t] =>
          destruct (Qgeb score t) eqn:E; [reflexivity|q_bool; lra]
      end. }
  destruct (Qle_bool 30 score && Qltb score 40) eqn:E30.
  { apply andb_true_iff in E30 as [Ea Eb].
    destruct st; cbn; try reflexivity; rewrite ?E40; try reflexivity;
      match goal with
      | |- context [Qgeb score ?t] =>
          destruct (Qgeb score t) eqn:E; try reflexivity; q_bool; lra
      end. }
  destruct (Qle_bool 20 score && Qltb score 30) eqn:E20.
  { apply andb_true_iff in E20 as [Ea Eb].
    destruct st; cbn; try reflexivity; rewrite ?E40; try reflexivity;
      match goal with
      | |- context [Qgeb score ?t] =>
          destruct (Qgeb score t) eqn:E; try reflexivity; q_bool; lra
      end. }
  destruct (Qle_bool 10 score && Qltb score 20) eqn:E10.
  { apply andb_true_iff in E10 as [Ea Eb].
    destruct st; cbn; try reflexivity; rewrite ?E40; try reflexivity;
      match goal with
      | |- context [Qgeb score ?t] =>
          destruct (Qgeb score t) eqn:E; try reflexivity; q_bool; lra
      end. }
  destruct (Qltb score 10) eqn:E9.
  { destruct st; cbn; try reflexivity; rewrite ?E40; try reflexivity;
      match goal with
      | |- context [Qgeb score ?t] =>
          destruct (Qgeb score t) eqn:E; try reflexivity; q_bool; lra
      end. }
  exfalso. apply andb_false_iff in E30, E20, E10.
  destruct E30 as [E|E], E20 as [E'|E'], E10 as [E''|E'']; q_bool; lra.
Qed.

Lemma record_GFR_invalid self score day :
  Qltb score TDF_SMALLEST_VALID_VALUE = true -> record_GFR self score day = self.
Proof. intros H. destruct self. unfold record_GFR. rewrite H. reflexivity. Qed.

Lemma record_MELD_invalid self score day :
  Qltb score TDF_SMALLEST_VALID_VALUE = true -> record_MELD self score day = self.
Proof. intros H. destruct self. unfold record_MELD. rewrite H. reflexivity. Qed.

Lemma RecordTimeMilestones_stage (st : Stage) self timeLineData day :
  stage_date st (RecordTimeMilestonesOnForwardPass self timeLineData day)
  = match timeLineData !! stage_score st with
    | Some score =>
        if Qltb score TDF_SMALLEST_VALID_VALUE then stage_date st self
        else stage_step (stage_met st score) (stage_date st self) day
    | None => stage_date st self
    end.
Proof.
  unfold RecordTimeMilestonesOnForwardPass.
  destruct (timeLineData !! "GFR") as [g|] eqn:Eg;
    destruct (timeLineData !! "MELD") as [m|] eqn:Em;
    try (destruct (Qltb g TDF_SMALLEST_VALID_VALUE) eqn:Vg);
    try (destruct (Qltb m TDF_SMALLEST_VALID_VALUE) eqn:Vm);
    rewrite ?record_MELD_invalid, ?record_GFR_invalid by assumption;
    rewrite ?(record_MELD_stage st), ?(record_GFR_stage st) by assumption;
    destruct st; cbn [stage_score String.eqb Ascii.eqb Bool.eqb];
    rewrite ?Eg, ?Em, ?Vg, ?Vm; reflexivity.
Qed.

Lemma second_forward_sweep_stage (st : Stage) CompiledTimeline self :
  stage_date st (second_forward_sweep self CompiledTimeline)
  = fold_left (fun date ds => stage_step (stage_met st (snd ds)) date (fst ds))
      (valid_scores (stage_score st) CompiledTimeline) (stage_date st self).
Proof.
  unfold second_forward_sweep. revert self.
  induction CompiledTimeline as [|e CT IH]; intros self; [reflexivity|].
  cbn [fold_left valid_scores omap list_omap]. rewrite IH, RecordTimeMilestones_stage.
  fold (valid_scores (stage_score st) CT).
  destruct (data e !! stage_score st) as [score|]; [|reflexivity].
  destruct (Qltb score TDF_SMALLEST_VALID_VALUE); reflexivity.
Qed.

(** A run of [stage_step] over observations on non-negative days ends with
    the specified onset. *)
Lemma stage_fold_onset (met : Q -> bool) (scores : list (Z * Q)) (date : Z) :
  Forall (fun ds => 0 <= fst ds) scores ->
  fold_left (fun date ds => stage_step (met (snd ds)) date (fst ds)) scores date
  = if forallb (fun ds => met (snd ds)) scores
    then (if date <? 0
          then match scores with [] => date | ds :: _ => fst ds end
          else date)
    else onset_spec met scores.
Proof.
  revert date. induction scores as [|[day score] scores IH]; intros date Hdays.
  - simpl. destruct (date <? 0); reflexivity.
  - apply Forall_cons in Hdays as [Hday Hdays]. simpl in Hday.
    cbn [fold_left forallb fst snd onset_spec]. rewrite IH by exact Hdays.
    unfold stage_step, set_if_unset. destruct (met score) eqn:Em; cbn [andb].
    + destruct (forallb _ scores); [|reflexivity].
      destruct (date <? 0) eqn:Ed.
      * assert (E : (day <? 0) = false) by (apply Z.ltb_ge; lia).
        rewrite E. reflexivity.
      * rewrite Ed. reflexivity.
    + replace (TDF_INVALID_DATE <? 0) with true by reflexivity.
      destruct scores as [|[day' score'] scores']; [reflexivity|].
      cbn [onset_spec fst]. destruct (forallb _ _); reflexivity.
Qed.

Lemma valid_scores_days valueName CompiledTimeline :
  Forall (fun e => 0 <= TimeDays e) CompiledTimeline ->
  Forall (fun ds => 0 <= fst ds) (valid_scores valueName CompiledTimeline).
Proof.
  induction 1 as [|e CT He _ IH]; [constructor|].
  cbn [valid_scores omap list_omap]. fold (valid_scores valueName CT).
  destruct (data e !! valueName) as [score|]; [|exact IH].
  destruct (Qltb score TDF_SMALLEST_VALID_VALUE); [exact IH|].
  constructor; [exact He|exact IH].
Qed.

(** The onset the sweep leaves in a milestone field is the specified one. *)
Lemma sweep_onset (st : Stage) CompiledTimeline :
  Forall (fun e => 0 <= TimeDays e) CompiledTimeline ->
  stage_date st (second_forward_sweep Milestones_init CompiledTimeline)
  = onset_spec (stage_met st) (valid_scores (stage_score st) CompiledTimeline).
Proof.
  intros Hdays. rewrite second_forward_sweep_stage.
  rewrite stage_fold_onset by (apply valid_scores_days; exact Hdays).
  replace (stage_date st Milestones_init) with TDF_INVALID_DATE by (destruct st; reflexivity).
  replace (TDF_INVALID_DATE <? 0) with true by reflexivity.
  destruct (valid_scores _ _) as [|[day score] scores]; [reflexivity|].
  cbn [onset_spec fst]. destruct (forallb _ _); reflexivity.
Qed.

Lemma valid_scores_app valueName CT1 CT2 :
  valid_scores valueName (CT1 ++ CT2)
  = valid_scores valueName CT1 ++ valid_scores valueName CT2.
Proof. unfold valid_scores. apply omap_app. Qed.

Lemma valid_scores_score_entry (st : Stage) day score :
  Qltb score TDF_SMALLEST_VALID_VALUE = false ->
  valid_scores (stage_score st) [score_entry st day score] = [(day, score)].
Proof.
  intros H. cbn [valid_scores omap list_omap score_entry data TimeDays].
  rewrite lookup_singleton_eq, H. reflexivity.
Qed.

Lemma onset_spec_last_unmet met scores day score :
  met score = false -> onset_spec met (scores ++ [(day, score)]) = TDF_INVALID_DATE.
Proof.
  intros Hm. induction scores as [|[d s] scores IH].
  - simpl. rewrite Hm. reflexivity.
  - cbn [app onset_spec]. rewrite IH.
    cbn [forallb snd]. rewrite forallb_app. cbn [forallb snd]. rewrite Hm.
    rewrite andb_false_r, andb_false_r. reflexivity.
Qed.

Lemma onset_spec_reentry met scores day1 score1 day2 score2 :
  met score1 = false -> met score2 = true ->
  onset_spec met (scores ++ [(day1, score1); (day2, score2)]) = day2.
Proof.
  intros Hm1 Hm2. induction scores as [|[d s] scores IH].
  - simpl. rewrite Hm1, Hm2. reflexivity.
  - cbn [app onset_spec]. rewrite IH.
    cbn [forallb snd]. rewrite forallb_app. cbn [forallb snd]. rewrite Hm1.
    cbn [andb]. rewrite andb_false_r, andb_false_r. reflexivity.
Qed.

(** C6.  Stage-onset tracking by the second forward sweep, for each of the
    eight stages and every timeline on non-negative days.
    (1) The onset date that survives the sweep is the first day from which
        every valid score to the end of the record meets the stage criterion
        (no onset when the last valid score does not).
    (2) Once a score returns to a better stage, the onset recorded for the
        worse stage is cleared.
    (3) When the score then crosses into the worse stage again, the onset is
        the new, later day. *)
Theorem stage_onset_tracking (st : Stage) (CompiledTimeline : list TimelineEntry)
    (day1 day2 : Z) (better worse : Q) :
  Forall (fun e => 0 <= TimeDays e) CompiledTimeline ->
  0 <= day1 -> 0 <= day2 ->
  Qltb better TDF_SMALLEST_VALID_VALUE = false -> stage_met st better = false ->
  Qltb worse TDF_SMALLEST_VALID_VALUE = false -> stage_met st worse = true ->
  stage_date st (second_forward_sweep Milestones_init CompiledTimeline)
  = onset_spec (stage_met st) (valid_scores (stage_score st) CompiledTimeline)
  /\ stage_date st (second_forward_sweep Milestones_init
                      (CompiledTimeline ++ [score_entry st day1 better]))
     = TDF_INVALID_DATE
  /\ stage_date st (second_forward_sweep Milestones_init
                      (CompiledTimeline ++ [score_entry st day1 better;
                                            score_entry st day2 worse]))
     = day2.
Proof.
  intros Hdays Hd1 Hd2 Vb Mb Vw Mw.
  split; [apply sweep_onset; exact Hdays|]. split.
  - rewrite sweep_onset.
    + rewrite valid_scores_app, valid_scores_score_entry by exact Vb.
      apply onset_spec_last_unmet. exact Mb.
    + apply Forall_app. split; [exact Hdays|]. constructor; [exact Hd1|constructor].
  - rewrite sweep_onset.
    + change [score_entry st day1 better; score_entry st day2 worse]
        with ([score_entry st day1 better] ++ [score_entry st day2 worse]).
      rewrite !valid_scores_app, !valid_scores_score_entry by assumption.
      apply onset_spec_reentry; assumption.
    + apply Forall_app. split; [exact Hdays|].
      constructor; [exact Hd1|]. constructor; [exact Hd2|constructor].
Qed.

(** The theorem at CKD stage 4 for a subject with GFR 25 on day 1 and 28 on
    day 2, who recovers to 50 on day 5 and falls back to 20 on day 9. *)
Lemma stage_onset_tracking_witness :
  let CT := [score_entry CKD4 1 25; score_entry CKD4 2 28] in
  Forall (fun e => 0 <= TimeDays e) CT
  /\ stage_date CKD4 (second_forward_sweep Milestones_init CT) = 1
  /\ stage_date CKD4 (second_forward_sweep Milestones_init
                        (CT ++ [score_entry CKD4 5 50])) = TDF_INVALID_DATE
  /\ stage_date CKD4 (second_forward_sweep Milestones_init
                        (CT ++ [score_entry CKD4 5 50; score_entry CKD4 9 20])) = 9.
Proof.
  intros CT.
  assert (Hdays : Forall (fun e => 0 <= TimeDays e) CT)
    by (repeat constructor; discriminate).
  split; [exact Hdays|].
  pose proof (stage_onset_tracking CKD4 CT 5 9 50 20 Hdays
                ltac:(lia) ltac:(lia) eq_refl eq_refl eq_refl eq_refl) as [H1 [H2 H3]].
  split; [rewrite H1; reflexivity|]. split; [exact H2|exact H3].
Defined.

(** *** The reverse pass: baseline creatinine *)

Lemma py_get_or_Some {V} (d : gmap string V) k dflt x :
  d !! k = Some x -> py_get_or d k dflt = x.
Proof. intros H. unfold py_get_or, py_getitem. rewrite H. reflexivity. Qed.

Lemma py_get_or_None {V} (d : gmap string V) k dflt :
  d !! k = None -> py_get_or d k dflt = dflt.
Proof. intros H. unfold py_get_or, py_getitem. rewrite H. reflexivity. Qed.

(** One step of the BaselineCr block. *)
Lemma reverse_BaselineCr_step Future snapshot :
  let Future' := fst (reverse_BaselineCr Future snapshot) in
  let snapshot' := snd (reverse_BaselineCr Future snapshot) in
  snapshot' !! "Cr" = snapshot !! "Cr"
  /\ ((TDF_SMALLEST_VALID_VALUE < Future)%Q ->
      (TDF_SMALLEST_VALID_VALUE < Future')%Q /\ (Future' <= Future)%Q)
  /\ (forall c, snapshot !! "Cr" = Some c -> (TDF_SMALLEST_VALID_VALUE < c)%Q ->
        Qltb Future TDF_SMALLEST_VALID_VALUE = true \/ (TDF_SMALLEST_VALID_VALUE < Future)%Q ->
        (TDF_SMALLEST_VALID_VALUE < Future')%Q /\ (Future' <= c)%Q)
  /\ (Qltb Future TDF_SMALLEST_VALID_VALUE = true ->
      Qltb Future' TDF_SMALLEST_VALID_VALUE = true \/ (TDF_SMALLEST_VALID_VALUE < Future')%Q)
  /\ (forall b, snapshot' !! "BaselineCr" = Some b ->
        (TDF_SMALLEST_VALID_VALUE < Future')%Q -> (b <= Future')%Q).
Proof.
  unfold reverse_BaselineCr.
  set (baselineCr := py_get_or snapshot "BaselineCr" TDF_INVALID_VALUE).
  set (currentCr := py_get_or snapshot "Cr" TDF_INVALID_VALUE).
  set (F := if Qgtb currentCr TDF_SMALLEST_VALID_VALUE then _ else Future).
  assert (HF1 : (TDF_SMALLEST_VALID_VALUE < Future)%Q ->
                (TDF_SMALLEST_VALID_VALUE < F)%Q /\ (F <= Future)%Q).
  { intros HFv. subst F.
    destruct (Qgtb currentCr TDF_SMALLEST_VALID_VALUE) eqn:Ec; [|split; [exact HFv|lra]].
    destruct (Qltb Future TDF_SMALLEST_VALID_VALUE) eqn:E1; [q_bool; lra|].
    cbn [orb]. destruct (Qltb currentCr Future) eqn:E2; q_bool; split; lra. }
  assert (HF2 : forall c, snapshot !! "Cr" = Some c -> (TDF_SMALLEST_VALID_VALUE < c)%Q ->
                Qltb Future TDF_SMALLEST_VALID_VALUE = true
                \/ (TDF_SMALLEST_VALID_VALUE < Future)%Q ->
                (TDF_SMALLEST_VALID_VALUE < F)%Q /\ (F <= c)%Q).
  { intros c Hc Hcv HFu. subst F currentCr. rewrite (py_get_or_Some _ _ _ _ Hc).
    assert (Ec : Qgtb c TDF_SMALLEST_VALID_VALUE = true) by (apply Qltb_lt; exact Hcv).
    rewrite Ec. destruct HFu as [HFu|HFu].
    - rewrite HFu. cbn [orb]. split; [exact Hcv|lra].
    - destruct (Qltb Future TDF_SMALLEST_VALID_VALUE) eqn:E1; [q_bool; lra|].
      cbn [orb]. destruct (Qltb c Future) eqn:E2; q_bool; split; lra. }
  assert (HF3 : Qltb Future TDF_SMALLEST_VALID_VALUE = true ->
                Qltb F TDF_SMALLEST_VALID_VALUE = true \/ (TDF_SMALLEST_VALID_VALUE < F)%Q).
  { intros HFu. subst F. rewrite HFu. cbn [orb].
    destruct (Qgtb currentCr TDF_SMALLEST_VALID_VALUE) eqn:Ec; [|left; exact HFu].
    right. q_bool. exact Ec. }
  clearbody F.
  destruct (Qgtb F TDF_SMALLEST_VALID_VALUE && Qltb F baselineCr) eqn:Eb;
    cbn [fst snd].
  - split; [|split; [exact HF1|split; [exact HF2|split; [exact HF3|]]]].
    + rewrite lookup_insert_ne by discriminate. reflexivity.
    + intros b Hb _. rewrite lookup_insert_eq in Hb. injection Hb as <-. lra.
  - split; [reflexivity|split; [exact HF1|split; [exact HF2|split; [exact HF3|]]]].
    intros b Hb HFv. subst baselineCr. rewrite (py_get_or_Some _ _ _ _ Hb) in Eb.
    assert (Ev : Qgtb F TDF_SMALLEST_VALID_VALUE = true) by (apply Qltb_lt; exact HFv).
    rewrite Ev in Eb. cbn [andb] in Eb. q_bool. exact Eb.
Qed.

Lemma reverse_InAKI_frame snapshot day k :
  k <> "InAKI" -> k <> "NextAKIDate" -> k <> "NextCrAtBaselineDate" ->
  reverse_InAKI snapshot day !! k = snapshot !! k.
Proof.
  intros H1 H2 H3. unfold reverse_InAKI.
  destruct (negb _); rewrite !lookup_insert_ne by congruence; reflexivity.
Qed.

(** What the reverse pass establishes, threading [self.FutureBaselineCr]. *)
Lemma reverse_pass_baseline vars CompiledTimeline :
  "BaselineCr" ∈ vars ->
  let Future := fst (reverse_pass vars CompiledTimeline TDF_INVALID_VALUE) in
  let CT' := snd (reverse_pass vars CompiledTimeline TDF_INVALID_VALUE) in
  (Qltb Future TDF_SMALLEST_VALID_VALUE = true \/ (TDF_SMALLEST_VALID_VALUE < Future)%Q)
  /\ (forall j e c, CT' !! j = Some e -> data e !! "Cr" = Some c ->
        (TDF_SMALLEST_VALID_VALUE < c)%Q ->
        (TDF_SMALLEST_VALID_VALUE < Future)%Q /\ (Future <= c)%Q)
  /\ (forall k j ek ej b c, (k <= j)%nat ->
        CT' !! k = Some ek -> CT' !! j = Some ej ->
        data ek !! "BaselineCr" = Some b -> data ej !! "Cr" = Some c ->
        (TDF_SMALLEST_VALID_VALUE < c)%Q -> (b <= c)%Q).
Proof.
  intros Hreq. induction CompiledTimeline as [|e later IH]; cbn zeta.
  - simpl. split; [left; reflexivity|].
    split; [intros j e c H; discriminate H | intros k j ek ej b c _ H; discriminate H].
  - cbn [reverse_pass]. cbn zeta in IH.
    destruct (reverse_pass vars later TDF_INVALID_VALUE) as [F1 later'] eqn:Erec.
    cbn [fst snd] in IH. destruct IH as (IHf & IHcr & IHb).
    unfold CalculateAllDerivedValuesREVERSEPass.
    rewrite (bool_decide_eq_true_2 _ Hreq).
    pose proof (reverse_BaselineCr_step F1 (data e)) as Hstep. cbn zeta in Hstep.
    destruct (reverse_BaselineCr F1 (data e)) as [F2 d'] eqn:Estep.
    cbn [fst snd] in Hstep. destruct Hstep as (Hcr & Hmono & Hcur & Hunset & Hbase).
    set (d'' := if bool_decide ("InAKI" ∈ vars) then _ else d').
    assert (Hd''cr : d'' !! "Cr" = data e !! "Cr").
    { subst d''. destruct (bool_decide _); [|exact Hcr].
      rewrite reverse_InAKI_frame by discriminate. exact Hcr. }
    assert (Hd''b : d'' !! "BaselineCr" = d' !! "BaselineCr").
    { subst d''. destruct (bool_decide _); [|reflexivity].
      apply reverse_InAKI_frame; discriminate. }
    clearbody d''. cbn [fst snd].
    assert (HF2 : Qltb F2 TDF_SMALLEST_VALID_VALUE = true \/ (TDF_SMALLEST_VALID_VALUE < F2)%Q).
    { destruct IHf as [Hu|Hv]; [apply Hunset; exact Hu|right; apply Hmono; exact Hv]. }
    assert (Hall : forall j ej c,
               (mkTimelineEntry (TimeDays e) (TID e) d'' :: later') !! j = Some ej ->
               data ej !! "Cr" = Some c -> (TDF_SMALLEST_VALID_VALUE < c)%Q ->
               (TDF_SMALLEST_VALID_VALUE < F2)%Q /\ (F2 <= c)%Q).
    { intros [|j] ej c Hj Hc Hcv.
      - injection Hj as <-. cbn [data] in Hc. rewrite Hd''cr in Hc.
        apply Hcur; assumption.
      - destruct (IHcr j ej c Hj Hc Hcv) as [Hv Hle].
        destruct (Hmono Hv) as [Hv2 Hle2]. split; [exact Hv2|lra]. }
    split; [exact HF2|]. split; [exact Hall|].
    intros [|k] [|j] ek ej b c Hkj Hk Hj Hb Hc Hcv; try lia.
    + injection Hk as <-. cbn [data] in Hb. rewrite Hd''b in Hb.
      destruct (Hall 0%nat ej c Hj Hc Hcv) as [Hv Hle].
      specialize (Hbase b Hb Hv). lra.
    + injection Hk as <-. cbn [data] in Hb. rewrite Hd''b in Hb.
      destruct (Hall (S j) ej c Hj Hc Hcv) as [Hv Hle].
      specialize (Hbase b Hb Hv). lra.
    + apply (IHb k j ek ej b c); try assumption. lia.
Qed.

(** C4.  The baseline correction invariant: after the reverse pass of a
    timeline compiled with BaselineCr among its variables, the baseline
    creatinine stored at a TimePoint never exceeds a valid creatinine value
    stored at that TimePoint or at a later one; hence it never exceeds their
    minimum. *)
Theorem baseline_never_exceeds_later_creatinine
    (vars : list string) (CompiledTimeline : list TimelineEntry)
    (k j : nat) (ek ej : TimelineEntry) (b c : Q) :
  "BaselineCr" ∈ vars ->
  (k <= j)%nat ->
  snd (reverse_pass vars CompiledTimeline TDF_INVALID_VALUE) !! k = Some ek ->
  snd (reverse_pass vars CompiledTimeline TDF_INVALID_VALUE) !! j = Some ej ->
  data ek !! "BaselineCr" = Some b ->
  data ej !! "Cr" = Some c ->
  (TDF_SMALLEST_VALID_VALUE < c)%Q ->
  (b <= c)%Q.
Proof.
  intros Hreq Hkj Hk Hj Hb Hc Hcv.
  pose proof (reverse_pass_baseline vars CompiledTimeline Hreq) as (_ & _ & H).
  exact (H k j ek ej b c Hkj Hk Hj Hb Hc Hcv).
Qed.

(** The invariant on the scenario: the baseline stored on day 100 against
    the creatinine of day 103. *)
Lemma baseline_never_exceeds_later_creatinine_witness :
  let vars := ["Cr"; "BaselineCr"; "InAKI"] in
  let CT' := snd (reverse_pass vars aki_scenario TDF_INVALID_VALUE) in
  "BaselineCr" ∈ vars
  /\ (data <$> CT' !! 0%nat) ≫= (.!! "BaselineCr") = Some 1%Q
  /\ (data <$> CT' !! 1%nat) ≫= (.!! "Cr") = Some (29 # 10)
  /\ (TDF_SMALLEST_VALID_VALUE < 29 # 10)%Q
  /\ (1 <= 29 # 10)%Q.
Proof.
  intros vars CT'.
  assert (Hreq : "BaselineCr" ∈ vars) by (right; left).
  split; [exact Hreq|]. split; [reflexivity|]. split; [reflexivity|].
  split; [reflexivity|].
  destruct (CT' !! 0%nat) as [ek|] eqn:Ek; [|discriminate Ek].
  destruct (CT' !! 1%nat) as [ej|] eqn:Ej; [|discriminate Ej].
  apply (baseline_never_exceeds_later_creatinine vars aki_scenario 0 1 ek ej 1 (29 # 10)
           Hreq ltac:(lia) Ek Ej).
  - injection Ek as <-. reflexivity.
  - injection Ej as <-. reflexivity.
  - reflexivity.
Defined.

(** *** The reverse pass: the acute-state flag *)

(** The InAKI block reads the current value under the key 'currentCr',
    which no snapshot holds: the flag it stores is 0 whatever the
    creatinine and the baseline are. *)
Lemma reverse_InAKI_without_currentCr snapshot day :
  snapshot !! "currentCr" = None ->
  reverse_InAKI snapshot day !! "InAKI" = Some 0%Q.
Proof.
  intros H. unfold reverse_InAKI. rewrite (py_get_or_None _ _ _ H).
  unfold acute_test. replace (Qgtb TDF_INVALID_VALUE TDF_SMALLEST_VALID_VALUE) with false
    by reflexivity.
  cbn [andb]. replace (negb (Qeq_bool 0 0)) with false by reflexivity.
  rewrite lookup_insert_ne by discriminate. apply lookup_insert_eq.
Qed.

Lemma reverse_pass_InAKI_is_0 vars CompiledTimeline Future j e :
  "InAKI" ∈ vars ->
  Forall (fun e => data e !! "currentCr" = None) CompiledTimeline ->
  snd (reverse_pass vars CompiledTimeline Future) !! j = Some e ->
  data e !! "InAKI" = Some 0%Q.
Proof.
  intros Hreq Hall. revert j e.
  induction Hall as [|e0 later He0 _ IH]; intros j e; [intros H; discriminate H|].
  cbn [reverse_pass].
  destruct (reverse_pass vars later Future) as [F1 later'].
  unfold CalculateAllDerivedValuesREVERSEPass. rewrite (bool_decide_eq_true_2 _ Hreq).
  destruct (if bool_decide ("BaselineCr" ∈ vars) then _ else _) as [F2 d'] eqn:Ed.
  cbn [snd]. destruct j as [|j]; [|apply IH].
  intros [= <-]. cbn [data]. apply reverse_InAKI_without_currentCr.
  destruct (bool_decide ("BaselineCr" ∈ vars)).
  - unfold reverse_BaselineCr in Ed.
    destruct (_ && _) in Ed; injection Ed as <- <-;
      [rewrite lookup_insert_ne by discriminate|]; exact He0.
  - injection Ed as <- <-. exact He0.
Qed.

(** C2.  The scenario of the acute-state example (creatinine 1.0 on day 100,
    2.9 on day 103, 1.4 on days 110 and 120).  The thresholds of the InAKI
    block, applied to the raw value 2.9 and the baseline 1.0, give 1; the
    reverse pass keeps the baseline of day 100 at 1.0 and stores 0 from day
    110 on; but it also stores InAKI = 0 on day 103, where the acute state
    is specified to be true, because the block reads the current value under
    the key 'currentCr' instead of 'Cr'. *)
Theorem acute_state_flag_is_never_set :
  let vars := ["Cr"; "BaselineCr"; "InAKI"] in
  let CT' := snd (reverse_pass vars aki_scenario TDF_INVALID_VALUE) in
  map TimeDays CT' = [100; 103; 110; 120]
  /\ acute_test (29 # 10) 1 = 1%Q
  /\ map (fun e => data e !! "BaselineCr") CT'
     = [Some 1%Q; Some 1%Q; Some (14 # 10); Some (14 # 10)]
  /\ map (fun e => data e !! "InAKI") CT' = [Some 0%Q; Some 0%Q; Some 0%Q; Some 0%Q].
Proof.
  cbv zeta. repeat split; reflexivity.
Qed.

(** *** The baseline series in the forward pass *)

(** C9, amended.  For every CTimeSeries that AddNewValue has been called on
    at least once, a later call whose day exceeds the oldest retained day by
    more than maxHistoryInDays raises KeyError 'h' (the pruning branch reads
    oldestValue['h'] from entries created with the keys 'v', 'd' and 'm'
    only); and the exception propagates out of the BaselineCr branch of
    CalculateDerivedValuesFORWARDPass when that branch is run with such a
    series and a valid creatinine. *)
Theorem baseline_series_pruning_raises_KeyError
    (g_LabValueInfo : gmap string LabInfo) (vars : list string)
    (self : CTimeSeries) (value : Q) (timeInDays timeMin : Z)
    (varValueDict : gmap string Q) (currentCr : Q) :
  ts_reachable self ->
  ts_ValueQueue self <> [] ->
  (inject_Z (ts_maxHistoryInDays self) < inject_Z timeInDays - ts_OldestDay self)%Q ->
  varValueDict !! "Cr" = Some currentCr ->
  (TDF_SMALLEST_VALID_VALUE < currentCr)%Q ->
  CTimeSeries_AddNewValue self value timeInDays timeMin = Raise (KeyError "h")
  /\ CalculateDerivedValuesFORWARDPass "BaselineCr" timeInDays varValueDict (Some self)
     = Raise (KeyError "h").
Proof.
  intros Hreach Hne Hlate Hcr Hvalid.
  split; [apply TimeFunctionsFacts.AddNewValue_pruning_KeyError; assumption|].
  unfold CalculateDerivedValuesFORWARDPass. cbn [String.eqb Ascii.eqb Bool.eqb].
  rewrite (py_get_or_Some _ _ _ _ Hcr).
  apply Qltb_lt in Hvalid. unfold Qgtb. rewrite Hvalid.
  rewrite TimeFunctionsFacts.AddNewValue_pruning_KeyError by assumption.
  reflexivity.
Qed.

(** The theorem at a series over 7 days that holds the creatinine of day 100
    when the creatinine of day 110 arrives. *)
Lemma baseline_series_pruning_witness :
  exists self,
    CTimeSeries_AddNewValue (CTimeSeries_init 7) 1 100 0 = Ok self
    /\ ts_reachable self
    /\ ts_ValueQueue self <> []
    /\ (inject_Z (ts_maxHistoryInDays self) < inject_Z 110 - ts_OldestDay self)%Q
    /\ CTimeSeries_AddNewValue self (12 # 10) 110 0 = Raise (KeyError "h")
    /\ CalculateDerivedValuesFORWARDPass "BaselineCr" 110 {["Cr" := 12 # 10]} (Some self)
       = Raise (KeyError "h").
Proof.
  destruct (CTimeSeries_AddNewValue (CTimeSeries_init 7) 1 100 0) as [self|e] eqn:E;
    [|discriminate E].
  exists self. split; [reflexivity|].
  assert (Hr : ts_reachable self).
  { apply (ts_reach_add (CTimeSeries_init 7) 1 100 0 self);
      [apply ts_reach_init | lia | lia | exact E]. }
  assert (Hne : ts_ValueQueue self <> []) by (injection E as <-; discriminate).
  assert (Hlate : (inject_Z (ts_maxHistoryInDays self) < inject_Z 110 - ts_OldestDay self)%Q)
    by (injection E as <-; reflexivity).
  split; [exact Hr|]. split; [exact Hne|]. split; [exact Hlate|].
  exact (baseline_series_pruning_raises_KeyError ∅ [] self (12 # 10) 110 0
           {["Cr" := 12 # 10]} (12 # 10) Hr Hne Hlate eq_refl eq_refl).
Defined.

(** C9 as stated fails in its consequence: a timeline that requests
    BaselineCr and holds valid creatinine values ten days apart compiles.
    BaselineCr is not flagged Calculated in the variable table, so the
    forward pass never runs the branch that feeds the series (and the series
    itself is None, being created under the key 'baselineCr'). *)
Lemma compile_with_BaselineCr_completes :
  (Calculated <$> lab_table_excerpt !! "BaselineCr") = Some false
  /\ (fst <$> CompileTimelineImpl lab_table_excerpt ["BaselineCr"; "Cr"] true a_patient
                ten_days_apart_nodes)
     = Ok [mkTimelineEntry 100 0
             (<["BaselineCr" := TDF_INVALID_VALUE]> {["Cr" := 1%Q]});
           mkTimelineEntry 110 1
             (<["BaselineCr" := TDF_INVALID_VALUE]> {["Cr" := 12 # 10]})].
Proof.
  split; vm_compute; reflexivity.
Qed.

(** The acute-state scenario compiled from its raw lab nodes: no baseline is
    computed on the forward pass, and InAKI is 0 on every TimePoint. *)
Lemma compile_aki_scenario :
  ((fun r => (map TimeDays r.1,
              map (fun e => data e !! "Cr") r.1,
              map (fun e => data e !! "BaselineCr") r.1,
              map (fun e => data e !! "InAKI") r.1))
   <$> CompileTimelineImpl lab_table_excerpt ["InAKI"; "Cr"; "BaselineCr"] true a_patient
         aki_scenario_nodes)
  = Ok ([100; 103; 110; 120],
        [Some 1%Q; Some (29 # 10); Some (14 # 10); Some (14 # 10)],
        [Some TDF_INVALID_VALUE; Some TDF_INVALID_VALUE;
         Some TDF_INVALID_VALUE; Some TDF_INVALID_VALUE],
        [Some 0%Q; Some 0%Q; Some 0%Q; Some 0%Q]).
Proof.
  vm_compute. reflexivity.
Qed.

End CompileFacts.

Module PartitionFacts.
Import Partition.

(** *** The lines of a file *)

(** The first line that [split_lines] lists is the one readline returns, and
    the others are the lines of what follows it. *)
Lemma split_lines_unfold (bs : list byte) :
  bs <> [] ->
  split_lines bs = take_line bs :: split_lines (drop (length (take_line bs)) bs).
Proof.
  induction bs as [|b rest IH]; [congruence|]. intros _.
  simpl. destruct (Byte.eqb b newline); [reflexivity|].
  destruct rest as [|b' rest']; [reflexivity|].
  rewrite IH by discriminate. reflexivity.
Qed.

Lemma take_line_length (bs : list byte) :
  bs <> [] -> (0 < length (take_line bs) <= length bs)%nat.
Proof.
  induction bs as [|b rest IH]; [congruence|]. intros _.
  simpl. destruct (Byte.eqb b newline); simpl; [lia|].
  destruct rest; [simpl; lia|]. specialize (IH ltac:(discriminate)). lia.
Qed.

(** Reading from inside a line returns the rest of that line. *)
Lemma take_line_drop (bs : list byte) (k : nat) :
  (k < length (take_line bs))%nat ->
  take_line (drop k bs) = drop k (take_line bs).
Proof.
  revert k. induction bs as [|b rest IH]; intros k Hk; [simpl in Hk; lia|].
  destruct k as [|k]; [reflexivity|].
  simpl in *. destruct (Byte.eqb b newline); simpl in *; [lia|].
  apply IH. lia.
Qed.

(** Only the last byte of a line can be a newline. *)
Lemma take_line_inner (bs : list byte) (i : nat) (b : byte) :
  (S i < length (take_line bs))%nat -> bs !! i = Some b ->
  Byte.eqb b newline = false.
Proof.
  revert i. induction bs as [|b0 rest IH]; intros i Hi Hb; [discriminate|].
  simpl in Hi. destruct (Byte.eqb b0 newline) eqn:E; simpl in Hi; [lia|].
  destruct i as [|i]; simpl in Hb.
  - congruence.
  - apply (IH i); [lia|exact Hb].
Qed.

(** A line that decodes to the empty string has no newline, so it runs to
    the end of the file. *)
Lemma decode_nil_take_line (bs : list byte) :
  decode_ascii_ignore (take_line bs) = [] -> take_line bs = bs.
Proof.
  induction bs as [|b rest IH]; [reflexivity|].
  simpl. destruct (Byte.eqb b newline) eqn:E.
  - apply Byte.byte_dec_bl in E. subst b. discriminate.
  - unfold decode_ascii_ignore in *. simpl.
    destruct (Byte.to_N b <? 128)%N; [discriminate|].
    intros H. f_equal. exact (IH H).
Qed.

Lemma decode_nil_drop (l : list byte) (k : nat) :
  decode_ascii_ignore l = [] -> decode_ascii_ignore (drop k l) = [].
Proof.
  revert k. induction l as [|b l IH]; intros k H; [destruct k; reflexivity|].
  destruct k as [|k]; [exact H|]. simpl. apply IH.
  unfold decode_ascii_ignore in *. simpl in H.
  destruct (Byte.to_N b <? 128)%N; [discriminate|exact H].
Qed.

Lemma lines_from_end (file : list byte) (p : Z) :
  Z.of_nat (length file) <= p -> lines_from file p = [].
Proof.
  intros H. unfold lines_from. rewrite drop_ge by lia. reflexivity.
Qed.

(** One readline at a position before the end of the file. *)
Lemma lines_from_step (file : list byte) (p : Z) :
  0 <= p < Z.of_nat (length file) ->
  lines_from file p
    = readline file p :: lines_from file (p + Z.of_nat (length (readline file p)))
  /\ 0 < Z.of_nat (length (readline file p))
  /\ p + Z.of_nat (length (readline file p)) <= Z.of_nat (length file)
  /\ (decode_ascii_ignore (readline file p) = [] ->
      p + Z.of_nat (length (readline file p)) = Z.of_nat (length file)).
Proof.
  intros Hp. unfold lines_from, readline.
  assert (Hne : drop (Z.to_nat p) file <> []).
  { intros E. apply (f_equal length) in E. rewrite length_drop in E. simpl in E. lia. }
  pose proof (take_line_length _ Hne) as Hlen. rewrite length_drop in Hlen.
  clear Hne.
  split; [|split; [lia|split; [lia|]]].
  - rewrite split_lines_unfold
      by (intros E; rewrite E in Hlen; simpl in Hlen; lia).
    f_equal.
    rewrite drop_drop. do 2 f_equal. lia.
  - intros Hd. apply decode_nil_take_line in Hd. rewrite Hd, length_drop. lia.
Qed.

(** A position [t] strictly inside the line that starts at [p]: the scan
    from [t] first reads the rest of that line and then the same lines as
    the scan from [p]. *)
Lemma lines_from_cut (file : list byte) (p t : Z) :
  0 <= p < t -> t < p + Z.of_nat (length (readline file p)) ->
  p < Z.of_nat (length file) ->
  let partial := drop (Z.to_nat (t - p)) (readline file p) in
  readline file t = partial
  /\ lines_from file t
     = partial :: lines_from file (p + Z.of_nat (length (readline file p)))
  /\ t + Z.of_nat (length partial) = p + Z.of_nat (length (readline file p))
  /\ is_line_start file t = false
  /\ (decode_ascii_ignore (readline file p) = [] -> decode_ascii_ignore partial = [])
  /\ (decode_ascii_ignore partial = [] ->
      lines_from file (p + Z.of_nat (length (readline file p))) = []).
Proof.
  intros Hp Ht Hlen partial.
  destruct (lines_from_step file p ltac:(lia)) as (_ & _ & Hle & _).
  assert (Hr : readline file t = partial).
  { unfold partial, readline.
    rewrite <- take_line_drop by (fold (readline file p); lia).
    rewrite drop_drop. do 2 f_equal. lia. }
  assert (Hpl : t + Z.of_nat (length partial)
                = p + Z.of_nat (length (readline file p))).
  { unfold partial. rewrite length_drop. lia. }
  split; [exact Hr|]. split; [|split; [exact Hpl|split; [|split]]].
  - destruct (lines_from_step file t ltac:(lia)) as (E & _).
    rewrite E, Hr. do 2 f_equal. exact Hpl.
  - unfold is_line_start. replace (t =? 0) with false by lia. simpl.
    destruct (file !! Z.to_nat (t - 1)) as [b|] eqn:Hb; [|reflexivity].
    apply (take_line_inner (drop (Z.to_nat p) file) (Z.to_nat (t - 1 - p))).
    + fold (readline file p). lia.
    + rewrite lookup_drop. rewrite <- Hb. f_equal. lia.
  - intros Hd. apply decode_nil_drop. exact Hd.
  - intros Hd. apply lines_from_end. rewrite <- Hr in Hd, Hpl.
    unfold readline in Hd. apply decode_nil_take_line in Hd.
    unfold readline in *. rewrite Hd, length_drop in Hpl. lia.
Qed.

(** *** The scanning loop *)

Lemma find_cons stop l ls p b o acc :
  find_timelines stop (l :: ls) p b o acc
  = if negb b && (0 <? stop) && (stop <=? p) then (acc, false)
    else match decode_ascii_ignore l with
         | [] => (acc, true)
         | _ =>
             if b then
               if closeElement_match (decode_ascii_ignore l) then
                 find_timelines stop ls (p + Z.of_nat (length l)) false o
                   (acc ++ [(o, p + Z.of_nat (length (decode_ascii_ignore l)))])
               else find_timelines stop ls (p + Z.of_nat (length l)) true o acc
             else
               if openElement_match (decode_ascii_ignore l) then
                 find_timelines stop ls (p + Z.of_nat (length l)) true p acc
               else find_timelines stop ls (p + Z.of_nat (length l)) false o acc
         end.
Proof. reflexivity. Qed.

Lemma find_nil stop p b o acc :
  fst (find_timelines stop [] p b o acc) = acc.
Proof. simpl. destruct (_ && _); reflexivity. Qed.

(** Outside a timeline the loop ends at the first line at or behind a
    positive [stopPartition]. *)
Lemma find_stopped stop ls p o acc :
  0 < stop -> stop <= p -> find_timelines stop ls p false o acc = (acc, false).
Proof.
  intros H1 H2. destruct ls; simpl;
    replace (0 <? stop) with true by lia; replace (stop <=? p) with true by lia;
    reflexivity.
Qed.

(** The loop only appends to the results it starts with. *)
Lemma find_acc stop ls : forall p b o acc,
  fst (find_timelines stop ls p b o acc)
  = acc ++ fst (find_timelines stop ls p b o []).
Proof.
  induction ls as [|l ls IH]; intros p b o acc.
  - rewrite !find_nil, app_nil_r. reflexivity.
  - rewrite !find_cons.
    destruct (negb b && (0 <? stop) && (stop <=? p)); [simpl; rewrite app_nil_r; reflexivity|].
    destruct (decode_ascii_ignore l) as [|c cl]; [simpl; rewrite app_nil_r; reflexivity|].
    destruct b.
    + destruct (closeElement_match (c :: cl)); [|apply IH].
      rewrite IH, (IH _ _ _ ([] ++ _)). simpl. rewrite <- app_assoc. reflexivity.
    + destruct (openElement_match (c :: cl)); apply IH.
Qed.

(** Outside a timeline the remembered opening position is not used. *)
Lemma find_open_irrelevant stop ls : forall p o o' acc,
  find_timelines stop ls p false o acc = find_timelines stop ls p false o' acc.
Proof.
  induction ls as [|l ls IH]; intros p o o' acc; [reflexivity|].
  rewrite !find_cons.
  destruct (negb false && (0 <? stop) && (stop <=? p)); [reflexivity|].
  destruct (decode_ascii_ignore l) as [|c cl]; [reflexivity|].
  destruct (openElement_match (c :: cl)); [reflexivity|apply IH].
Qed.

Lemma tags_alternate_weaken ls b :
  tags_alternate b ls = true -> tags_alternate false ls = true.
Proof.
  destruct b; [|exact (fun H => H)].
  induction ls as [|l ls IH]; [reflexivity|]. simpl.
  destruct (openElement_match _); [discriminate|].
  destruct (closeElement_match _); [exact (fun H => H)|exact IH].
Qed.

(** Behind [stop], a bounded scan that is inside a timeline finishes that
    timeline and ends; the unbounded scan goes on like a scan that starts
    outside a timeline at the same line. *)
Lemma scan_past_stop stop ls : 0 < stop -> forall p b o o',
  stop <= p -> tags_alternate b ls = true ->
  fst (find_timelines 0 ls p b o [])
  = fst (find_timelines stop ls p b o [])
    ++ fst (find_timelines 0 ls p false o' []).
Proof.
  intros Hs p b o o' Hp Halt. destruct b.
  2:{ rewrite (find_stopped stop) by assumption. simpl.
      rewrite (find_open_irrelevant 0 ls p o o'). reflexivity. }
  revert p Hp Halt. induction ls as [|l ls IH]; intros p Hp Halt.
  - rewrite !find_nil. reflexivity.
  - rewrite !find_cons. simpl negb. cbn [andb].
    simpl in Halt.
    destruct (decode_ascii_ignore l) as [|c cl]; [reflexivity|].
    destruct (openElement_match (c :: cl)); [discriminate|].
    destruct (closeElement_match (c :: cl)).
    + rewrite find_acc, (find_acc stop). rewrite (find_stopped stop) by lia.
      simpl. rewrite (find_open_irrelevant 0 ls _ o o'). reflexivity.
    + apply IH; [lia|exact Halt].
Qed.

Lemma clean_cut_mid file t :
  clean_cut file t = true -> is_line_start file t = false ->
  openElement_match (decode_ascii_ignore (readline file t)) = false.
Proof.
  unfold clean_cut. intros H E. rewrite E in H. simpl in H.
  destruct (openElement_match _); [discriminate|reflexivity].
Qed.

(** The unbounded scan from [p] is the scan of [p, t) followed by the
    unbounded scan from [t], for a clean cut [t]; and the tags still
    alternate from [t] on. *)
Lemma scan_split_at file t :
  0 < t <= Z.of_nat (length file) -> clean_cut file t = true ->
  forall ls p b o,
    0 <= p <= t -> ls = lines_from file p -> tags_alternate b ls = true ->
    fst (find_timelines 0 ls p b o [])
    = fst (find_timelines t ls p b o [])
      ++ fst (find_timelines 0 (lines_from file t) t false TDF_INVALID_POSITION [])
    /\ tags_alternate false (lines_from file t) = true.
Proof.
  intros Ht Hclean.
  assert (Hat : forall ls b o, ls = lines_from file t -> tags_alternate b ls = true ->
    fst (find_timelines 0 ls t b o [])
    = fst (find_timelines t ls t b o [])
      ++ fst (find_timelines 0 (lines_from file t) t false TDF_INVALID_POSITION [])
    /\ tags_alternate false (lines_from file t) = true).
  { intros ls b o Hls Halt. rewrite <- Hls. split.
    - apply scan_past_stop; [lia|lia|exact Halt].
    - exact (tags_alternate_weaken _ _ Halt). }
  induction ls as [|l ls IH]; intros p b o Hp Hls Halt;
    destruct (Z.eq_dec p t) as [->|Hne]; try (apply Hat; assumption).
  - destruct (lines_from_step file p ltac:(lia)) as (E & _). congruence.
  - destruct (lines_from_step file p ltac:(lia)) as (E & Hpos & Hle & Hnil).
    rewrite E in Hls. injection Hls as Hl Hls. subst l.
    set (p' := p + Z.of_nat (length (readline file p))) in *.
    (* what the scan from [t] sees once the line holding [t] is read *)
    assert (Hcut : t < p' ->
      fst (find_timelines 0 (lines_from file t) t false TDF_INVALID_POSITION [])
      = fst (find_timelines 0 ls p' false TDF_INVALID_POSITION [])
      /\ (tags_alternate false ls = true ->
          tags_alternate false (lines_from file t) = true)).
    { intros Hlt.
      destruct (lines_from_cut file p t ltac:(lia) Hlt ltac:(lia))
        as (Hr & Hlt' & Hpl & Hstart & _ & Hpn).
      fold p' in Hlt', Hpl, Hpn. rewrite <- Hls in Hlt', Hpn.
      pose proof (clean_cut_mid _ _ Hclean Hstart) as Hno. rewrite Hr in Hno.
      rewrite Hlt'. split.
      - rewrite find_cons. cbn [negb andb Z.ltb Z.compare].
        destruct (decode_ascii_ignore (drop _ _)) as [|c cl] eqn:Hd.
        + rewrite (Hpn eq_refl), find_nil. reflexivity.
        + rewrite Hno, Hpl. reflexivity.
      - intros Hals. simpl. rewrite Hno.
        destruct (closeElement_match _); exact Hals. }
    assert (Hnext : forall b' o', tags_alternate b' ls = true ->
      fst (find_timelines 0 ls p' b' o' [])
      = fst (find_timelines t ls p' b' o' [])
        ++ fst (find_timelines 0 (lines_from file t) t false TDF_INVALID_POSITION [])
      /\ tags_alternate false (lines_from file t) = true).
    { intros b' o' Halt'. destruct (Z_le_gt_dec p' t) as [Hle'|Hgt].
      - apply IH; [lia|exact Hls|exact Halt'].
      - destruct (Hcut ltac:(lia)) as (HX & Htags). rewrite HX. split.
        + apply scan_past_stop; [lia|lia|exact Halt'].
        + exact (Htags (tags_alternate_weaken _ _ Halt')). }
    rewrite !find_cons. fold p'. cbn [Z.ltb Z.compare].
    replace (t <=? p) with false by lia. rewrite !andb_false_r. cbn [andb].
    simpl in Halt.
    destruct (decode_ascii_ignore (readline file p)) as [|c cl] eqn:Hd.
    + specialize (Hnil eq_refl). simpl.
      assert (Hls0 : ls = []) by (rewrite Hls; apply lines_from_end; lia).
      destruct (Z.eq_dec t p') as [->|Hne'].
      * rewrite <- Hls, Hls0, find_nil. split; reflexivity.
      * destruct (Hcut ltac:(lia)) as (HX & Htags). rewrite HX, Hls0, find_nil.
        split; [reflexivity|]. apply Htags. rewrite Hls0. reflexivity.
    + destruct b.
      * destruct (openElement_match (c :: cl)); [discriminate|].
        destruct (closeElement_match (c :: cl)).
        -- destruct (Hnext false o Halt) as (Heq & Htags). split; [|exact Htags].
           cbn [app].
           rewrite (find_acc 0 _ _ _ _ [_]), (find_acc t _ _ _ _ [_]), Heq, app_assoc.
           reflexivity.
        -- exact (Hnext true o Halt).
      * destruct (openElement_match (c :: cl)).
        -- exact (Hnext true p Halt).
        -- destruct (closeElement_match (c :: cl)); exact (Hnext false o Halt).
Qed.

Lemma contiguous_le parts : forall from to, contiguous from parts to -> from <= to.
Proof.
  induction parts as [|[s t] rest IH]; intros from to H; simpl in H; [lia|].
  destruct H as (-> & Hlt & Hrest). specialize (IH _ _ Hrest). lia.
Qed.

Lemma clean_cut_end file : clean_cut file (Z.of_nat (length file)) = true.
Proof.
  unfold clean_cut, readline. rewrite Nat2Z.id, drop_all. apply orb_true_r.
Qed.

(** The scans of a chain of partitions, one after the other, make up the
    unbounded scan from the start of the first one. *)
Lemma scan_chain file : forall parts from,
  0 <= from -> contiguous from parts (Z.of_nat (length file)) ->
  Forall (fun p => clean_cut file (fst p) = true) parts ->
  tags_alternate false (lines_from file from) = true ->
  fst (find_timelines 0 (lines_from file from) from false TDF_INVALID_POSITION [])
  = scan_partitions file parts.
Proof.
  induction parts as [|[s t] rest IH]; intros from Hfrom Hc Hclean Halt.
  - simpl in Hc. rewrite lines_from_end by lia. reflexivity.
  - simpl in Hc. destruct Hc as (-> & Hlt & Hrest).
    pose proof (contiguous_le _ _ _ Hrest) as Hle.
    assert (Hct : clean_cut file t = true).
    { destruct rest as [|[s' t'] rest'].
      - simpl in Hrest. subst t. apply clean_cut_end.
      - simpl in Hrest. destruct Hrest as (-> & _).
        inversion Hclean as [|? ? _ Hrest']. inversion Hrest'. assumption. }
    destruct (scan_split_at file t ltac:(lia) Hct _ from false TDF_INVALID_POSITION
                ltac:(lia) eq_refl Halt) as (Heq & Halt').
    rewrite Heq. unfold scan_partitions. cbn [map concat fst snd].
    f_equal. apply IH; [lia|exact Hrest|inversion Hclean; assumption|exact Halt'].
Qed.

(** Every fragment that the scan of a partition returns opens inside the
    partition. *)
Lemma find_opens_in_range s t ls : 0 < t -> forall p b o acc,
  s <= p -> (b = true -> s <= o < t) ->
  Forall (fun f : fragment => s <= fst f < t) acc ->
  Forall (fun f : fragment => s <= fst f < t) (fst (find_timelines t ls p b o acc)).
Proof.
  intros Ht. induction ls as [|l ls IH]; intros p b o acc Hp Ho Hacc.
  - rewrite find_nil. exact Hacc.
  - rewrite find_cons.
    destruct (negb b && (0 <? t) && (t <=? p)) eqn:Hstop; [exact Hacc|].
    destruct (decode_ascii_ignore l) as [|c cl]; [exact Hacc|].
    destruct b.
    + destruct (closeElement_match (c :: cl)).
      * apply IH; [lia|discriminate|].
        apply Forall_app. split; [exact Hacc|].
        constructor; [exact (Ho eq_refl)|constructor].
      * apply IH; [lia|exact Ho|exact Hacc].
    + destruct (openElement_match (c :: cl)).
      * apply IH; [lia| |exact Hacc]. intros _.
        replace (0 <? t) with true in Hstop by lia. simpl in Hstop. lia.
      * apply IH; [lia|discriminate|exact Hacc].
Qed.

Lemma fragments_open_in_partition file : forall partitions from to,
  0 <= from -> contiguous from partitions to ->
  Forall (fun p => Forall (fun f : fragment => fst p <= fst f < snd p)
                     (fst (FindAllTimelinesInPartition file (fst p) (snd p))))
         partitions.
Proof.
  induction partitions as [|[s t] rest IH]; intros from to Hfrom Hc; [constructor|].
  simpl in Hc. destruct Hc as (-> & Hlt & Hrest). constructor.
  - cbn [fst snd]. unfold FindAllTimelinesInPartition.
    apply find_opens_in_range; [lia|lia|discriminate|constructor].
  - apply (IH t to); [lia|exact Hrest].
Qed.

(** C3.  Scanning by partitions does not give the fragments of one scan of
    the whole file.  On a file whose opening tag is indented by one space,
    the two partitions [0,1) and [1,17) are contiguous and cover the file;
    the scan of the whole file finds no timeline (the tag is not at the
    start of its line), and the scan of the second partition, which starts
    on the tag, finds one.  The method's comment says that a partition may
    start in the middle of a line. *)
Theorem partitioned_scan_differs_on_indented_tag :
  Z.of_nat (length indented_file) = 17
  /\ contiguous 0 [(0, 1); (1, 17)] 17
  /\ scan_whole indented_file = []
  /\ scan_partitions indented_file [(0, 1); (1, 17)] = [(1, 17)]
  /\ scan_partitions indented_file [(0, 1); (1, 17)] <> scan_whole indented_file.
Proof.
  split; [reflexivity|]. split; [simpl; lia|].
  split; [vm_compute; reflexivity|]. split; [vm_compute; reflexivity|].
  vm_compute. discriminate.
Qed.

(** The same on a file with the header line that the writer indents: a
    partition that starts on its [<TLLocationIndex>] element takes the
    header for the opening tag of the first timeline. *)
Lemma partitioned_scan_differs_on_writer_header :
  contiguous 0 [(0, 11); (11, 86)] (Z.of_nat (length header_file))
  /\ scan_whole header_file = [(70, 86)]
  /\ scan_partitions header_file [(0, 11); (11, 86)] = [(11, 86)].
Proof.
  split; [simpl; lia|]. split; vm_compute; reflexivity.
Qed.

(** The other way to fail: an opening tag inside an open timeline is not
    seen by the scan of the whole file, and is seen by the scan of a
    partition that starts on it, although the partition starts at the
    start of a line. *)
Lemma partitioned_scan_differs_on_nested_tag :
  contiguous 0 [(0, 5); (5, 16)] (Z.of_nat (length nested_file))
  /\ Forall (fun p => clean_cut nested_file (fst p) = true) [(0, 5); (5, 16)]
  /\ tags_alternate false (split_lines nested_file) = false
  /\ scan_whole nested_file = [(0, 16)]
  /\ scan_partitions nested_file [(0, 5); (5, 16)] = [(0, 16); (5, 16)].
Proof.
  split; [simpl; lia|]. split; [repeat constructor|].
  split; [vm_compute; reflexivity|]. split; vm_compute; reflexivity.
Qed.

(** Where the two scans do agree: for a file in which no line starting with
    the opening tag lies inside an open timeline, split into contiguous,
    non-overlapping partitions that cover it, each of which starts at the
    start of a line or at a byte from which the rest of the line does not
    start with the opening tag, scanning every partition with
    FindAllTimelinesInPartition and concatenating the results in partition
    order gives exactly the sequence of fragments of one scan of the whole
    file, and every fragment found in a partition has its opening tag
    inside [start, stop) of that partition. *)
Lemma partitioned_scan_equals_whole_scan (file : list byte) (partitions : list (Z * Z)) :
  contiguous 0 partitions (Z.of_nat (length file)) ->
  tags_alternate false (split_lines file) = true ->
  Forall (fun p => clean_cut file (fst p) = true) partitions ->
  scan_partitions file partitions = scan_whole file
  /\ Forall (fun p => Forall (fun f : fragment => fst p <= fst f < snd p)
                        (fst (FindAllTimelinesInPartition file (fst p) (snd p))))
            partitions.
Proof.
  intros Hc Halt Hclean.
  split; [|exact (fragments_open_in_partition file partitions 0 _ (Z.le_refl 0) Hc)].
  assert (H0 : lines_from file 0 = split_lines file) by reflexivity.
  rewrite <- (scan_chain file partitions 0 ltac:(lia) Hc Hclean)
    by (rewrite H0; exact Halt).
  unfold scan_whole, FindAllTimelinesInPartition.
  destruct file as [|b file'] eqn:Ef; [reflexivity|]. rewrite <- Ef in *.
  assert (Hlen : 0 < Z.of_nat (length file)) by (rewrite Ef; simpl; lia).
  destruct (scan_split_at file (Z.of_nat (length file)) ltac:(lia)
              (clean_cut_end file) _ 0 false TDF_INVALID_POSITION
              ltac:(lia) eq_refl ltac:(rewrite H0; exact Halt)) as (Heq & _).
  rewrite Heq, (lines_from_end file (Z.of_nat (length file))) by lia.
  rewrite find_nil, app_nil_r. reflexivity.
Qed.

(** That lemma at a file of two timelines cut into four partitions, three
    of the cuts inside a line. *)
Lemma partitioned_scan_equals_whole_scan_witness :
  contiguous 0 [(0, 12); (12, 24); (24, 36); (36, 41)]
    (Z.of_nat (length two_timelines_file))
  /\ tags_alternate false (split_lines two_timelines_file) = true
  /\ Forall (fun p => clean_cut two_timelines_file (fst p) = true)
        [(0, 12); (12, 24); (24, 36); (36, 41)]
  /\ scan_partitions two_timelines_file [(0, 12); (12, 24); (24, 36); (36, 41)]
     = scan_whole two_timelines_file
  /\ Forall (fun p => Forall (fun f : fragment => fst p <= fst f < snd p)
                        (fst (FindAllTimelinesInPartition two_timelines_file
                                (fst p) (snd p))))
            [(0, 12); (12, 24); (24, 36); (36, 41)].
Proof.
  assert (Hc : contiguous 0 [(0, 12); (12, 24); (24, 36); (36, 41)]
                 (Z.of_nat (length two_timelines_file))) by (simpl; lia).
  assert (Ha : tags_alternate false (split_lines two_timelines_file) = true)
    by reflexivity.
  assert (Hf : Forall (fun p => clean_cut two_timelines_file (fst p) = true)
                 [(0, 12); (12, 24); (24, 36); (36, 41)])
    by (repeat constructor).
  split; [exact Hc|]. split; [exact Ha|]. split; [exact Hf|].
  exact (partitioned_scan_equals_whole_scan two_timelines_file _ Hc Ha Hf).
Defined.

(** The scan of that file, whole or by the partitions that
    CreateFilePartitionList makes for 12 bytes each. *)
Lemma two_timelines_file_scan :
  CreateFilePartitionList two_timelines_file 12
  = Some [(0, 12); (12, 24); (24, 36); (36, 41)]
  /\ scan_whole two_timelines_file = [(0, 25); (25, 41)].
Proof. split; vm_compute; reflexivity. Qed.

(** CreateFilePartitionList with a positive size returns, and its
    partitions are contiguous and cover the file. *)
Lemma partition_list_contiguous size len : 0 < size -> forall n start,
  0 <= start <= len -> len - start <= Z.of_nat n ->
  exists partitions,
    partition_list n size len start = Some partitions
    /\ contiguous start partitions len.
Proof.
  intros Hsize. induction n as [|n IH]; intros start Hs Hn; simpl.
  - replace (start <? len) with false by lia. exists []. split; [reflexivity|].
    simpl. lia.
  - destruct (start <? len) eqn:E.
    + destruct (IH (Z.min (start + size) len) ltac:(lia) ltac:(lia))
        as (rest & Hrest & Hcont).
      rewrite Hrest. eexists. split; [reflexivity|].
      simpl. split; [reflexivity|]. split; [lia|exact Hcont].
    + exists []. split; [reflexivity|]. simpl. lia.
Qed.

Lemma CreateFilePartitionList_contiguous file size :
  0 < size ->
  exists partitions,
    CreateFilePartitionList file size = Some partitions
    /\ contiguous 0 partitions (Z.of_nat (length file)).
Proof.
  intros Hsize. apply partition_list_contiguous; lia.
Qed.

Lemma partition_list_sizes size len : 0 < size -> forall n start,
  0 <= start <= len -> len - start <= Z.of_nat n ->
  exists partitions,
    partition_list n size len start = Some partitions
    /\ contiguous start partitions len
    /\ Forall (fun p => snd p - fst p = size \/ (snd p - fst p < size /\ snd p = len))
         partitions
    /\ Z.of_nat (length partitions) = (len - start + size - 1) / size.
Proof.
  intros Hsize. induction n as [|n IH]; intros start Hs Hn; simpl.
  - replace (start <? len) with false by lia. exists []. split; [reflexivity|].
    simpl. split; [lia|]. split; [constructor|].
    replace (len - start + size - 1) with (size - 1) by lia.
    rewrite Z.div_small; lia.
  - destruct (start <? len) eqn:E.
    + apply Z.ltb_lt in E.
      destruct (IH (Z.min (start + size) len) ltac:(lia) ltac:(lia))
        as (rest & Hrest & Hcont & Hall & Hlen).
      rewrite Hrest. eexists. split; [reflexivity|].
      split; [simpl; split; [reflexivity|]; split; [lia|exact Hcont]|].
      split.
      * constructor; [cbn [fst snd]; lia|exact Hall].
      * cbn [length]. rewrite Nat2Z.inj_succ, Hlen.
        destruct (Z.min_spec (start + size) len) as [[Hlt ->]|[Hge ->]].
        -- replace (len - start + size - 1) with (len - (start + size) + size - 1 + 1 * size)
             by lia.
           rewrite Z.div_add by lia. lia.
        -- replace (len - len + size - 1) with (size - 1) by lia.
           rewrite Z.div_small by lia.
           symmetry. replace (len - start + size - 1) with ((len - start - 1) + 1 * size) by lia.
           rewrite Z.div_add by lia. rewrite Z.div_small; lia.
    + apply Z.ltb_ge in E. exists []. split; [reflexivity|]. simpl.
      split; [lia|]. split; [constructor|].
      replace (len - start + size - 1) with (size - 1) by lia.
      rewrite Z.div_small; lia.
Qed.

(** CreateFilePartitionList with a positive partition size returns, and
    its partitions cover the file from byte 0 to its end without gap or
    overlap, none of them empty; every partition is [partitionSizeInBytes]
    long except possibly a shorter last one that ends at the end of the
    file; and there are ceil(fileLength / partitionSizeInBytes) of them. *)
Theorem CreateFilePartitionList_covers_the_file (file : list byte)
    (partitionSizeInBytes : Z) :
  0 < partitionSizeInBytes ->
  exists partitions,
    CreateFilePartitionList file partitionSizeInBytes = Some partitions
    /\ contiguous 0 partitions (Z.of_nat (length file))
    /\ Forall (fun p => snd p - fst p = partitionSizeInBytes
                        \/ (snd p - fst p < partitionSizeInBytes
                            /\ snd p = Z.of_nat (length file)))
         partitions
    /\ Z.of_nat (length partitions)
       = (Z.of_nat (length file) + partitionSizeInBytes - 1) / partitionSizeInBytes.
Proof.
  intros Hsize. unfold CreateFilePartitionList.
  destruct (partition_list_sizes partitionSizeInBytes (Z.of_nat (length file)) Hsize
              (length file) 0 ltac:(lia) ltac:(lia)) as (ps & E & Hc & Hall & Hlen).
  exists ps. rewrite Z.sub_0_r in Hlen. auto.
Qed.

Lemma CreateFilePartitionList_covers_the_file_witness :
  0 < 12
  /\ CreateFilePartitionList two_timelines_file 12
     = Some [(0, 12); (12, 24); (24, 36); (36, 41)]
  /\ exists partitions,
      CreateFilePartitionList two_timelines_file 12 = Some partitions
      /\ contiguous 0 partitions (Z.of_nat (length two_timelines_file)).
Proof.
  assert (H : 0 < 12) by lia.
  split; [exact H|]. split; [vm_compute; reflexivity|].
  destruct (CreateFilePartitionList_covers_the_file two_timelines_file 12 H)
    as (ps & E & Hc & _).
  exists ps. auto.
Defined.

(** CreateFilePartitionList with a partition size that is not positive, on
    a file that is not empty: the loop never ends, whatever the number of
    iterations it is given. *)
Theorem CreateFilePartitionList_loops_without_positive_size
    (partitionSizeInBytes fileLength : Z) (n : nat) :
  partitionSizeInBytes <= 0 -> 0 < fileLength ->
  partition_list n partitionSizeInBytes fileLength 0 = None.
Proof.
  intros Hsize Hlen.
  assert (H : forall start, start <= 0 ->
            partition_list n partitionSizeInBytes fileLength start = None).
  { induction n as [|n IH]; intros start Hs; simpl.
    - replace (start <? fileLength) with true by lia. reflexivity.
    - replace (start <? fileLength) with true by lia.
      rewrite IH by lia. reflexivity. }
  apply H. lia.
Qed.

Lemma CreateFilePartitionList_loops_without_positive_size_witness :
  0 <= 0 /\ 0 < 41 /\ partition_list 1000 0 41 0 = None.
Proof.
  split; [lia|]. split; [lia|].
  apply CreateFilePartitionList_loops_without_positive_size; lia.
Defined.
End PartitionFacts.

Module WindowsFacts.
Import TimeFunctions Windows TimeFunctionsFacts.

Lemma prune_sorted N dayNum queue :
  StronglySorted Z.le (map e_d queue) ->
  prune N dayNum queue = List.filter (fun e => dayNum - e_d e <=? N) queue.
Proof.
  induction queue as [|e queue IH]; simpl; intros Hs; [reflexivity|].
  apply StronglySorted_inv in Hs as [Hs He].
  destruct (N <? dayNum - e_d e) eqn:E.
  - replace (dayNum - e_d e <=? N) with false by lia. apply IH. exact Hs.
  - replace (dayNum - e_d e <=? N) with true by lia. f_equal.
    symmetry. apply forallb_filter_id. apply forallb_forall. intros x Hx.
    rewrite List.Forall_forall in He. specialize (He (e_d x)).
    assert (e_d e <= e_d x) by (apply He; apply in_map; exact Hx). lia.
Qed.

Lemma filter_filter_days N d0 d (l : list Observation) :
  d0 <= d ->
  List.filter (fun o => d - o_day o <=? N) (List.filter (fun o => d0 - o_day o <=? N) l)
  = List.filter (fun o => d - o_day o <=? N) l.
Proof.
  intros Hd. induction l as [|o l IH]; simpl; [reflexivity|].
  destruct (d0 - o_day o <=? N) eqn:E0; simpl.
  - destruct (d - o_day o <=? N); [f_equal|]; exact IH.
  - replace (d - o_day o <=? N) with false by lia. exact IH.
Qed.

Lemma filter_map_entry N d (l : list Observation) :
  List.filter (fun e => d - e_d e <=? N) (map entry_of l)
  = map entry_of (List.filter (fun o => d - o_day o <=? N) l).
Proof.
  induction l as [|o l IH]; simpl; [reflexivity|].
  destruct (d - o_day o <=? N); simpl; [f_equal|]; exact IH.
Qed.

Lemma window_contents_snoc N history latest :
  window_contents N (history ++ [latest])
  = map entry_of (in_window N (o_day latest) history) ++ [entry_of latest].
Proof.
  unfold window_contents. rewrite rev_app_distr. simpl. rewrite rev_involutive. reflexivity.
Qed.

Lemma days_ascend_snoc history o :
  days_ascend (history ++ [o]) ->
  days_ascend history /\ Forall (fun x => o_day x <= o_day o) history.
Proof.
  unfold days_ascend. induction history as [|x history IH]; simpl; intros H.
  - split; constructor.
  - apply StronglySorted_inv in H as [Hs Hx]. destruct (IH Hs) as [IH1 IH2].
    split.
    + constructor; [exact IH1|]. rewrite map_app in Hx.
      apply List.Forall_app in Hx. exact (proj1 Hx).
    + constructor; [|exact IH2]. rewrite map_app in Hx.
      apply List.Forall_app in Hx. destruct Hx as [_ Hx]. inversion Hx. assumption.
Qed.

Lemma window_contents_sorted N history :
  days_ascend history -> StronglySorted Z.le (map e_d (window_contents N history)).
Proof.
  intros Hs. destruct history as [|x h] using rev_ind; [constructor|]. clear IHh.
  rewrite window_contents_snoc. apply days_ascend_snoc in Hs as [Hs Hle].
  rewrite map_app, map_map. simpl.
  assert (Hsub : StronglySorted Z.le (map o_day (in_window N (o_day x) h))).
  { unfold days_ascend in Hs. clear Hle. induction h as [|y h IH]; simpl; [constructor|].
    apply StronglySorted_inv in Hs as [Hs Hy].
    destruct (o_day x - o_day y <=? N); simpl; [|exact (IH Hs)].
    constructor; [exact (IH Hs)|].
    rewrite List.Forall_forall in *. intros d Hd. apply Hy.
    apply in_map_iff in Hd as (o & <- & Ho). apply in_map.
    apply filter_In in Ho. exact (proj1 Ho). }
  assert (Hle' : Forall (fun d => d <= o_day x) (map o_day (in_window N (o_day x) h))).
  { rewrite List.Forall_forall in *. intros d Hd.
    apply in_map_iff in Hd as (o & <- & Ho). apply Hle.
    apply filter_In in Ho. exact (proj1 Ho). }
  clear Hs Hle. induction (map o_day (in_window N (o_day x) h)) as [|d l IH]; simpl.
  - constructor; constructor.
  - apply StronglySorted_inv in Hsub as [Hs Hd]. inversion Hle'; subst.
    constructor; [apply IH; assumption|].
    apply List.Forall_app. split; [exact Hd|]. constructor; [assumption|constructor].
Qed.

(** One more observation: the queue is pruned for its day and the
    observation is appended. *)
Lemma window_contents_step N history o :
  days_ascend (history ++ [o]) ->
  prune N (o_day o) (window_contents N history) ++ [entry_of o]
  = window_contents N (history ++ [o]).
Proof.
  intros Hs. rewrite window_contents_snoc. f_equal.
  apply days_ascend_snoc in Hs as [Hs Hle].
  rewrite prune_sorted by (apply window_contents_sorted; exact Hs).
  destruct history as [|x h] using rev_ind; [reflexivity|]. clear IHh.
  rewrite window_contents_snoc. unfold in_window.
  rewrite !List.filter_app, map_app. simpl.
  rewrite filter_map_entry, filter_filter_days.
  - f_equal. destruct (o_day o - o_day x <=? N); reflexivity.
  - rewrite List.Forall_forall in Hle. apply Hle. apply in_or_app. right. left. reflexivity.
Qed.


Lemma prune_rate_strip N dayNum queue :
  map (fun e => mkEntry (r_v e) (r_d e) (r_m e)) (prune_rate N dayNum queue)
  = prune N dayNum (map (fun e => mkEntry (r_v e) (r_d e) (r_m e)) queue).
Proof.
  induction queue as [|e queue IH]; simpl; [reflexivity|].
  destruct (N <? dayNum - r_d e); [exact IH|reflexivity].
Qed.

Lemma CRateValue_queue o value dayNum timeMin :
  let o' := fst (CRateValue_ComputeNewValue o value dayNum timeMin) in
  rate_MaxDaysInQueue o' = rate_MaxDaysInQueue o
  /\ rate_ValueQueue o'
     = prune (rate_MaxDaysInQueue o) dayNum (rate_ValueQueue o)
       ++ [mkEntry value dayNum timeMin].
Proof.
  unfold CRateValue_ComputeNewValue.
  match goal with |- context [mkRate ?a ?b] => remember (mkRate a b) as self eqn:Hself end.
  assert (Hq : rate_MaxDaysInQueue self = rate_MaxDaysInQueue o
               /\ rate_ValueQueue self
                  = prune (rate_MaxDaysInQueue o) dayNum (rate_ValueQueue o)
                    ++ [mkEntry value dayNum timeMin]).
  { subst self. split; reflexivity. }
  destruct (fold_left _ _ _) as [dv dd].
  repeat match goal with
         | |- context [if ?b then _ else _] => destruct b
         | |- context [match ?q ++ ?l with _ => _ end] => destruct (q ++ l)
         end; exact Hq.
Qed.

Lemma CRangeValue_queue o value dayNum timeMin :
  let o' := fst (CRangeValue_ComputeNewValue o value dayNum timeMin) in
  range_MaxDaysInQueue o' = range_MaxDaysInQueue o
  /\ range_fAbsolute o' = range_fAbsolute o
  /\ range_ValueQueue o'
     = prune (range_MaxDaysInQueue o) dayNum (range_ValueQueue o)
       ++ [mkEntry value dayNum timeMin].
Proof.
  unfold CRangeValue_ComputeNewValue.
  rewrite <- (prune_minmax_queue _ _ _ (range_MinValue o) (range_MaxValue o)).
  destruct (prune_minmax _ _ _ _ _) as [[queue mn] mx].
  destruct (update_minmax _ _ _ _) as [mn' mx'].
  repeat match goal with |- context [if ?b then _ else _] => destruct b end;
    repeat split; reflexivity.
Qed.

(** *** The tracked minimum and maximum *)

Lemma least_tail mn e queue :
  least mn (e :: queue) -> Qeq_bool mn (e_v e) = false -> least mn queue.
Proof.
  intros [Hex Hall] Hne. split.
  - apply Exists_cons in Hex as [H|H]; [|exact H].
    apply Qeq_bool_iff in H. congruence.
  - apply Forall_cons in Hall. exact (proj2 Hall).
Qed.

Lemma greatest_tail mx e queue :
  greatest mx (e :: queue) -> Qeq_bool mx (e_v e) = false -> greatest mx queue.
Proof.
  intros [Hex Hall] Hne. split.
  - apply Exists_cons in Hex as [H|H]; [|exact H].
    apply Qeq_bool_iff in H. congruence.
  - apply Forall_cons in Hall. exact (proj2 Hall).
Qed.

Lemma bounds_ok_unset queue : bounds_ok queue TDF_INVALID_VALUE TDF_INVALID_VALUE.
Proof. left. split; reflexivity. Qed.

Lemma prune_minmax_bounds N dayNum queue mn mx :
  bounds_ok queue mn mx ->
  match prune_minmax N dayNum queue mn mx with
  | (queue', mn', mx') => bounds_ok queue' mn' mx'
  end.
Proof.
  revert mn mx. induction queue as [|e queue IH]; simpl; intros mn mx H; [exact H|].
  destruct (N <? dayNum - e_d e); [|exact H].
  destruct (Qeq_bool mn (e_v e) || Qeq_bool mx (e_v e)) eqn:E.
  - apply IH, bounds_ok_unset.
  - apply orb_false_iff in E as [E1 E2]. apply IH.
    destruct H as [H|(H1 & H2 & H3 & H4)]; [left; exact H|right].
    repeat split; try assumption;
      [exact (proj1 (least_tail _ _ _ H3 E1)) | exact (proj2 (least_tail _ _ _ H3 E1))
      |exact (proj1 (greatest_tail _ _ _ H4 E2)) | exact (proj2 (greatest_tail _ _ _ H4 E2))].
Qed.

Lemma least_snoc mn queue e :
  least mn queue ->
  least (if Qle_bool (e_v e) mn then e_v e else mn) (queue ++ [e]).
Proof.
  intros [Hex Hall]. destruct (Qle_bool (e_v e) mn) eqn:E.
  - apply Qle_bool_iff in E. split.
    + apply Exists_app. right. constructor. reflexivity.
    + apply Forall_app. split.
      * eapply Forall_impl; [exact Hall|]. intros x Hx. simpl in Hx. lra.
      * constructor; [apply Qle_refl|constructor].
  - assert (mn < e_v e)%Q.
    { apply Qnot_le_lt. intros Hle. apply Qle_bool_iff in Hle. congruence. }
    split.
    + apply Exists_app. left. exact Hex.
    + apply Forall_app. split; [exact Hall|]. constructor; [lra|constructor].
Qed.

Lemma greatest_snoc mx queue e :
  greatest mx queue ->
  greatest (if Qgeb (e_v e) mx then e_v e else mx) (queue ++ [e]).
Proof.
  intros [Hex Hall]. unfold Qgeb. destruct (Qle_bool mx (e_v e)) eqn:E.
  - apply Qle_bool_iff in E. split.
    + apply Exists_app. right. constructor. reflexivity.
    + apply Forall_app. split.
      * eapply Forall_impl; [exact Hall|]. intros x Hx. simpl in Hx. lra.
      * constructor; [apply Qle_refl|constructor].
  - assert (e_v e < mx)%Q.
    { apply Qnot_le_lt. intros Hle. apply Qle_bool_iff in Hle. congruence. }
    split.
    + apply Exists_app. left. exact Hex.
    + apply Forall_app. split; [exact Hall|]. constructor; [lra|constructor].
Qed.

Lemma minmax_rescan_bounds rest : forall seen mn mx,
  is_INVALID mn = false -> is_INVALID mx = false ->
  least mn seen -> greatest mx seen -> entries_set rest ->
  let r := fold_left minmax_step rest (mn, mx) in
  is_INVALID (fst r) = false /\ is_INVALID (snd r) = false
  /\ least (fst r) (seen ++ rest) /\ greatest (snd r) (seen ++ rest).
Proof.
  induction rest as [|e rest IH]; intros seen mn mx Vmn Vmx Hmn Hmx Hset.
  - simpl. rewrite app_nil_r. auto.
  - apply Forall_cons in Hset as [He Hset]. cbn [fold_left].
    assert (Es : minmax_step (mn, mx) e
                 = (if Qle_bool (e_v e) mn then e_v e else mn,
                    if Qgeb (e_v e) mx then e_v e else mx)).
    { unfold minmax_step. rewrite Vmn, Vmx. reflexivity. }
    rewrite Es.
    replace (seen ++ e :: rest) with ((seen ++ [e]) ++ rest)
      by (rewrite <- app_assoc; reflexivity).
    apply IH.
    + destruct (Qle_bool (e_v e) mn); assumption.
    + destruct (Qgeb (e_v e) mx); assumption.
    + apply least_snoc. exact Hmn.
    + apply greatest_snoc. exact Hmx.
    + exact Hset.
Qed.

Lemma update_minmax_bounds queue e mn mx :
  bounds_ok queue mn mx -> entries_set (queue ++ [e]) ->
  let r := update_minmax (queue ++ [e]) (e_v e) mn mx in
  is_INVALID (fst r) = false /\ is_INVALID (snd r) = false
  /\ least (fst r) (queue ++ [e]) /\ greatest (snd r) (queue ++ [e]).
Proof.
  intros Hb Hset. unfold update_minmax.
  destruct Hb as [[Imn Imx]|(Vmn & Vmx & Hmn & Hmx)].
  - rewrite Imn, Imx. cbn [orb].
    destruct (queue ++ [e]) as [|x rest] eqn:Eq; [destruct queue; discriminate|].
    apply Forall_cons in Hset as [Hx Hset]. cbn [fold_left].
    change (minmax_step (TDF_INVALID_VALUE, TDF_INVALID_VALUE) x) with (e_v x, e_v x).
    apply (minmax_rescan_bounds rest [x]); try assumption.
    + split; [repeat constructor; reflexivity|]. constructor; [apply Qle_refl|constructor].
    + split; [repeat constructor; reflexivity|]. constructor; [apply Qle_refl|constructor].
  - rewrite Vmn, Vmx. cbn [orb fst snd].
    apply Forall_app in Hset as [_ He]. apply Forall_cons in He as [He _].
    split; [destruct (Qle_bool (e_v e) mn); assumption|].
    split; [destruct (Qgeb (e_v e) mx); assumption|].
    split; [apply least_snoc; exact Hmn | apply greatest_snoc; exact Hmx].
Qed.

Lemma window_contents_set N history :
  values_set history -> entries_set (window_contents N history).
Proof.
  intros H. unfold window_contents.
  assert (Hrev : values_set (rev history)).
  { unfold values_set in *. rewrite List.Forall_forall in *. intros x Hx. apply H.
    apply in_rev. exact Hx. }
  destruct (rev history) as [|latest earlier]; [constructor|].
  apply Forall_cons in Hrev as [Hl He].
  assert (Hnot : forall o, ~ (o_value o == TDF_INVALID_VALUE)%Q ->
                           is_INVALID (e_v (entry_of o)) = false).
  { intros o Ho. destruct (is_INVALID _) eqn:E; [|reflexivity].
    apply is_INVALID_eq in E. contradiction. }
  apply Forall_app. split.
  - unfold entries_set. rewrite List.Forall_forall in *. intros e Hin.
    apply in_map_iff in Hin as (x & <- & Hx). apply Hnot.
    apply filter_In in Hx as [Hx _]. apply He. apply in_rev in Hx. exact Hx.
  - constructor; [apply Hnot; exact Hl|constructor].
Qed.

Lemma prune_set N dayNum queue : entries_set queue -> entries_set (prune N dayNum queue).
Proof.
  induction queue as [|e queue IH]; simpl; intros H; [exact H|].
  destruct (N <? dayNum - e_d e); [|exact H].
  apply IH. apply Forall_cons in H. exact (proj2 H).
Qed.

Lemma value_set_valid v : ~ (v == TDF_INVALID_VALUE)%Q -> is_INVALID v = false.
Proof.
  intros H. destruct (is_INVALID v) eqn:E; [|reflexivity].
  apply is_INVALID_eq in E. contradiction.
Qed.

(** One call of CRangeValue.ComputeNewValue on a state whose bounds are in
    order: the bounds are the least and the greatest queued value
    afterwards, and the output is read off them. *)
Lemma CRangeValue_step o value dayNum timeMin :
  bounds_ok (range_ValueQueue o) (range_MinValue o) (range_MaxValue o) ->
  entries_set (range_ValueQueue o) -> is_INVALID value = false ->
  let o' := fst (CRangeValue_ComputeNewValue o value dayNum timeMin) in
  let out := snd (CRangeValue_ComputeNewValue o value dayNum timeMin) in
  entries_set (range_ValueQueue o')
  /\ is_INVALID (range_MinValue o') = false /\ is_INVALID (range_MaxValue o') = false
  /\ least (range_MinValue o') (range_ValueQueue o')
  /\ greatest (range_MaxValue o') (range_ValueQueue o')
  /\ out = if (length (range_ValueQueue o') <=? 1)%nat then TDF_INVALID_VALUE
           else if range_fAbsolute o || Qeq_bool (range_MinValue o') 0
                then (range_MaxValue o' - range_MinValue o')%Q
                else ((range_MaxValue o' - range_MinValue o') / range_MinValue o')%Q.
Proof.
  intros Hb Hset Hv. unfold CRangeValue_ComputeNewValue.
  pose proof (prune_minmax_bounds (range_MaxDaysInQueue o) dayNum _ _ _ Hb) as Hp.
  pose proof (prune_minmax_queue (range_MaxDaysInQueue o) dayNum (range_ValueQueue o)
                (range_MinValue o) (range_MaxValue o)) as Hq.
  destruct (prune_minmax _ _ _ _ _) as [[queue mn] mx]. cbn [fst] in Hq.
  assert (Hset' : entries_set (queue ++ [mkEntry value dayNum timeMin])).
  { apply Forall_app. split; [rewrite Hq; apply prune_set; exact Hset|].
    constructor; [exact Hv|constructor]. }
  pose proof (update_minmax_bounds queue (mkEntry value dayNum timeMin) mn mx Hp Hset')
    as (V1 & V2 & L & G).
  cbn [e_v] in *. destruct (update_minmax _ value mn mx) as [mn' mx']. cbn [fst snd] in *.
  rewrite V1, V2. cbn [orb].
  destruct (length _ <=? 1)%nat eqn:El;
    [cbn [fst snd range_ValueQueue range_MinValue range_MaxValue]; rewrite ?El; auto 10|].
  destruct (range_fAbsolute o); destruct (Qeq_bool mn' 0) eqn:Ez;
    cbn [negb andb orb fst snd range_ValueQueue range_MinValue range_MaxValue
         range_fAbsolute];
    rewrite ?El, ?Ez; auto 10.
Qed.

(** The same for CThresholdValue. *)
Lemma CThresholdValue_step o value dayNum timeMin :
  bounds_ok (thr_ValueQueue o) (thr_MinValue o) (thr_MaxValue o) ->
  entries_set (thr_ValueQueue o) -> is_INVALID value = false ->
  let o' := fst (CThresholdValue_ComputeNewValue o value dayNum timeMin) in
  let out := snd (CThresholdValue_ComputeNewValue o value dayNum timeMin) in
  entries_set (thr_ValueQueue o')
  /\ is_INVALID (thr_MinValue o') = false /\ is_INVALID (thr_MaxValue o') = false
  /\ least (thr_MinValue o') (thr_ValueQueue o')
  /\ greatest (thr_MaxValue o') (thr_ValueQueue o')
  /\ thr_fAbove o' = thr_fAbove o /\ thr_thresholdVal o' = thr_thresholdVal o
  /\ out = if Qltb 0 (thr_thresholdVal o)
              && (if thr_fAbove o then Qgeb (thr_MinValue o') (thr_thresholdVal o)
                  else Qle_bool (thr_MaxValue o') (thr_thresholdVal o))
           then 1%Q else 0%Q.
Proof.
  intros Hb Hset Hv. unfold CThresholdValue_ComputeNewValue.
  pose proof (prune_minmax_bounds (thr_MaxDaysInQueue o) dayNum _ _ _ Hb) as Hp.
  pose proof (prune_minmax_queue (thr_MaxDaysInQueue o) dayNum (thr_ValueQueue o)
                (thr_MinValue o) (thr_MaxValue o)) as Hq.
  destruct (prune_minmax _ _ _ _ _) as [[queue mn] mx]. cbn [fst] in Hq.
  assert (Hset' : entries_set (queue ++ [mkEntry value dayNum timeMin])).
  { apply Forall_app. split; [rewrite Hq; apply prune_set; exact Hset|].
    constructor; [exact Hv|constructor]. }
  pose proof (update_minmax_bounds queue (mkEntry value dayNum timeMin) mn mx Hp Hset')
    as (V1 & V2 & L & G).
  cbn [e_v] in *. destruct (update_minmax _ value mn mx) as [mn' mx']. cbn [fst snd] in *.
  cbn [thr_fAbove thr_thresholdVal].
  destruct (thr_fAbove o); destruct (Qltb 0 (thr_thresholdVal o));
    destruct (Qle_bool mx' (thr_thresholdVal o)) eqn:E1;
    destruct (Qgeb mn' (thr_thresholdVal o)) eqn:E2;
    cbn [negb andb orb fst snd thr_ValueQueue thr_MinValue thr_MaxValue thr_fAbove
         thr_thresholdVal];
    rewrite ?E1, ?E2; auto 10.
Qed.

Section WithStdev.
Variable stdev : list Q -> Q.

(** Every class prunes each of its queues for the new day and appends the
    new observation. *)
Lemma queues_step f value dayNum timeMin :
  queues (fst (ComputeNewValue stdev f value dayNum timeMin))
  = map (fun w => (fst w, prune (fst w) dayNum (snd w) ++ [mkEntry value dayNum timeMin]))
        (queues f).
Proof.
  destruct f as [o|o|o|o|o|o|o|o|o|o|o|o|o];
    unfold ComputeNewValue, prod_map; cbn [fst snd queues map].
  - reflexivity.
  - unfold CAccelerationValue_ComputeNewValue.
    destruct (fold_left _ _ _) as [dv dd].
    rewrite <- prune_rate_strip.
    match goal with |- context [mkAccel ?a ?b] => remember (mkAccel a b) as self eqn:Hself end.
    assert (Hq : queues (ObjAcceleration self)
                 = [(acc_MaxDaysInQueue o,
                     map (fun e => mkEntry (r_v e) (r_d e) (r_m e))
                         (prune_rate (acc_MaxDaysInQueue o) dayNum (acc_ValueQueue o))
                     ++ [mkEntry value dayNum timeMin])]).
    { subst self. cbn [queues acc_MaxDaysInQueue acc_ValueQueue]. rewrite map_app. reflexivity. }
    repeat match goal with
           | |- context [if ?b then _ else _] => destruct b
           | |- context [match ?q ++ ?l with _ => _ end] => destruct (q ++ l)
           end; exact Hq.
  - unfold CDeltaValue_ComputeNewValue.
    match goal with |- context [mkDelta ?a ?b] => remember (mkDelta a b) as self eqn:Hself end.
    assert (Hq : queues (ObjDelta self)
                 = [(delta_MaxDaysInQueue o,
                     prune (delta_MaxDaysInQueue o) dayNum (delta_ValueQueue o)
                     ++ [mkEntry value dayNum timeMin])]).
    { subst self. reflexivity. }
    repeat match goal with
           | |- context [if ?b then _ else _] => destruct b
           | |- context [match ?q ++ ?l with _ => _ end] => destruct (q ++ l)
           end; exact Hq.
  - unfold CSum_ComputeNewValue.
    rewrite <- (prune_total_queue _ _ _ (sum_TotalValue o)).
    destruct (prune_total _ _ _ _) as [queue total].
    destruct (0 <? _)%nat; reflexivity.
  - unfold CRunningAvgValue_ComputeNewValue.
    rewrite <- (prune_total_queue _ _ _ (avg_TotalValue o)).
    destruct (prune_total _ _ _ _) as [queue total].
    destruct (0 <? _)%nat; reflexivity.
  - destruct (CRateValue_queue o value dayNum timeMin) as [-> ->]. reflexivity.
  - unfold CRateCrossValue_ComputeNewValue.
    pose proof (CRateValue_queue (rc_shortRate o) value dayNum timeMin) as [Hs1 Hs2].
    pose proof (CRateValue_queue (rc_longRate o) value dayNum timeMin) as [Hl1 Hl2].
    destruct (CRateValue_ComputeNewValue (rc_shortRate o) _ _ _) as [s sv].
    destruct (CRateValue_ComputeNewValue (rc_longRate o) _ _ _) as [l lv].
    cbn [fst] in *.
    repeat match goal with |- context [if ?b then _ else _] => destruct b end;
      cbn [fst rc_shortRate rc_longRate]; rewrite Hs1, Hs2, Hl1, Hl2; reflexivity.
  - unfold CBollingerValue_ComputeNewValue.
    rewrite <- (prune_total_queue _ _ _ (boll_TotalValue o)).
    destruct (prune_total _ _ _ _) as [queue total].
    repeat match goal with |- context [if ?b then _ else _] => destruct b end; reflexivity.
  - destruct (CRangeValue_queue o value dayNum timeMin) as (-> & _ & ->). reflexivity.
  - unfold CPercentChangeValue_ComputeNewValue.
    rewrite <- (prune_lowest_queue _ _ _ (pct_lowestValue o)).
    destruct (prune_lowest _ _ _ _) as [queue low].
    repeat match goal with |- context [if ?b then _ else _] => destruct b end; reflexivity.
  - unfold CThresholdValue_ComputeNewValue.
    rewrite <- (prune_minmax_queue _ _ _ (thr_MinValue o) (thr_MaxValue o)).
    destruct (prune_minmax _ _ _ _ _) as [[queue mn] mx].
    destruct (update_minmax _ _ _ _) as [mn' mx'].
    repeat match goal with |- context [if ?b then _ else _] => destruct b end; reflexivity.
  - reflexivity.
  - unfold CIsStableValue_ComputeNewValue.
    pose proof (CRangeValue_queue (stable_RangeVar o) value dayNum timeMin) as (H1 & _ & H2).
    destruct (CRangeValue_ComputeNewValue (stable_RangeVar o) _ _ _) as [r rv].
    cbn [fst] in *.
    repeat match goal with |- context [if ?b then _ else _] => destruct b end;
      cbn [fst stable_RangeVar]; rewrite H1, H2; reflexivity.
Qed.

Lemma queues_reset f : queues (Reset f) = map (fun w => (fst w, [])) (queues f).
Proof. destruct f; reflexivity. Qed.

Lemma feed_snoc f history o :
  feed stdev f (history ++ [o])
  = fst (ComputeNewValue stdev (feed stdev f history) (o_value o) (o_day o) (o_min o)).
Proof. unfold feed. rewrite fold_left_app. reflexivity. Qed.

Lemma days_ascend_prefix history o : days_ascend (history ++ [o]) -> days_ascend history.
Proof. intros H. exact (proj1 (days_ascend_snoc _ _ H)). Qed.

Lemma feed_reachable f history : reachable stdev (feed stdev (Reset f) history).
Proof.
  induction history as [|o history IH] using rev_ind; [apply reach_reset|].
  rewrite feed_snoc. apply reach_compute. exact IH.
Qed.

(** Feeding a day-ordered history to an object whose queues hold the
    window of an earlier history leaves them holding the window of the two
    histories together. *)
Lemma queues_after_feed (f g : FunctionObject) (earlier history : list Observation) :
  days_ascend (earlier ++ history) ->
  queues f = map (fun w => (fst w, window_contents (fst w) earlier)) (queues g) ->
  queues (feed stdev f history)
  = map (fun w => (fst w, window_contents (fst w) (earlier ++ history))) (queues g).
Proof.
  intros Hs Hf. induction history as [|o history IH] using rev_ind.
  - rewrite app_nil_r. exact Hf.
  - rewrite app_assoc in Hs |- *.
    rewrite feed_snoc, queues_step, (IH (days_ascend_prefix _ _ Hs)), map_map.
    apply map_ext. intros [N q]. cbn [fst snd]. f_equal.
    exact (window_contents_step N (earlier ++ history) o Hs).
Qed.

(** After Reset and a day-ordered sequence of ComputeNewValue calls, every
    queue of a function object holds the latest observation preceded by
    exactly the observations made at most its span of days earlier, in the
    order they were made. *)
Theorem queues_hold_the_window (f : FunctionObject) (history : list Observation) :
  days_ascend history ->
  queues (feed stdev (Reset f) history)
  = map (fun w => (fst w, window_contents (fst w) history)) (queues f).
Proof.
  intros Hs.
  apply (queues_after_feed (Reset f) f [] history); [exact Hs|].
  rewrite queues_reset. apply map_ext. intros [N q]. reflexivity.
Qed.

(** The class of an object does not change. *)
Ltac feed_class mk :=
  let h := fresh "history" in
  intros h; induction h as [|? h IH]; intros o0;
  [exists o0; reflexivity
  |cbn [feed fold_left]; unfold ComputeNewValue at 2, prod_map; cbn [fst]; apply IH].

Lemma feed_ObjSum history :
  forall o0, exists o1, feed stdev (ObjSum o0) history = ObjSum o1.
Proof. revert history. feed_class ObjSum. Qed.

Lemma feed_ObjRunningAvg history :
  forall o0, exists o1, feed stdev (ObjRunningAvg o0) history = ObjRunningAvg o1.
Proof. revert history. feed_class ObjRunningAvg. Qed.

Lemma feed_ObjDelta history :
  forall o0, exists o1, feed stdev (ObjDelta o0) history = ObjDelta o1.
Proof. revert history. feed_class ObjDelta. Qed.

Lemma feed_ObjRange history :
  forall o0, exists o1, feed stdev (ObjRange o0) history = ObjRange o1.
Proof. revert history. feed_class ObjRange. Qed.

Lemma feed_ObjThreshold history :
  forall o0, exists o1, feed stdev (ObjThreshold o0) history = ObjThreshold o1.
Proof. revert history. feed_class ObjThreshold. Qed.

Lemma CSum_fst o value dayNum timeMin :
  let pruned :=
    prune_total (sum_MaxDaysInQueue o) dayNum (sum_ValueQueue o) (sum_TotalValue o) in
  fst (CSum_ComputeNewValue o value dayNum timeMin)
  = mkSum (sum_MaxDaysInQueue o) (fst pruned ++ [mkEntry value dayNum timeMin])
      (binary64 (snd pruned + value)).
Proof.
  cbv zeta. unfold CSum_ComputeNewValue. destruct (prune_total _ _ _ _) as [queue total].
  destruct (0 <? _)%nat; reflexivity.
Qed.

Lemma CSum_output o value dayNum timeMin :
  snd (CSum_ComputeNewValue o value dayNum timeMin)
  = sum_TotalValue (fst (CSum_ComputeNewValue o value dayNum timeMin)).
Proof.
  unfold CSum_ComputeNewValue. destruct (prune_total _ _ _ _) as [queue total].
  rewrite length_app. simpl. replace (0 <? length queue + 1)%nat with true; [reflexivity|].
  symmetry. apply Nat.ltb_lt. lia.
Qed.

(** While the sums of the values are exact, the running total of CSum is
    the sum of its queue after every call. *)
Lemma feed_sum_exact history : forall o0 later,
  sums_exact (sum_ValueQueue o0 ++ map entry_of history ++ later) ->
  (sum_TotalValue o0 == sum_values (sum_ValueQueue o0))%Q ->
  exists o1, feed stdev (ObjSum o0) history = ObjSum o1
    /\ sums_exact (sum_ValueQueue o1 ++ later)
    /\ (sum_TotalValue o1 == sum_values (sum_ValueQueue o1))%Q.
Proof.
  induction history as [|x history IH]; intros o0 later Hx Ht.
  - exists o0. split; [reflexivity|]. split; [exact Hx|exact Ht].
  - cbn [feed fold_left]. unfold ComputeNewValue at 2, prod_map. cbn [fst].
    rewrite CSum_fst. cbv zeta.
    destruct (running_total_step (sum_MaxDaysInQueue o0) (o_value x) (o_day x) (o_min x)
                (sum_ValueQueue o0) (sum_TotalValue o0) (map entry_of history ++ later)
                Hx Ht) as [Hsum Hx'].
    apply IH; [exact Hx'|exact Hsum].
Qed.

(** CSum: the running sum is the sum of the values observed in the last
    [MaxDaysInQueue] days, the new one included, when the observations are
    whole numbers whose absolute values add up to less than 2^53, so that
    the float total is exact. *)
Theorem CSum_returns_window_sum (o : CSum) (history : list Observation)
    (latest : Observation) :
  days_ascend (history ++ [latest]) ->
  sums_exact (map entry_of (history ++ [latest])) ->
  (output stdev (ObjSum o) history latest
   == sum_values (window_contents (sum_MaxDaysInQueue o) (history ++ [latest])))%Q.
Proof.
  intros Hs Hx. unfold output.
  pose proof (queues_after_feed (Reset (ObjSum o)) (ObjSum o) [] (history ++ [latest]) Hs
                (queues_reset _)) as Hq.
  rewrite feed_snoc in Hq. rewrite map_app in Hx.
  change (Reset (ObjSum o)) with (ObjSum (CSum_Reset o)) in *.
  destruct (feed_sum_exact history (CSum_Reset o) (map entry_of [latest]) Hx)
    as (o1 & E & Hx1 & Ht1); [reflexivity|].
  rewrite E in *. unfold ComputeNewValue, prod_map in *. cbn [fst snd id queues map] in *.
  injection Hq as _ Hq. rewrite <- Hq.
  rewrite CSum_output, CSum_fst. cbv zeta. cbn [sum_TotalValue sum_ValueQueue].
  exact (proj1 (running_total_step _ _ _ _ _ _ [] Hx1 Ht1)).
Qed.

Lemma CRunningAvgValue_fst o value dayNum timeMin :
  let pruned :=
    prune_total (avg_MaxDaysInQueue o) dayNum (avg_ValueQueue o) (avg_TotalValue o) in
  fst (CRunningAvgValue_ComputeNewValue o value dayNum timeMin)
  = mkAvg (avg_MaxDaysInQueue o) (fst pruned ++ [mkEntry value dayNum timeMin])
      (binary64 (snd pruned + value)).
Proof.
  cbv zeta. unfold CRunningAvgValue_ComputeNewValue.
  destruct (prune_total _ _ _ _) as [queue total].
  destruct (0 <? _)%nat; reflexivity.
Qed.

Lemma CRunningAvgValue_output o value dayNum timeMin :
  let o' := fst (CRunningAvgValue_ComputeNewValue o value dayNum timeMin) in
  snd (CRunningAvgValue_ComputeNewValue o value dayNum timeMin)
  = binary64 (avg_TotalValue o' / inject_Z (Z.of_nat (length (avg_ValueQueue o')))).
Proof.
  unfold CRunningAvgValue_ComputeNewValue. destruct (prune_total _ _ _ _) as [queue total].
  rewrite length_app. simpl. replace (0 <? length queue + 1)%nat with true.
  - cbn [fst snd avg_TotalValue avg_ValueQueue]. rewrite length_app. reflexivity.
  - symmetry. apply Nat.ltb_lt. lia.
Qed.

Lemma feed_avg_exact history : forall o0 later,
  sums_exact (avg_ValueQueue o0 ++ map entry_of history ++ later) ->
  (avg_TotalValue o0 == sum_values (avg_ValueQueue o0))%Q ->
  exists o1, feed stdev (ObjRunningAvg o0) history = ObjRunningAvg o1
    /\ sums_exact (avg_ValueQueue o1 ++ later)
    /\ (avg_TotalValue o1 == sum_values (avg_ValueQueue o1))%Q.
Proof.
  induction history as [|x history IH]; intros o0 later Hx Ht.
  - exists o0. split; [reflexivity|]. split; [exact Hx|exact Ht].
  - cbn [feed fold_left]. unfold ComputeNewValue at 2, prod_map. cbn [fst].
    rewrite CRunningAvgValue_fst. cbv zeta.
    destruct (running_total_step (avg_MaxDaysInQueue o0) (o_value x) (o_day x) (o_min x)
                (avg_ValueQueue o0) (avg_TotalValue o0) (map entry_of history ++ later)
                Hx Ht) as [Hsum Hx'].
    apply IH; [exact Hx'|exact Hsum].
Qed.

(** CRunningAvgValue: the running average is the float nearest to the mean
    of the values observed in the last [MaxDaysInQueue] days, the new one
    included, when the observations are whole numbers whose absolute values
    add up to less than 2^53, so that the float total is exact. *)
Theorem CRunningAvgValue_returns_window_mean (o : CRunningAvgValue)
    (history : list Observation) (latest : Observation) :
  days_ascend (history ++ [latest]) ->
  sums_exact (map entry_of (history ++ [latest])) ->
  let window := window_contents (avg_MaxDaysInQueue o) (history ++ [latest]) in
  output stdev (ObjRunningAvg o) history latest
  = binary64 (sum_values window / inject_Z (Z.of_nat (length window))).
Proof.
  intros Hs Hx window. unfold output.
  pose proof (queues_after_feed (Reset (ObjRunningAvg o)) (ObjRunningAvg o) []
                (history ++ [latest]) Hs (queues_reset _)) as Hq.
  rewrite feed_snoc in Hq. rewrite map_app in Hx.
  change (Reset (ObjRunningAvg o)) with (ObjRunningAvg (CRunningAvgValue_Reset o)) in *.
  destruct (feed_avg_exact history (CRunningAvgValue_Reset o) (map entry_of [latest]) Hx)
    as (o1 & E & Hx1 & Ht1); [reflexivity|].
  rewrite E in *. unfold ComputeNewValue, prod_map in *. cbn [fst snd id queues map] in *.
  injection Hq as _ Hq. subst window. rewrite <- Hq.
  rewrite CRunningAvgValue_output, CRunningAvgValue_fst. cbv zeta.
  cbn [avg_TotalValue avg_ValueQueue].
  apply binary64_proper.
  rewrite (proj1 (running_total_step _ _ _ _ _ _ [] Hx1 Ht1)). reflexivity.
Qed.

Lemma CDeltaValue_output o value dayNum timeMin :
  snd (CDeltaValue_ComputeNewValue o value dayNum timeMin)
  = match delta_ValueQueue (fst (CDeltaValue_ComputeNewValue o value dayNum timeMin)) with
    | oldest :: _ :: _ =>
        if dayNum - e_d oldest <? 1 then TDF_INVALID_VALUE else (value - e_v oldest)%Q
    | _ => TDF_INVALID_VALUE
    end.
Proof.
  unfold CDeltaValue_ComputeNewValue.
  destruct (prune _ _ _ ++ _) as [|e1 [|e2 q]]; cbn [length Nat.leb]; try reflexivity.
  destruct (dayNum - e_d e1 <? 1) eqn:E; cbn [fst snd delta_ValueQueue]; rewrite E; reflexivity.
Qed.

(** CDeltaValue: the new value minus the oldest value observed in the last
    [MaxDaysInQueue] days, when that one is from an earlier day; no value
    when the window holds the new observation alone or its oldest
    observation is of the same day. *)
Theorem CDeltaValue_returns_change_over_window (o : CDeltaValue)
    (history : list Observation) (latest : Observation) :
  days_ascend (history ++ [latest]) ->
  output stdev (ObjDelta o) history latest
  = match window_contents (delta_MaxDaysInQueue o) (history ++ [latest]) with
    | oldest :: _ :: _ =>
        if o_day latest - e_d oldest <? 1 then TDF_INVALID_VALUE
        else (o_value latest - e_v oldest)%Q
    | _ => TDF_INVALID_VALUE
    end.
Proof.
  intros Hs. unfold output.
  pose proof (queues_after_feed (Reset (ObjDelta o)) (ObjDelta o) [] (history ++ [latest]) Hs
                (queues_reset _)) as Hq.
  rewrite feed_snoc in Hq.
  destruct (feed_ObjDelta history (CDeltaValue_Reset o)) as [o1 E].
  change (Reset (ObjDelta o)) with (ObjDelta (CDeltaValue_Reset o)) in *. rewrite E in *.
  unfold ComputeNewValue, prod_map in *. cbn [fst snd id queues map] in *.
  rewrite CDeltaValue_output. injection Hq as _ ->. reflexivity.
Qed.

Lemma values_set_snoc history o :
  values_set (history ++ [o]) ->
  values_set history /\ is_INVALID (o_value o) = false.
Proof.
  intros H. apply Forall_app in H as [Hh Ho]. split; [exact Hh|].
  apply Forall_cons in Ho as [Ho _]. apply value_set_valid. exact Ho.
Qed.

Lemma feed_range_inv history : values_set history -> forall o0,
  bounds_ok (range_ValueQueue o0) (range_MinValue o0) (range_MaxValue o0) ->
  entries_set (range_ValueQueue o0) ->
  exists o1, feed stdev (ObjRange o0) history = ObjRange o1
    /\ range_fAbsolute o1 = range_fAbsolute o0
    /\ bounds_ok (range_ValueQueue o1) (range_MinValue o1) (range_MaxValue o1)
    /\ entries_set (range_ValueQueue o1).
Proof.
  induction history as [|x history IH]; intros Hv o0 Hb Hs.
  - exists o0. auto.
  - apply Forall_cons in Hv as [Hx Hv]. cbn [feed fold_left].
    unfold ComputeNewValue at 2, prod_map. cbn [fst].
    pose proof (CRangeValue_step o0 (o_value x) (o_day x) (o_min x) Hb Hs
                  (value_set_valid _ Hx)) as (S1 & S2 & S3 & S4 & S5 & _).
    pose proof (CRangeValue_queue o0 (o_value x) (o_day x) (o_min x)) as (_ & Ha & _).
    destruct (IH Hv (fst (CRangeValue_ComputeNewValue o0 (o_value x) (o_day x) (o_min x))))
      as (o1 & E & A & B & C); [right; auto|exact S1|].
    exists o1. rewrite A. auto.
Qed.

(** CRangeValue with absolute=True (the functions range and isstable): no
    value while the window holds the new observation alone, and otherwise
    the greatest minus the least of the values observed in the last
    [MaxDaysInQueue] days. *)
Theorem CRangeValue_returns_window_spread (o : CRangeValue)
    (history : list Observation) (latest : Observation) :
  range_fAbsolute o = true ->
  days_ascend (history ++ [latest]) ->
  values_set (history ++ [latest]) ->
  let window := window_contents (range_MaxDaysInQueue o) (history ++ [latest]) in
  match window with
  | _ :: _ :: _ =>
      exists mn mx, least mn window /\ greatest mx window
        /\ output stdev (ObjRange o) history latest = (mx - mn)%Q
  | _ => output stdev (ObjRange o) history latest = TDF_INVALID_VALUE
  end.
Proof.
  intros Habs Hs Hv. cbv zeta. unfold output.
  pose proof (queues_after_feed (Reset (ObjRange o)) (ObjRange o) [] (history ++ [latest]) Hs
                (queues_reset _)) as Hq.
  rewrite feed_snoc in Hq. apply values_set_snoc in Hv as [Hv Hl].
  change (Reset (ObjRange o)) with (ObjRange (CRangeValue_Reset o)) in *.
  destruct (feed_range_inv history Hv (CRangeValue_Reset o) (bounds_ok_unset _)
              ltac:(constructor)) as (o1 & E & A & B & C).
  rewrite E in *. unfold ComputeNewValue, prod_map in *. cbn [fst snd id queues map] in *.
  pose proof (CRangeValue_step o1 (o_value latest) (o_day latest) (o_min latest) B C Hl)
    as (_ & _ & _ & L & G & Hout).
  injection Hq as _ Hq. rewrite Hq in L, G, Hout. rewrite Hout.
  cbn [CRangeValue_Reset range_fAbsolute] in A. rewrite A, Habs. cbn [orb].
  destruct (window_contents _ _) as [|e1 [|e2 w]]; try reflexivity.
  cbn [length Nat.leb]. eauto.
Qed.

Lemma feed_threshold_inv history : values_set history -> forall o0,
  bounds_ok (thr_ValueQueue o0) (thr_MinValue o0) (thr_MaxValue o0) ->
  entries_set (thr_ValueQueue o0) ->
  exists o1, feed stdev (ObjThreshold o0) history = ObjThreshold o1
    /\ thr_fAbove o1 = thr_fAbove o0 /\ thr_thresholdVal o1 = thr_thresholdVal o0
    /\ bounds_ok (thr_ValueQueue o1) (thr_MinValue o1) (thr_MaxValue o1)
    /\ entries_set (thr_ValueQueue o1).
Proof.
  induction history as [|x history IH]; intros Hv o0 Hb Hs.
  - exists o0. auto.
  - apply Forall_cons in Hv as [Hx Hv]. cbn [feed fold_left].
    unfold ComputeNewValue at 2, prod_map. cbn [fst].
    pose proof (CThresholdValue_step o0 (o_value x) (o_day x) (o_min x) Hb Hs
                  (value_set_valid _ Hx)) as (S1 & S2 & S3 & S4 & S5 & S6 & S7 & _).
    destruct (IH Hv (fst (CThresholdValue_ComputeNewValue o0 (o_value x) (o_day x) (o_min x))))
      as (o1 & E & A & A' & B & C); [right; auto|exact S1|].
    exists o1. rewrite A, A', S6, S7. auto.
Qed.

(** CThresholdValue with a positive threshold (the functions below45 and
    above45): the output is 1 or 0, and it is 1 exactly when every value
    observed in the last [MaxDaysInQueue] days, the new one included, is
    at most the threshold (at least the threshold, when fAbove). *)
Theorem CThresholdValue_tests_the_whole_window (o : CThresholdValue)
    (history : list Observation) (latest : Observation) :
  (0 < thr_thresholdVal o)%Q ->
  days_ascend (history ++ [latest]) ->
  values_set (history ++ [latest]) ->
  let window := window_contents (thr_MaxDaysInQueue o) (history ++ [latest]) in
  let out := output stdev (ObjThreshold o) history latest in
  (out = 1%Q \/ out = 0%Q)
  /\ (out = 1%Q <->
      Forall (fun e => if thr_fAbove o then (thr_thresholdVal o <= e_v e)%Q
                       else (e_v e <= thr_thresholdVal o)%Q) window).
Proof.
  intros Hpos Hs Hv. cbv zeta. unfold output.
  pose proof (queues_after_feed (Reset (ObjThreshold o)) (ObjThreshold o) [] (history ++ [latest]) Hs
                (queues_reset _)) as Hq.
  rewrite feed_snoc in Hq. apply values_set_snoc in Hv as [Hv Hl].
  change (Reset (ObjThreshold o)) with (ObjThreshold (CThresholdValue_Reset o)) in *.
  destruct (feed_threshold_inv history Hv (CThresholdValue_Reset o) (bounds_ok_unset _)
              ltac:(constructor)) as (o1 & E & A & A' & B & C).
  rewrite E in *. unfold ComputeNewValue, prod_map in *. cbn [fst snd id queues map] in *.
  pose proof (CThresholdValue_step o1 (o_value latest) (o_day latest) (o_min latest) B C Hl)
    as (_ & _ & _ & L & G & _ & _ & Hout).
  injection Hq as _ Hq. rewrite Hq in L, G. rewrite Hout. clear Hout.
  cbn [CThresholdValue_Reset thr_fAbove thr_thresholdVal] in A, A'. rewrite A, A'.
  apply Qltb_lt in Hpos. rewrite Hpos. cbn [andb].
  set (window := window_contents _ _) in *.
  destruct L as [Lex Lall]. destruct G as [Gex Gall].
  destruct (thr_fAbove o); cbv beta iota.
  - unfold Qgeb. destruct (Qle_bool _ _) eqn:Eb.
    + split; [left; reflexivity|]. split; [intros _|intros _; reflexivity].
      apply Qle_bool_iff in Eb. eapply Forall_impl; [exact Lall|].
      intros e He. simpl in He. lra.
    + split; [right; reflexivity|]. split; [discriminate|]. intros Hall. exfalso.
      apply Exists_exists in Lex as (e & Hin & Heq).
      rewrite Forall_forall in Hall. specialize (Hall e Hin). simpl in Hall.
      assert (Hle : Qle_bool (thr_thresholdVal o) (thr_MinValue
                (fst (CThresholdValue_ComputeNewValue o1 (o_value latest) (o_day latest)
                        (o_min latest)))) = true)
        by (apply Qle_bool_iff; lra).
      congruence.
  - destruct (Qle_bool _ _) eqn:Eb.
    + split; [left; reflexivity|]. split; [intros _|intros _; reflexivity].
      apply Qle_bool_iff in Eb. eapply Forall_impl; [exact Gall|].
      intros e He. simpl in He. lra.
    + split; [right; reflexivity|]. split; [discriminate|]. intros Hall. exfalso.
      apply Exists_exists in Gex as (e & Hin & Heq).
      rewrite Forall_forall in Hall. specialize (Hall e Hin). simpl in Hall.
      assert (Hle : Qle_bool (thr_MaxValue
                (fst (CThresholdValue_ComputeNewValue o1 (o_value latest) (o_day latest)
                        (o_min latest)))) (thr_thresholdVal o) = true)
        by (apply Qle_bool_iff; lra).
      congruence.
Qed.

End WithStdev.

Ltac ascend := unfold days_ascend; simpl; repeat constructor; lia.
Ltac all_set := repeat constructor; intros H; vm_compute in H; discriminate H.
Ltac exact_sums := split; [repeat constructor|vm_compute; reflexivity].

(** The window theorems at a span of 7 days, where the observation of day
    109 arrives after those of days 100 and 103: the first has left the
    window, the second has not. *)
Lemma queues_hold_the_window_witness :
  days_ascend three_observations
  /\ queues (feed (fun _ => 0%Q) (Reset (ObjRate (CRateValue_init 7))) three_observations)
     = [(7, [mkEntry 2 103 0; mkEntry 4 109 0])].
Proof.
  assert (Hs : days_ascend three_observations) by ascend.
  split; [exact Hs|].
  exact (queues_hold_the_window (fun _ => 0%Q) (ObjRate (CRateValue_init 7))
           three_observations Hs).
Defined.

Lemma CSum_returns_window_sum_witness :
  days_ascend ([mkObs 1 100 0; mkObs 2 103 0] ++ [mkObs 4 109 0])
  /\ sums_exact (map entry_of ([mkObs 1 100 0; mkObs 2 103 0] ++ [mkObs 4 109 0]))
  /\ (output (fun _ => 0%Q) (ObjSum (CSum_init 7)) [mkObs 1 100 0; mkObs 2 103 0]
        (mkObs 4 109 0) == 2 + (4 + 0))%Q.
Proof.
  assert (Hs : days_ascend ([mkObs 1 100 0; mkObs 2 103 0] ++ [mkObs 4 109 0])) by ascend.
  assert (Hx : sums_exact (map entry_of ([mkObs 1 100 0; mkObs 2 103 0] ++ [mkObs 4 109 0])))
    by exact_sums.
  split; [exact Hs|]. split; [exact Hx|].
  exact (CSum_returns_window_sum (fun _ => 0%Q) (CSum_init 7) _ _ Hs Hx).
Defined.

Lemma CRunningAvgValue_returns_window_mean_witness :
  days_ascend ([mkObs 1 100 0; mkObs 2 103 0] ++ [mkObs 4 109 0])
  /\ sums_exact (map entry_of ([mkObs 1 100 0; mkObs 2 103 0] ++ [mkObs 4 109 0]))
  /\ output (fun _ => 0%Q) (ObjRunningAvg (CRunningAvgValue_init 7))
       [mkObs 1 100 0; mkObs 2 103 0] (mkObs 4 109 0)
     = binary64 ((2 + (4 + 0)) / inject_Z 2).
Proof.
  assert (Hs : days_ascend ([mkObs 1 100 0; mkObs 2 103 0] ++ [mkObs 4 109 0])) by ascend.
  assert (Hx : sums_exact (map entry_of ([mkObs 1 100 0; mkObs 2 103 0] ++ [mkObs 4 109 0])))
    by exact_sums.
  split; [exact Hs|]. split; [exact Hx|].
  exact (CRunningAvgValue_returns_window_mean (fun _ => 0%Q) (CRunningAvgValue_init 7) _ _
           Hs Hx).
Defined.

Lemma CDeltaValue_returns_change_over_window_witness :
  days_ascend ([mkObs 1 100 0; mkObs 2 103 0] ++ [mkObs 4 109 0])
  /\ output (fun _ => 0%Q) (ObjDelta (CDeltaValue_init 7))
       [mkObs 1 100 0; mkObs 2 103 0] (mkObs 4 109 0) = (4 - 2)%Q.
Proof.
  assert (Hs : days_ascend ([mkObs 1 100 0; mkObs 2 103 0] ++ [mkObs 4 109 0])) by ascend.
  split; [exact Hs|].
  exact (CDeltaValue_returns_change_over_window (fun _ => 0%Q) (CDeltaValue_init 7) _ _ Hs).
Defined.

Lemma CRangeValue_returns_window_spread_witness :
  range_fAbsolute (CRangeValue_init true 7) = true
  /\ days_ascend ([mkObs 1 100 0; mkObs 2 103 0] ++ [mkObs 4 109 0])
  /\ values_set ([mkObs 1 100 0; mkObs 2 103 0] ++ [mkObs 4 109 0])
  /\ exists mn mx,
       least mn [mkEntry 2 103 0; mkEntry 4 109 0]
       /\ greatest mx [mkEntry 2 103 0; mkEntry 4 109 0]
       /\ output (fun _ => 0%Q) (ObjRange (CRangeValue_init true 7))
            [mkObs 1 100 0; mkObs 2 103 0] (mkObs 4 109 0) = (mx - mn)%Q.
Proof.
  assert (Hs : days_ascend ([mkObs 1 100 0; mkObs 2 103 0] ++ [mkObs 4 109 0])) by ascend.
  assert (Hv : values_set ([mkObs 1 100 0; mkObs 2 103 0] ++ [mkObs 4 109 0])) by all_set.
  split; [reflexivity|]. split; [exact Hs|]. split; [exact Hv|].
  exact (CRangeValue_returns_window_spread (fun _ => 0%Q) (CRangeValue_init true 7) _ _
           eq_refl Hs Hv).
Defined.

Lemma CThresholdValue_tests_the_whole_window_witness :
  let o := CThresholdValue_init false 45 7 in
  let history := [mkObs 50 100 0; mkObs 40 103 0] in
  let latest := mkObs 44 109 0 in
  (0 < thr_thresholdVal o)%Q
  /\ days_ascend (history ++ [latest])
  /\ values_set (history ++ [latest])
  /\ (output (fun _ => 0%Q) (ObjThreshold o) history latest = 1%Q
      \/ output (fun _ => 0%Q) (ObjThreshold o) history latest = 0%Q)
  /\ (output (fun _ => 0%Q) (ObjThreshold o) history latest = 1%Q <->
      Forall (fun e => (e_v e <= 45)%Q) [mkEntry 40 103 0; mkEntry 44 109 0]).
Proof.
  intros o history latest.
  assert (Hp : (0 < thr_thresholdVal o)%Q) by reflexivity.
  assert (Hs : days_ascend (history ++ [latest])) by ascend.
  assert (Hv : values_set (history ++ [latest])) by all_set.
  split; [exact Hp|]. split; [exact Hs|]. split; [exact Hv|].
  exact (CThresholdValue_tests_the_whole_window (fun _ => 0%Q) o history latest Hp Hs Hv).
Defined.

End WindowsFacts.

Module ReaderFacts.
Import Partition PartitionFacts Reader.

Lemma take_line_prefix (bs : list byte) :
  take_line bs = take (length (take_line bs)) bs.
Proof.
  induction bs as [|b rest IH]; [reflexivity|].
  simpl. destruct (Byte.eqb b newline); simpl; [reflexivity|]. f_equal. exact IH.
Qed.

Lemma decode_app (a b : list byte) :
  decode_ascii_ignore (a ++ b) = decode_ascii_ignore a ++ decode_ascii_ignore b.
Proof. unfold decode_ascii_ignore. apply List.filter_app. Qed.


(** The bytes from [s] up to the end of the line read at [p]. *)
Lemma take_through_line (file : list byte) (s p : Z) :
  0 <= s <= p -> p < Z.of_nat (length file) ->
  take (Z.to_nat (p + Z.of_nat (length (readline file p)) - s)) (drop (Z.to_nat s) file)
  = take (Z.to_nat (p - s)) (drop (Z.to_nat s) file) ++ readline file p.
Proof.
  intros Hs Hp.
  replace (Z.to_nat (p + Z.of_nat (length (readline file p)) - s))
    with (Z.to_nat (p - s) + length (readline file p))%nat by lia.
  rewrite <- take_take_drop. f_equal.
  rewrite drop_drop. replace (Z.to_nat s + Z.to_nat (p - s))%nat with (Z.to_nat p) by lia.
  unfold readline. symmetry. apply take_line_prefix.
Qed.

Lemma lines_from_cons (file : list byte) (p : Z) l ls :
  0 <= p -> l :: ls = lines_from file p ->
  p < Z.of_nat (length file) /\ l = readline file p
  /\ ls = lines_from file (p + Z.of_nat (length l))
  /\ 0 < Z.of_nat (length l)
  /\ p + Z.of_nat (length l) <= Z.of_nat (length file).
Proof.
  intros Hp E.
  destruct (Z_lt_le_dec p (Z.of_nat (length file))) as [Hlt|Hge].
  - destruct (lines_from_step file p ltac:(lia)) as (E' & H1 & H2 & _).
    rewrite E' in E. injection E as -> ->. auto.
  - rewrite lines_from_end in E by lia. discriminate E.
Qed.

(** What a successful read returns, from any state of the loop. *)
Lemma read_timeline_found (file : list byte) (stopPartition pos0 : Z) :
  0 <= pos0 ->
  forall lines p started s str,
    lines = lines_from file p -> pos0 <= p ->
    (started = true ->
     pos0 <= s < p /\ (0 < stopPartition -> s < stopPartition)
     /\ str = decode_ascii_ignore (take (Z.to_nat (p - s)) (drop (Z.to_nat s) file))) ->
    (started = false -> str = []) ->
    let r := read_timeline stopPartition lines p started s str in
    fFoundTimeline r = true ->
    pos0 <= startTimelinePosInFile r < stopTimelinePosInFile r
    /\ (0 < stopPartition -> startTimelinePosInFile r < stopPartition)
    /\ stopTimelinePosInFile r <= Z.of_nat (length file)
    /\ handle_position r = stopTimelinePosInFile r
    /\ fEOF r = false
    /\ currentTimelineNodeStr r
       = ReadTimelineAtKnownPosition_text file (startTimelinePosInFile r)
           (stopTimelinePosInFile r).
Proof.
  intros Hpos0. induction lines as [|l ls IH]; intros p started s str Hl Hp Hst Hns; cbn zeta.
  - simpl. destruct (_ && _); discriminate.
  - cbn [read_timeline].
    destruct ((0 <? stopPartition) && (stopPartition <=? p) && negb started) eqn:Estop;
      [discriminate|].
    destruct (lines_from_cons file p l ls ltac:(lia) Hl) as (Hlt & El & Els & Hlen & Hle).
    subst l.
    destruct (decode_ascii_ignore (readline file p)) as [|c cl] eqn:Ed; [discriminate|].
    set (token := lower (rstrip (lstrip (c :: cl)))).
    set (opens := negb started
                  && startswith TIMELINE_OPEN_ELEMENT_PREFIX_CASE_INDEPENDANT token).
    set (next := p + Z.of_nat (length (readline file p))) in *.
    assert (Hinv : (if opens then true else started) = true ->
      pos0 <= (if opens then p else s) < next
      /\ (0 < stopPartition -> (if opens then p else s) < stopPartition)
      /\ (if (if opens then true else started) then str ++ c :: cl else str)
         = decode_ascii_ignore
             (take (Z.to_nat (next - (if opens then p else s)))
                   (drop (Z.to_nat (if opens then p else s)) file))).
    { intros Hstarted. destruct opens eqn:Eo.
      - apply andb_true_iff in Eo as [Eo _]. apply negb_true_iff in Eo.
        rewrite (Hns Eo). split; [lia|]. split.
        + intros H0. rewrite Eo in Estop. cbn [negb] in Estop. rewrite andb_true_r in Estop.
          apply andb_false_iff in Estop as [E|E]; lia.
        + unfold next. rewrite take_through_line by lia.
          rewrite Z.sub_diag. simpl. symmetry. exact Ed.
      - destruct (Hst Hstarted) as (H1 & H2 & H3). rewrite Hstarted.
        split; [lia|]. split; [exact H2|].
        unfold next. rewrite take_through_line by lia.
        rewrite decode_app, <- H3, Ed. reflexivity. }
    destruct (startswith TIMELINE_CLOSE_ELEMENT_CASE_INDEPENDANT token
              && (if opens then true else started)) eqn:Eclose.
    + intros _. apply andb_true_iff in Eclose as [_ Hstarted].
      destruct (Hinv Hstarted) as (H1 & H2 & H3).
      cbn [startTimelinePosInFile stopTimelinePosInFile handle_position fEOF
           currentTimelineNodeStr].
      repeat split; try lia; try assumption.
    + apply IH; [exact Els|lia|exact Hinv|].
      intros Hno. destruct opens; [discriminate|]. rewrite Hno. apply Hns. exact Hno.
Qed.

(** ReadNextTimelineXMLStrImpl only returns a timeline that starts at or
    behind the position it was called at, before the end of the file and,
    when a partition end is given, before that end ("it is NOT OK to start
    a timeline after the end of the partition"); the timeline may run past
    the partition end, and the file handle is left at its end. *)
Theorem ReadNextTimelineXMLStrImpl_starts_inside_partition
    (file : list byte) (pos stopPartition : Z) :
  0 <= pos ->
  let r := ReadNextTimelineXMLStrImpl file pos stopPartition in
  fFoundTimeline r = true ->
  pos <= startTimelinePosInFile r < stopTimelinePosInFile r
  /\ stopTimelinePosInFile r <= Z.of_nat (length file)
  /\ (0 < stopPartition -> startTimelinePosInFile r < stopPartition)
  /\ handle_position r = stopTimelinePosInFile r
  /\ fEOF r = false.
Proof.
  intros Hpos r Hfound.
  destruct (read_timeline_found file stopPartition pos Hpos (lines_from file pos) pos
              false TDF_INVALID_POSITION [] eq_refl ltac:(lia) ltac:(discriminate)
              ltac:(reflexivity) Hfound) as (H1 & H2 & H3 & H4 & H5 & _).
  auto.
Qed.

(** The text of a timeline found by ReadNextTimelineXMLStrImpl is the text
    that ReadTimelineAtKnownPosition reads back from the start and stop
    positions returned with it. *)
Theorem ReadTimelineAtKnownPosition_rereads_found_timeline
    (file : list byte) (pos stopPartition : Z) :
  0 <= pos ->
  let r := ReadNextTimelineXMLStrImpl file pos stopPartition in
  fFoundTimeline r = true ->
  ReadTimelineAtKnownPosition_text file (startTimelinePosInFile r) (stopTimelinePosInFile r)
  = currentTimelineNodeStr r.
Proof.
  intros Hpos r Hfound.
  destruct (read_timeline_found file stopPartition pos Hpos (lines_from file pos) pos
              false TDF_INVALID_POSITION [] eq_refl ltac:(lia) ltac:(discriminate)
              ltac:(reflexivity) Hfound) as (_ & _ & _ & _ & _ & H).
  symmetry. exact H.
Qed.

Lemma ReadNextTimelineXMLStrImpl_starts_inside_partition_witness :
  0 <= 15
  /\ fFoundTimeline (ReadNextTimelineXMLStrImpl indented_timelines_file 15 20) = true
  /\ (let r := ReadNextTimelineXMLStrImpl indented_timelines_file 15 20 in
      15 <= startTimelinePosInFile r < stopTimelinePosInFile r
      /\ stopTimelinePosInFile r <= Z.of_nat (length indented_timelines_file)
      /\ (0 < 20 -> startTimelinePosInFile r < 20)
      /\ handle_position r = stopTimelinePosInFile r
      /\ fEOF r = false).
Proof.
  split; [lia|]. split; [reflexivity|].
  exact (ReadNextTimelineXMLStrImpl_starts_inside_partition indented_timelines_file 15 20
           ltac:(lia) eq_refl).
Defined.

Lemma ReadTimelineAtKnownPosition_rereads_found_timeline_witness :
  0 <= 0
  /\ fFoundTimeline (ReadNextTimelineXMLStrImpl indented_timelines_file 0 0) = true
  /\ (let r := ReadNextTimelineXMLStrImpl indented_timelines_file 0 0 in
      ReadTimelineAtKnownPosition_text indented_timelines_file
        (startTimelinePosInFile r) (stopTimelinePosInFile r)
      = currentTimelineNodeStr r).
Proof.
  split; [lia|]. split; [reflexivity|].
  exact (ReadTimelineAtKnownPosition_rereads_found_timeline indented_timelines_file 0 0
           ltac:(lia) eq_refl).
Defined.

(** On that file the first read returns the indented timeline, bytes 15 to
    66, and the second the timeline behind it. *)
Lemma indented_timelines_file_reads :
  let r1 := ReadNextTimelineXMLStrImpl indented_timelines_file 0 0 in
  let r2 := ReadNextTimelineXMLStrImpl indented_timelines_file (handle_position r1) 0 in
  (fFoundTimeline r1, startTimelinePosInFile r1, stopTimelinePosInFile r1) = (true, 15, 66)
  /\ (fFoundTimeline r2, startTimelinePosInFile r2, stopTimelinePosInFile r2) = (true, 66, 82).
Proof. split; vm_compute; reflexivity. Qed.

(** Read by the partitions [0,16) and [16,82), that file gives its first
    timeline twice: the first partition finds it from byte 15, and the
    second, which starts inside the line of the opening tag, finds it again
    from byte 16, because a line is stripped of white space before it is
    compared with the tag. *)
Lemma ReadNextTimelineXMLStrImpl_rereads_across_cut :
  let r1 := ReadNextTimelineXMLStrImpl indented_timelines_file 0 16 in
  let r2 := ReadNextTimelineXMLStrImpl indented_timelines_file 16 82 in
  Z.of_nat (length indented_timelines_file) = 82
  /\ (fFoundTimeline r1, startTimelinePosInFile r1, stopTimelinePosInFile r1) = (true, 15, 66)
  /\ (fFoundTimeline r2, startTimelinePosInFile r2, stopTimelinePosInFile r2) = (true, 16, 66).
Proof. repeat split; vm_compute; reflexivity. Qed.

(** *** The fragments of FindAllTimelinesInPartition *)





End ReaderFacts.

Module FetchFacts.
Import LabValues Query Fetch QueryFacts.

(** ComputeOutcomeCategory agrees with the table g_CategoryToNumDays: for
    an outcome date that is set (not negative) the category is at most [c],
    for a category [c] below NOT_IN_10YRS, exactly when the outcome is at
    most the table's number of days for [c] away; an unset outcome date
    gives NOT_IN_10YRS; and every result is one of the seven categories. *)
Theorem ComputeOutcomeCategory_agrees_with_table (currentDate outcomeDate : Z) :
  0 <= ComputeOutcomeCategory currentDate outcomeDate <= TDF_MAX_FUTURE_EVENT_CATEGORY
  /\ (outcomeDate < 0 ->
      ComputeOutcomeCategory currentDate outcomeDate = TDF_FUTURE_EVENT_CATEGORY_NOT_IN_10YRS)
  /\ (0 <= outcomeDate ->
      forall c days,
        In (c, days) g_CategoryToNumDays ->
        c < TDF_FUTURE_EVENT_CATEGORY_NOT_IN_10YRS ->
        (ComputeOutcomeCategory currentDate outcomeDate <= c
         <-> outcomeDate - currentDate <= days)).
Proof.
  unfold ComputeOutcomeCategory, TDF_MAX_FUTURE_EVENT_CATEGORY,
    TDF_NUM_FUTURE_EVENT_CATEGORIES, TDF_FUTURE_EVENT_CATEGORY_NOT_IN_10YRS,
    TDF_FUTURE_EVENT_CATEGORY_IN_3650_DAYS, TDF_FUTURE_EVENT_CATEGORY_IN_365_DAYS,
    TDF_FUTURE_EVENT_CATEGORY_IN_30_DAYS, TDF_FUTURE_EVENT_CATEGORY_IN_7_DAYS,
    TDF_FUTURE_EVENT_CATEGORY_IN_1_DAY, TDF_FUTURE_EVENT_CATEGORY_NOW_OR_PAST.
  split; [|split].
  - repeat match goal with |- context [if ?b then _ else _] => destruct b end; lia.
  - intros H. replace (outcomeDate <? 0) with true by lia. reflexivity.
  - intros H c days Hin Hc. replace (outcomeDate <? 0) with false by lia.
    simpl in Hin.
    repeat match goal with
           | H : _ \/ _ |- _ => destruct H as [H|H]
           | H : (_, _) = (_, _) |- _ => injection H as <- <-
           | H : False |- _ => destruct H
           end;
      unfold TDF_FUTURE_EVENT_CATEGORY_NOT_IN_10YRS,
        TDF_FUTURE_EVENT_CATEGORY_IN_3650_DAYS, TDF_FUTURE_EVENT_CATEGORY_IN_365_DAYS,
        TDF_FUTURE_EVENT_CATEGORY_IN_30_DAYS, TDF_FUTURE_EVENT_CATEGORY_IN_7_DAYS,
        TDF_FUTURE_EVENT_CATEGORY_IN_1_DAY, TDF_FUTURE_EVENT_CATEGORY_NOW_OR_PAST in *;
      repeat match goal with
             | |- context [?a <=? ?b] => destruct (Z.leb_spec a b); cbv iota
             end; lia.
Qed.

Lemma round_half_even_bounds x :
  Qfloor x <= round_half_even x <= Qfloor x + 1.
Proof.
  unfold round_half_even.
  destruct (Qcompare _ _); [destruct (Z.even _)| |]; lia.
Qed.

Lemma round_half_even_mono x y :
  (x <= y)%Q -> round_half_even x <= round_half_even y.
Proof.
  intros Hxy.
  pose proof (Qfloor_resp_le _ _ Hxy) as Hf.
  destruct (Z.eq_dec (Qfloor x) (Qfloor y)) as [E|E].
  - unfold round_half_even. rewrite <- E.
    assert (Hr : (x - inject_Z (Qfloor x) <= y - inject_Z (Qfloor x))%Q) by lra.
    destruct (Qcompare (x - inject_Z (Qfloor x)) (1 # 2)) eqn:Cx;
      destruct (Qcompare (y - inject_Z (Qfloor x)) (1 # 2)) eqn:Cy;
      try (destruct (Z.even (Qfloor x)); lia); try lia;
      repeat match goal with
             | H : Qcompare _ _ = Eq |- _ => apply Qeq_alt in H
             | H : Qcompare _ _ = Lt |- _ => apply Qlt_alt in H
             | H : Qcompare _ _ = Gt |- _ => apply Qgt_alt in H
             end;
      exfalso; lra.
  - pose proof (round_half_even_bounds x). pose proof (round_half_even_bounds y). lia.
Qed.

Lemma round_half_even_comp x y :
  (x == y)%Q -> round_half_even x = round_half_even y.
Proof.
  intros E. apply Z.le_antisymm; apply round_half_even_mono; lra.
Qed.

Lemma ratio_mono (a b r : Q) : (0 < r)%Q -> (a <= b)%Q -> (a / r <= b / r)%Q.
Proof.
  intros Hr Hab. unfold Qdiv. apply Qmult_le_compat_r; [exact Hab|].
  apply Qinv_le_0_compat. lra.
Qed.

Lemma py_round2_mono x y : (x <= y)%Q -> (py_round2 x <= py_round2 y)%Q.
Proof.
  intros H. unfold py_round2.
  assert (Hz : round_half_even (x * 100) <= round_half_even (y * 100))
    by (apply round_half_even_mono; lra).
  rewrite Zle_Qle in Hz.
  apply ratio_mono; [reflexivity|exact Hz].
Qed.

Lemma py_round2_comp x y : (x == y)%Q -> (py_round2 x == py_round2 y)%Q.
Proof.
  intros E. unfold py_round2.
  rewrite (round_half_even_comp (x * 100) (y * 100)) by (rewrite E; reflexivity).
  reflexivity.
Qed.

(** The percentage before rounding. *)
Lemma normal_value_cases (labValue minVal maxVal : Q) :
  exists v : Q,
    TDF_NormalizeInputValue labValue minVal maxVal = py_round2 (v * 100)
    /\ ((~ (minVal < maxVal)%Q /\ v = 0%Q)
        \/ ((minVal < maxVal)%Q /\ (labValue <= minVal)%Q
            /\ (v == 0)%Q)
        \/ ((minVal < maxVal)%Q /\ (maxVal <= labValue)%Q
            /\ (v == 1)%Q)
        \/ ((minVal < maxVal)%Q /\ (minVal <= labValue <= maxVal)%Q
            /\ (v == (labValue - minVal) / (maxVal - minVal))%Q)).
Proof.
  unfold TDF_NormalizeInputValue, Qgtb.
  destruct (Qltb 0 (maxVal - minVal)) eqn:Er.
  2:{ exists 0%Q. split; [reflexivity|]. left. split; [|reflexivity].
      apply Qltb_ge in Er. lra. }
  apply Qltb_lt in Er.
  assert (Hlt : (minVal < maxVal)%Q) by lra.
  assert (Hnz : ~ (maxVal - minVal == 0)%Q) by lra.
  eexists. split; [reflexivity|]. right.
  destruct (Qltb labValue minVal) eqn:E1.
  - apply Qltb_lt in E1.
    replace (Qltb maxVal minVal) with false
      by (symmetry; apply Qltb_ge; lra).
    left. split; [exact Hlt|]. split; [lra|]. field. exact Hnz.
  - apply Qltb_ge in E1.
    destruct (Qltb maxVal labValue) eqn:E2.
    + apply Qltb_lt in E2. right; left. split; [exact Hlt|]. split; [lra|].
      field. exact Hnz.
    + apply Qltb_ge in E2. right; right. split; [exact Hlt|]. split; [lra|].
      reflexivity.
Qed.

Lemma ratio_bounds (a r : Q) : (0 < r)%Q -> (0 <= a <= r)%Q -> (0 <= a / r <= 1)%Q.
Proof.
  intros Hr [H0 H1]. split.
  - apply Qle_shift_div_l; [exact Hr|]. lra.
  - apply Qle_shift_div_r; [exact Hr|]. lra.
Qed.

Lemma ratio_zero (a r : Q) : (a == 0)%Q -> (a / r == 0)%Q.
Proof. intros ->. unfold Qdiv. ring. Qed.

Lemma ratio_one (a r : Q) : (0 < r)%Q -> (a == r)%Q -> (a / r == 1)%Q.
Proof. intros Hr ->. field. lra. Qed.

Lemma normal_value_range (labValue minVal maxVal : Q) :
  exists v : Q,
    TDF_NormalizeInputValue labValue minVal maxVal = py_round2 (v * 100)
    /\ (0 <= v <= 1)%Q.
Proof.
  destruct (normal_value_cases labValue minVal maxVal) as (v & Ev & Hc).
  exists v. split; [exact Ev|].
  destruct Hc as [[_ ->]|[(_ & _ & E)|[(_ & _ & E)|(Hlt & Hb & E)]]];
    try (rewrite E); try lra.
  apply ratio_bounds; lra.
Qed.

(** TDF_NormalizeInputValue returns a percentage: the result lies in
    [0, 100] for every input; when minVal < maxVal a value at or below
    minVal gives 0 and one at or above maxVal gives 100; and the result
    never decreases when the value grows. *)
Theorem TDF_NormalizeInputValue_is_a_percentage (labValue minVal maxVal : Q) :
  (0 <= TDF_NormalizeInputValue labValue minVal maxVal <= 100)%Q
  /\ ((minVal < maxVal)%Q ->
      ((labValue <= minVal)%Q ->
       (TDF_NormalizeInputValue labValue minVal maxVal == 0)%Q)
      /\ ((maxVal <= labValue)%Q ->
          (TDF_NormalizeInputValue labValue minVal maxVal == 100)%Q))
  /\ (forall other : Q,
        (labValue <= other)%Q ->
        (TDF_NormalizeInputValue labValue minVal maxVal
         <= TDF_NormalizeInputValue other minVal maxVal)%Q).
Proof.
  split; [|split].
  - destruct (normal_value_range labValue minVal maxVal) as (v & -> & Hv).
    split.
    + apply Qle_trans with (py_round2 0); [vm_compute; discriminate|].
      apply py_round2_mono. lra.
    + apply Qle_trans with (py_round2 100); [|vm_compute; discriminate].
      apply py_round2_mono. lra.
  - intros Hlt.
    destruct (normal_value_cases labValue minVal maxVal) as (v & -> & Hc).
    split; intros Hl.
    + assert (E : (v == 0)%Q).
      { destruct Hc as [[Hn _]|[(_ & _ & E)|[(_ & Hm & E)|(_ & Hb & E)]]];
          [contradiction|exact E|lra|].
        rewrite E. apply ratio_zero. lra. }
      rewrite (py_round2_comp (v * 100) 0) by (rewrite E; reflexivity). reflexivity.
    + assert (E : (v == 1)%Q).
      { destruct Hc as [[Hn _]|[(_ & Hm & E)|[(_ & _ & E)|(_ & Hb & E)]]];
          [contradiction|lra|exact E|].
        rewrite E. apply ratio_one; lra. }
      rewrite (py_round2_comp (v * 100) 100) by (rewrite E; reflexivity). reflexivity.
  - intros other Hle.
    destruct (normal_value_cases labValue minVal maxVal) as (v & -> & Hc).
    destruct (normal_value_cases other minVal maxVal) as (w & -> & Hd).
    apply py_round2_mono.
    assert (Hw : (0 <= w <= 1)%Q).
    { destruct Hd as [[_ ->]|[(_ & _ & E)|[(_ & _ & E)|(Hlt & Hb & E)]]];
        try (rewrite E); try lra. apply ratio_bounds; lra. }
    destruct Hc as [[Hn ->]|[(_ & _ & E)|[(Hlt & Hm & E)|(Hlt & Hb & E)]]].
    + lra.
    + rewrite E. lra.
    + destruct Hd as [[Hn _]|[(_ & Hm' & _)|[(_ & _ & E')|(_ & Hb' & E')]]];
        [contradiction|lra|rewrite E, E'; lra|].
      assert (Eo : (w == 1)%Q).
      { rewrite E'. apply ratio_one; lra. }
      rewrite E, Eo. lra.
    + destruct Hd as [[Hn _]|[(_ & Hm' & E')|[(_ & _ & E')|(_ & Hb' & E')]]].
      * contradiction.
      * assert (Ev : (v == 0)%Q).
        { rewrite E. apply ratio_zero. lra. }
        rewrite Ev, E'. lra.
      * assert (Hv : (0 <= v <= 1)%Q) by (rewrite E; apply ratio_bounds; lra).
        rewrite E'. lra.
      * assert (Hm : (v <= w)%Q) by (rewrite E, E'; apply ratio_mono; lra).
        lra.
Qed.

Lemma TDF_NormalizeInputValue_is_a_percentage_witness :
  (0 <= TDF_NormalizeInputValue (3 # 2) 1 3 <= 100)%Q
  /\ (TDF_NormalizeInputValue (1 # 2) 1 3 == 0)%Q
  /\ (TDF_NormalizeInputValue 7 1 3 == 100)%Q
  /\ (TDF_NormalizeInputValue (3 # 2) 1 3 <= TDF_NormalizeInputValue 2 1 3)%Q.
Proof.
  assert (Hlt : (1 < 3)%Q) by reflexivity.
  assert (H1 : ((1 # 2) <= 1)%Q) by discriminate.
  assert (H2 : (3 <= 7)%Q) by discriminate.
  assert (H3 : ((3 # 2) <= 2)%Q) by discriminate.
  split; [exact (proj1 (TDF_NormalizeInputValue_is_a_percentage (3 # 2) 1 3))|].
  split; [exact (proj1 (proj1 (proj2 (TDF_NormalizeInputValue_is_a_percentage (1 # 2) 1 3)) Hlt) H1)|].
  split; [exact (proj2 (proj1 (proj2 (TDF_NormalizeInputValue_is_a_percentage 7 1 3)) Hlt) H2)|].
  exact (proj2 (proj2 (TDF_NormalizeInputValue_is_a_percentage (3 # 2) 1 3)) 2%Q H3).
Defined.

Lemma ComputeOutcomeCategory_agrees_with_table_witness :
  0 <= 120
  /\ In (TDF_FUTURE_EVENT_CATEGORY_IN_30_DAYS, 30) g_CategoryToNumDays
  /\ ComputeOutcomeCategory 100 120 = TDF_FUTURE_EVENT_CATEGORY_IN_30_DAYS
  /\ (ComputeOutcomeCategory 100 120 <= TDF_FUTURE_EVENT_CATEGORY_IN_30_DAYS
      <-> 120 - 100 <= 30).
Proof.
  assert (Hin : In (TDF_FUTURE_EVENT_CATEGORY_IN_30_DAYS, 30) g_CategoryToNumDays)
    by (simpl; auto).
  split; [lia|]. split; [exact Hin|]. split; [reflexivity|].
  assert (H0 : 0 <= 120) by lia.
  assert (Hc : TDF_FUTURE_EVENT_CATEGORY_IN_30_DAYS < TDF_FUTURE_EVENT_CATEGORY_NOT_IN_10YRS)
    by reflexivity.
  exact (proj2 (proj2 (ComputeOutcomeCategory_agrees_with_table 100 120)) H0 _ _ Hin Hc).
Defined.

Lemma find_future_day_spec (CT : list TimelineEntry) (name : string) (n : nat) :
  (n <= length CT)%nat ->
  exists j d,
    find_future_day CT name n (Z.of_nat n - 1) = Ok (j, d)
    /\ -1 <= j < Z.of_nat n
    /\ (forall i e, j < Z.of_nat i < Z.of_nat n -> CT !! i = Some e ->
                   has_future_value name e = false)
    /\ (j = -1 -> d = TDF_INVALID_INDEX)
    /\ (0 <= j -> exists e, CT !! Z.to_nat j = Some e
                           /\ has_future_value name e = true /\ d = TimeDays e).
Proof.
  induction n as [|n IH]; intros Hn.
  - exists (-1), TDF_INVALID_INDEX. cbn. repeat split; try lia.
  - replace (Z.of_nat (S n) - 1) with (Z.of_nat n) by lia.
    cbn [find_future_day]. rewrite py_index_nat.
    destruct (CT !! n) as [e|] eqn:El.
    2:{ apply lookup_ge_None in El. lia. }
    py_unfold. cbn.
    destruct (has_future_value name e) eqn:Eh.
    + exists (Z.of_nat n), (TimeDays e). split; [reflexivity|].
      split; [lia|]. split; [intros; lia|]. split; [lia|].
      intros _. exists e. rewrite Nat2Z.id. auto.
    + destruct IH as (j & d & Ef & Hj & Hno & Hinv & Hfound); [lia|].
      exists j, d. split; [exact Ef|]. split; [lia|]. split; [|auto].
      intros i e' Hi Hl.
      destruct (decide (i = n)) as [->|Hne]; [congruence|].
      apply (Hno i e'); [lia|exact Hl].
Qed.

Lemma clip_to_day_spec (CT : list TimelineEntry) (futureDayNum : Z) (n : nat) :
  (n <= length CT)%nat ->
  exists j,
    clip_to_day CT futureDayNum n (Z.of_nat n - 1) = Ok j
    /\ -1 <= j < Z.of_nat n
    /\ (forall i e, j < Z.of_nat i < Z.of_nat n -> CT !! i = Some e ->
                   futureDayNum < TimeDays e)
    /\ (0 <= j -> exists e, CT !! Z.to_nat j = Some e /\ TimeDays e <= futureDayNum).
Proof.
  induction n as [|n IH]; intros Hn.
  - exists (-1). cbn. repeat split; try lia.
  - replace (Z.of_nat (S n) - 1) with (Z.of_nat n) by lia.
    cbn [clip_to_day]. rewrite py_index_nat.
    destruct (CT !! n) as [e|] eqn:El.
    2:{ apply lookup_ge_None in El. lia. }
    py_unfold. cbn.
    destruct (Z.leb_spec (TimeDays e) futureDayNum) as [Hle|Hgt].
    + exists (Z.of_nat n). split; [reflexivity|].
      split; [lia|]. split; [intros; lia|].
      intros _. exists e. rewrite Nat2Z.id. auto.
    + destruct IH as (j & Ef & Hj & Hno & Hfound); [lia|].
      exists j. split; [exact Ef|]. split; [lia|]. split; [|auto].
      intros i e' Hi Hl.
      destruct (decide (i = n)) as [->|Hne]; [congruence|].
      apply (Hno i e'); [lia|exact Hl].
Qed.

Lemma timeline_days_ascend_lookup (CT : list TimelineEntry) (i j : nat)
    (a b : TimelineEntry) :
  timeline_days_ascend CT -> CT !! i = Some a -> CT !! j = Some b ->
  (i <= j)%nat -> TimeDays a <= TimeDays b.
Proof.
  unfold timeline_days_ascend. revert i j.
  induction CT as [|e CT IH]; intros i j Hs Ha Hb Hij; [discriminate|].
  cbn [map] in Hs. apply StronglySorted_inv in Hs as [Hs Hall].
  destruct i as [|i], j as [|j]; cbn in Ha, Hb.
  - injection Ha as <-. injection Hb as <-. lia.
  - injection Ha as <-. rewrite Forall_lookup in Hall.
    apply (Hall j). change (map TimeDays CT) with (TimeDays <$> CT).
    change (CT !! j = Some b) in Hb.
    rewrite list_lookup_fmap, Hb. reflexivity.
  - lia.
  - apply (IH i j Hs Ha Hb). lia.
Qed.

(** GetBoundsForDataFetch with a result variable that predicts a future
    value [numFutureDaysNeeded] > 0 days ahead, on a timeline in day order:
    it never raises; it returns either the invalid pair or [(0, last)]
    where [j] is the latest entry that holds the future value, [last <= j],
    every entry up to [last] lies at least [numFutureDaysNeeded] days
    before entry [j], and every entry after [last] up to [j] lies less
    than that before it.  When no entry holds the future value the pair is
    invalid. *)
Theorem GetBoundsForDataFetch_leaves_room_for_the_future
    (CompiledTimeline : list TimelineEntry) (resultLabInfo : FutureInfo) :
  timeline_days_ascend CompiledTimeline ->
  FuturePredictedValue resultLabInfo <> "" ->
  0 < numFutureDaysNeeded resultLabInfo ->
  exists first last,
    GetBoundsForDataFetch CompiledTimeline (Some resultLabInfo) = Ok (first, last)
    /\ ((forall e, e ∈ CompiledTimeline ->
                  has_future_value (FuturePredictedValue resultLabInfo) e = false) ->
        first = TDF_INVALID_INDEX /\ last = TDF_INVALID_INDEX)
    /\ ((first = TDF_INVALID_INDEX /\ last = TDF_INVALID_INDEX)
        \/ (first = 0 /\ 0 <= last <= LastTimeLineIndex CompiledTimeline
            /\ exists j future,
                last <= j
                /\ CompiledTimeline !! Z.to_nat j = Some future
                /\ has_future_value (FuturePredictedValue resultLabInfo) future = true
                /\ (forall i e, (Z.to_nat j < i)%nat -> CompiledTimeline !! i = Some e ->
                      has_future_value (FuturePredictedValue resultLabInfo) e = false)
                /\ (forall i e, (i <= Z.to_nat last)%nat -> CompiledTimeline !! i = Some e ->
                      TimeDays e + numFutureDaysNeeded resultLabInfo <= TimeDays future)
                /\ (forall i e, (Z.to_nat last < i <= Z.to_nat j)%nat ->
                      CompiledTimeline !! i = Some e ->
                      TimeDays future < TimeDays e + numFutureDaysNeeded resultLabInfo))).
Proof.
  intros Hs Hname Hn. unfold GetBoundsForDataFetch, LastTimeLineIndex.
  set (name := FuturePredictedValue resultLabInfo) in *.
  set (N := numFutureDaysNeeded resultLabInfo) in *.
  replace (String.eqb name "") with false
    by (symmetry; apply String.eqb_neq; exact Hname).
  replace (0 <? N) with true by lia. cbn [negb andb].
  replace (Z.to_nat (Z.of_nat (length CompiledTimeline) - 1 - 0 + 1))
    with (length CompiledTimeline) by lia.
  destruct (find_future_day_spec CompiledTimeline name (length CompiledTimeline))
    as (j & d & Ef & Hj & Hno & Hinv & Hfound); [lia|].
  rewrite Ef. py_unfold. cbn beta iota.
  assert (Hnone : (forall e, e ∈ CompiledTimeline -> has_future_value name e = false)
                  -> j = -1).
  { intros Hall. destruct (Z_lt_le_dec j 0) as [|H0]; [lia|].
    destruct (Hfound H0) as (e & Hl & Hh & _).
    rewrite (Hall e) in Hh; [discriminate|].
    apply list_elem_of_lookup. eauto. }
  destruct (Z.ltb_spec (d - N) 0) as [Hneg|Hpos].
  { exists TDF_INVALID_INDEX, TDF_INVALID_INDEX. auto. }
  assert (H0 : 0 <= j).
  { destruct (Z_lt_le_dec j 0) as [Hlt|]; [|assumption].
    rewrite Hinv in Hpos by lia. unfold TDF_INVALID_INDEX in Hpos. lia. }
  destruct (Hfound H0) as (future & Hlf & Hhf & ->).
  replace (Z.to_nat (j - 0 + 1)) with (S (Z.to_nat j)) by lia.
  destruct (clip_to_day_spec CompiledTimeline (TimeDays future - N) (S (Z.to_nat j)))
    as (last & Ec & Hlast & Hgt & Hle); [lia|].
  replace (Z.of_nat (S (Z.to_nat j)) - 1) with j in Ec by lia.
  rewrite Ec. cbn beta iota.
  destruct (Z.ltb_spec last 0) as [Hl0|Hl0].
  { exists TDF_INVALID_INDEX, TDF_INVALID_INDEX. split; [reflexivity|].
    split; [auto|]. left. auto. }
  exists 0, last. split; [reflexivity|].
  split. { intros Hall. apply Hnone in Hall. lia. }
  right. split; [reflexivity|]. split; [lia|].
  exists j, future. split; [lia|]. split; [exact Hlf|]. split; [exact Hhf|].
  destruct (Hle Hl0) as (el & Hll & Hdl).
  split; [|split].
  - intros i e Hi Hl. apply (Hno i e); [|exact Hl].
    apply lookup_lt_Some in Hl. lia.
  - intros i e Hi Hl.
    pose proof (timeline_days_ascend_lookup _ _ _ _ _ Hs Hl Hll Hi). lia.
  - intros i e Hi Hl. pose proof (Hgt i e ltac:(lia) Hl). lia.
Qed.

Lemma GetBoundsForDataFetch_leaves_room_for_the_future_witness :
  GetBoundsForDataFetch outcome_timeline (Some (mkFutureInfo "Died" 17)) = Ok (0, 1)
  /\ exists first last,
      GetBoundsForDataFetch outcome_timeline (Some (mkFutureInfo "Died" 17))
      = Ok (first, last).
Proof.
  split; [vm_compute; reflexivity|].
  assert (Hs : timeline_days_ascend outcome_timeline).
  { unfold timeline_days_ascend, outcome_timeline. cbn [map TimeDays].
    repeat (apply SSorted_cons; [|repeat constructor; lia]). apply SSorted_nil. }
  assert (Hname : FuturePredictedValue (mkFutureInfo "Died" 17) <> "") by discriminate.
  assert (Hn : 0 < numFutureDaysNeeded (mkFutureInfo "Died" 17)) by reflexivity.
  destruct (GetBoundsForDataFetch_leaves_room_for_the_future
              outcome_timeline (mkFutureInfo "Died" 17) Hs Hname Hn)
    as (first & last & E & _).
  exists first, last. exact E.
Defined.

End FetchFacts.

Module WindowStatsFacts.
Import TimeFunctions Windows WindowStats TimeFunctionsFacts WindowsFacts.

Lemma abs_branch (x : Q) : ((if Qltb x 0 then - x else x) == Qabs x)%Q.
Proof.
  destruct (Qltb x 0) eqn:E.
  - apply Qltb_lt in E. rewrite Qabs_neg by lra. reflexivity.
  - apply Qltb_ge in E. rewrite Qabs_pos by lra. reflexivity.
Qed.

Lemma largest_change_nonneg value x queue : largest_change value x queue -> (0 <= x)%Q.
Proof.
  intros [He _]. apply Exists_exists in He as (e & _ & ->). apply Qabs_nonneg.
Qed.

Lemma max_abs_delta_scan value dayNum (queue : list Entry) :
  forall (seen : list Entry) (acc : Q * Z),
    (seen = [] /\ fst acc = (-1)%Q) \/ largest_change value (fst acc) seen ->
    queue <> [] \/ seen <> [] ->
    largest_change value
      (fst (fold_left (fun acc e => max_abs_delta_step value dayNum acc (e_v e) (e_d e))
              queue acc))
      (seen ++ queue).
Proof.
  induction queue as [|e queue IH]; intros seen acc Hacc Hne.
  - rewrite app_nil_r. cbn. destruct Hacc as [[-> _]|H]; [|exact H].
    destruct Hne; congruence.
  - cbn [fold_left]. replace (seen ++ e :: queue) with ((seen ++ [e]) ++ queue)
      by (rewrite <- app_assoc; reflexivity).
    apply IH; [|right; destruct seen; discriminate].
    right. destruct acc as [dv dd]. unfold max_abs_delta_step. cbn [fst] in *.
    pose proof (abs_branch (value - e_v e)) as Ha.
    set (cur := if Qltb (value - e_v e) 0 then (- (value - e_v e))%Q else (value - e_v e)%Q)
      in *.
    destruct Hacc as [[-> ->]|[He Hf]].
    + cbn [Qeq_bool orb fst app]. change (Qeq_bool (-1) (-1)) with true. cbn [orb fst].
      split; [apply Exists_cons_hd; exact Ha|].
      constructor; [cbv beta; lra|constructor].
    + destruct (Qeq_bool dv (-1) || Qltb dv cur) eqn:E; cbn [fst].
      * assert (Hlt : (dv <= cur)%Q).
        { apply orb_true_iff in E as [E|E].
          - apply Qeq_bool_iff in E.
            pose proof (largest_change_nonneg value dv seen (conj He Hf)). lra.
          - apply Qltb_lt in E. lra. }
        split.
        -- apply Exists_app. right. apply Exists_cons_hd. exact Ha.
        -- apply Forall_app. split.
           ++ eapply Forall_impl; [exact Hf|]. intros x Hx. cbv beta in *. lra.
           ++ constructor; [cbv beta; lra|constructor].
      * apply orb_false_iff in E as [_ E]. apply Qltb_ge in E.
        split.
        -- apply Exists_app. left. exact He.
        -- apply Forall_app. split; [exact Hf|].
           constructor; [cbv beta; lra|constructor].
Qed.

Lemma CRateValue_output o value dayNum timeMin :
  let queue := rate_ValueQueue (fst (CRateValue_ComputeNewValue o value dayNum timeMin)) in
  let out := snd (CRateValue_ComputeNewValue o value dayNum timeMin) in
  match queue with
  | oldest :: _ :: _ =>
      if dayNum - e_d oldest <=? 0 then out = TDF_INVALID_VALUE
      else exists change, largest_change value change queue
             /\ out = (change / inject_Z (dayNum - e_d oldest))%Q
  | _ => out = TDF_INVALID_VALUE
  end.
Proof.
  unfold CRateValue_ComputeNewValue.
  set (queue := prune _ _ _ ++ [_]).
  pose proof (max_abs_delta_scan value dayNum queue [] ((-1)%Q, -1)
                (or_introl (conj eq_refl eq_refl))) as Hscan.
  cbn [app] in Hscan.
  destruct (fold_left _ queue (_, _)) as [dv dd] eqn:Ef.
  destruct queue as [|e1 [|e2 w]] eqn:Eq.
  - reflexivity.
  - reflexivity.
  - cbn [length Nat.leb fst snd rate_ValueQueue].
    destruct (dayNum - e_d e1 <=? 0) eqn:Ed; cbn [fst snd rate_ValueQueue];
      rewrite Ed; [reflexivity|].
    exists dv. split; [|reflexivity].
    apply Hscan. left. discriminate.
Qed.

Lemma volatility_scan (queue : list Entry) :
  entries_set queue ->
  forall total prev, is_INVALID prev = false ->
    (fst (fold_left volatility_step queue (total, prev))
     == total + total_variation (prev :: map e_v queue))%Q.
Proof.
  induction queue as [|e queue IH]; intros Hs total prev Hp.
  - cbn. lra.
  - apply Forall_cons in Hs as [He Hs]. cbn [fold_left map].
    unfold volatility_step at 2. rewrite Hp. cbn [negb].
    rewrite (IH Hs _ _ He). cbn [total_variation map].
    rewrite (abs_branch (e_v e - prev)). lra.
Qed.

Lemma CVolatilityValue_output o value dayNum timeMin :
  let queue := vol_ValueQueue (fst (CVolatilityValue_ComputeNewValue o value dayNum timeMin)) in
  entries_set queue ->
  (snd (CVolatilityValue_ComputeNewValue o value dayNum timeMin)
   == total_variation (map e_v queue))%Q.
Proof.
  unfold CVolatilityValue_ComputeNewValue. cbn [fst snd vol_ValueQueue].
  set (queue := prune _ _ _ ++ [_]). clearbody queue. intros Hs.
  destruct queue as [|e queue]; [reflexivity|].
  apply Forall_cons in Hs as [He Hs]. cbn [fold_left].
  unfold volatility_step at 2. change (is_INVALID TDF_INVALID_VALUE) with true.
  cbn [negb]. rewrite (volatility_scan queue Hs _ _ He). cbn [map]. lra.
Qed.

Section WithStdev.
Variable stdev : list Q -> Q.

Ltac feed_same_class :=
  let h := fresh "history" in
  intros h; induction h as [|? h IH]; intros o0;
  [exists o0; reflexivity
  |cbn [feed fold_left]; unfold ComputeNewValue at 2, prod_map; cbn [fst]; apply IH].

Lemma feed_ObjRate history :
  forall o0, exists o1, feed stdev (ObjRate o0) history = ObjRate o1.
Proof. revert history. feed_same_class. Qed.

Lemma feed_ObjVolatility history :
  forall o0, exists o1, feed stdev (ObjVolatility o0) history = ObjVolatility o1.
Proof. revert history. feed_same_class. Qed.

(** CRateValue (the functions rate, rate3, ...), on a reset object fed in
    day order: no value while the window holds the new observation alone or
    starts on the day of the new observation; otherwise the largest
    distance between the new value and a value of the window, divided by
    the number of days since the oldest observation of the window. *)
Theorem CRateValue_returns_largest_change_per_day (o : CRateValue)
    (history : list Observation) (latest : Observation) :
  days_ascend (history ++ [latest]) ->
  let window := window_contents (rate_MaxDaysInQueue o) (history ++ [latest]) in
  match window with
  | oldest :: _ :: _ =>
      if o_day latest - e_d oldest <=? 0
      then output stdev (ObjRate o) history latest = TDF_INVALID_VALUE
      else exists change,
             largest_change (o_value latest) change window
             /\ output stdev (ObjRate o) history latest
                = (change / inject_Z (o_day latest - e_d oldest))%Q
  | _ => output stdev (ObjRate o) history latest = TDF_INVALID_VALUE
  end.
Proof.
  intros Hs. cbv zeta. unfold output.
  pose proof (queues_after_feed stdev (Reset (ObjRate o)) (ObjRate o) []
                (history ++ [latest]) Hs (queues_reset _)) as Hq.
  rewrite feed_snoc in Hq.
  destruct (feed_ObjRate history (CRateValue_Reset o)) as [o1 E].
  change (Reset (ObjRate o)) with (ObjRate (CRateValue_Reset o)) in *. rewrite E in *.
  unfold ComputeNewValue, prod_map in *. cbn [fst snd id queues map] in *.
  injection Hq as _ Hq.
  pose proof (CRateValue_output o1 (o_value latest) (o_day latest) (o_min latest)) as Hout.
  cbv zeta in Hout. rewrite Hq in Hout. exact Hout.
Qed.

(** CVolatilityValue (the functions vol, vol3, ...), on a reset object fed
    in day order values none of which is TDF_INVALID_VALUE: the sum of the
    distances between consecutive values of the window. *)
Theorem CVolatilityValue_returns_total_variation (o : CVolatilityValue)
    (history : list Observation) (latest : Observation) :
  days_ascend (history ++ [latest]) ->
  values_set (history ++ [latest]) ->
  (output stdev (ObjVolatility o) history latest
   == total_variation
        (map e_v (window_contents (vol_MaxDaysInQueue o) (history ++ [latest]))))%Q.
Proof.
  intros Hs Hv. unfold output.
  pose proof (queues_after_feed stdev (Reset (ObjVolatility o)) (ObjVolatility o) []
                (history ++ [latest]) Hs (queues_reset _)) as Hq.
  rewrite feed_snoc in Hq.
  destruct (feed_ObjVolatility history (CVolatilityValue_Reset o)) as [o1 E].
  change (Reset (ObjVolatility o)) with (ObjVolatility (CVolatilityValue_Reset o)) in *.
  rewrite E in *.
  unfold ComputeNewValue, prod_map in *. cbn [fst snd id queues map] in *.
  injection Hq as _ Hq.
  pose proof (CVolatilityValue_output o1 (o_value latest) (o_day latest) (o_min latest)) as Hout.
  assert (Hset : entries_set
            (window_contents (vol_MaxDaysInQueue o) (history ++ [latest])))
    by (apply window_contents_set; exact Hv).
  rewrite <- Hq in Hset |- *. exact (Hout Hset).
Qed.







Lemma CBollingerValue_fst o value dayNum timeMin :
  fst (CBollingerValue_ComputeNewValue stdev o value dayNum timeMin)
  = mkBollinger (boll_fUpperBollinger o) (boll_MaxDaysInQueue o)
      (fst (prune_total (boll_MaxDaysInQueue o) dayNum (boll_ValueQueue o)
              (boll_TotalValue o)) ++ [mkEntry value dayNum timeMin])
      (binary64
         (snd (prune_total (boll_MaxDaysInQueue o) dayNum (boll_ValueQueue o)
                 (boll_TotalValue o)) + value)).
Proof.
  unfold CBollingerValue_ComputeNewValue.
  destruct (prune_total _ _ _ _) as [queue total]. cbn [fst snd].
  destruct (length _ <? 2)%nat; [reflexivity|].
  destruct (boll_fUpperBollinger o); reflexivity.
Qed.

Lemma CBollingerValue_snd o value dayNum timeMin :
  let o' := fst (CBollingerValue_ComputeNewValue stdev o value dayNum timeMin) in
  snd (CBollingerValue_ComputeNewValue stdev o value dayNum timeMin)
  = match boll_ValueQueue o' with
    | _ :: _ :: _ =>
        let avgValue :=
          binary64 (boll_TotalValue o' / inject_Z (Z.of_nat (length (boll_ValueQueue o')))) in
        let listStdDev := stdev (map e_v (boll_ValueQueue o')) in
        if boll_fUpperBollinger o
        then (if Qle_bool (binary64 (avgValue + listStdDev)) value then 1%Q else 0%Q)
        else (if Qle_bool value (binary64 (avgValue - listStdDev)) then 1%Q else 0%Q)
    | _ => TDF_INVALID_VALUE
    end.
Proof.
  cbv zeta. rewrite CBollingerValue_fst. cbn [boll_ValueQueue boll_TotalValue].
  unfold CBollingerValue_ComputeNewValue.
  destruct (prune_total _ _ _ _) as [queue total]. cbn [fst snd].
  destruct (queue ++ [_]) as [|e1 [|e2 w]] eqn:Eq; try reflexivity.
  cbn [length Nat.ltb Nat.leb]. cbn [boll_fUpperBollinger].
  destruct (boll_fUpperBollinger o); reflexivity.
Qed.

Lemma feed_bollinger_exact history : forall o0 later,
  sums_exact (boll_ValueQueue o0 ++ map entry_of history ++ later) ->
  (boll_TotalValue o0 == sum_values (boll_ValueQueue o0))%Q ->
  exists o1, feed stdev (ObjBollinger o0) history = ObjBollinger o1
    /\ boll_fUpperBollinger o1 = boll_fUpperBollinger o0
    /\ sums_exact (boll_ValueQueue o1 ++ later)
    /\ (boll_TotalValue o1 == sum_values (boll_ValueQueue o1))%Q.
Proof.
  induction history as [|x history IH]; intros o0 later Hx Ht.
  - exists o0. split; [reflexivity|]. split; [reflexivity|]. split; [exact Hx|exact Ht].
  - cbn [feed fold_left]. unfold ComputeNewValue at 2, prod_map. cbn [fst].
    rewrite CBollingerValue_fst.
    destruct (running_total_step (boll_MaxDaysInQueue o0) (o_value x) (o_day x) (o_min x)
                (boll_ValueQueue o0) (boll_TotalValue o0) (map entry_of history ++ later)
                Hx Ht) as [Hsum Hx'].
    destruct (IH (mkBollinger (boll_fUpperBollinger o0) (boll_MaxDaysInQueue o0)
                    (fst (prune_total (boll_MaxDaysInQueue o0) (o_day x)
                            (boll_ValueQueue o0) (boll_TotalValue o0))
                     ++ [mkEntry (o_value x) (o_day x) (o_min x)])
                    (binary64
                       (snd (prune_total (boll_MaxDaysInQueue o0) (o_day x)
                               (boll_ValueQueue o0) (boll_TotalValue o0)) + o_value x)))
                 later Hx' Hsum)
      as (o1 & E & A & B & C).
    exists o1. split; [exact E|]. split; [exact A|]. split; [exact B|exact C].
Qed.

(** CBollingerValue (the functions bollup and bolllow), on a reset object
    fed in day order with whole numbers whose absolute values add up to
    less than 2^53 (so that the float total is exact): no value while the
    window holds the new observation alone; otherwise 1 when the new value
    is at least the band, the float sum of the mean of the window (the
    float nearest to it) and the standard deviation of its values (at most
    their float difference for the lower band), else 0. *)
Theorem CBollingerValue_tests_value_against_band (o : CBollingerValue)
    (history : list Observation) (latest : Observation) :
  days_ascend (history ++ [latest]) ->
  sums_exact (map entry_of (history ++ [latest])) ->
  let window := window_contents (boll_MaxDaysInQueue o) (history ++ [latest]) in
  let mean := binary64 (sum_values window / inject_Z (Z.of_nat (length window))) in
  let dev := stdev (map e_v window) in
  output stdev (ObjBollinger o) history latest
  = match window with
    | _ :: _ :: _ =>
        if boll_fUpperBollinger o
        then (if Qle_bool (binary64 (mean + dev)) (o_value latest) then 1%Q else 0%Q)
        else (if Qle_bool (o_value latest) (binary64 (mean - dev)) then 1%Q else 0%Q)
    | _ => TDF_INVALID_VALUE
    end.
Proof.
  intros Hs Hx. cbv zeta. unfold output.
  pose proof (queues_after_feed stdev (Reset (ObjBollinger o)) (ObjBollinger o) []
                (history ++ [latest]) Hs (queues_reset _)) as Hq.
  rewrite feed_snoc in Hq. rewrite map_app in Hx.
  change (Reset (ObjBollinger o)) with (ObjBollinger (CBollingerValue_Reset o)) in *.
  destruct (feed_bollinger_exact history (CBollingerValue_Reset o) (map entry_of [latest]) Hx)
    as (o1 & E & A & Hx1 & Ht1); [reflexivity|].
  rewrite E in *. unfold ComputeNewValue, prod_map in *. cbn [fst snd id queues map] in *.
  injection Hq as _ Hq.
  rewrite CBollingerValue_snd. cbv zeta.
  assert (Ht : (boll_TotalValue
                  (fst (CBollingerValue_ComputeNewValue stdev o1 (o_value latest)
                          (o_day latest) (o_min latest)))
                == sum_values (window_contents (boll_MaxDaysInQueue o) (history ++ [latest])))%Q).
  { rewrite <- Hq. rewrite CBollingerValue_fst. cbn [boll_TotalValue boll_ValueQueue].
    exact (proj1 (running_total_step _ _ _ _ _ _ [] Hx1 Ht1)). }
  rewrite Hq. cbn [CBollingerValue_Reset boll_fUpperBollinger] in A. rewrite A.
  destruct (window_contents _ _) as [|e1 [|e2 w]]; try reflexivity.
  rewrite (binary64_proper _ _ (Qdiv_comp _ _ Ht _ _ (Qeq_refl _))). reflexivity.
Qed.





End WithStdev.

Lemma CRateValue_returns_largest_change_per_day_witness :
  days_ascend ([mkObs 1 100 0; mkObs 5 103 0] ++ [mkObs 4 109 0])
  /\ exists change,
       largest_change 4 change [mkEntry 5 103 0; mkEntry 4 109 0]
       /\ output (fun _ => 0%Q) (ObjRate (CRateValue_init 7))
            [mkObs 1 100 0; mkObs 5 103 0] (mkObs 4 109 0)
          = (change / inject_Z (109 - 103))%Q.
Proof.
  assert (Hs : days_ascend ([mkObs 1 100 0; mkObs 5 103 0] ++ [mkObs 4 109 0])) by ascend.
  split; [exact Hs|].
  exact (CRateValue_returns_largest_change_per_day (fun _ => 0%Q) (CRateValue_init 7) _ _ Hs).
Defined.

Lemma CVolatilityValue_returns_total_variation_witness :
  days_ascend ([mkObs 1 100 0; mkObs 5 103 0; mkObs 2 105 0] ++ [mkObs 4 109 0])
  /\ values_set ([mkObs 1 100 0; mkObs 5 103 0; mkObs 2 105 0] ++ [mkObs 4 109 0])
  /\ (output (fun _ => 0%Q) (ObjVolatility (CVolatilityValue_init 7))
        [mkObs 1 100 0; mkObs 5 103 0; mkObs 2 105 0] (mkObs 4 109 0)
      == total_variation [5; 2; 4])%Q.
Proof.
  assert (Hs : days_ascend ([mkObs 1 100 0; mkObs 5 103 0; mkObs 2 105 0] ++ [mkObs 4 109 0]))
    by ascend.
  assert (Hv : values_set ([mkObs 1 100 0; mkObs 5 103 0; mkObs 2 105 0] ++ [mkObs 4 109 0]))
    by all_set.
  split; [exact Hs|]. split; [exact Hv|].
  exact (CVolatilityValue_returns_total_variation (fun _ => 0%Q) (CVolatilityValue_init 7)
           _ _ Hs Hv).
Defined.


Lemma CBollingerValue_tests_value_against_band_witness :
  days_ascend ([mkObs 1 100 0; mkObs 2 103 0] ++ [mkObs 4 109 0])
  /\ sums_exact (map entry_of ([mkObs 1 100 0; mkObs 2 103 0] ++ [mkObs 4 109 0]))
  /\ output (fun _ => 1%Q) (ObjBollinger (CBollingerValue_init true 7))
       [mkObs 1 100 0; mkObs 2 103 0] (mkObs 4 109 0)
     = if Qle_bool (binary64 (binary64 ((2 + (4 + 0)) / inject_Z 2) + 1)) 4
       then 1%Q else 0%Q.
Proof.
  assert (Hs : days_ascend ([mkObs 1 100 0; mkObs 2 103 0] ++ [mkObs 4 109 0])) by ascend.
  assert (Hx : sums_exact (map entry_of ([mkObs 1 100 0; mkObs 2 103 0] ++ [mkObs 4 109 0])))
    by exact_sums.
  split; [exact Hs|]. split; [exact Hx|].
  exact (CBollingerValue_tests_value_against_band (fun _ => 1%Q)
           (CBollingerValue_init true 7) _ _ Hs Hx).
Defined.

End WindowStatsFacts.

Module TimelineFacts.
Import TimeFunctions LabValues Query Compile Timeline QueryFacts CompileFacts.

Section Forward.
Variable g_LabValueInfo : gmap string LabInfo.
Variable allValueVarNameList : list string.
Variable fCarryForwardPreviousDataValues : bool.

Lemma reverse_pass_shape vars CompiledTimeline Future :
  shape (snd (reverse_pass vars CompiledTimeline Future)) = shape CompiledTimeline.
Proof.
  induction CompiledTimeline as [|e later IH]; [reflexivity|].
  cbn [reverse_pass]. destruct (reverse_pass vars later Future) as [F later'] eqn:E.
  destruct (CalculateAllDerivedValuesREVERSEPass _ _ _ _) as [F' d'].
  cbn [snd shape map TimeDays TID] in *. rewrite IH. reflexivity.
Qed.

(** One data node either joins the latest entry, when it is of the same
    day, or opens an entry of its own day with the next TID. *)
Lemma forward_node_shape saved st node st' :
  forward_node g_LabValueInfo allValueVarNameList fCarryForwardPreviousDataValues
    saved st node = Ok st' ->
  match fs_latestTimeLineEntry st with
  | Some (days, tid) =>
      if days =? node_T node
      then shape (fs_timeline st') = shape (fs_timeline st)
           /\ fs_currentTimelinePointID st' = fs_currentTimelinePointID st
           /\ fs_latestTimeLineEntry st' = Some (days, tid)
      else shape (fs_timeline st')
           = shape (fs_timeline st) ++ [(node_T node, fs_currentTimelinePointID st + 1)]
           /\ fs_currentTimelinePointID st' = fs_currentTimelinePointID st + 1
           /\ fs_latestTimeLineEntry st'
              = Some (node_T node, fs_currentTimelinePointID st + 1)
  | None =>
      shape (fs_timeline st')
      = shape (fs_timeline st) ++ [(node_T node, fs_currentTimelinePointID st + 1)]
      /\ fs_currentTimelinePointID st' = fs_currentTimelinePointID st + 1
      /\ fs_latestTimeLineEntry st' = Some (node_T node, fs_currentTimelinePointID st + 1)
  end.
Proof.
  unfold forward_node. intros H. py_unfold.
  destruct st as [fin lat dat cur ser].
  cbn [fs_finished fs_latestTimeLineEntry fs_data fs_currentTimelinePointID
         fs_baselineCrSeries] in *.
  destruct lat as [[days tid]|].
  - destruct (days =? node_T node) eqn:Ed.
    + replace (bool_decide (is_Some (Some (days, tid)))) with true in H
        by (symmetry; apply bool_decide_eq_true; eauto).
      cbn [andb result_bind fs_finished fs_latestTimeLineEntry fs_data
             fs_currentTimelinePointID fs_baselineCrSeries] in H.
      destruct (ProcessDataNodeForwardImpl _ _ _ _ _) as [pd|]; [|discriminate].
      destruct (calculate_derived _ _ _ _ _) as [[d s]|]; [|discriminate].
      injection H as <-. unfold fs_timeline, shape.
      cbn [fs_finished fs_latestTimeLineEntry fs_currentTimelinePointID].
      rewrite !map_app. cbn. auto.
    + cbn [andb] in H.
      destruct (apply_period_actions _ _ _) as [nd|]; [|discriminate].
      cbn [result_bind fs_data fs_baselineCrSeries fs_finished fs_latestTimeLineEntry
             fs_currentTimelinePointID] in H.
      destruct (ProcessDataNodeForwardImpl _ _ _ _ _) as [pd|]; [|discriminate].
      destruct (calculate_derived _ _ _ _ _) as [[d s]|]; [|discriminate].
      injection H as <-. unfold fs_timeline at 1.
      cbn [fs_finished fs_latestTimeLineEntry fs_currentTimelinePointID].
      unfold shape. rewrite map_app. cbn. auto.
  - rewrite andb_comm in H.
    replace (bool_decide (is_Some (@None (Z * Z)))) with false in H.
    2:{ symmetry. apply bool_decide_eq_false. intros [x Hx]. discriminate. }
    cbn [andb] in H.
    destruct (apply_period_actions _ _ _) as [nd|]; [|discriminate].
    cbn [result_bind fs_data fs_baselineCrSeries fs_finished fs_latestTimeLineEntry
           fs_currentTimelinePointID] in H.
    destruct (ProcessDataNodeForwardImpl _ _ _ _ _) as [pd|]; [|discriminate].
    destruct (calculate_derived _ _ _ _ _) as [[d s]|]; [|discriminate].
    injection H as <-. unfold fs_timeline at 1.
    cbn [fs_finished fs_latestTimeLineEntry fs_currentTimelinePointID].
    unfold shape. rewrite map_app. cbn. auto.
Qed.

Lemma sorted_lt_snoc (l : list Z) (d : Z) :
  StronglySorted Z.lt l -> Forall (fun x => x < d) l -> StronglySorted Z.lt (l ++ [d]).
Proof.
  induction l as [|a l IH]; intros Hs Hf; cbn.
  - constructor; constructor.
  - apply StronglySorted_inv in Hs as [Hs Ha]. apply Forall_cons in Hf as [Had Hf].
    constructor; [apply IH; assumption|].
    apply Forall_app. split; [exact Ha|]. constructor; [exact Had|constructor].
Qed.

Lemma forward_node_inv saved st node st' :
  forward_inv st ->
  (forall days tid, fs_latestTimeLineEntry st = Some (days, tid) -> days <= node_T node) ->
  forward_node g_LabValueInfo allValueVarNameList fCarryForwardPreviousDataValues
    saved st node = Ok st' ->
  forward_inv st'
  /\ (exists tid, fs_latestTimeLineEntry st' = Some (node_T node, tid))
  /\ (forall d, d ∈ map fst (shape (fs_timeline st'))
                <-> d ∈ map fst (shape (fs_timeline st)) \/ d = node_T node).
Proof.
  intros (Hs & Hid & Hcur & Hlat) Hle H.
  apply forward_node_shape in H. unfold forward_inv.
  assert (Hnew : shape (fs_timeline st')
                 = shape (fs_timeline st) ++ [(node_T node, fs_currentTimelinePointID st + 1)]
                 -> fs_currentTimelinePointID st' = fs_currentTimelinePointID st + 1
                 -> fs_latestTimeLineEntry st'
                    = Some (node_T node, fs_currentTimelinePointID st + 1)
                 -> Forall (fun x => x < node_T node) (map fst (shape (fs_timeline st)))
                 -> forward_inv st'
                    /\ (exists tid, fs_latestTimeLineEntry st' = Some (node_T node, tid))
                    /\ (forall d, d ∈ map fst (shape (fs_timeline st'))
                          <-> d ∈ map fst (shape (fs_timeline st)) \/ d = node_T node)).
  { intros E1 E2 E3 Hlt. unfold forward_inv. rewrite E1, E2, E3.
    rewrite map_app, length_app. cbn [map fst length].
    split; [|split].
    - split; [apply sorted_lt_snoc; assumption|].
      split.
      { intros i p Hp. apply lookup_app_Some in Hp as [Hp|[Hge Hp]].
        - apply Hid. exact Hp.
        - apply list_lookup_singleton_Some in Hp as [Hi <-]. cbn [snd]. lia. }
      split; [lia|].
      split.
      + apply elem_of_app. right. apply list_elem_of_singleton. reflexivity.
      + apply Forall_app. split.
        * eapply Forall_impl; [exact Hlt|]. intros x Hx. cbv beta in *. lia.
        * constructor; [lia|constructor].
    - eauto.
    - intros d. rewrite elem_of_app, list_elem_of_singleton. reflexivity. }
  destruct (fs_latestTimeLineEntry st) as [[days tid]|] eqn:El.
  - destruct Hlat as [Hin Hmax].
    destruct (Z.eqb_spec days (node_T node)) as [Heq|Hne].
    + destruct H as (E1 & E2 & E3). rewrite E1, E2, E3.
      split; [|split].
      * split; [exact Hs|]. split; [exact Hid|]. split; [exact Hcur|].
        split; assumption.
      * exists tid. rewrite Heq. reflexivity.
      * intros d. split; [auto|]. intros [Hd| ->]; [exact Hd|]. rewrite <- Heq. exact Hin.
    + destruct H as (E1 & E2 & E3). apply Hnew; try assumption.
      specialize (Hle days tid eq_refl).
      eapply Forall_impl; [exact Hmax|]. intros x Hx. cbv beta in *. lia.
  - destruct H as (E1 & E2 & E3). apply Hnew; try assumption.
    rewrite Hlat. constructor.
Qed.

Lemma forward_pass_inv saved nodes : forall st st',
  forward_inv st ->
  StronglySorted Z.le (map node_T nodes) ->
  (forall days tid, fs_latestTimeLineEntry st = Some (days, tid) ->
     Forall (fun n => days <= node_T n) nodes) ->
  forward_pass g_LabValueInfo allValueVarNameList fCarryForwardPreviousDataValues
    saved st nodes = Ok st' ->
  forward_inv st'
  /\ (forall d, d ∈ map fst (shape (fs_timeline st'))
                <-> d ∈ map fst (shape (fs_timeline st)) \/ d ∈ map node_T nodes).
Proof.
  induction nodes as [|node nodes IH]; intros st st' Hinv Hsorted Hle H.
  - injection H as <-. split; [exact Hinv|].
    intros d. split; [auto|]. intros [Hd|Hd]; [exact Hd|]. inversion Hd.
  - cbn [forward_pass] in H. py_unfold.
    destruct (Compile.forward_node _ _ _ _ st node) as [st1|] eqn:E1; [|discriminate].
    cbn [map] in Hsorted. apply StronglySorted_inv in Hsorted as [Hsorted Hhead].
    destruct (forward_node_inv saved st node st1 Hinv) as (Hinv1 & (tid1 & Hlat1) & Hdays1).
    { intros days tid Hl. specialize (Hle days tid Hl).
      apply Forall_cons in Hle as [Hle _]. exact Hle. }
    { exact E1. }
    destruct (IH st1 st' Hinv1 Hsorted) as (Hinv' & Hdays').
    { intros days tid Hl. rewrite Hlat1 in Hl. injection Hl as <- <-.
      rewrite Forall_forall. intros n Hn.
      rewrite Forall_forall in Hhead. apply Hhead.
      apply list_elem_of_fmap. exists n. auto. }
    { exact H. }
    split; [exact Hinv'|].
    intros d. rewrite Hdays', Hdays1. cbn [map]. rewrite elem_of_cons. tauto.
Qed.

Lemma store_lab_frame data assignment name after :
  name ∉ allValueVarNameList ->
  store_lab g_LabValueInfo allValueVarNameList data assignment = Ok after ->
  after !! name = data !! name.
Proof.
  intros Hn. unfold store_lab. destruct assignment as [labName labvalueStr].
  destruct (g_LabValueInfo !! labName) as [labInfo|]; [|intros [= <-]; reflexivity].
  unfold requested. destruct (bool_decide (labName ∈ allValueVarNameList)) eqn:Er;
    cbn [negb]; [|intros [= <-]; reflexivity].
  apply bool_decide_eq_true in Er.
  destruct (String.eqb labName "GFR"); [intros [= <-]; reflexivity|].
  destruct labvalueStr as [labValueFloat| | |];
    try discriminate; try (intros [= <-]; reflexivity).
  destruct (_ || _); intros [= <-]; [reflexivity|].
  apply lookup_insert_ne; intros ->; contradiction.
Qed.

Lemma store_lab_range data assignment name info v after :
  g_LabValueInfo !! name = Some info ->
  (minVal info <= maxVal info)%Q ->
  store_lab g_LabValueInfo allValueVarNameList data assignment = Ok after ->
  after !! name = Some v ->
  data !! name = Some v \/ (minVal info <= v <= maxVal info)%Q.
Proof.
  intros Hi Hmm. unfold store_lab. destruct assignment as [labName labvalueStr].
  destruct (g_LabValueInfo !! labName) as [labInfo|] eqn:El; [|intros [= <-]; auto].
  destruct (negb _); [intros [= <-]; auto|].
  destruct (String.eqb labName "GFR"); [intros [= <-]; auto|].
  destruct labvalueStr as [labValueFloat| | |];
    try discriminate; try (intros [= <-]; auto; fail).
  destruct (_ || _); intros [= <-]; [auto|].
  destruct (decide (labName = name)) as [->|Hne].
  2:{ rewrite lookup_insert_ne by exact Hne. auto. }
  rewrite Hi in El. injection El as <-. rewrite lookup_insert_eq.
  intros Hv. injection Hv as <-. right.
  unfold Qgtb.
  destruct (Qltb labValueFloat (minVal info)) eqn:E1.
  - apply Qltb_lt in E1.
    replace (Qltb (maxVal info) (minVal info)) with false
      by (symmetry; apply Qltb_ge; exact Hmm).
    split; [apply Qle_refl|exact Hmm].
  - apply Qltb_ge in E1.
    destruct (Qltb (maxVal info) labValueFloat) eqn:E2.
    + split; [exact Hmm|apply Qle_refl].
    + apply Qltb_ge in E2. split; assumption.
Qed.

(** An assignment is stored or skipped unless its value reads as a NaN. *)
Lemma store_lab_returns data assignment :
  snd assignment <> NotANumber ->
  exists after, store_lab g_LabValueInfo allValueVarNameList data assignment = Ok after.
Proof.
  intros Hn. unfold store_lab. destruct assignment as [labName labvalueStr].
  cbn [snd] in Hn.
  destruct (g_LabValueInfo !! labName) as [labInfo|]; [|eauto].
  destruct (negb _); [eauto|]. destruct (String.eqb labName "GFR"); [eauto|].
  destruct labvalueStr as [labValueFloat| | |]; try contradiction; try (eauto; fail).
  destruct (_ || _); eauto.
Qed.

(** A NaN of a requested variable of the table other than GFR is where the
    run leaves the model. *)
Lemma store_lab_NotANumber data labName labInfo :
  g_LabValueInfo !! labName = Some labInfo ->
  labName ∈ allValueVarNameList ->
  labName <> "GFR" ->
  store_lab g_LabValueInfo allValueVarNameList data (labName, NotANumber)
  = Raise (OutsideModel "NaN in a snapshot").
Proof.
  intros Hi Hr Hg. unfold store_lab. rewrite Hi. unfold requested.
  rewrite bool_decide_eq_true_2 by exact Hr. cbn [negb].
  replace (String.eqb labName "GFR") with false; [reflexivity|].
  symmetry. apply String.eqb_neq. exact Hg.
Qed.

Lemma store_labs_returns labs : forall data,
  Forall (fun assignment : string * LabText => snd assignment <> NotANumber) labs ->
  exists after, store_labs g_LabValueInfo allValueVarNameList labs data = Ok after.
Proof.
  induction labs as [|a labs IH]; intros data Hn; [cbn; eauto|].
  apply Forall_cons in Hn as [Ha Hn]. cbn [store_labs]. py_unfold.
  destruct (store_lab_returns data a Ha) as [d ->]. apply IH. exact Hn.
Qed.

Lemma store_labs_frame name labs : name ∉ allValueVarNameList -> forall data after,
  store_labs g_LabValueInfo allValueVarNameList labs data = Ok after ->
  after !! name = data !! name.
Proof.
  intros Hn. induction labs as [|a labs IH]; intros data after H.
  - injection H as <-. reflexivity.
  - cbn [store_labs] in H. py_unfold.
    destruct (store_lab _ _ data a) as [d|] eqn:E; [|discriminate].
    rewrite (IH _ _ H). exact (store_lab_frame data a name d Hn E).
Qed.

Lemma store_labs_range name info v labs :
  g_LabValueInfo !! name = Some info ->
  (minVal info <= maxVal info)%Q -> forall data after,
  store_labs g_LabValueInfo allValueVarNameList labs data = Ok after ->
  after !! name = Some v ->
  data !! name = Some v \/ (minVal info <= v <= maxVal info)%Q.
Proof.
  intros Hi Hmm. induction labs as [|a labs IH]; intros data after H Hv.
  - injection H as <-. auto.
  - cbn [store_labs] in H. py_unfold.
    destruct (store_lab _ _ data a) as [d|] eqn:E; [|discriminate].
    destruct (IH _ _ H Hv) as [Hs|Hr]; [|auto].
    exact (store_lab_range data a name info v d Hi Hmm E Hs).
Qed.

(** ProcessDataNodeForwardImpl keeps stored values within the range of
    their variable.  For a data node none of whose values reads as a NaN
    it returns, and then the value of a variable of the table (other than
    AgeInYrs) whose minVal is at most its maxVal is the value it had before
    the node or lies between minVal and maxVal; and the value of a variable
    that was not requested is not touched. *)
Theorem ProcessDataNodeForwardImpl_stores_values_in_range (dataNode : DataNode)
    (labDateDays : Z) (latestTimelineEntryDataList : gmap string Q) (name : string) :
  Forall (fun assignment : string * LabText => snd assignment <> NotANumber)
         (node_text dataNode) ->
  exists after,
    ProcessDataNodeForwardImpl g_LabValueInfo allValueVarNameList dataNode labDateDays
      latestTimelineEntryDataList = Ok after
    /\ (name ∉ allValueVarNameList -> after !! name = latestTimelineEntryDataList !! name)
    /\ (forall info v,
          g_LabValueInfo !! name = Some info ->
          (minVal info <= maxVal info)%Q ->
          name <> "AgeInYrs" ->
          after !! name = Some v ->
          latestTimelineEntryDataList !! name = Some v
          \/ (minVal info <= v <= maxVal info)%Q).
Proof.
  intros Hnan. unfold ProcessDataNodeForwardImpl. py_unfold.
  set (stored := if String.eqb (node_C dataNode) "L" || String.eqb (node_C dataNode) "V"
                 then store_labs g_LabValueInfo allValueVarNameList (node_text dataNode)
                        latestTimelineEntryDataList
                 else Ok latestTimelineEntryDataList).
  assert (Hst : exists data, stored = Ok data
            /\ (name ∉ allValueVarNameList ->
                data !! name = latestTimelineEntryDataList !! name)
            /\ (forall info v, g_LabValueInfo !! name = Some info ->
                  (minVal info <= maxVal info)%Q -> data !! name = Some v ->
                  latestTimelineEntryDataList !! name = Some v
                  \/ (minVal info <= v <= maxVal info)%Q)).
  { subst stored. destruct (_ || _).
    - destruct (store_labs_returns (node_text dataNode) latestTimelineEntryDataList Hnan)
        as [data E].
      exists data. split; [exact E|]. split.
      + intros Hn. exact (store_labs_frame name _ Hn _ _ E).
      + intros info v Hi Hmm Hv. exact (store_labs_range name info v _ Hi Hmm _ _ E Hv).
    - exists latestTimelineEntryDataList. auto. }
  destruct Hst as (data & -> & Hframe & Hrange).
  unfold requested.
  destruct (bool_decide ("AgeInYrs" ∈ allValueVarNameList)) eqn:Ea.
  - apply bool_decide_eq_true in Ea. eexists. split; [reflexivity|]. split.
    + intros Hn. rewrite lookup_insert_ne by (intros <-; contradiction). exact (Hframe Hn).
    + intros info v Hi Hmm Hage Hv. rewrite lookup_insert_ne in Hv by congruence.
      exact (Hrange info v Hi Hmm Hv).
  - exists data. split; [reflexivity|]. split; [exact Hframe|].
    intros info v Hi Hmm _ Hv. exact (Hrange info v Hi Hmm Hv).
Qed.

(** CompileTimelineImpl on data nodes that come in day order: the compiled
    timeline has one entry per day on which there is a node, its days
    strictly increase, and the TID of each entry is its index. *)
Theorem CompileTimelineImpl_one_entry_per_day (patient : PatientAttributes)
    (nodes : list DataNode) (CompiledTimeline : list TimelineEntry)
    (milestones : Milestones) :
  nodes_in_day_order nodes ->
  CompileTimelineImpl g_LabValueInfo allValueVarNameList fCarryForwardPreviousDataValues
    patient nodes = Ok (CompiledTimeline, milestones) ->
  one_entry_per_day CompiledTimeline
  /\ forall d, d ∈ map TimeDays CompiledTimeline <-> d ∈ map node_T nodes.
Proof.
  intros [Hsorted _] H. unfold CompileTimelineImpl in H. py_unfold.
  destruct (Compile.forward_pass _ _ _ _ _ nodes) as [st|] eqn:E; [|discriminate].
  pose proof (reverse_pass_shape allValueVarNameList (fs_timeline st) TDF_INVALID_VALUE)
    as Hshape.
  destruct (reverse_pass _ _ _) as [F CT]. injection H as <- _. cbn [snd] in Hshape.
  apply forward_pass_inv in E as ((Hs & Hid & _) & Hdays).
  - assert (Hmap : forall l, map fst (shape l) = map TimeDays l).
    { intros l. unfold shape. rewrite map_map. reflexivity. }
    rewrite <- Hshape, Hmap in Hs, Hdays. rewrite <- Hshape in Hid.
    split; [split|].
    + exact Hs.
    + intros i e He. apply (Hid i (TimeDays e, TID e)).
      unfold shape. change (map ?f CT) with (f <$> CT).
      rewrite list_lookup_fmap, He. reflexivity.
    + intros d. rewrite Hdays. cbn. split; [|auto]. intros [Hd|Hd]; [inversion Hd|exact Hd].
  - unfold forward_inv, fs_timeline. cbn. split; [constructor|].
    split; [intros i p Hp; discriminate|]. split; reflexivity.
  - exact Hsorted.
  - cbn. discriminate.
Qed.

End Forward.

Lemma CompileTimelineImpl_one_entry_per_day_witness :
  nodes_in_day_order aki_scenario_nodes
  /\ (exists CompiledTimeline milestones,
        CompileTimelineImpl lab_table_excerpt ["InAKI"; "Cr"; "BaselineCr"] true a_patient
          aki_scenario_nodes = Ok (CompiledTimeline, milestones)
        /\ one_entry_per_day CompiledTimeline).
Proof.
  assert (Hn : nodes_in_day_order aki_scenario_nodes).
  { split; [cbn; repeat constructor; lia|repeat constructor; cbn; lia]. }
  split; [exact Hn|].
  destruct (CompileTimelineImpl lab_table_excerpt ["InAKI"; "Cr"; "BaselineCr"] true
              a_patient aki_scenario_nodes) as [[CT ms]|] eqn:E; [|vm_compute in E; discriminate].
  exists CT, ms. split; [reflexivity|].
  exact (proj1 (CompileTimelineImpl_one_entry_per_day lab_table_excerpt
                  ["InAKI"; "Cr"; "BaselineCr"] true a_patient aki_scenario_nodes CT ms
                  Hn E)).
Defined.

Lemma ProcessDataNodeForwardImpl_stores_values_in_range_witness :
  let dataNode := mkDataNode "L" 100 [("Cr", Infinity false); ("Cr", Number 9)] in
  Forall (fun assignment : string * LabText => snd assignment <> NotANumber)
         (node_text dataNode)
  /\ exists after,
       ProcessDataNodeForwardImpl lab_table_excerpt ["Cr"] dataNode 100 {["Cr" := 1%Q]}
       = Ok after
       /\ after !! "Cr" = Some 6%Q
       /\ (({["Cr" := 1%Q]} : gmap string Q) !! "Cr" = Some 6%Q \/ ((1 # 2) <= 6 <= 6)%Q).
Proof.
  cbv zeta.
  assert (Hnan : Forall (fun assignment : string * LabText => snd assignment <> NotANumber)
                   [("Cr", Infinity false); ("Cr", Number 9)])
    by (repeat constructor; discriminate).
  split; [exact Hnan|].
  destruct (ProcessDataNodeForwardImpl_stores_values_in_range lab_table_excerpt ["Cr"]
              (mkDataNode "L" 100 [("Cr", Infinity false); ("Cr", Number 9)]) 100
              {["Cr" := 1%Q]} "Cr" Hnan) as (after & E & _ & Hrange).
  exists after. split; [exact E|].
  assert (Hv : after !! "Cr" = Some 6%Q).
  { vm_compute in E. injection E as <-. vm_compute. reflexivity. }
  split; [exact Hv|].
  apply (Hrange (mkLabInfo (1 # 2) 6 TDF_DATA_TYPE_FLOAT "" false "") 6%Q).
  - vm_compute. reflexivity.
  - cbn. discriminate.
  - discriminate.
  - exact Hv.
Defined.

End TimelineFacts.

Module SearchFacts.
Import TimeFunctions LabValues Query Search QueryFacts.

Section Forward.
Variable stdev : list Q -> Q.
Variable CompiledTimeline : list TimelineEntry.

Lemma days_lt_lookup (i j : nat) (a b : TimelineEntry) :
  StronglySorted Z.lt (map TimeDays CompiledTimeline) ->
  CompiledTimeline !! i = Some a -> CompiledTimeline !! j = Some b ->
  (i < j)%nat -> TimeDays a < TimeDays b.
Proof.
  revert i j. induction CompiledTimeline as [|e CT IH]; intros i j Hs Ha Hb Hij;
    [discriminate|].
  cbn [map] in Hs. apply StronglySorted_inv in Hs as [Hs Hall].
  destruct i as [|i], j as [|j]; try lia.
  - cbn in Ha. injection Ha as <-. rewrite Forall_lookup in Hall.
    apply (Hall j). change (map TimeDays CT) with (TimeDays <$> CT).
    change (CT !! j = Some b) in Hb.
    rewrite list_lookup_fmap, Hb. reflexivity.
  - apply (IH i j Hs Ha Hb). lia.
Qed.

Lemma days_le_lookup (i j : nat) (a b : TimelineEntry) :
  StronglySorted Z.lt (map TimeDays CompiledTimeline) ->
  CompiledTimeline !! i = Some a -> CompiledTimeline !! j = Some b ->
  (i <= j)%nat -> TimeDays a <= TimeDays b.
Proof.
  intros Hs Ha Hb Hij. destruct (decide (i = j)) as [->|Hne].
  - rewrite Ha in Hb. injection Hb as <-. lia.
  - pose proof (days_lt_lookup i j a b Hs Ha Hb ltac:(lia)). lia.
Qed.

(** The cursor loop of a forward search into the future: it stops on the
    first entry from the current one whose day is in or past the range, or
    on the last entry of the timeline, whatever its day. *)
Lemma seek_forward_from_now_spec (firstDayInRange : Z) (n : nat) : forall t : nat,
  (t + n < length CompiledTimeline)%nat ->
  exists c : nat,
    seek_forward_from_now CompiledTimeline firstDayInRange n (Z.of_nat t)
    = Ok (Z.of_nat c)
    /\ (t <= c <= t + n)%nat
    /\ (forall i e, (t <= i < c)%nat -> CompiledTimeline !! i = Some e ->
          TimeDays e < firstDayInRange)
    /\ ((c < t + n)%nat ->
        exists e, CompiledTimeline !! c = Some e /\ firstDayInRange <= TimeDays e).
Proof.
  induction n as [|n IH]; intros t Ht.
  - exists t. cbn. split; [reflexivity|]. split; [lia|]. split; intros; lia.
  - cbn [seek_forward_from_now]. rewrite py_index_nat.
    destruct (CompiledTimeline !! t) as [e|] eqn:El.
    2:{ apply lookup_ge_None in El. lia. }
    py_unfold. cbn beta iota.
    destruct (Z.leb_spec firstDayInRange (TimeDays e)) as [Hge|Hlt].
    + exists t. split; [reflexivity|]. split; [lia|]. split; [intros; lia|].
      intros _. exists e. auto.
    + replace (Z.of_nat t + 1) with (Z.of_nat (S t)) by lia.
      destruct (IH (S t) ltac:(lia)) as (c & Ec & Hc & Hbefore & Hat).
      exists c. split; [exact Ec|]. split; [lia|]. split.
      * intros i e' Hi Hl. destruct (decide (i = t)) as [->|Hne].
        -- rewrite El in Hl. injection Hl as <-. exact Hlt.
        -- apply (Hbefore i e'); [lia|exact Hl].
      * intros Hlt'. apply Hat. lia.
Qed.

(** The search loop of a forward search, from the cursor. *)
Lemma search_forward_spec (valueName : string) (lastDayNumInRange : Z) (n : nat) :
  forall (c : nat) (result0 : Q),
    (c + n = length CompiledTimeline)%nat ->
    (result0 == TDF_INVALID_VALUE)%Q ->
    exists fFoundIt result matchingRangeDay,
      search_forward CompiledTimeline valueName lastDayNumInRange n (Z.of_nat c) result0
      = Ok (fFoundIt, result, matchingRangeDay)
      /\ if (fFoundIt : bool)
         then exists (j : nat) e,
                (c <= j)%nat /\ CompiledTimeline !! j = Some e
                /\ data e !! valueName = Some result
                /\ ~ (result == TDF_INVALID_VALUE)%Q
                /\ matchingRangeDay = TimeDays e
                /\ TimeDays e <= lastDayNumInRange
                /\ forall i e', (c <= i < j)%nat -> CompiledTimeline !! i = Some e' ->
                     no_value valueName e'
         else matchingRangeDay = -1
              /\ (result == TDF_INVALID_VALUE)%Q
              /\ exists stop : nat,
                   (c <= stop)%nat
                   /\ (forall i e', (c <= i < stop)%nat -> CompiledTimeline !! i = Some e' ->
                         no_value valueName e')
                   /\ (forall e, CompiledTimeline !! stop = Some e ->
                         lastDayNumInRange < TimeDays e).
Proof.
  induction n as [|n IH]; intros c result0 Hc H0.
  - exists false, result0, (-1). cbn. split; [reflexivity|].
    split; [reflexivity|]. split; [exact H0|].
    exists c. split; [lia|]. split; [intros; lia|].
    intros e He. apply lookup_lt_Some in He. lia.
  - cbn [search_forward]. rewrite py_index_nat.
    destruct (CompiledTimeline !! c) as [e|] eqn:El.
    2:{ apply lookup_ge_None in El. lia. }
    py_unfold. cbn beta iota zeta.
    destruct (Z.ltb_spec lastDayNumInRange (TimeDays e)) as [Hpast|Hin].
    { exists false, result0, (-1). split; [reflexivity|].
      split; [reflexivity|]. split; [exact H0|].
      exists c. split; [lia|]. split; [intros; lia|].
      intros e' He'. rewrite El in He'. injection He' as <-. exact Hpast. }
    replace (Z.of_nat c + 1) with (Z.of_nat (S c)) by lia.
    assert (Hnext : forall r, (r == TDF_INVALID_VALUE)%Q -> no_value valueName e ->
              exists fFoundIt result matchingRangeDay,
                search_forward CompiledTimeline valueName lastDayNumInRange n
                  (Z.of_nat (S c)) r = Ok (fFoundIt, result, matchingRangeDay)
                /\ if (fFoundIt : bool)
                   then exists (j : nat) e0,
                       (c <= j)%nat /\ CompiledTimeline !! j = Some e0
                       /\ data e0 !! valueName = Some result
                       /\ ~ (result == TDF_INVALID_VALUE)%Q
                       /\ matchingRangeDay = TimeDays e0
                       /\ TimeDays e0 <= lastDayNumInRange
                       /\ forall i e', (c <= i < j)%nat ->
                            CompiledTimeline !! i = Some e' -> no_value valueName e'
                   else matchingRangeDay = -1
                        /\ (result == TDF_INVALID_VALUE)%Q
                        /\ exists stop : nat,
                            (c <= stop)%nat
                            /\ (forall i e', (c <= i < stop)%nat ->
                                  CompiledTimeline !! i = Some e' -> no_value valueName e')
                            /\ (forall e0, CompiledTimeline !! stop = Some e0 ->
                                  lastDayNumInRange < TimeDays e0)).
    { intros r Hr Hno.
      destruct (IH (S c) r ltac:(lia) Hr) as (f & res & d & E & Hspec).
      exists f, res, d. split; [exact E|].
      destruct f.
      - destruct Hspec as (j & e0 & Hj & Hl & Hd & Hv & Hday & Hle & Hbefore).
        exists j, e0. repeat (split; [first [lia|assumption]|]).
        intros i e' Hi Hl'. destruct (decide (i = c)) as [->|Hne].
        + rewrite El in Hl'. injection Hl' as <-. exact Hno.
        + apply (Hbefore i e'); [lia|exact Hl'].
      - destruct Hspec as (Hd & Hres & stop & Hstop & Hbefore & Hat).
        split; [exact Hd|]. split; [exact Hres|].
        exists stop. split; [lia|]. split; [|exact Hat].
        intros i e' Hi Hl'. destruct (decide (i = c)) as [->|Hne].
        + rewrite El in Hl'. injection Hl' as <-. exact Hno.
        + apply (Hbefore i e'); [lia|exact Hl']. }
    destruct (data e !! valueName) as [x|] eqn:Ex.
    + destruct (Qeq_bool TDF_INVALID_VALUE x) eqn:Ev; cbn [negb].
      * apply Qeq_bool_iff in Ev.
        apply Hnext; [symmetry; exact Ev|]. unfold no_value. rewrite Ex.
        symmetry. exact Ev.
      * exists true, x, (TimeDays e). split; [reflexivity|].
        exists c, e. split; [lia|]. split; [exact El|]. split; [exact Ex|].
        split.
        { intros Heq. apply Qeq_bool_neq in Ev. apply Ev. symmetry. exact Heq. }
        split; [reflexivity|]. split; [exact Hin|]. intros; lia.
    + apply Hnext; [exact H0|]. unfold no_value. rewrite Ex. exact I.
Qed.

(** GetNamedValueFromTimeline for a reference to a range of days ahead,
    Name[a:b] with 0 <= a <= b and 0 < b, counted from the current day, on
    a timeline whose days strictly increase: it returns; a value it finds
    is the value, not TDF_INVALID_VALUE, of an entry from the current one
    on, whose day is at most the last day of the range and is the day
    returned, no entry of an earlier day within the range holding a value;
    that entry lies within the range or is the last entry of the timeline.
    When it finds nothing, no entry whose day is in the range holds a
    value, and the day returned is -1. *)
Theorem forward_search_finds_first_value_up_to_range_end
    (valueName : string) (startOffsetRange endOffsetRange rangeOption : Z)
    (timeLineIndex prevUsedRangeDay : Z) (timelineEntry : TimelineEntry) :
  StronglySorted Z.lt (map TimeDays CompiledTimeline) ->
  0 <= timeLineIndex ->
  CompiledTimeline !! Z.to_nat timeLineIndex = Some timelineEntry ->
  0 <= startOffsetRange <= endOffsetRange -> 0 < endOffsetRange ->
  rangeOption <> VARIABLE_RANGE_LAST_MATCH ->
  let firstDayInRange := TimeDays timelineEntry + startOffsetRange in
  let lastDayNumInRange := TimeDays timelineEntry + endOffsetRange in
  exists fFoundIt result matchingRangeDay,
    GetNamedValueFromTimeline stdev CompiledTimeline valueName
      startOffsetRange endOffsetRange rangeOption None timeLineIndex prevUsedRangeDay
    = Ok (None, (fFoundIt, result, matchingRangeDay))
    /\ if (fFoundIt : bool)
       then exists (j : nat) e,
              CompiledTimeline !! j = Some e
              /\ data e !! valueName = Some result
              /\ ~ (result == TDF_INVALID_VALUE)%Q
              /\ matchingRangeDay = TimeDays e
              /\ TimeDays timelineEntry <= TimeDays e <= lastDayNumInRange
              /\ (firstDayInRange <= TimeDays e
                  \/ Z.of_nat j = LastTimeLineIndex CompiledTimeline)
              /\ forall e', e' ∈ CompiledTimeline ->
                   firstDayInRange <= TimeDays e' < TimeDays e ->
                   no_value valueName e'
       else matchingRangeDay = -1
            /\ (result == TDF_INVALID_VALUE)%Q
            /\ forall e', e' ∈ CompiledTimeline ->
                 firstDayInRange <= TimeDays e' <= lastDayNumInRange ->
                 no_value valueName e'.
Proof.
  intros Hs Ht Hentry Hoff Hend Hopt. cbv zeta.
  set (t := Z.to_nat timeLineIndex) in *.
  assert (Et : timeLineIndex = Z.of_nat t) by lia.
  pose proof (lookup_lt_Some _ _ _ Hentry) as Hlen.
  clearbody t. subst timeLineIndex.
  unfold GetNamedValueFromTimeline. rewrite py_index_nat, Hentry.
  py_unfold. cbn beta iota.
  unfold same_day_block.
  replace ((startOffsetRange =? endOffsetRange) && (endOffsetRange =? 0)) with false
    by (symmetry; apply andb_false_iff; right; lia).
  replace (bool_decide (is_Some (@None FunctionObject))) with false.
  2:{ symmetry. apply bool_decide_eq_false. intros [x Hx]. discriminate. }
  cbn [orb].
  replace (rangeOption =? VARIABLE_RANGE_LAST_MATCH) with false by lia.
  set (first := TimeDays timelineEntry + startOffsetRange).
  set (last := TimeDays timelineEntry + endOffsetRange).
  replace (last <? first) with false by (unfold first, last; lia).
  cbn [negb]. unfold position_cursor.
  replace (TimeDays timelineEntry <=? first) with true by (unfold first; lia).
  cbn [andb]. unfold LastTimeLineIndex.
  replace (Z.to_nat (Z.of_nat (length CompiledTimeline) - 1 - Z.of_nat t))
    with (length CompiledTimeline - 1 - t)%nat by lia.
  destruct (seek_forward_from_now_spec first (length CompiledTimeline - 1 - t) t
              ltac:(lia)) as (c & Ec & Hc & Hbefore & Hat).
  rewrite Ec. cbn [read_local fmap result_fmap].
  replace (Z.to_nat (Z.of_nat (length CompiledTimeline) - 1 - Z.of_nat c + 1))
    with (length CompiledTimeline - c)%nat by lia.
  destruct (search_forward_spec valueName last (length CompiledTimeline - c) c
              TDF_INVALID_VALUE ltac:(lia) ltac:(reflexivity))
    as (f & res & d & Es & Hspec).
  rewrite Es. exists f, res, d. split; [reflexivity|].
  assert (Hcursor : forall (k : nat) e', CompiledTimeline !! k = Some e' ->
            first <= TimeDays e' -> (c <= k)%nat).
  { intros k e' Hk Hday. destruct (le_lt_dec c k) as [|Hkc]; [assumption|]. exfalso.
    destruct (le_lt_dec t k) as [Htk|Hkt].
    - pose proof (Hbefore k e' ltac:(lia) Hk). lia.
    - pose proof (days_lt_lookup k t e' timelineEntry Hs Hk Hentry Hkt).
      unfold first in Hday. lia. }
  destruct f.
  - destruct Hspec as (j & e & Hj & Hl & Hd & Hv & Hday & Hle & Hfirst).
    exists j, e. split; [exact Hl|]. split; [exact Hd|]. split; [exact Hv|].
    split; [exact Hday|].
    split.
    { split; [|exact Hle].
      apply (days_le_lookup t j timelineEntry e Hs Hentry Hl). lia. }
    split.
    { destruct (le_lt_dec (t + (length CompiledTimeline - 1 - t)) c) as [Hlast|Hmid].
      - right. apply lookup_lt_Some in Hl. lia.
      - left. destruct (Hat Hmid) as (ec & Hlc & Hdc).
        pose proof (days_le_lookup c j ec e Hs Hlc Hl Hj). lia. }
    intros e' Hin [Hlo Hhi]. apply list_elem_of_lookup in Hin as [k Hk].
    apply (Hfirst k e'); [|exact Hk].
    split; [exact (Hcursor k e' Hk Hlo)|].
    destruct (le_lt_dec j k) as [Hjk|]; [|assumption]. exfalso.
    pose proof (days_le_lookup j k e e' Hs Hl Hk Hjk). lia.
  - destruct Hspec as (Hd & Hres & stop & Hstop & Hnone & Hpast).
    split; [exact Hd|]. split; [exact Hres|].
    intros e' Hin [Hlo Hhi]. apply list_elem_of_lookup in Hin as [k Hk].
    apply (Hnone k e'); [|exact Hk].
    split; [exact (Hcursor k e' Hk Hlo)|].
    destruct (le_lt_dec stop k) as [Hsk|]; [|assumption]. exfalso.
    destruct (CompiledTimeline !! stop) as [es|] eqn:Els.
    + pose proof (Hpast es eq_refl).
      pose proof (days_le_lookup stop k es e' Hs Els Hk Hsk). lia.
    + apply lookup_ge_None in Els. apply lookup_lt_Some in Hk. lia.
Qed.

End Forward.

Lemma forward_search_finds_first_value_up_to_range_end_witness :
  GetNamedValueFromTimeline (fun _ => 0%Q) short_timeline "Cr" 5 10 0 None 0 0
  = Ok (None, (true, 2%Q, 103))
  /\ exists fFoundIt result matchingRangeDay,
      GetNamedValueFromTimeline (fun _ => 0%Q) short_timeline "Cr" 5 10 0 None 0 0
      = Ok (None, (fFoundIt, result, matchingRangeDay)).
Proof.
  split; [vm_compute; reflexivity|].
  assert (Hs : StronglySorted Z.lt (map TimeDays short_timeline))
    by (cbn; repeat constructor; lia).
  assert (H0 : 0 <= 0) by lia.
  assert (He : short_timeline !! Z.to_nat 0 = Some (mkTimelineEntry 100 0 {["Cr" := 1%Q]}))
    by reflexivity.
  assert (Hoff : 0 <= 5 <= 10) by lia.
  assert (Hend : 0 < 10) by lia.
  assert (Hopt : 0 <> VARIABLE_RANGE_LAST_MATCH) by discriminate.
  destruct (forward_search_finds_first_value_up_to_range_end (fun _ => 0%Q) short_timeline
              "Cr" 5 10 0 0 0 _ Hs H0 He Hoff Hend Hopt) as (f & r & d & E & _).
  exists f, r, d. exact E.
Defined.

End SearchFacts.

Module TimeStampFacts.
Import TimeStamp.

Lemma split_free sep s : free_of sep s -> split sep s = [s].
Proof.
  induction s as [|c s IH]; [reflexivity|]. intros [Hc Hs]. cbn [split].
  destruct (Ascii.eqb_spec c sep) as [->|_]; [contradiction|].
  rewrite (IH Hs). reflexivity.
Qed.

Lemma split_app sep a b :
  free_of sep a -> split sep (a +:+ String sep b) = a :: split sep b.
Proof.
  induction a as [|c a IH]; intros Ha.
  - change ("" +:+ String sep b) with (String sep b). cbn [split].
    rewrite Ascii.eqb_refl. reflexivity.
  - destruct Ha as [Hc Ha].
    change (String c a +:+ String sep b) with (String c (a +:+ String sep b)).
    cbn [split]. destruct (Ascii.eqb_spec c sep) as [->|_]; [contradiction|].
    rewrite (IH Ha). reflexivity.
Qed.

Lemma digits_free (d : Decimal.uint) : free_of ":" (NilEmpty.string_of_uint d).
Proof. induction d; cbn; auto; try (split; [discriminate|assumption]). Qed.

Lemma zeros_free n s : free_of ":" s -> free_of ":" (zeros n s).
Proof. intros H. induction n; cbn; auto. Qed.

Lemma py_str_free n : free_of ":" (py_str n).
Proof.
  unfold py_str, NilZero.string_of_int, NilZero.string_of_uint.
  destruct (Z.to_int n) as [d|d]; destruct d; cbn; repeat split;
    try discriminate; apply digits_free.
Qed.

Lemma format_02d_free n : free_of ":" (format_02d n).
Proof. apply zeros_free, py_str_free. Qed.

Lemma uint_of_string_zeros n s d :
  NilEmpty.uint_of_string s = Some d ->
  exists d', NilEmpty.uint_of_string (zeros n s) = Some d'
             /\ Z.of_uint d' = Z.of_uint d.
Proof.
  intros H. induction n as [|n (d' & E & Hd)]; [eauto|].
  exists (Decimal.D0 d'). cbn. rewrite E. split; [reflexivity|]. exact Hd.
Qed.

Lemma py_int_of_string_format n : py_int_of_string (format_02d n) = Some n.
Proof.
  unfold py_int_of_string, format_02d, py_str.
  pose proof (DecimalZ.of_to n) as Hn.
  destruct (Z.to_int n) as [d|d] eqn:Ed.
  - assert (Hd : d <> Decimal.Nil).
    { intros ->. destruct n; cbn in Ed; try discriminate.
      all: try (injection Ed as Ep; exact (DecimalPos.Unsigned.to_uint_nonnil p Ep)). }
    cbn [NilZero.string_of_int].
    assert (Hs : NilEmpty.uint_of_string (NilZero.string_of_uint d) = Some d).
    { destruct d; try contradiction; apply NilEmpty.usu. }
    destruct (uint_of_string_zeros (2 - String.length (NilZero.string_of_uint d)) _ _ Hs)
      as (d' & E & Hd').
    assert (Hfirst : forall c s, zeros (2 - String.length (NilZero.string_of_uint d))
                       (NilZero.string_of_uint d) = String c s -> Ascii.eqb c "-" = false).
    { intros c s Hz. destruct (2 - String.length (NilZero.string_of_uint d))%nat.
      - cbn in Hz. destruct d; try contradiction; cbn in Hz; injection Hz as <- _; reflexivity.
      - cbn in Hz. injection Hz as <- _. reflexivity. }
    unfold NilZero.int_of_string.
    destruct (zeros _ _) as [|c s] eqn:Ez.
    { cbn in E. injection E as <-. 
      destruct (2 - String.length (NilZero.string_of_uint d))%nat; cbn in Ez; [|discriminate].
      destruct d; try contradiction; discriminate. }
    rewrite (Hfirst c s eq_refl). unfold NilZero.uint_of_string. rewrite E. cbn.
    f_equal. cbn in Hn. congruence.
  - cbn [NilZero.string_of_int].
    assert (Hd : d <> Decimal.Nil).
    { intros ->. destruct n; cbn in Ed; try discriminate.
      all: try (injection Ed as Ep; exact (DecimalPos.Unsigned.to_uint_nonnil p Ep)). }
    assert (Hlen : (1 <= String.length (NilZero.string_of_uint d))%nat).
    { destruct d; try contradiction; cbn; lia. }
    replace (2 - String.length (String "-" (NilZero.string_of_uint d)))%nat with 0%nat
      by (cbn [String.length]; lia).
    cbn [zeros]. unfold NilZero.int_of_string. cbn [Ascii.eqb Bool.eqb].
    rewrite NilZero.usu by exact Hd. cbn. f_equal. exact Hn.
Qed.

(** A time stamp made by TDF_MakeTimeStamp reads back: TDF_ParseTimeStamp
    returns the days, hours and minutes it was made from, and
    TDF_ConvertTimeStampToInt their total with a day counted as 24*60*60,
    an hour as 60*60 and a minute as 60. *)
Theorem time_stamp_round_trip (days hours minutes : Z) :
  TDF_ParseTimeStamp (TDF_MakeTimeStamp days hours minutes) = Some (days, hours, minutes)
  /\ TDF_ConvertTimeStampToInt (TDF_MakeTimeStamp days hours minutes)
     = Some (days * 24 * 60 * 60 + hours * 60 * 60 + minutes * 60).
Proof.
  assert (Hsplit : split ":" (TDF_MakeTimeStamp days hours minutes)
                   = [format_02d days; format_02d hours; format_02d minutes]).
  { unfold TDF_MakeTimeStamp.
    change (format_02d days +:+ ":" +:+ format_02d hours +:+ ":" +:+ format_02d minutes)
      with (format_02d days +:+ String ":" (format_02d hours +:+ String ":" (format_02d minutes))).
    rewrite split_app by apply format_02d_free.
    rewrite split_app by apply format_02d_free.
    rewrite split_free by apply format_02d_free. reflexivity. }
  split.
  - unfold TDF_ParseTimeStamp.
    replace (String.eqb (TDF_MakeTimeStamp days hours minutes) "") with false.
    2:{ symmetry. apply String.eqb_neq. intros H. rewrite H in Hsplit. discriminate. }
    rewrite Hsplit. cbn [lookup list_lookup]. cbn.
    rewrite !py_int_of_string_format. reflexivity.
  - unfold TDF_ConvertTimeStampToInt. rewrite Hsplit. cbn.
    rewrite !py_int_of_string_format. reflexivity.
Qed.

Lemma TDF_MakeTimeStamp_pads :
  TDF_MakeTimeStamp 5 13 0 = "05:13:00" /\ TDF_MakeTimeStamp (-5) 100 7 = "-5:100:07".
Proof. split; vm_compute; reflexivity. Qed.

End TimeStampFacts.

Module VariableNameFacts.
Import LabValues TimeStamp VariableName TimeStampFacts.

Lemma app_cons (c : ascii) (a b : string) : String c a +:+ b = String c (a +:+ b).
Proof. reflexivity. Qed.

Lemma app_empty_r (s : string) : s +:+ "" = s.
Proof. induction s as [|c s IH]; [reflexivity|]. rewrite app_cons, IH. reflexivity. Qed.

Lemma app_assoc_str (a b c : string) : (a +:+ b) +:+ c = a +:+ (b +:+ c).
Proof. induction a as [|x a IH]; [reflexivity|]. rewrite !app_cons, IH. reflexivity. Qed.

Lemma app_empty_l (s : string) : "" +:+ s = s.
Proof. reflexivity. Qed.

Lemma has_char_app c a b : has_char c (a +:+ b) = has_char c a || has_char c b.
Proof.
  induction a as [|x a IH]; [reflexivity|].
  rewrite app_cons. cbn [has_char]. rewrite IH, orb_assoc. reflexivity.
Qed.

Lemma remove_char_free c s : has_char c s = false -> remove_char c s = s.
Proof.
  induction s as [|x s IH]; [reflexivity|]. cbn [has_char remove_char]. intros H.
  apply orb_false_iff in H as [Hx Hs]. rewrite Hx, (IH Hs). reflexivity.
Qed.

Lemma split_once_app c a b :
  has_char c a = false -> split_once c (a +:+ String c b) = (a, Some b).
Proof.
  induction a as [|x a IH]; intros H.
  - rewrite app_empty_l. cbn [split_once]. rewrite Ascii.eqb_refl. reflexivity.
  - cbn [has_char] in H. apply orb_false_iff in H as [Hx Ha].
    rewrite app_cons. cbn [split_once]. rewrite Hx, (IH Ha). reflexivity.
Qed.

Lemma split_once_free c a : has_char c a = false -> split_once c a = (a, None).
Proof.
  induction a as [|x a IH]; intros H; [reflexivity|].
  cbn [has_char] in H. apply orb_false_iff in H as [Hx Ha].
  cbn [split_once]. rewrite Hx, (IH Ha). reflexivity.
Qed.

Lemma has_char_here c s : has_char c (String c s) = true.
Proof. cbn [has_char]. rewrite Ascii.eqb_refl. reflexivity. Qed.

Lemma all_chars_has_char P c s :
  all_chars P s = true -> P c = false -> has_char c s = false.
Proof.
  intros Hs Hc. induction s as [|x s IH]; [reflexivity|].
  cbn [all_chars has_char] in *. apply andb_true_iff in Hs as [Hx Hs].
  rewrite (IH Hs), orb_false_r. destruct (Ascii.eqb_spec x c) as [->|]; congruence.
Qed.

Lemma digits_numeric (d : Decimal.uint) :
  all_chars is_numeric_char (NilEmpty.string_of_uint d) = true.
Proof. induction d; cbn [NilEmpty.string_of_uint all_chars]; rewrite ?IHd; reflexivity. Qed.

Lemma py_str_numeric n : all_chars is_numeric_char (py_str n) = true.
Proof.
  unfold py_str, NilZero.string_of_int, NilZero.string_of_uint.
  destruct (Z.to_int n) as [d|d]; destruct d; cbn [all_chars];
    rewrite ?digits_numeric; try reflexivity;
    apply (digits_numeric (_ d)).
Qed.

Lemma py_str_free_of c n : is_numeric_char c = false -> has_char c (py_str n) = false.
Proof. apply all_chars_has_char, py_str_numeric. Qed.

Lemma py_str_cons n : exists x rest, py_str n = String x rest /\ is_numeric_char x = true.
Proof.
  pose proof (py_str_numeric n) as H.
  destruct (py_str n) as [|x rest] eqn:E.
  - exfalso. unfold py_str, NilZero.string_of_int, NilZero.string_of_uint in E.
    destruct (Z.to_int n) as [d|d] eqn:Ed; [|discriminate].
    destruct d; discriminate.
  - cbn [all_chars] in H. apply andb_true_iff in H as [Hx _]. eauto.
Qed.

Lemma numeric_not_space c : is_numeric_char c = true -> is_space_char c = false.
Proof.
  destruct c as [[|] [|] [|] [|] [|] [|] [|] [|]]; vm_compute; congruence.
Qed.

Lemma str_lstrip_numeric s : all_chars is_numeric_char s = true -> str_lstrip s = s.
Proof.
  destruct s as [|x s]; [reflexivity|]. cbn [all_chars str_lstrip]. intros H.
  apply andb_true_iff in H as [Hx _]. rewrite (numeric_not_space x Hx). reflexivity.
Qed.

Lemma str_rstrip_numeric s : all_chars is_numeric_char s = true -> str_rstrip s = s.
Proof.
  induction s as [|x s IH]; [reflexivity|]. cbn [all_chars str_rstrip]. intros H.
  apply andb_true_iff in H as [Hx Hs]. rewrite (IH Hs), (numeric_not_space x Hx).
  destruct s; reflexivity.
Qed.

Lemma py_int_of_string_str n : py_int_of_string (py_str n) = Some n.
Proof.
  unfold py_int_of_string, py_str. rewrite NilZero.isi.
  - cbn. f_equal. apply DecimalZ.of_to.
  - intros E. destruct n; cbn in E; try discriminate;
      try (injection E as Ep; exact (DecimalPos.Unsigned.to_uint_nonnil p Ep)).
  - intros E. destruct n; cbn in E; try discriminate;
      try (injection E as Ep; exact (DecimalPos.Unsigned.to_uint_nonnil p Ep)).
Qed.

Lemma strip_str_nonempty n :
  String.eqb (str_rstrip (str_lstrip (py_str n))) "" = false.
Proof.
  rewrite str_lstrip_numeric, str_rstrip_numeric by apply py_str_numeric.
  destruct (py_str_cons n) as (x & rest & -> & _). reflexivity.
Qed.

Lemma parse_offsets_one n : parse_offsets (py_str n) = Some (n, n).
Proof.
  unfold parse_offsets.
  rewrite (py_str_free_of VARIABLE_OFFSET_RANGE_MARKER) by reflexivity.
  rewrite py_int_of_string_str. reflexivity.
Qed.

Lemma parse_offsets_range a b :
  parse_offsets (py_str a +:+ ":" +:+ py_str b) = Some (a, b).
Proof.
  unfold parse_offsets.
  change (py_str a +:+ ":" +:+ py_str b)
    with (py_str a +:+ String VARIABLE_OFFSET_RANGE_MARKER (py_str b)).
  rewrite has_char_app, has_char_here, orb_true_r.
  rewrite split_once_app by (apply py_str_free_of; reflexivity).
  cbn [default from_option id]. rewrite !strip_str_nonempty, !py_int_of_string_str.
  reflexivity.
Qed.

Section Table.
Variable g_LabValueInfo : gmap string LabInfo.

(** TDF_ParseOneVariableName reads a reference back into its parts: for a
    stem without space, [.] or [[], offsets in any of the forms [[n]],
    [[a:b]], [[@n]], [[@a:b]] or none, and a function name without space or
    none, it returns the stem with its table entry, the offsets (a single
    day as a range of that day, no offsets as 0 and 0), the range option
    that [@] selects, and the function name. *)
Theorem TDF_ParseOneVariableName_reads_reference_back
    (stem : string) (o : Offsets) (functionName : option string) :
  has_char " " stem = false ->
  has_char VARIABLE_FUNCTION_MARKER stem = false ->
  has_char VARIABLE_START_OFFSET_MARKER stem = false ->
  has_char " " (default "" functionName) = false ->
  TDF_ParseOneVariableName g_LabValueInfo (render_name stem o functionName)
  = Some (mkParsedName
            (if negb (String.eqb stem "") then g_LabValueInfo !! stem else None)
            stem (offsets_start o) (offsets_stop o) (offsets_option o)
            (default "" functionName)).
Proof.
  intros Hsp Hdot Hbr Hfn.
  assert (Hmark : forall (c : ascii) (m : bool),
            c <> "@"%char -> has_char c (if m then "@" else "") = false).
  { intros c m Hc. destruct m; [|reflexivity]. cbn [has_char].
    destruct (Ascii.eqb_spec "@" c) as [E|_]; [congruence|reflexivity]. }
  assert (Hoff : forall c : ascii,
            is_numeric_char c = false -> c <> "@"%char -> c <> "["%char ->
            c <> "]"%char -> c <> ":"%char ->
            has_char c (render_offsets o) = false).
  { intros c Hn H1 H2 H3 H4. destruct o; cbn [render_offsets]; [reflexivity| |].
    - rewrite !has_char_app, Hmark, py_str_free_of by assumption. cbn [has_char orb].
      destruct (Ascii.eqb_spec "[" c), (Ascii.eqb_spec "]" c);
        first [reflexivity|congruence].
    - rewrite !has_char_app, Hmark, !py_str_free_of by assumption. cbn [has_char orb].
      destruct (Ascii.eqb_spec "[" c), (Ascii.eqb_spec "]" c), (Ascii.eqb_spec ":" c);
        first [reflexivity|congruence]. }
  assert (Hbody : forall c : ascii,
            has_char c stem = false ->
            is_numeric_char c = false -> c <> "@"%char -> c <> "["%char ->
            c <> "]"%char -> c <> ":"%char ->
            has_char c (stem +:+ render_offsets o) = false).
  { intros c Hs Hn H1 H2 H3 H4. rewrite has_char_app, Hs, Hoff by assumption.
    reflexivity. }
  unfold TDF_ParseOneVariableName, render_name.
  (* the spaces *)
  rewrite remove_char_free.
  2:{ rewrite has_char_app, Hbody by (first [assumption|reflexivity|discriminate]).
      destruct functionName as [f|]; [|reflexivity].
      cbn [default from_option id] in Hfn. cbn [has_char]. rewrite Hfn. reflexivity. }
  (* the function *)
  assert (Hfun :
    (if has_char VARIABLE_FUNCTION_MARKER
          ((stem +:+ render_offsets o) +:+
           match functionName with
           | Some f => String VARIABLE_FUNCTION_MARKER f
           | None => ""
           end)
     then let '(before, after) :=
            split_once VARIABLE_FUNCTION_MARKER
              ((stem +:+ render_offsets o) +:+
               match functionName with
               | Some f => String VARIABLE_FUNCTION_MARKER f
               | None => ""
               end) in
          (before, default "" after)
     else ((stem +:+ render_offsets o) +:+
           match functionName with
           | Some f => String VARIABLE_FUNCTION_MARKER f
           | None => ""
           end, ""))
    = (stem +:+ render_offsets o, default "" functionName)).
  { assert (Hfree : has_char VARIABLE_FUNCTION_MARKER (stem +:+ render_offsets o) = false)
      by (apply Hbody; first [assumption|reflexivity|discriminate]).
    destruct functionName as [f|].
    - rewrite has_char_app, has_char_here, orb_true_r.
      rewrite split_once_app by exact Hfree. reflexivity.
    - rewrite !app_empty_r, Hfree. reflexivity. }
  rewrite Hfun. clear Hfun.
  (* the offsets *)
  destruct o as [|m n|m a b]; cbn [render_offsets offsets_start offsets_stop offsets_option].
  - rewrite app_empty_r, Hbr. reflexivity.
  - replace (stem +:+ "[" +:+ (if m then "@" else "") +:+ py_str n +:+ "]")
      with (stem +:+ String VARIABLE_START_OFFSET_MARKER
              (((if m then "@" else "") +:+ py_str n)
               +:+ String VARIABLE_STOP_OFFSET_MARKER "")).
    2:{ destruct m; reflexivity. }
    rewrite has_char_app, has_char_here, orb_true_r.
    rewrite split_once_app by exact Hbr. cbn [default from_option id].
    rewrite split_once_app.
    2:{ rewrite has_char_app, Hmark, py_str_free_of by (first [reflexivity|discriminate]).
        reflexivity. }
    cbn [fst]. destruct m.
    + rewrite app_cons, app_empty_l.
      change (Ascii.eqb "@" VARIABLE_RANGE_LAST_MATCH_MARKER) with true. cbv iota.
      rewrite parse_offsets_one. reflexivity.
    + rewrite app_empty_l. destruct (py_str_cons n) as (x & rest & E & Hx).
      rewrite E. destruct (Ascii.eqb_spec x VARIABLE_RANGE_LAST_MATCH_MARKER) as [->|_];
        [discriminate Hx|].
      rewrite <- E, parse_offsets_one. reflexivity.
  - replace (stem +:+ "[" +:+ (if m then "@" else "") +:+ py_str a +:+ ":" +:+ py_str b
             +:+ "]")
      with (stem +:+ String VARIABLE_START_OFFSET_MARKER
              (((if m then "@" else "") +:+ py_str a +:+ ":" +:+ py_str b)
               +:+ String VARIABLE_STOP_OFFSET_MARKER "")).
    2:{ rewrite !app_assoc_str. reflexivity. }
    rewrite has_char_app, has_char_here, orb_true_r.
    rewrite split_once_app by exact Hbr. cbn [default from_option id].
    rewrite split_once_app.
    2:{ rewrite !has_char_app, Hmark, !py_str_free_of by (first [reflexivity|discriminate]).
        reflexivity. }
    cbn [fst]. destruct m.
    + rewrite app_cons, app_empty_l.
      change (Ascii.eqb "@" VARIABLE_RANGE_LAST_MATCH_MARKER) with true. cbv iota.
      rewrite parse_offsets_range. reflexivity.
    + rewrite app_empty_l. destruct (py_str_cons a) as (x & rest & E & Hx).
      rewrite E, app_cons. destruct (Ascii.eqb_spec x VARIABLE_RANGE_LAST_MATCH_MARKER) as [->|_];
        [discriminate Hx|].
      rewrite <- app_cons, <- E, parse_offsets_range. reflexivity.
Qed.

End Table.

Lemma TDF_ParseOneVariableName_reads_reference_back_witness :
  render_name "Cr" (DayRange true (-3) 0) (Some "delta") = "Cr[@-3:0].delta"
  /\ TDF_ParseOneVariableName lab_table_excerpt "Cr[@-3:0].delta"
     = Some (mkParsedName (lab_table_excerpt !! "Cr") "Cr" (-3) 0
               VARIABLE_RANGE_LAST_MATCH "delta").
Proof.
  split; [vm_compute; reflexivity|].
  exact (TDF_ParseOneVariableName_reads_reference_back lab_table_excerpt
           "Cr" (DayRange true (-3) 0) (Some "delta") eq_refl eq_refl eq_refl eq_refl).
Defined.

End VariableNameFacts.

Module RawValuesFacts.
Import TimeFunctions LabValues Query VariableName RawValues VariableNameFacts.

Section Reader.
Variable g_LabValueInfo : gmap string LabInfo.
Variable CompiledTimeline : list TimelineEntry.

(** A plain name of the table is parsed to itself, and has no function to
    create. *)
Lemma prepare_plain_name (valueName : string) (labInfo : LabInfo) :
  has_char " " valueName = false ->
  has_char VARIABLE_FUNCTION_MARKER valueName = false ->
  has_char VARIABLE_START_OFFSET_MARKER valueName = false ->
  valueName <> "" ->
  g_LabValueInfo !! valueName = Some labInfo ->
  prepare g_LabValueInfo valueName = Returns (Some labInfo).
Proof.
  intros Hsp Hdot Hbr Hne Hl. unfold prepare, TDF_ParseOneVariableName.
  rewrite (remove_char_free _ _ Hsp), Hdot, Hbr. cbn [mbind option_bind fst snd].
  replace (String.eqb valueName "") with false
    by (symmetry; apply String.eqb_neq; exact Hne).
  cbn [negb pn_labInfo pn_functionName]. rewrite Hl. reflexivity.
Qed.

Lemma clip_range (labInfo : LabInfo) (v : Q) :
  (minVal labInfo <= maxVal labInfo)%Q ->
  (minVal labInfo <= clip labInfo v <= maxVal labInfo)%Q.
Proof.
  intros Hmm. unfold clip, Qgtb.
  destruct (Qltb v (minVal labInfo)) eqn:E1.
  - replace (Qltb (maxVal labInfo) (minVal labInfo)) with false
      by (symmetry; apply Qltb_ge; exact Hmm).
    split; [apply Qle_refl|exact Hmm].
  - apply Qltb_ge in E1. destruct (Qltb (maxVal labInfo) v) eqn:E2.
    + split; [exact Hmm|apply Qle_refl].
    + apply Qltb_ge in E2. split; assumption.
Qed.

Lemma items_between_cons labInfo valueName firstDay lastDay e entries :
  items_between labInfo valueName firstDay lastDay (e :: entries)
  = match (if (firstDay <=? TimeDays e) && (TimeDays e <=? lastDay)
           then (fun v => mkItem (TimeDays e) (clip labInfo v)) <$> usable_value valueName e
           else None) with
    | Some item => item :: items_between labInfo valueName firstDay lastDay entries
    | None => items_between labInfo valueName firstDay lastDay entries
    end.
Proof. reflexivity. Qed.

Lemma raw_items_cons valueName e entries :
  raw_items valueName (e :: entries)
  = match mkItem (TimeDays e) <$> usable_value valueName e with
    | Some item => item :: raw_items valueName entries
    | None => raw_items valueName entries
    end.
Proof. reflexivity. Qed.

Lemma between_loop_sorted labInfo valueName firstDay lastDay fOnlyOneValuePerDay :
  forall entries foundPrevValues prevDayNum,
    StronglySorted Z.lt (map TimeDays entries) ->
    (foundPrevValues = true -> Forall (fun e => prevDayNum < TimeDays e) entries) ->
    between_loop labInfo valueName firstDay lastDay fOnlyOneValuePerDay entries
      foundPrevValues prevDayNum
    = items_between labInfo valueName firstDay lastDay entries.
Proof.
  induction entries as [|e entries IH]; intros found prev Hs Hprev; [reflexivity|].
  cbn [map] in Hs. apply StronglySorted_inv in Hs as [Hs Hlater].
  assert (Hafter : Forall (fun e' => TimeDays e < TimeDays e') entries).
  { rewrite Forall_forall. intros e' He'. rewrite Forall_forall in Hlater.
    apply Hlater. apply list_elem_of_fmap. exists e'. auto. }
  cbn [between_loop]. rewrite items_between_cons.
  destruct (Z.ltb_spec (TimeDays e) firstDay) as [Hlo|Hlo].
  { replace (firstDay <=? TimeDays e) with false by lia. cbn [andb].
    apply IH; [exact Hs|]. intros Hf. specialize (Hprev Hf).
    apply Forall_cons in Hprev as [_ Hprev]. exact Hprev. }
  replace (firstDay <=? TimeDays e) with true by lia. cbn [andb].
  destruct (Z.ltb_spec lastDay (TimeDays e)) as [Hhi|Hhi].
  { replace (TimeDays e <=? lastDay) with false by lia.
    symmetry. clear IH Hs Hlater Hprev.
    induction entries as [|e' entries IH]; [reflexivity|].
    apply Forall_cons in Hafter as [He' Hafter]. rewrite items_between_cons.
    replace (TimeDays e' <=? lastDay) with false by lia.
    rewrite andb_false_r. apply IH. exact Hafter. }
  replace (TimeDays e <=? lastDay) with true by lia.
  replace (fOnlyOneValuePerDay && found && (prev =? TimeDays e)) with false.
  2:{ symmetry. destruct found; [|apply andb_false_iff; left; apply andb_false_r].
      specialize (Hprev eq_refl). apply Forall_cons in Hprev as [Hp _].
      apply andb_false_iff. right. lia. }
  unfold usable_value.
  destruct (data e !! valueName) as [v|]; [destruct (unusable v)|]; cbn [fmap option_fmap option_map];
    try (f_equal); apply IH; try exact Hs; intros _; exact Hafter.
Qed.

Lemma raw_loop_sorted valueName fOnlyOneValuePerDay :
  forall entries prevDayNum,
    StronglySorted Z.lt (map TimeDays entries) ->
    Forall (fun e => prevDayNum < TimeDays e) entries ->
    raw_loop valueName fOnlyOneValuePerDay entries prevDayNum
    = raw_items valueName entries.
Proof.
  induction entries as [|e entries IH]; intros prev Hs Hprev; [reflexivity|].
  cbn [map] in Hs. apply StronglySorted_inv in Hs as [Hs Hlater].
  assert (Hafter : Forall (fun e' => TimeDays e < TimeDays e') entries).
  { rewrite Forall_forall. intros e' He'. rewrite Forall_forall in Hlater.
    apply Hlater. apply list_elem_of_fmap. exists e'. auto. }
  apply Forall_cons in Hprev as [Hp _].
  cbn [raw_loop]. rewrite raw_items_cons.
  replace (prev =? TimeDays e) with false by lia. rewrite andb_false_r.
  unfold usable_value.
  destruct (data e !! valueName) as [v|]; [destruct (unusable v)|]; cbn [fmap option_fmap option_map];
    try (f_equal); apply IH; assumption.
Qed.

(** GetValuesBetweenDays for a plain variable name of the table, on a
    timeline whose days strictly increase: it returns, in timeline order
    and each with its day, the usable values of the variable on the days
    from firstDay to lastDay, clipped to the range of the variable; so
    every item has a day within the two bounds and, when minVal is at most
    maxVal, a value within the variable's range. *)
Theorem GetValuesBetweenDays_returns_clipped_values_of_the_days
    (valueName : string) (labInfo : LabInfo) (firstDay lastDay : Z)
    (fOnlyOneValuePerDay : bool) :
  has_char " " valueName = false ->
  has_char VARIABLE_FUNCTION_MARKER valueName = false ->
  has_char VARIABLE_START_OFFSET_MARKER valueName = false ->
  valueName <> "" ->
  g_LabValueInfo !! valueName = Some labInfo ->
  StronglySorted Z.lt (map TimeDays CompiledTimeline) ->
  GetValuesBetweenDays g_LabValueInfo CompiledTimeline valueName firstDay lastDay
    fOnlyOneValuePerDay
  = Returns (items_between labInfo valueName firstDay lastDay CompiledTimeline)
  /\ Forall (fun item =>
               firstDay <= Day item <= lastDay
               /\ ((minVal labInfo <= maxVal labInfo)%Q ->
                   (minVal labInfo <= Val item <= maxVal labInfo)%Q))
        (items_between labInfo valueName firstDay lastDay CompiledTimeline).
Proof.
  intros Hsp Hdot Hbr Hne Hl Hs. split.
  - unfold GetValuesBetweenDays.
    rewrite (prepare_plain_name valueName labInfo Hsp Hdot Hbr Hne Hl).
    f_equal. apply between_loop_sorted; [exact Hs|discriminate].
  - clear Hs. rewrite Forall_forall. intros item Hin. unfold items_between in Hin.
    apply list_elem_of_omap in Hin as (e & _ & He).
    destruct (Z.leb_spec firstDay (TimeDays e)) as [Hlo|]; [|discriminate].
    destruct (Z.leb_spec (TimeDays e) lastDay) as [Hhi|]; [|discriminate].
    cbn [andb] in He. destruct (usable_value valueName e) as [v|]; [|discriminate].
    injection He as <-. cbn [Day Val]. split; [lia|]. apply clip_range.
Qed.

(** GetRawValues for a plain variable name of the table, on a timeline
    whose days strictly increase and are not negative: it returns, in
    timeline order and each with its day, exactly the usable values of the
    variable: those that are neither TDF_INVALID_VALUE nor at most
    TDF_SMALLEST_VALID_VALUE. *)
Theorem GetRawValues_returns_the_usable_values
    (valueName : string) (labInfo : LabInfo) (fOnlyOneValuePerDay : bool) :
  has_char " " valueName = false ->
  has_char VARIABLE_FUNCTION_MARKER valueName = false ->
  has_char VARIABLE_START_OFFSET_MARKER valueName = false ->
  valueName <> "" ->
  g_LabValueInfo !! valueName = Some labInfo ->
  StronglySorted Z.lt (map TimeDays CompiledTimeline) ->
  Forall (fun e => 0 <= TimeDays e) CompiledTimeline ->
  GetRawValues g_LabValueInfo CompiledTimeline valueName fOnlyOneValuePerDay
  = Returns (raw_items valueName CompiledTimeline).
Proof.
  intros Hsp Hdot Hbr Hne Hl Hs Hpos. unfold GetRawValues.
  rewrite (prepare_plain_name valueName labInfo Hsp Hdot Hbr Hne Hl).
  f_equal. apply raw_loop_sorted; [exact Hs|].
  eapply Forall_impl; [exact Hpos|]. intros e He. cbv beta in *. lia.
Qed.

End Reader.

Lemma GetValuesBetweenDays_returns_clipped_values_of_the_days_witness :
  GetValuesBetweenDays lab_table_excerpt cr_timeline "Cr" 101 120 true
  = Returns [mkItem 103 6; mkItem 120 2]
  /\ Forall (fun item => 101 <= Day item <= 120 /\ (((1 # 2) <= 6)%Q ->
                          (1 # 2 <= Val item <= 6)%Q))
       [mkItem 103 6; mkItem 120 2].
Proof.
  assert (Hs : StronglySorted Z.lt (map TimeDays cr_timeline))
    by (cbn; repeat constructor; lia).
  assert (Hne : "Cr" <> "") by discriminate.
  assert (Hl : lab_table_excerpt !! "Cr"
               = Some (mkLabInfo (1 # 2) 6 TDF_DATA_TYPE_FLOAT "" false ""))
    by (vm_compute; reflexivity).
  exact (GetValuesBetweenDays_returns_clipped_values_of_the_days lab_table_excerpt
           cr_timeline "Cr" _ 101 120 true eq_refl eq_refl eq_refl Hne Hl Hs).
Defined.

Lemma GetRawValues_returns_the_usable_values_witness :
  GetRawValues lab_table_excerpt cr_timeline "Cr" true
  = Returns [mkItem 100 1; mkItem 103 9; mkItem 120 2].
Proof.
  assert (Hs : StronglySorted Z.lt (map TimeDays cr_timeline))
    by (cbn; repeat constructor; lia).
  assert (Hpos : Forall (fun e => 0 <= TimeDays e) cr_timeline)
    by (repeat constructor; cbn; lia).
  assert (Hne : "Cr" <> "") by discriminate.
  assert (Hl : lab_table_excerpt !! "Cr"
               = Some (mkLabInfo (1 # 2) 6 TDF_DATA_TYPE_FLOAT "" false ""))
    by (vm_compute; reflexivity).
  exact (GetRawValues_returns_the_usable_values lab_table_excerpt cr_timeline "Cr" _ true
           eq_refl eq_refl eq_refl Hne Hl Hs Hpos).
Defined.

End RawValuesFacts.

Module SeriesFacts.
Import TimeFunctions Windows Series.





End SeriesFacts.

Module VariableListFacts.
Import TimeFunctions LabValues TimeStamp VariableName RawValues VariableList.
Import TimeStampFacts VariableNameFacts.

Section Table.
Variable g_LabValueInfo : gmap string LabInfo.

Lemma parsed_labInfo valueName parsed :
  TDF_ParseOneVariableName g_LabValueInfo valueName = Some parsed ->
  pn_labInfo parsed = table_entry g_LabValueInfo (pn_valueName parsed).
Proof.
  unfold TDF_ParseOneVariableName, table_entry. intros H.
  destruct (if has_char VARIABLE_FUNCTION_MARKER _ then _ else _) as [name fn].
  destruct (if has_char VARIABLE_START_OFFSET_MARKER name then _ else _)
    as [[[name' offs] opt]|]; [|discriminate].
  cbn in H. injection H as <-. reflexivity.
Qed.

Lemma parse_all_spec (names : list string) (entries : list VarEntry) :
  parse_all g_LabValueInfo names = Returns entries ->
  known g_LabValueInfo entries
  /\ Forall2 (fun valueName entry =>
                exists parsed,
                  TDF_ParseOneVariableName g_LabValueInfo valueName = Some parsed
                  /\ entry = entry_of_parsed parsed)
       names entries.
Proof.
  revert entries. induction names as [|valueName names IH]; intros entries H.
  - injection H as <-. split; constructor.
  - cbn [parse_all] in H.
    destruct (TDF_ParseOneVariableName g_LabValueInfo valueName) as [parsed|] eqn:Ep;
      [|discriminate].
    destruct (parse_all g_LabValueInfo names) as [rest|]; [|discriminate].
    injection H as <-. destruct (IH rest eq_refl) as [Hk Hf]. split.
    + constructor; [|exact Hk]. cbn. apply (parsed_labInfo valueName). exact Ep.
    + constructor; [|exact Hf]. eauto.
Qed.

Lemma name_set_snoc (entries : list VarEntry) (entry : VarEntry) :
  name_set (entries ++ [entry]) = name_set entries ∪ {[ve_name entry]}.
Proof.
  unfold name_set. rewrite map_app. cbn [map].
  change (map ve_name entries ++ [ve_name entry])
    with ((ve_name <$> entries) ++ [ve_name entry]).
  rewrite list_to_set_app_L. cbn [list_to_set foldr]. rewrite union_empty_r_L.
  reflexivity.
Qed.

Lemma elem_of_name_set (entries : list VarEntry) (stem : string) :
  stem ∈ name_set entries <-> stem ∈ map ve_name entries.
Proof. unfold name_set. apply elem_of_list_to_set. Qed.

(** The dependencies appended to the list: the list only grows, by names
    that were not in it, and every dependency is in it afterwards. *)
Lemma add_dependencies_spec (U : gset string) (variableNameList : list string) :
  forall entries entries',
    known g_LabValueInfo entries ->
    (forall nameStr parsed, nameStr ∈ variableNameList ->
       TDF_ParseOneVariableName g_LabValueInfo nameStr = Some parsed ->
       pn_valueName parsed <> "" -> pn_valueName parsed ∈ U) ->
    add_dependencies g_LabValueInfo variableNameList entries = Returns entries' ->
    known g_LabValueInfo entries'
    /\ (exists new, entries' = entries ++ new)
    /\ (forall nameStr, nameStr ∈ variableNameList ->
          exists parsed,
            TDF_ParseOneVariableName g_LabValueInfo nameStr = Some parsed
            /\ (pn_valueName parsed = "" \/ pn_valueName parsed ∈ map ve_name entries'))
    /\ (length entries' + size (U ∖ name_set entries')
        <= length entries + size (U ∖ name_set entries))%nat.
Proof.
  induction variableNameList as [|nameStr deps IH]; intros entries entries' Hk HU H.
  - injection H as <-. split; [exact Hk|]. split; [exists []; rewrite app_nil_r; reflexivity|].
    split; [intros x Hx; inversion Hx|lia].
  - cbn [add_dependencies] in H.
    destruct (TDF_ParseOneVariableName g_LabValueInfo nameStr) as [parsed|] eqn:Ep;
      [|discriminate].
    assert (HU' : forall nameStr0 parsed0, nameStr0 ∈ deps ->
              TDF_ParseOneVariableName g_LabValueInfo nameStr0 = Some parsed0 ->
              pn_valueName parsed0 <> "" -> pn_valueName parsed0 ∈ U).
    { intros n0 p0 Hn0. apply HU. apply elem_of_cons. right. exact Hn0. }
    destruct (String.eqb_spec (pn_valueName parsed) "") as [Hempty|Hne]; cbn [negb andb] in H.
    { destruct (IH entries entries' Hk HU' H) as (Hk' & Hnew & Hdeps & Hpot).
      split; [exact Hk'|]. split; [exact Hnew|]. split; [|exact Hpot].
      intros x Hx. apply elem_of_cons in Hx as [->|Hx]; [eauto|apply Hdeps; exact Hx]. }
    destruct (bool_decide (pn_valueName parsed ∈ map ve_name entries)) eqn:Ein; cbn [negb] in H.
    { apply bool_decide_eq_true in Ein.
      destruct (IH entries entries' Hk HU' H) as (Hk' & (new & ->) & Hdeps & Hpot).
      split; [exact Hk'|]. split; [eauto|]. split; [|exact Hpot].
      intros x Hx. apply elem_of_cons in Hx as [->|Hx]; [|apply Hdeps; exact Hx].
      exists parsed. split; [exact Ep|]. right. rewrite map_app.
      apply elem_of_app. left. exact Ein. }
    apply bool_decide_eq_false in Ein.
    assert (Hk1 : known g_LabValueInfo (entries ++ [entry_of_parsed parsed])).
    { apply Forall_app. split; [exact Hk|]. constructor; [|constructor].
      cbn. apply (parsed_labInfo nameStr). exact Ep. }
    destruct (IH _ entries' Hk1 HU' H) as (Hk' & (new & ->) & Hdeps & Hpot).
    split; [exact Hk'|]. split; [exists (entry_of_parsed parsed :: new); rewrite <- app_assoc; reflexivity|].
    split.
    + intros x Hx. apply elem_of_cons in Hx as [->|Hx]; [|apply Hdeps; exact Hx].
      exists parsed. split; [exact Ep|]. right. rewrite !map_app.
      apply elem_of_app. left. apply elem_of_app. right. cbn.
      apply list_elem_of_singleton. reflexivity.
    + rewrite name_set_snoc in Hpot. cbn [entry_of_parsed ve_name] in Hpot.
      rewrite !length_app in Hpot |- *. cbn [length] in Hpot |- *.
      assert (HinU : pn_valueName parsed ∈ U)
        by (apply (HU nameStr parsed); [apply elem_of_cons; left; reflexivity|exact Ep|exact Hne]).
      assert (Hnotin : pn_valueName parsed ∉ name_set entries)
        by (rewrite elem_of_name_set; exact Ein).
      assert (Hsize : size (U ∖ name_set entries)
                      = S (size (U ∖ (name_set entries ∪ {[pn_valueName parsed]})))).
      { replace (U ∖ name_set entries)
          with ({[pn_valueName parsed]} ∪ (U ∖ (name_set entries ∪ {[pn_valueName parsed]}))).
        - rewrite size_union by (apply disjoint_singleton_l; set_unfold; tauto).
          rewrite size_singleton. reflexivity.
        - apply set_eq. intros x. set_unfold.
          destruct (decide (x = pn_valueName parsed)) as [->|]; tauto. }
      lia.
Qed.

Lemma dependency_stems_in_table (name : string) (labInfo : LabInfo) (stem : string) :
  g_LabValueInfo !! name = Some labInfo ->
  stem ∈ dependency_stems g_LabValueInfo labInfo ->
  stem ∈ all_dependency_stems g_LabValueInfo.
Proof.
  intros Hl Hs. unfold all_dependency_stems. apply elem_of_list_to_set.
  apply list_elem_of_In. apply in_concat.
  exists (dependency_stems g_LabValueInfo labInfo). split; [|apply list_elem_of_In; exact Hs].
  apply in_map_iff. exists (name, labInfo). split; [reflexivity|].
  apply list_elem_of_In. apply elem_of_map_to_list. exact Hl.
Qed.

Lemma elem_of_dependency_stems (labInfo : LabInfo) (stem : string) :
  stem ∈ dependency_stems g_LabValueInfo labInfo <->
  VariableDependencies labInfo <> ""
  /\ exists nameStr parsed,
       nameStr ∈ split ";" (VariableDependencies labInfo)
       /\ TDF_ParseOneVariableName g_LabValueInfo nameStr = Some parsed
       /\ pn_valueName parsed = stem.
Proof.
  unfold dependency_stems.
  destruct (String.eqb_spec (VariableDependencies labInfo) "") as [E|E].
  - split; [intros H; inversion H|intros [H _]; contradiction].
  - rewrite list_elem_of_omap. split.
    + intros (nameStr & Hin & Hp). split; [exact E|].
      destruct (TDF_ParseOneVariableName g_LabValueInfo nameStr) as [parsed|] eqn:Ep;
        [|discriminate].
      injection Hp as <-. eauto.
    + intros (_ & nameStr & parsed & Hin & Ep & <-). exists nameStr.
      split; [exact Hin|]. rewrite Ep. reflexivity.
Qed.

(** One iteration: the entry at the position becomes settled, the list
    keeps its entries (the one at the position gets its function) and
    grows by dependencies only. *)
Lemma visit_spec (index : nat) (entry : VarEntry) (entries entries' : list VarEntry) :
  known g_LabValueInfo entries ->
  entries !! index = Some entry ->
  visit g_LabValueInfo index entry entries = Returns entries' ->
  known g_LabValueInfo entries'
  /\ (exists entry' new,
        entries' = <[index := entry']> entries ++ new
        /\ same_reference entry entry'
        /\ settled g_LabValueInfo entries' entry')
  /\ (length entries' + size (all_dependency_stems g_LabValueInfo ∖ name_set entries')
      <= length entries + size (all_dependency_stems g_LabValueInfo ∖ name_set entries))%nat.
Proof.
  intros Hk Hi H. unfold visit in H.
  pose proof Hk as Hke. unfold known in Hke. rewrite Forall_lookup in Hke.
  specialize (Hke index entry Hi). cbv beta in Hke.
  destruct (ve_labInfo entry) as [labInfo|] eqn:El; [|discriminate].
  assert (Ht : g_LabValueInfo !! ve_name entry = Some labInfo).
  { unfold table_entry in Hke.
    destruct (negb (String.eqb (ve_name entry) "")); [congruence|discriminate]. }
  assert (Hstep : exists entry',
            ve_name entry' = ve_name entry /\ ve_labInfo entry' = ve_labInfo entry
            /\ ve_FunctionName entry' = ve_FunctionName entry
            /\ same_reference entry entry'
            /\ (ve_FunctionName entry' <> "" ->
                is_Some (ve_FunctionObject entry')
                /\ ve_FunctionObject entry'
                   = CreateTimeValueFunction (ve_FunctionName entry') (ve_name entry'))
            /\ (let variableNameListStr := VariableDependencies labInfo in
                if negb (String.eqb variableNameListStr "")
                then add_dependencies g_LabValueInfo (split ";" variableNameListStr)
                       (<[index := entry']> entries)
                else Returns (<[index := entry']> entries)) = Returns entries').
  { destruct (String.eqb_spec (ve_FunctionName entry) "") as [Ef|Ef]; cbn [negb] in H.
    - exists entry. rewrite list_insert_id by exact Hi.
      split; [reflexivity|]. split; [reflexivity|]. split; [reflexivity|].
      split; [repeat split|]. split; [intros Hne; contradiction|exact H].
    - destruct (CreateTimeValueFunction (ve_FunctionName entry) (ve_name entry))
        as [functionObject|] eqn:Ec; [|discriminate].
      exists (mkVarEntry (ve_name entry) (Some labInfo)
                (ve_OffsetStartRange entry) (ve_OffsetStopRange entry)
                (ve_OffsetRangeOption entry) (ve_FunctionName entry)
                (Some functionObject)).
      split; [|split; [|split; [|split; [|split; [|exact H]]]]]; cbn.
      + reflexivity.
      + symmetry. exact El.
      + reflexivity.
      + repeat split.
      + intros _. split; [eauto|symmetry; exact Ec]. }
  destruct Hstep as (entry' & Hn & Hli & Hfn & Hsame & Hfun & H').
  assert (Hk1 : known g_LabValueInfo (<[index := entry']> entries)).
  { unfold known. apply Forall_insert; [exact Hk|]. rewrite Hn, Hli, El. exact Hke. }
  assert (Hset : name_set (<[index := entry']> entries) = name_set entries).
  { unfold name_set. f_equal. change (map ve_name ?l) with (ve_name <$> l).
    rewrite list_fmap_insert, Hn. apply list_insert_id.
    rewrite list_lookup_fmap, Hi. reflexivity. }
  cbv zeta in H'.
  destruct (String.eqb_spec (VariableDependencies labInfo) "") as [Ed|Ed]; cbn [negb] in H'.
  - injection H' as <-. split; [exact Hk1|]. split.
    + exists entry', []. rewrite app_nil_r.
      split; [reflexivity|]. split; [exact Hsame|]. split; [|exact Hfun].
      exists labInfo. split; [congruence|]. split; [congruence|].
      intros stem Hs. apply elem_of_dependency_stems in Hs as [Hne _]. contradiction.
    + rewrite Hset, length_insert. lia.
  - destruct (add_dependencies_spec (all_dependency_stems g_LabValueInfo)
                (split ";" (VariableDependencies labInfo)) _ entries' Hk1)
      as (Hk' & (new & ->) & Hdeps & Hpot); [|exact H'|].
    { intros nameStr parsed Hin Ep Hne.
      apply (dependency_stems_in_table (ve_name entry) labInfo); [exact Ht|].
      apply elem_of_dependency_stems. split; [exact Ed|]. eauto. }
    split; [exact Hk'|]. split.
    + exists entry', new.
      split; [reflexivity|]. split; [exact Hsame|]. split; [|exact Hfun].
      exists labInfo. split; [congruence|]. split; [congruence|].
      intros stem Hs Hne. apply elem_of_dependency_stems in Hs
        as (_ & nameStr & parsed & Hin & Ep & <-).
      destruct (Hdeps nameStr Hin) as (parsed' & Ep' & [He|Hin']).
      * rewrite Ep in Ep'. injection Ep' as <-. contradiction.
      * rewrite Ep in Ep'. injection Ep' as <-. exact Hin'.
    + rewrite Hset, length_insert in Hpot. exact Hpot.
Qed.

Lemma settled_mono (entries entries' : list VarEntry) (entry : VarEntry) :
  settled g_LabValueInfo entries entry ->
  (forall stem, stem ∈ map ve_name entries -> stem ∈ map ve_name entries') ->
  settled g_LabValueInfo entries' entry.
Proof.
  intros [(labInfo & Hl & Ht & Hdeps) Hfun] Hsub. split; [|exact Hfun].
  exists labInfo. split; [exact Hl|]. split; [exact Ht|].
  intros stem Hs Hne. apply Hsub, Hdeps; assumption.
Qed.

(** The loop, when it ends: every entry is settled, and the entries it
    started from are still there, in their places. *)
Lemma pull_dependencies_spec (fuel : nat) : forall (index : nat) (entries final : list VarEntry),
  known g_LabValueInfo entries ->
  (forall i entry, (i < index)%nat -> entries !! i = Some entry ->
     settled g_LabValueInfo entries entry) ->
  pull_dependencies g_LabValueInfo fuel index entries = Some (Returns final) ->
  Forall (settled g_LabValueInfo final) final
  /\ forall i entry, entries !! i = Some entry ->
       exists entry', final !! i = Some entry' /\ same_reference entry entry'.
Proof.
  induction fuel as [|fuel IH]; intros index entries final Hk Hdone H.
  - cbn [pull_dependencies] in H.
    destruct (entries !! index) as [entry|] eqn:Ei; [discriminate|].
    injection H as <-. split.
    + rewrite Forall_lookup. intros i entry Hi. apply (Hdone i entry); [|exact Hi].
      apply lookup_ge_None in Ei. apply lookup_lt_Some in Hi. lia.
    + intros i entry Hi. exists entry. split; [exact Hi|]. repeat split.
  - cbn [pull_dependencies] in H.
    destruct (entries !! index) as [entry|] eqn:Ei.
    2:{ injection H as <-. split.
        + rewrite Forall_lookup. intros i entry Hi. apply (Hdone i entry); [|exact Hi].
          apply lookup_ge_None in Ei. apply lookup_lt_Some in Hi. lia.
        + intros i entry Hi. exists entry. split; [exact Hi|]. repeat split. }
    destruct (visit g_LabValueInfo index entry entries) as [entries1|] eqn:Ev; [|discriminate].
    destruct (visit_spec index entry entries entries1 Hk Ei Ev)
      as (Hk1 & (entry' & new & -> & Hsame & Hsettled) & _).
    pose proof (lookup_lt_Some _ _ _ Ei) as Hlt.
    assert (Hnames : forall stem, stem ∈ map ve_name entries ->
              stem ∈ map ve_name (<[index := entry']> entries ++ new)).
    { intros stem Hs. rewrite map_app. apply elem_of_app. left.
      change (map ve_name ?l) with (ve_name <$> l) in *.
      rewrite list_fmap_insert. destruct Hsame as (Hn & _). rewrite Hn.
      rewrite list_insert_id; [exact Hs|]. rewrite list_lookup_fmap, Ei. reflexivity. }
    destruct (IH (index + 1)%nat _ final Hk1) as (Hall & Hkeep); [|exact H|].
    { intros i e Hi Hl. destruct (decide (i = index)) as [->|Hne].
      - rewrite lookup_app_l in Hl by (rewrite length_insert; exact Hlt).
        rewrite list_lookup_insert_eq in Hl by exact Hlt. injection Hl as <-. exact Hsettled.
      - rewrite lookup_app_l in Hl by (rewrite length_insert; lia).
        rewrite list_lookup_insert_ne in Hl by congruence.
        apply (settled_mono entries); [|exact Hnames].
        apply (Hdone i e); [lia|exact Hl]. }
    split; [exact Hall|].
    intros i e Hi. pose proof (lookup_lt_Some _ _ _ Hi) as Hilt.
    destruct (decide (i = index)) as [->|Hne].
    + rewrite Ei in Hi. injection Hi as <-.
      destruct (Hkeep index entry') as (e'' & Hf & Hs'').
      { rewrite lookup_app_l by (rewrite length_insert; exact Hlt).
        apply list_lookup_insert_eq. exact Hlt. }
      exists e''. split; [exact Hf|].
      destruct Hsame as (A1 & A2 & A3 & A4 & A5), Hs'' as (B1 & B2 & B3 & B4 & B5).
      repeat split; congruence.
    + apply (Hkeep i e). rewrite lookup_app_l by (rewrite length_insert; exact Hilt).
      rewrite list_lookup_insert_ne by congruence. exact Hi.
Qed.

(** The loop ends: every iteration either moves on in the list without
    growing it, or grows it by names of the table's dependencies that were
    not in it. *)
Lemma pull_dependencies_ends (fuel : nat) : forall (index : nat) (entries : list VarEntry),
  known g_LabValueInfo entries ->
  (length entries - index
   + size (all_dependency_stems g_LabValueInfo ∖ name_set entries) <= fuel)%nat ->
  pull_dependencies g_LabValueInfo fuel index entries <> None.
Proof.
  induction fuel as [|fuel IH]; intros index entries Hk Hfuel.
  - cbn [pull_dependencies]. destruct (entries !! index) as [entry|] eqn:Ei; [|discriminate].
    apply lookup_lt_Some in Ei. lia.
  - cbn [pull_dependencies]. destruct (entries !! index) as [entry|] eqn:Ei; [|discriminate].
    destruct (visit g_LabValueInfo index entry entries) as [entries1|] eqn:Ev; [|discriminate].
    destruct (visit_spec index entry entries entries1 Hk Ei Ev)
      as (Hk1 & (entry' & new & E & _) & Hpot).
    apply IH; [exact Hk1|]. apply lookup_lt_Some in Ei.
    assert (length entries <= length entries1)%nat
      by (rewrite E, length_app, length_insert; lia).
    lia.
Qed.

(** ParseVariableList ends, and when it returns every variable of the list
    is settled: it is in the table, with its table entry beside it; every
    variable that it depends on is in the list; and its function, if the
    reference names one, has been created.  The first numInputValues
    entries are the input references in their order, each with its stem,
    offsets and function name as TDF_ParseOneVariableName reads them. *)
Theorem ParseVariableList_settles_every_variable
    (inputNameListStr : string) (resultValueName : option string)
    (requirePropertyNameList : option (list string)) :
  (exists enough, forall fuel, (enough <= fuel)%nat ->
     ParseVariableList g_LabValueInfo fuel inputNameListStr resultValueName
       requirePropertyNameList <> None)
  /\ forall fuel variables,
       ParseVariableList g_LabValueInfo fuel inputNameListStr resultValueName
         requirePropertyNameList = Some (Returns variables) ->
       Forall (settled g_LabValueInfo (allValues variables)) (allValues variables)
       /\ numInputValues variables = length (split VARIABLE_LIST_SEPARATOR inputNameListStr)
       /\ Forall2 (fun valueName entry =>
                     exists parsed,
                       TDF_ParseOneVariableName g_LabValueInfo valueName = Some parsed
                       /\ same_reference (entry_of_parsed parsed) entry)
            (split VARIABLE_LIST_SEPARATOR inputNameListStr)
            (take (numInputValues variables) (allValues variables)).
Proof.
  unfold ParseVariableList.
  set (inputs := split VARIABLE_LIST_SEPARATOR inputNameListStr).
  destruct (match resultValueName with
            | Some name => _
            | None => _
            end) as [[rInfo rName]|why]; [|split; [exists 0%nat; intros; discriminate|intros; discriminate]].
  set (names := (if negb (String.eqb rName "") then inputs ++ [rName] else inputs)
                ++ default [] requirePropertyNameList).
  assert (Hprefix : exists rest, names = inputs ++ rest).
  { unfold names. destruct (negb _); [rewrite <- app_assoc|]; eauto. }
  destruct (parse_all g_LabValueInfo names) as [entries|why] eqn:Ep;
    [|split; [exists 0%nat; intros; discriminate|intros; discriminate]].
  destruct (parse_all_spec names entries Ep) as [Hk Hparsed].
  split.
  - exists (length entries + size (all_dependency_stems g_LabValueInfo ∖ name_set entries))%nat.
    intros fuel Hfuel.
    pose proof (pull_dependencies_ends fuel 0 entries Hk ltac:(lia)) as Hends.
    destruct (pull_dependencies g_LabValueInfo fuel 0 entries) as [[final|why]|];
      [discriminate|discriminate|contradiction].
  - intros fuel variables H.
    destruct (pull_dependencies g_LabValueInfo fuel 0 entries) as [[final|why]|] eqn:Epull;
      try discriminate.
    injection H as <-. cbn [allValues numInputValues].
    destruct (pull_dependencies_spec fuel 0 entries final Hk) as [Hall Hkeep];
      [intros; lia|exact Epull|].
    split; [exact Hall|]. split; [reflexivity|].
    destruct Hprefix as [rest Hnames]. rewrite Hnames in Hparsed.
    apply Forall2_app_inv_l in Hparsed as (e1 & e2 & H1 & _ & ->).
    pose proof (Forall2_length _ _ _ H1) as Hlen.
    apply Forall2_same_length_lookup_2.
    { rewrite length_take. 
      assert (length (e1 ++ e2) <= length final)%nat.
      { destruct (decide (length (e1 ++ e2) <= length final)%nat) as [|Hn]; [assumption|].
        exfalso. destruct (e1 ++ e2) as [|x l] eqn:El using rev_ind; [cbn in Hn; lia|].
        clear IHl. destruct (Hkeep (length l) x) as (x' & Hx' & _).
        { rewrite lookup_app_r by lia. rewrite Nat.sub_diag. reflexivity. }
        apply lookup_lt_Some in Hx'. rewrite length_app in Hn. cbn in Hn. lia. }
      rewrite length_app in H. lia. }
    intros i valueName entry Hv He.
    apply lookup_take_Some in He as [He Hi].
    rewrite Forall2_lookup in H1. specialize (H1 i). rewrite Hv in H1.
    inversion H1 as [v0 e0 (parsed & Hp & ->) Ev Ee|]; subst.
    destruct (Hkeep i (entry_of_parsed parsed)) as (e' & He' & Hs).
    { rewrite lookup_app_l by (apply lookup_lt_is_Some; rewrite <- Ee; eauto).
      symmetry. exact Ee. }
    rewrite He in He'. injection He' as <-. eauto.
Qed.

End Table.

Lemma ParseVariableList_settles_every_variable_witness :
  exists variables,
    ParseVariableList lab_table_excerpt 10 "InAKI;Cr[-3].delta" None None
    = Some (Returns variables)
    /\ map ve_name (allValues variables) = ["InAKI"; "Cr"; "BaselineCr"]
    /\ Forall (settled lab_table_excerpt (allValues variables)) (allValues variables).
Proof.
  destruct (ParseVariableList lab_table_excerpt 10 "InAKI;Cr[-3].delta" None None)
    as [[variables|why]|] eqn:E; try (vm_compute in E; discriminate E).
  exists variables. split; [reflexivity|]. split.
  - vm_compute in E. injection E as <-. reflexivity.
  - exact (proj1 (proj2 (ParseVariableList_settles_every_variable lab_table_excerpt
                           "InAKI;Cr[-3].delta" None None) 10%nat variables E)).
Defined.

End VariableListFacts.
